(* ===== verification/_CoqProject ===== *)
-Q . S2P
Prelude.v
Float64.v
QuicGo.v
RingBuffer.v
WindowedFilter.v
PacketQueue.v
Pacer.v
Sampler.v
SamplerSpec.v
SamplerSamples.v
Bbr.v
BbrFacts.v
BbrEvent.v
BbrSpec.v
BbrModes.v
BbrRates.v
GoIP.v
Dns.v
DnsSpec.v
Counting.v
CoreMgr.v
CoreMgrSpec.v
Frontend.v
FrontendSpec.v
GoText.v
FrontendConfig.v
FrontendConfigSpec.v
Splice.v
SpliceSpec.v
GoNet.v
GoNetFacts.v
Socks.v
SocksSpec.v
GoHttp.v
Relay.v
RelaySpec.v
GoTime.v
H3Config.v
H3ConfigSpec.v
Origin.v
GoBase64.v
OriginSpec.v
EntryMgr.v
EntryMgrSpec.v
GoUrl.v
GoUrlFacts.v
ClientConfig.v
ClientConfigSpec.v
ShareLink.v
ShareLinkSpec.v
SysProxy.v
SysProxySpec.v
Tun.v
TunSpec.v
App.v
AppCore.v
AppSpec.v
CoreLog.v
CoreLogSpec.v
CoreFiles.v
CoreFilesSpec.v
TunFlow.v
TunFlowSpec.v
TunDevice.v
TunDeviceSpec.v
H3Serve.v
H3ServeSpec.v
Float64Facts.v
Stats.v
StatsSpec.v
Qlog.v
GoFmt.v
View.v
ViewSpec.v
Tools.v
ToolsSpec.v
FrontendMain.v
FrontendMainSpec.v
RealityTest.v
RealityTestSpec.v
