(* ===== verification/Prelude.v ===== *)
(** * naive-reality: a model of the program and its correctness

    The repository holds three Go programs.  The _client_ (tui/) is a terminal program
    that runs a proxy core, opens SOCKS5 and HTTP listeners in front of it, and can
    take the system's proxy setting or all its traffic through a TUN device.  The
    _REALITY frontend_ (frontend/) and the _HTTP/3 frontend_ (h3frontend/) are two
    servers that authenticate a connection and relay the CONNECT requests that come
    on it to the naive proxy server behind them; the second brings its own BBR
    congestion controller to the QUIC library.  This development models the three
    of them: each Go function, handler or loop is a definition that computes, with
    its guards, early returns and errors, and the theorems are about those.

    ** How code becomes definitions

    A Go int or int64 is a [Z], wrapped by [i64], [u64] and the like below wherever
    the code's arithmetic can leave the type; a float64 is computed by the IEEE
    operations of [Float64], each operation rounded by itself as amd64 does, with
    the conversions of floats out of range left to the parameter [Platform].  A call
    that can panic returns a [result]: [Ok], [Panic] or, for the loops that run on
    fuel, [OutOfFuel]; one that can also return an error returns a [fallible], whose
    [inl] is the error.  [returns m P] is total correctness.  The errors carry the
    fixed part of their message.  A struct is a record, updated with
    [r <| f := v |>]; a map or a set is a [gmap] or a [gset]; a slice is a list read
    and written through [slice_get], [slice_set], [slice_from], [slice_to], which
    panic as Go does; pointers into a shared buffer are indices into it.
    Goroutines, channels and mutexes are transition systems: one constructor of an
    [event] type for each critical section, atomic access or blocking call, a
    [step] that is [None] where the goroutine would wait, and [run] over any
    sequence of events, so a theorem about [run] is about every interleaving.
    Clocks, random numbers, sockets, the file system, and the answers of libraries
    are arguments, class methods or section variables.  What a theorem needs of
    them is a named law, and a concrete instance shows that the laws can hold.

    ** The congestion controller (h3frontend/internal/congestion)

    - [RingBuffer] (ringbuffer.go), [WindowedFilter] (windowed_filter.go),
      [PacketQueue] (packet_number_indexed_queue.go): the data structures.  They
      refine a queue, the maximum over a window (of the samples that were its best
      when they came), and a map from packet numbers.
    - [Pacer] (common/pacer.go): the budget never exceeds what the rate allows, and
      waiting until the deadline it gives makes the budget sufficient.
    - [Sampler] (bandwidth_sampler.go), with [SamplerSpec] and [SamplerSamples]: it
      never panics, and a sample is the smaller of the rates at which the bytes were
      sent and acknowledged; it is marked app-limited until the phase has ended.
    - [Bbr] (bbr_sender.go), with [BbrFacts] and [BbrEvent] for the invariant, and
      [BbrSpec], [BbrModes], [BbrRates]: no sequence of packets, acknowledgements and
      losses makes the sender panic or closes its window; its modes follow the state
      machine; PROBE_RTT lasts as long as it has to; the full bandwidth, once
      reached, stays so; rates and windows are within their bounds.
    - [QuicGo] is what the sender uses of the QUIC library and its clock, with the
      laws it relies on; [H3Config] has the choice of the controller (congestion.go).

    ** The HTTP/3 frontend (h3frontend/)

    - [H3Config] (config.go): defaults and validation.
    - [Origin] (origin.go): only the configured credentials open the proxy.
    - [Relay], module [H3Relay], and [Splice] (relay.go): the CONNECT handler and its
      tunnel.
    - [H3Serve] (main.go): the command line, the start of the listeners with the
      deferred closes, the accept loop with the goroutines beside it.  However it
      ends, nothing is left open; an accepted configuration is served as it says, and
      every connection by a BBR sender that satisfies the invariant of [BbrEvent].
    - [Qlog] (qlog_trace.go): which events of a connection are handed on, and that the
      buffered file holds all that was written once Close has returned nil.

    ** The REALITY frontend (frontend/)

    - [FrontendConfig] (config.go, reality.go): validation is total and idempotent,
      and what it accepts can be served.
    - [Frontend] (main.go, status.go): accept loop, connections, relay dials and
      counters as a transition system: the limits are exact, and no slot is lost.
    - [FrontendMain] (main.go, relay.go, status.go, config.go): the command line and
      the set-up, the choice between HTTP/2 and HTTP/1.1, the status page.
    - [Relay] and [Splice] (relay.go): the CONNECT handlers and their tunnels.
    - [Tools] (genkey.go, cert.go, tlsserve.go): the printed keys are accepted on
      both sides, and the keys written to files stay private.
    - [RealityTest] (internal/realitytest/realitytest.go): what the test client hides
      in its ClientHello is what its server reads.

    ** The client (tui/)

    - [ClientConfig] (internal/config), [ShareLink] (internal/sharelink): the profiles,
      their file, and the links they are shared by; Save is atomic and Parse undoes
      Build.
    - [CoreMgr] (internal/coremgr): Start, Stop and the goroutine that restarts the
      core: at most one goroutine supervises, and a stopped one is retired.
      [CoreLog] puts its channels and the writers of the output around it: the
      session receives the lines of the core in order, and logging holds nobody up.
      [CoreFiles] adds the file of the configuration: while a profile is served,
      every restart reads it.
    - [Socks], [EntryMgr], [Splice] (internal/entry): the SOCKS5 and HTTP listeners:
      the request that reaches the core is the one that was made, and a stopped
      manager has nothing open.
    - [Dns], [Tun], [TunDevice], [TunFlow] (internal/tun): the DNS codec is total and
      answers from the first endpoint with an address; the device leaves no adapter or
      stack behind, and no route but those to the excluded servers when the physical
      gateway has changed; a TCP flow ends when the device or either side does.
    - [SysProxy] (internal/sysproxy): over the class of registry operations; Restore
      undoes Enable.
    - [Stats] (internal/stats): the counters are exact and the rates numbers, under
      any interleaving of the calls.
    - [App] (app.go, app_tun_windows.go, main.go): the session, one message at a time:
      no message makes it panic, and after a disconnect nothing that it started is
      left.  It uses the core manager through the class [Core], whose laws [AppCore]
      proves of [CoreMgr]; the entry manager, the device and the system proxy are the
      models above.  [View] is the text it shows.

    ** How the parts interact

    [App] calls [CoreMgr], [EntryMgr], [Tun], [SysProxy], [ClientConfig] and
    [ShareLink], and receives from the channels of [CoreLog]; [CoreFiles] writes what
    [ShareLink] builds between the steps of [CoreMgr]; [Tun] uses [Dns]; [TunFlow]
    runs the goroutines of [Splice].  [H3Serve] starts what [H3Config] accepts and installs [Bbr] on each connection;
    [Bbr] calls [Sampler], [WindowedFilter], [Pacer]; [Sampler] keeps its packets in
    [PacketQueue], which is built on [RingBuffer].  [FrontendMain] starts what
    [FrontendConfig] accepts, within the limits of [Frontend].  [ToolsSpec] takes a
    key from [Tools] to [FrontendConfig] and [ShareLink].

    ** The Go library

    [GoIP], [GoText], [GoNet], [GoHttp], [GoUrl], [GoTime], [GoFmt] and [GoBase64]
    define what the programs use of net, strings, strconv, net/http, net/url,
    encoding and time; [GoNetFacts], [GoUrlFacts] and [Float64Facts] have their
    lemmas; [Counting] counts entries of a map.  A file named after a component with
    Spec at its end holds the theorems about it, and a module Demo their instances
    at concrete inputs.

    ** Fuel

    Loops that are not structural run on fuel given where they are called: the
    length of the packet for the names of [Dns] (each turn moves on by a byte), the
    number of entries for the loops of [PacketQueue] (each turn takes one out),
    the number of ack points for those of [Sampler], three turns for a write of
    [Qlog] (it fills the buffer at most once).  The theorems that the callers
    return include that the fuel is enough; the loops over text take the length of
    the text, or the 20 digits of an int64.

    ** Not modelled

    TLS, REALITY, QUIC, HTTP/2 framing, HTTP request parsing, the gVisor network stack,
    wintun, the terminal library and the cryptography: libraries whose results are
    arguments.  Of the repository's code: the lines the programs log about themselves;
    the constructors that only wrap a library type (the DNS-over-HTTPS client, the
    flushing writer); Dir and Path, which read the environment; the notification of
    other programs after a change of the proxy setting; the stubs for other systems
    than Windows; and the length of time that passes, which appears only as what a
    clock says.  The scripts and patches of the repository are not Go.

    This file holds what all the others use: the result monad, machine integers,
    slices, record update and the shared tactics. *)

From stdpp Require Export prelude strings.
From Stdlib Require Export ZArith Lia.

#[global] Open Scope Z_scope.

(** ** Go runtime failures and the result monad *)

(** Why a Go statement panics. *)
Inductive panic :=
  | IndexOutOfRange
  | NilDereference
  | DivideByZero
  | Explicit (msg : string).

(** Outcome of running a piece of Go code: it returns a value, it panics, or
    the fuel given to one of its loops ran out (proved not to happen). *)
Inductive result (A : Type) :=
  | Ok (a : A)
  | Panic (p : panic)
  | OutOfFuel.
Arguments Ok {A} a.
Arguments Panic {A} p.
Arguments OutOfFuel {A}.

#[export] Instance panic_eq_dec : EqDecision panic.
Proof. solve_decision. Defined.

#[export] Instance result_ret : MRet result := @Ok.

#[export] Instance result_bind : MBind result := fun A B f m =>
  match m with Ok a => f a | Panic p => Panic p | OutOfFuel => OutOfFuel end.

Lemma bind_ok_inv {A B} (m : result A) (f : A → result B) y :
  (m ≫= f) = Ok y → ∃ a, m = Ok a ∧ f a = Ok y.
Proof. destruct m; cbn; naive_solver. Qed.

Lemma bind_ok {A B} (a : A) (f : A → result B) : (Ok a ≫= f) = f a.
Proof. done. Qed.

(** [returns m P]: [m] neither panics nor diverges and its value satisfies [P].
    This is the total-correctness judgement of the development. *)
Definition returns {A} (m : result A) (P : A → Prop) : Prop :=
  ∃ a, m = Ok a ∧ P a.

Lemma returns_ok {A} (a : A) (P : A → Prop) : P a → returns (Ok a) P.
Proof. intros; by exists a. Qed.

Lemma returns_bind {A B} (m : result A) (f : A → result B) P Q :
  returns m P → (∀ a, P a → returns (f a) Q) → returns (m ≫= f) Q.
Proof. intros (a & -> & Ha) Hf. exact (Hf a Ha). Qed.

Lemma returns_mono {A} (m : result A) (P Q : A → Prop) :
  returns m P → (∀ a, P a → Q a) → returns m Q.
Proof. intros (a & -> & Ha) HPQ. exists a. auto. Qed.

(** A [for ... range l] loop over the loop state [s]. *)
Fixpoint foldM {S A} (f : S → A → result S) (l : list A) (s : S) : result S :=
  match l with
  | [] => Ok s
  | a :: l => s ← f s a; foldM f l s
  end.

(** Loop rule: an invariant kept by every iteration holds at the end. *)
Lemma foldM_invariant {S A} (I : S → Prop) (f : S → A → result S) l s :
  I s → (∀ s a, a ∈ l → I s → returns (f s a) I) → returns (foldM f l s) I.
Proof.
  revert s. induction l as [|a l IH]; intros s Hs Hf; cbn; [by apply returns_ok|].
  eapply returns_bind; [apply Hf; [by left|done]|].
  intros s' Hs'. apply IH; [done|]. intros. apply Hf; [by right|done].
Qed.

(** The same rule for a loop already known to return. *)
Lemma foldM_preserves {S A} (I : S → Prop) (f : S → A → result S) l s s' :
  foldM f l s = Ok s' → I s →
  (∀ s a s', a ∈ l → f s a = Ok s' → I s → I s') → I s'.
Proof.
  revert s. induction l as [|a l IH]; intros s Hrun Hs Hf; cbn in Hrun; [by injection Hrun as <-|].
  apply bind_ok_inv in Hrun as (s1 & H1 & Hrun).
  apply (IH s1 Hrun); [by eapply Hf; [left| |]|]. intros ??? Hin. by eapply Hf; right.
Qed.

(** ** Calls that can return an error *)

(** [inl e] is a non-nil error. *)
Abbreviation fallible A := (result (string + A)).

Definition fail {A} (e : string) : fallible A := Ok (inl e).
Definition ret {A} (a : A) : fallible A := Ok (inr a).

Definition try_bind {A B} (m : fallible A) (f : A → fallible B) : fallible B :=
  match m with
  | Ok (inr a) => f a
  | Ok (inl e) => Ok (inl e)
  | Panic p => Panic p
  | OutOfFuel => OutOfFuel
  end.

Notation "x ←? m ; k" := (try_bind m (λ x, k))
  (at level 20, m at level 100, k at level 200, only parsing).
Notation "' p ←? m ; k" := (try_bind m (λ x, match x with p => k end))
  (at level 20, p pattern, m at level 100, k at level 200, only parsing).

(** A total-correctness rule for calls that may return an error. *)
Definition ok_with {A} (P : A → Prop) (r : string + A) : Prop :=
  match r with inl _ => True | inr a => P a end.

Lemma try_returns {A B} (m : fallible A) (f : A → fallible B) P Q :
  returns m (ok_with P) → (∀ a, P a → returns (f a) (ok_with Q)) →
  returns (try_bind m f) (ok_with Q).
Proof.
  intros (r & -> & Hr) Hf. destruct r as [e|a]; cbn; [by apply returns_ok|by apply Hf].
Qed.

Create HintDb go discriminated.
Create Rewrite HintDb go_len.
#[export] Hint Resolve returns_ok : go.

(** ** Machine integers

    A Go integer is a [Z]; arithmetic that can leave the range of its type is
    wrapped explicitly where the code performs it. *)

Definition in_i64 (z : Z) : Prop := -9223372036854775808 <= z < 9223372036854775808.
Definition in_u64 (z : Z) : Prop := 0 <= z < 18446744073709551616.

Definition i64 (z : Z) : Z :=
  (z + 9223372036854775808) mod 18446744073709551616 - 9223372036854775808.
Definition u64 (z : Z) : Z := z mod 18446744073709551616.
Definition u32 (z : Z) : Z := z mod 4294967296.
Definition u16 (z : Z) : Z := z mod 65536.
Definition u8 (z : Z) : Z := z mod 256.

Lemma i64_in z : in_i64 (i64 z).
Proof.
  unfold in_i64, i64.
  pose proof (Z.mod_pos_bound (z + 9223372036854775808) 18446744073709551616). lia.
Qed.

Lemma u64_in z : in_u64 (u64 z).
Proof. unfold in_u64, u64. apply Z.mod_pos_bound. lia. Qed.

Lemma i64_id z : in_i64 z → i64 z = z.
Proof. unfold in_i64, i64. intros. rewrite Z.mod_small; lia. Qed.

Lemma u64_id z : in_u64 z → u64 z = z.
Proof. unfold in_u64, u64. intros. by rewrite Z.mod_small. Qed.

(** Two values of a 64-bit type with the same bit pattern are equal, so the
    difference of two distinct ones never wraps to zero. *)
Lemma u64_of_diff_nonzero a b : in_i64 a → in_i64 b → a ≠ b → u64 (i64 (a - b)) ≠ 0.
Proof.
  unfold in_i64, u64, i64. intros Ha Hb Hne.
  rewrite Zminus_mod_idemp_l.
  replace (a - b + 9223372036854775808 - 9223372036854775808) with (a - b) by lia.
  intros H. apply Z.mod_divide in H as [k Hk]; [|lia].
  assert (-1 < k < 1) by lia. lia.
Qed.

Lemma in_i64_max a b : in_i64 a → in_i64 b → in_i64 (Z.max a b).
Proof. unfold in_i64. lia. Qed.

Lemma in_i64_min a b : in_i64 a → in_i64 b → in_i64 (Z.min a b).
Proof. unfold in_i64. lia. Qed.

#[export] Hint Resolve i64_in u64_in in_i64_max in_i64_min : go.

(** Go's integer division truncates towards zero and panics on a zero divisor. *)
Definition quot_i64 (a b : Z) : result Z :=
  if b =? 0 then Panic DivideByZero else Ok (i64 (Z.quot a b)).
Definition quot_u64 (a b : Z) : result Z :=
  if b =? 0 then Panic DivideByZero else Ok (Z.quot a b).

Lemma quot_u64_ok a b : b ≠ 0 → quot_u64 a b = Ok (Z.quot a b).
Proof. unfold quot_u64. intros. by destruct (Z.eqb_spec b 0). Qed.

(** Durations, in nanoseconds. *)
Definition Millisecond : Z := 1000000.
Definition Second : Z := 1000000000.

(** ** Slices *)

(** The zero value of a type, [*new(T)] in the source. *)
Class Zero (T : Type) := zero : T.

#[export] Instance zero_Z : Zero Z := 0.
#[export] Instance zero_bool : Zero bool := false.

Definition len {A} (l : list A) : Z := Z.of_nat (length l).

Lemma len_nonneg {A} (l : list A) : 0 <= len l.
Proof. unfold len. lia. Qed.

Lemma len_app {A} (l k : list A) : len (l ++ k) = len l + len k.
Proof. unfold len. rewrite length_app. lia. Qed.

Lemma len_insert {A} (l : list A) i x : len (<[i:=x]> l) = len l.
Proof. unfold len. by rewrite length_insert. Qed.

Lemma len_cons {A} (x : A) l : len (x :: l) = len l + 1.
Proof. unfold len. cbn [length]. lia. Qed.

Lemma len_nil_inv {A} (l : list A) : len l = 0 → l = [].
Proof. unfold len. destruct l; [done|simpl; lia]. Qed.

#[export] Hint Rewrite @len_app @len_insert @length_insert @length_replicate @length_app : go_len.

(** [l[i]] *)
Definition slice_get {A} (l : list A) (i : Z) : result A :=
  if (0 <=? i) && (i <? len l) then
    match l !! Z.to_nat i with Some x => Ok x | None => Panic IndexOutOfRange end
  else Panic IndexOutOfRange.

(** [l[i] = x] *)
Definition slice_set {A} (l : list A) (i : Z) (x : A) : result (list A) :=
  if (0 <=? i) && (i <? len l) then Ok (<[Z.to_nat i := x]> l) else Panic IndexOutOfRange.

(** [l[i:]] and [l[:i]] *)
Definition slice_from {A} (l : list A) (i : Z) : result (list A) :=
  if (0 <=? i) && (i <=? len l) then Ok (drop (Z.to_nat i) l) else Panic IndexOutOfRange.
Definition slice_to {A} (l : list A) (i : Z) : result (list A) :=
  if (0 <=? i) && (i <=? len l) then Ok (take (Z.to_nat i) l) else Panic IndexOutOfRange.

(** [make([]T, n)] *)
Definition make_slice {A} `{!Zero A} (n : Z) : result (list A) :=
  if 0 <=? n then Ok (replicate (Z.to_nat n) zero) else Panic (Explicit "makeslice: len out of range").

(** The slice [dst] after [copy(dst, src)]; the call returns
    [min(len(dst), len(src))]. *)
Definition go_copy {A} (dst src : list A) : list A :=
  take (length dst) src ++ drop (length src) dst.

Lemma slice_get_ok {A} (l : list A) i x :
  0 <= i → l !! Z.to_nat i = Some x → slice_get l i = Ok x.
Proof.
  intros Hi Hx. unfold slice_get, len.
  pose proof (lookup_lt_Some _ _ _ Hx).
  replace ((0 <=? i) && (i <? Z.of_nat (length l))) with true by lia. by rewrite Hx.
Qed.

Lemma slice_get_inv {A} (l : list A) i x :
  slice_get l i = Ok x → 0 <= i ∧ l !! Z.to_nat i = Some x.
Proof.
  unfold slice_get. destruct (Z.leb_spec 0 i); cbn [andb]; [|done].
  destruct (i <? len l); [|done]. destruct (l !! Z.to_nat i); [|done]. by intros [= ->].
Qed.

Lemma slice_get_last {A} (l : list A) :
  l ≠ [] → returns (slice_get l (len l - 1)) (λ x, last l = Some x).
Proof.
  intros Hne. destruct (last l) as [x|] eqn:Hx; [|by apply last_None in Hx].
  exists x. split; [|done]. rewrite last_lookup in Hx.
  assert (0 < len l) by (destruct l; [done|rewrite len_cons; unfold len; lia]).
  apply slice_get_ok; [lia|]. rewrite <- Hx. f_equal. unfold len. lia.
Qed.

Lemma slice_set_ok {A} (l : list A) i x :
  0 <= i < len l → slice_set l i x = Ok (<[Z.to_nat i := x]> l).
Proof.
  intros Hi. unfold slice_set. by replace ((0 <=? i) && (i <? len l)) with true by lia.
Qed.

Lemma slice_from_ok {A} (l : list A) i :
  0 <= i <= len l → slice_from l i = Ok (drop (Z.to_nat i) l).
Proof.
  intros Hi. unfold slice_from. by replace ((0 <=? i) && (i <=? len l)) with true by lia.
Qed.

Lemma slice_to_ok {A} (l : list A) i :
  0 <= i <= len l → slice_to l i = Ok (take (Z.to_nat i) l).
Proof.
  intros Hi. unfold slice_to. by replace ((0 <=? i) && (i <=? len l)) with true by lia.
Qed.

(** Slices of a concatenation, cut where the parts meet. *)
Section slices_of_app.
Context {A : Type}.
Implicit Types (pre post l : list A) (x y : A).

Lemma slice_from_app pre post n : n = len pre → slice_from (pre ++ post) n = Ok post.
Proof.
  intros ->. rewrite slice_from_ok by (pose proof (len_nonneg pre); pose proof (len_nonneg post);
    rewrite len_app; lia).
  unfold len. by rewrite Nat2Z.id, drop_app_length.
Qed.

Lemma slice_to_app pre post n : n = len pre → slice_to (pre ++ post) n = Ok pre.
Proof.
  intros ->. rewrite slice_to_ok by (pose proof (len_nonneg pre); pose proof (len_nonneg post);
    rewrite len_app; lia).
  unfold len. by rewrite Nat2Z.id, take_app_length.
Qed.

Lemma slice_get_app pre x post n : n = len pre → slice_get (pre ++ x :: post) n = Ok x.
Proof.
  intros ->. apply slice_get_ok; [apply len_nonneg|]. unfold len. rewrite Nat2Z.id.
  by apply list_lookup_middle.
Qed.

Lemma slice_set_app pre x y post n :
  n = len pre → slice_set (pre ++ x :: post) n y = Ok (pre ++ y :: post).
Proof.
  intros ->. pose proof (len_nonneg pre). pose proof (len_nonneg post).
  rewrite slice_set_ok by (rewrite len_app, len_cons; lia). unfold len.
  rewrite Nat2Z.id. f_equal. rewrite insert_app_r_alt by lia. by rewrite Nat.sub_diag.
Qed.

Lemma slice_get_returns l i : 0 <= i < len l → returns (slice_get l i) (λ x, l !! Z.to_nat i = Some x).
Proof.
  intros Hi. destruct (lookup_lt_is_Some_2 l (Z.to_nat i)) as [x Hx]; [unfold len in Hi; lia|].
  exists x. split; [|done]. by apply slice_get_ok; [lia|].
Qed.

End slices_of_app.

Lemma go_copy_fits {A} (dst src : list A) :
  (length src <= length dst)%nat → go_copy dst src = src ++ drop (length src) dst.
Proof. intros. unfold go_copy. by rewrite take_ge. Qed.

Lemma make_slice_ok {A} `{!Zero A} n :
  0 <= n → make_slice n = Ok (replicate (Z.to_nat n) (zero (T:=A))).
Proof. intros. unfold make_slice. by replace (0 <=? n) with true by lia. Qed.

(** A window of full length over [l ++ l] is a rotation of [l]. *)
Lemma rotate_app {A} (l : list A) h :
  (h <= length l)%nat → take (length l) (drop h (l ++ l)) = drop h l ++ take h l.
Proof.
  intros Hh. rewrite drop_app_le, take_app_ge by (rewrite ?length_drop; lia).
  rewrite length_drop. repeat f_equal. lia.
Qed.

(** ** Record update

    [r <| f := v |>] is the record [r] with its field [f] replaced, the model
    of a Go assignment [r.f = v].  A record type opts in with an [Eta]
    instance that rebuilds it from its projections. *)

Class Eta (R : Type) := eta : R → R.
Class Setter {R F : Type} (proj : R → F) := set_field : (F → F) → R → R.

Ltac build_setter proj :=
  lazymatch type of proj with
  | ?R → ?F =>
      let rebuild := constr:(_ : Eta R) in
      let body := eval hnf in rebuild in
      lazymatch eval pattern proj in body with
      | ?abstracted _ =>
          let s := eval cbv beta in
            (fun (upd : F → F) => abstracted (fun r => upd (proj r))) in
          exact s
      end
  end.

#[export] Hint Extern 0 (Setter ?p) => build_setter p : typeclass_instances.

Notation "r <| f := v |>" := (set_field (proj := f) (fun _ => v) r)
  (at level 1, left associativity, f at level 9, format "r  <| f  :=  v |>").

(** ** Automation *)

(** Case analysis on every boolean test and [match] scrutinee of the goal. *)
Ltac split_ifs :=
  repeat match goal with
  | |- context [if ?b then _ else _] => destruct b eqn:?; try done
  end.

(** Take apart a hypothesis saying a monadic computation returned [Ok]. *)
Ltac inv_bind H :=
  let a := fresh "v" in let E := fresh "E" in
  apply bind_ok_inv in H as (a & E & H).

(** Turn comparison tests that came out true or false into inequalities. *)
Ltac reflect_tests :=
  repeat match goal with
  | H : (_ <? _) = true |- _ => apply Z.ltb_lt in H
  | H : (_ <? _) = false |- _ => apply Z.ltb_ge in H
  | H : (_ <=? _) = true |- _ => apply Z.leb_le in H
  | H : (_ <=? _) = false |- _ => apply Z.leb_gt in H
  | H : (_ =? _) = true |- _ => apply Z.eqb_eq in H
  | H : (_ =? _) = false |- _ => apply Z.eqb_neq in H
  end.

(** Case analysis on the conditions of every [if] in goal and hypotheses, then
    linear arithmetic: the workhorse for index computations. *)
Ltac if_lia :=
  repeat match goal with
  | H : context [decide ?P] |- _ => destruct (decide P)
  | |- context [decide ?P] => destruct (decide P)
  | H : context [if ?b then _ else _] |- _ => destruct b eqn:?
  | |- context [if ?b then _ else _] => destruct b eqn:?
  end; reflect_tests; lia.

(** Close arithmetic goals about machine integers. *)
Ltac mach := unfold in_i64, in_u64 in *; lia.
