(* ===== verification/Float64.v ===== *)
(** * Go's float64

    IEEE-754 binary64 arithmetic, as executable functions: the [SpecFloat]
    operations of the standard library at precision 53 and exponent bound 1024,
    rounding to nearest even.  No axiom about machine floats is used. *)

From Stdlib Require Import SpecFloat.
From S2P Require Import Prelude.

Abbreviation float64 := spec_float.

#[global] Instance zero_float64 : Zero float64 := S754_zero false.

(** [float64(z)] *)
Definition f64_of_int (z : Z) : float64 := binary_normalize 53 1024 z 0 false.

Definition f64_mul (a b : float64) : float64 := SFmul 53 1024 a b.
Definition f64_div (a b : float64) : float64 := SFdiv 53 1024 a b.
Definition f64_add (a b : float64) : float64 := SFadd 53 1024 a b.
Definition f64_eqb (a b : float64) : bool := SFeqb a b.
Definition f64_leb (a b : float64) : bool := SFleb a b.
Definition f64_ltb (a b : float64) : bool := SFltb a b.

(** The float64 nearest to the constant [n / d]; exact for the decimal
    constants of the source, whose [n] and [d] are below [2^53]. *)
Definition f64_const (n d : Z) : float64 := f64_div (f64_of_int n) (f64_of_int d).

(** Truncation towards zero; [None] on an infinity or a NaN. *)
Definition f64_trunc (f : float64) : option Z :=
  match f with
  | S754_zero _ => Some 0
  | S754_finite s m e =>
      let a := if 0 <=? e then Zpos m * 2 ^ e else Zpos m / 2 ^ (- e) in
      Some (if s then - a else a)
  | _ => None
  end.

(** Converting a float whose truncation does not fit the integer type is
    implementation-dependent in Go: the model takes the two conversions of the
    platform as parameters for that case, and no theorem constrains them. *)
Class Platform := {
  overflow_i64 : float64 → Z;
  overflow_u64 : float64 → Z
}.

(** amd64: the "integer indefinite" value. *)
Definition amd64 : Platform := {|
  overflow_i64 _ := -9223372036854775808;
  overflow_u64 _ := 9223372036854775808
|}.

Definition f64_to_i64 `{!Platform} (f : float64) : Z :=
  match f64_trunc f with
  | Some z => if (-9223372036854775808 <=? z) && (z <? 9223372036854775808) then z
              else i64 (overflow_i64 f)
  | None => i64 (overflow_i64 f)
  end.

Definition f64_to_u64 `{!Platform} (f : float64) : Z :=
  match f64_trunc f with
  | Some z => if (0 <=? z) && (z <? 18446744073709551616) then z else u64 (overflow_u64 f)
  | None => u64 (overflow_u64 f)
  end.

Lemma f64_to_i64_in `{!Platform} f : in_i64 (f64_to_i64 f).
Proof.
  unfold f64_to_i64. destruct (f64_trunc f) as [z|]; [|apply i64_in].
  destruct (_ && _) eqn:E; [unfold in_i64; lia|apply i64_in].
Qed.

Lemma f64_to_u64_in `{!Platform} f : in_u64 (f64_to_u64 f).
Proof.
  unfold f64_to_u64. destruct (f64_trunc f) as [z|]; [|apply u64_in].
  destruct (_ && _) eqn:E; [unfold in_u64; lia|apply u64_in].
Qed.

#[export] Hint Resolve f64_to_i64_in f64_to_u64_in : go.
