(* ===== verification/QuicGo.v ===== *)
(** * The quic-go interface (github.com/apernet/quic-go, not in this repository)

    What the congestion controller uses of its host library: constants, the
    [monotime] operations, and the packet records of a congestion event.  They
    are parameters of the model; [QuicGoLaws] states what the code relies on. *)

From S2P Require Import Prelude.

(** [congestion.ByteCount], [congestion.PacketNumber] and [monotime.Time] are
    [int64] values, [time.Duration] is an [int64] of nanoseconds. *)
Class QuicGo := {
  InitialPacketSize : Z;
  MinInitialPacketSize : Z;
  MaxCongestionWindowPackets : Z;
  MinPacingDelay : Z;
  MaxPacketBufferSize : Z;
  PacketsPerConnectionID : Z;
  time_IsZero : Z → bool;
  time_Before : Z → Z → bool;
  time_After : Z → Z → bool;
  time_Sub : Z → Z → Z;
  time_Add : Z → Z → Z
}.

Class QuicGoLaws (Q : QuicGo) : Prop := {
  InitialPacketSize_range : 0 < InitialPacketSize <= 65535;
  MinInitialPacketSize_range : 0 < MinInitialPacketSize <= 65535;
  MaxCongestionWindowPackets_range : 32 <= MaxCongestionWindowPackets <= 1000000;
  MinPacingDelay_range : 0 < MinPacingDelay <= 100 * Millisecond;
  MaxPacketBufferSize_range : 0 < MaxPacketBufferSize <= 65535;
  PacketsPerConnectionID_range : 0 < PacketsPerConnectionID < 2147483648;
  time_IsZero_spec t : time_IsZero t = (t =? 0);
  time_Before_spec t u : time_Before t u = (t <? u);
  time_After_spec t u : time_After t u = (u <? t);
  time_Sub_spec t u : time_Sub t u = i64 (t - u);
  time_Add_spec t d : time_Add t d = i64 (t + d)
}.

(** A concrete instance, to evaluate the model and to show that the laws can
    hold. *)
Definition sample_quic : QuicGo := {|
  InitialPacketSize := 1280;
  MinInitialPacketSize := 1200;
  MaxCongestionWindowPackets := 10000;
  MinPacingDelay := Millisecond;
  MaxPacketBufferSize := 1452;
  PacketsPerConnectionID := 10000;
  time_IsZero t := t =? 0;
  time_Before t u := t <? u;
  time_After t u := u <? t;
  time_Sub t u := i64 (t - u);
  time_Add t d := i64 (t + d)
|}.

Lemma sample_quic_laws : QuicGoLaws sample_quic.
Proof. by split. Qed.

(** The fields the controller reads of [AckedPacketInfo] and [LostPacketInfo]. *)
Record AckedPacketInfo := mkAcked { acked_PacketNumber : Z; BytesAcked : Z }.
Record LostPacketInfo := mkLost { lost_PacketNumber : Z; BytesLost : Z }.

(** ** Bandwidth (h3frontend/internal/congestion/bbr/bandwidth.go)

    Bits per second, a [uint64]. *)

Definition infBandwidth : Z := 18446744073709551615.
Definition BitsPerSecond : Z := 1.
Definition BytesPerSecond : Z := 8 * BitsPerSecond.

Definition BandwidthFromDelta (bytes delta : Z) : result Z :=
  q ← quot_u64 (u64 (u64 bytes * u64 Second)) (u64 delta);
  Ok (u64 (q * BytesPerSecond)).

Lemma BandwidthFromDelta_returns bytes delta :
  u64 delta ≠ 0 → returns (BandwidthFromDelta bytes delta) in_u64.
Proof.
  intros Hd. unfold BandwidthFromDelta. rewrite quot_u64_ok by done.
  apply returns_ok. apply u64_in.
Qed.

(** No division by zero between two distinct times. *)
Lemma time_Sub_nonzero `{Q : QuicGo, !QuicGoLaws Q} t u :
  in_i64 t → in_i64 u → t ≠ u → u64 (time_Sub t u) ≠ 0.
Proof. intros. rewrite time_Sub_spec. by apply u64_of_diff_nonzero. Qed.

Lemma u64_nonzero_pos d : in_i64 d → 0 < d → u64 d ≠ 0.
Proof. intros. rewrite u64_id; mach. Qed.
