(* ===== verification/RingBuffer.v ===== *)
(** * Ring buffer (h3frontend/internal/congestion/bbr/ringbuffer.go)

    The growable circular buffer under the packet queue and the list of ack
    points.  [Ring.contents] is its abstraction: the queued elements, oldest
    first.  Each operation is shown to act on [contents] as the operation of a
    list queue, and never to panic unless the source says it must. *)

From S2P Require Import Prelude.

Module Ring.

(** ** Data and operations *)

Record RingBuffer (T : Type) := mkRingBuffer {
  ring : list T;
  headPos : Z;
  tailPos : Z;
  full : bool
}.
Arguments mkRingBuffer {T} ring headPos tailPos full.
Arguments ring {T} _.
Arguments headPos {T} _.
Arguments tailPos {T} _.
Arguments full {T} _.

(** The zero value [RingBuffer[T]{}]. *)
#[global] Instance zero_RingBuffer T : Zero (RingBuffer T) := mkRingBuffer [] 0 0 false.

Section operations.
Context {T : Type} `{!Zero T}.
Implicit Types (r : RingBuffer T) (t : T).

Definition Init (r : RingBuffer T) (size : Z) : result (RingBuffer T) :=
  buf ← make_slice size;
  Ok (mkRingBuffer buf (headPos r) (tailPos r) (full r)).

Definition Len (r : RingBuffer T) : Z :=
  if full r then len (ring r)
  else if headPos r <=? tailPos r then tailPos r - headPos r
  else tailPos r - headPos r + len (ring r).

Definition Empty (r : RingBuffer T) : bool :=
  negb (full r) && (headPos r =? tailPos r).

Definition grow (r : RingBuffer T) : result (RingBuffer T) :=
  let oldRing := ring r in
  let newSize := len oldRing * 2 in
  let newSize := if newSize =? 0 then 1 else newSize in
  buf ← make_slice newSize;
  front ← slice_from oldRing (headPos r);
  let headLen := Nat.min (length buf) (length front) in
  let buf := go_copy buf front in
  back ← slice_to oldRing (headPos r);
  let buf := take headLen buf ++ go_copy (drop headLen buf) back in
  Ok (mkRingBuffer buf 0 (len oldRing) false).

Definition PushBack (r : RingBuffer T) (t : T) : result (RingBuffer T) :=
  r ← (if full r || (len (ring r) =? 0) then grow r else Ok r);
  buf ← slice_set (ring r) (tailPos r) t;
  let tail := tailPos r + 1 in
  let tail := if tail =? len buf then 0 else tail in
  Ok (mkRingBuffer buf (headPos r) tail (if tail =? headPos r then true else full r)).

Definition PopFront (r : RingBuffer T) : result (T * RingBuffer T) :=
  if Empty r then Panic (Explicit "ringbuffer: pop from an empty queue") else
  t ← slice_get (ring r) (headPos r);
  buf ← slice_set (ring r) (headPos r) zero;
  let head := headPos r + 1 in
  let head := if head =? len buf then 0 else head in
  Ok (t, mkRingBuffer buf head (tailPos r) false).

(** The pointers [*T] the source hands out point into [r.ring]; they are
    modelled by the index they point at, read and written by [load]/[store]. *)
Definition ptr := Z.

Definition load (r : RingBuffer T) (p : ptr) : result T := slice_get (ring r) p.

Definition store (r : RingBuffer T) (p : ptr) (t : T) : result (RingBuffer T) :=
  buf ← slice_set (ring r) p t;
  Ok (mkRingBuffer buf (headPos r) (tailPos r) (full r)).

(** [&l[i]] bounds-checks the index. *)
Definition address (r : RingBuffer T) (i : Z) : result ptr :=
  if (0 <=? i) && (i <? len (ring r)) then Ok i else Panic IndexOutOfRange.

Definition Offset (r : RingBuffer T) (index : Z) : result ptr :=
  if Empty r || (Len r <=? index) then Panic (Explicit "ringbuffer: offset from invalid index")
  else address r (Z.rem (headPos r + index) (len (ring r))).

Definition Front (r : RingBuffer T) : result ptr :=
  if Empty r then Panic (Explicit "ringbuffer: front from an empty queue")
  else address r (headPos r).

Definition Back (r : RingBuffer T) : result ptr :=
  if Empty r then Panic (Explicit "ringbuffer: back from an empty queue")
  else Offset r (Len r - 1).

Definition Clear (r : RingBuffer T) : RingBuffer T :=
  mkRingBuffer (replicate (length (ring r)) zero) 0 0 false.

(** ** Abstraction and well-formedness *)

(** The queued elements, oldest first. *)
Definition contents (r : RingBuffer T) : list T :=
  take (Z.to_nat (Len r)) (drop (Z.to_nat (headPos r)) (ring r ++ ring r)).

Definition wf (r : RingBuffer T) : Prop :=
  0 <= headPos r ∧ 0 <= tailPos r ∧
  (if full r then headPos r = tailPos r ∧ 0 < len (ring r) else True) ∧
  (if decide (len (ring r) = 0) then headPos r = 0 ∧ tailPos r = 0
   else headPos r < len (ring r) ∧ tailPos r < len (ring r)).

(** The slot of [ring] that holds the [i]-th queued element. *)
Definition slot (r : RingBuffer T) (i : Z) : Z :=
  if headPos r + i <? len (ring r) then headPos r + i
  else headPos r + i - len (ring r).

End operations.

(** Expose the numeric content of [wf], [Len] and [slot] to [lia]. *)
Ltac ring_arith :=
  unfold wf, Len, Empty, slot, len in *; cbn [full headPos tailPos ring zero zero_RingBuffer] in *;
  autorewrite with go_len in *; if_lia.

Section facts.
Context {T : Type} `{!Zero T}.
Implicit Types (r : RingBuffer T) (t : T).

Lemma Len_bounds r : wf r → 0 <= Len r <= len (ring r).
Proof. intros. ring_arith. Qed.

Lemma Empty_Len r : wf r → Empty r = (Len r =? 0).
Proof.
  intros. ring_arith.
Qed.

Lemma slot_bounds r i : wf r → 0 <= i < len (ring r) → 0 <= slot r i < len (ring r).
Proof. intros. ring_arith. Qed.

Lemma slot_inj r i j :
  wf r → 0 <= i < len (ring r) → 0 <= j < len (ring r) → slot r i = slot r j → i = j.
Proof. intros. ring_arith. Qed.

Lemma contents_lookup r i :
  wf r → 0 <= i < Len r → contents r !! Z.to_nat i = ring r !! Z.to_nat (slot r i).
Proof.
  intros Hwf Hi. pose proof (Len_bounds r Hwf).
  unfold contents. rewrite lookup_take_lt, lookup_drop by lia.
  unfold slot. destruct (Z.ltb_spec (headPos r + i) (len (ring r))) as [Hlt|Hge].
  - rewrite lookup_app_l by ring_arith. f_equal. ring_arith.
  - rewrite lookup_app_r by ring_arith.
    f_equal. ring_arith.
Qed.

Lemma contents_len r : wf r → len (contents r) = Len r.
Proof.
  intros Hwf. pose proof (Len_bounds r Hwf) as Hb.
  assert (headPos r <= len (ring r)) by ring_arith.
  unfold contents, len in *. rewrite length_take, length_drop, length_app.
  unfold wf in Hwf. lia.
Qed.

Lemma contents_nil r : wf r → contents r = [] ↔ Empty r = true.
Proof.
  intros Hwf. rewrite Empty_Len, Z.eqb_eq, <- contents_len by done. split.
  - by intros ->.
  - apply len_nil_inv.
Qed.

(** Two buffers whose queued slots agree have the same contents. *)
Lemma contents_ext r (l : list T) :
  wf r → Len r = len l →
  (∀ i, 0 <= i < len l → ring r !! Z.to_nat (slot r i) = l !! Z.to_nat i) →
  contents r = l.
Proof.
  intros Hwf Hlen Heq. apply list_eq. intros n.
  pose proof (contents_len r Hwf) as Hc.
  destruct (decide (n < length l)%nat) as [Hn|Hn].
  - rewrite <- (Nat2Z.id n), contents_lookup; unfold len in *; [|done|lia].
    apply Heq. lia.
  - rewrite !lookup_ge_None_2; unfold len in *; [done|lia|lia].
Qed.

(** *** Initialisation and clearing *)

Lemma Init_returns size :
  0 <= size → returns (Init zero size) (λ r, wf r ∧ contents r = []).
Proof.
  intros Hs. unfold Init. rewrite make_slice_ok by done.
  apply returns_ok. split; [ring_arith|done].
Qed.

Lemma Clear_wf r : wf (Clear r).
Proof. unfold Clear. ring_arith. Qed.

Lemma Clear_contents r : contents (Clear r) = [].
Proof. done. Qed.

(** *** Growing and pushing *)

Lemma contents_saturated r :
  wf r → Len r = len (ring r) →
  contents r = drop (Z.to_nat (headPos r)) (ring r) ++ take (Z.to_nat (headPos r)) (ring r).
Proof.
  intros Hwf HLen. unfold contents. rewrite HLen. unfold len.
  rewrite Nat2Z.id, rotate_app; [done|ring_arith].
Qed.

Lemma grow_eq r :
  wf r → Len r = len (ring r) →
  ∃ n, (0 < n)%nat ∧
    grow r = Ok (mkRingBuffer (contents r ++ replicate n zero) 0 (len (ring r)) false).
Proof.
  intros Hwf HLen. rewrite contents_saturated by done.
  assert (0 <= headPos r <= len (ring r)) as Hh by ring_arith.
  unfold grow. set (size := if _ =? 0 then _ else _).
  assert (len (ring r) < size) as Hsize by (subst size; pose proof (len_nonneg (ring r)); if_lia).
  exists (Z.to_nat (size - len (ring r))). split; [lia|].
  rewrite make_slice_ok, slice_from_ok, slice_to_ok by (pose proof (len_nonneg (ring r)); lia). cbn.
  set (front := drop _ (ring r)). set (back := take _ (ring r)).
  assert (length front + length back = length (ring r))%nat as Hlen.
  { subst front back. rewrite length_drop, length_take. unfold len in *. lia. }
  unfold len in *. rewrite length_replicate, Nat.min_r by lia.
  rewrite (go_copy_fits (replicate _ _)) by (rewrite length_replicate; lia).
  rewrite take_app_length, drop_app_length.
  rewrite go_copy_fits, !drop_replicate, <- app_assoc; rewrite ?length_drop, ?length_replicate; try lia.
  do 3 f_equal. do 3 f_equal. lia.
Qed.

Lemma grow_returns r :
  wf r → Len r = len (ring r) →
  returns (grow r) (λ r', wf r' ∧ contents r' = contents r ∧ Len r' < len (ring r')).
Proof.
  intros Hwf HLen. destruct (grow_eq r Hwf HLen) as (n & Hn & ->).
  pose proof (contents_len r Hwf) as Hc. rewrite HLen in Hc.
  apply returns_ok. set (r' := mkRingBuffer _ _ _ _).
  assert (wf r') as Hwf' by (subst r'; ring_arith).
  assert (Len r' = len (contents r)) as HL by (subst r'; ring_arith).
  split_and!; [done| |subst r'; ring_arith].
  apply contents_ext; [done..|]. intros i Hi.
  replace (slot r' i) with i by (subst r'; ring_arith).
  apply lookup_app_l. unfold len in Hi. lia.
Qed.

(** Writing at the tail of a buffer with a free slot appends one element. *)
Lemma push_free_returns r t :
  wf r → Len r < len (ring r) →
  returns (buf ← slice_set (ring r) (tailPos r) t;
           let tail := tailPos r + 1 in
           let tail := if tail =? len buf then 0 else tail in
           Ok (mkRingBuffer buf (headPos r) tail (if tail =? headPos r then true else full r)))
    (λ r', wf r' ∧ contents r' = contents r ++ [t]).
Proof.
  intros Hwf Hfree. rewrite slice_set_ok by ring_arith. apply returns_ok.
  set (tail := if _ =? _ then _ else _). set (r' := mkRingBuffer _ _ _ _).
  assert (full r = false) as Hf by ring_arith.
  assert (tailPos r = slot r (Len r)) as Htail by ring_arith.
  assert (wf r' ∧ Len r' = Len r + 1) as [Hwf' HL]. 
  { subst r' tail. rewrite Hf. split; ring_arith. }
  split; [done|]. apply contents_ext; rewrite ?len_app, ?contents_len by done; [done|done|].
  intros i Hi. cbn [len length Z.of_nat] in Hi.
  replace (slot r' i) with (slot r i) by (subst r' tail; ring_arith).
  subst r'; cbn [ring]. rewrite Htail.
  destruct (decide (i = Len r)) as [->|Hne].
  - rewrite list_lookup_insert_eq by ring_arith.
    rewrite lookup_app_r; rewrite <- contents_len by done; unfold len; [|lia].
    by rewrite Nat2Z.id, Nat.sub_diag.
  - pose proof (contents_len r Hwf) as Hc.
    rewrite list_lookup_insert_ne, lookup_app_l, contents_lookup; [done|done| | |].
    + change (len [t]) with 1 in Hi. lia.
    + change (len [t]) with 1 in Hi. unfold len in Hc. lia.
    + change (len [t]) with 1 in Hi. intros E.
      pose proof (slot_bounds r i Hwf). pose proof (slot_bounds r (Len r) Hwf).
      pose proof (Len_bounds r Hwf). apply Hne, (slot_inj r); [done|lia..].
Qed.

(** [PushBack] never panics and appends its argument. *)
Lemma PushBack_returns r t :
  wf r → returns (PushBack r t) (λ r', wf r' ∧ contents r' = contents r ++ [t]).
Proof.
  intros Hwf. unfold PushBack.
  apply (returns_bind _ _ (λ r', wf r' ∧ contents r' = contents r ∧ Len r' < len (ring r'))).
  - destruct (full r || (len (ring r) =? 0)) eqn:E.
    + apply grow_returns; [done|]. ring_arith.
    + apply returns_ok. split_and!; [done..|]. ring_arith.
  - intros r1 (Hwf1 & <- & Hfree). by apply push_free_returns.
Qed.

(** *** Popping *)

(** [PopFront] panics exactly on an empty buffer and otherwise takes the head. *)
Lemma PopFront_spec r :
  wf r →
  match contents r with
  | [] => PopFront r = Panic (Explicit "ringbuffer: pop from an empty queue")
  | t :: l => ∃ r', PopFront r = Ok (t, r') ∧ wf r' ∧ contents r' = l ∧
                    len (ring r') = len (ring r)
  end.
Proof.
  intros Hwf. unfold PopFront. rewrite Empty_Len, <- contents_len by done.
  pose proof (contents_len r Hwf) as Hc. destruct (contents r) as [|t l] eqn:El; [done|].
  rewrite len_cons in *. pose proof (len_nonneg l).
  pose proof (Len_bounds r Hwf) as Hb.
  assert (headPos r = slot r 0) as Hh by ring_arith.
  assert (ring r !! Z.to_nat (headPos r) = Some t) as Ht.
  { rewrite Hh, <- contents_lookup, El by (done || lia). done. }
  replace (len l + 1 =? 0) with false by lia.
  rewrite (slice_get_ok _ _ t), slice_set_ok by (done || ring_arith). cbn [mbind result_bind].
  set (head := if _ =? _ then _ else _). eexists. split; [done|].
  set (r' := mkRingBuffer _ _ _ _).
  assert (wf r' ∧ Len r' = Len r - 1) as [Hwf' HL] by (subst r' head; split; ring_arith).
  split_and!; [done| |apply len_insert].
  apply contents_ext; [done|lia|]. intros i Hi.
  replace (slot r' i) with (slot r (i + 1)) by (subst r' head; ring_arith).
  subst r'; cbn [ring]. rewrite list_lookup_insert_ne.
  - rewrite <- contents_lookup, El by (done || lia).
    by replace (Z.to_nat (i + 1)) with (S (Z.to_nat i)) by lia.
  - rewrite Hh. intros E. pose proof (slot_bounds r 0 Hwf). pose proof (slot_bounds r (i + 1) Hwf).
    enough (0 = i + 1) by lia. apply (slot_inj r); [done|lia..].
Qed.

(** *** Element access *)

Lemma address_ok r i : 0 <= i < len (ring r) → address r i = Ok i.
Proof. intros. unfold address. by replace ((0 <=? i) && (i <? len (ring r))) with true by lia. Qed.

Lemma Offset_ok r i : wf r → 0 <= i < Len r → Offset r i = Ok (slot r i).
Proof.
  intros Hwf Hi. pose proof (Len_bounds r Hwf). pose proof (slot_bounds r i Hwf).
  unfold Offset. rewrite Empty_Len by done.
  replace ((Len r =? 0) || (Len r <=? i)) with false by lia.
  replace (Z.rem _ _) with (slot r i); [apply address_ok; lia|].
  assert (0 <= headPos r < len (ring r)) by ring_arith.
  unfold slot. rewrite Z.rem_mod_nonneg by lia.
  destruct (Z.ltb_spec (headPos r + i) (len (ring r))); [by rewrite Z.mod_small by lia|].
  apply Z.mod_unique_pos with 1; lia.
Qed.

Lemma Offset_out_of_range r i :
  wf r → Len r <= i → Offset r i = Panic (Explicit "ringbuffer: offset from invalid index").
Proof.
  intros Hwf Hi. unfold Offset.
  by replace (Empty r || (Len r <=? i)) with true by (destruct (Empty r); lia).
Qed.

Lemma Front_ok r : wf r → 0 < Len r → Front r = Ok (slot r 0).
Proof.
  intros Hwf Hl. pose proof (Len_bounds r Hwf). unfold Front. rewrite Empty_Len by done.
  replace (Len r =? 0) with false by lia.
  rewrite address_ok by ring_arith. f_equal. ring_arith.
Qed.

Lemma Back_ok r : wf r → 0 < Len r → Back r = Ok (slot r (Len r - 1)).
Proof.
  intros Hwf Hl. unfold Back. rewrite Empty_Len by done.
  replace (Len r =? 0) with false by lia. apply Offset_ok; [done|lia].
Qed.

Lemma load_slot r i t :
  wf r → 0 <= i < Len r → contents r !! Z.to_nat i = Some t → load r (slot r i) = Ok t.
Proof.
  intros Hwf Hi Ht. pose proof (Len_bounds r Hwf). pose proof (slot_bounds r i Hwf).
  apply slice_get_ok; [lia|]. by rewrite <- contents_lookup.
Qed.

(** Writing through a pointer to the [i]-th element replaces that element. *)
Lemma store_slot r i t :
  wf r → 0 <= i < Len r →
  returns (store r (slot r i) t) (λ r', wf r' ∧ contents r' = <[Z.to_nat i := t]> (contents r)).
Proof.
  intros Hwf Hi. pose proof (Len_bounds r Hwf) as Hb. pose proof (slot_bounds r i Hwf) as Hs.
  unfold store. rewrite slice_set_ok by lia. apply returns_ok.
  set (r' := mkRingBuffer _ _ _ _).
  assert (wf r' ∧ Len r' = Len r) as [Hwf' HL].
  { clear Hs. subst r'. set (s := slot r i). split; ring_arith. }
  split; [done|]. apply contents_ext; rewrite ?len_insert, ?contents_len by done; [done|done|].
  intros j Hj.
  replace (slot r' j) with (slot r j) by (subst r'; unfold slot; cbn; by rewrite len_insert).
  subst r'; cbn [ring]. destruct (decide (i = j)) as [->|Hne].
  - rewrite !list_lookup_insert_eq; [done| |]; [|unfold len in *; lia].
    pose proof (contents_len r Hwf). unfold len in *. lia.
  - rewrite !list_lookup_insert_ne, contents_lookup; [done|done|done|lia|].
    pose proof (slot_bounds r j Hwf). intros E. apply Hne, (slot_inj r); [done|lia..].
Qed.

End facts.

#[global] Hint Resolve Clear_wf PushBack_returns : go.

(** ** Refinement: the ring buffer is a FIFO queue *)

(** The operations a client can issue. *)
Inductive op (T : Type) :=
  | OPush (t : T)
  | OPop
  | OClear.
Arguments OPush {T} t.
Arguments OPop {T}.
Arguments OClear {T}.

Section refinement.
Context {T : Type} `{!Zero T}.

(** One operation on the ring buffer; a pop reports the element. *)
Definition step (o : op T) (r : RingBuffer T) : result (option T * RingBuffer T) :=
  match o with
  | OPush t => r' ← PushBack r t; Ok (None, r')
  | OPop => '(t, r') ← PopFront r; Ok (Some t, r')
  | OClear => Ok (None, Clear r)
  end.

Fixpoint run (os : list (op T)) (r : RingBuffer T) : result (list (option T) * RingBuffer T) :=
  match os with
  | [] => Ok ([], r)
  | o :: os => '(a, r) ← step o r; '(out, r) ← run os r; Ok (a :: out, r)
  end.

(** The specification: a list, with pop undefined on the empty list. *)
Definition spec_step (o : op T) (l : list T) : option (option T * list T) :=
  match o, l with
  | OPush t, _ => Some (None, l ++ [t])
  | OPop, [] => None
  | OPop, t :: l => Some (Some t, l)
  | OClear, _ => Some (None, [])
  end.

Fixpoint spec_run (os : list (op T)) (l : list T) : option (list (option T) * list T) :=
  match os with
  | [] => Some ([], l)
  | o :: os => '(a, l) ← spec_step o l; '(out, l) ← spec_run os l; Some (a :: out, l)
  end.

Lemma ring_step_refines o r :
  wf r →
  match spec_step o (contents r) with
  | Some (a, l) => ∃ r', step o r = Ok (a, r') ∧ wf r' ∧ contents r' = l
  | None => ∃ msg, step o r = Panic (Explicit msg)
  end.
Proof.
  intros Hwf. destruct o as [t| |]; cbn.
  - destruct (PushBack_returns r t Hwf) as (r' & -> & ? & ?). by exists r'.
  - pose proof (PopFront_spec r Hwf) as Hp. destruct (contents r) as [|t l].
    + eexists. by rewrite Hp.
    + destruct Hp as (r' & -> & ? & ? & _). by exists r'.
  - exists (Clear r). split_and!; [done|apply Clear_wf|done].
Qed.

(** C4. From any freshly initialised buffer, every sequence of pushes, pops and
    clears behaves as on a list queue: the popped elements come out in FIFO
    order whatever the capacity and however often the buffer wraps or grows,
    and the buffer panics exactly when the queue would be popped empty. *)
Theorem ring_refines_queue size os :
  0 <= size →
  returns (Init zero size) (λ r,
    match spec_run os [] with
    | Some (out, l) => ∃ r', run os r = Ok (out, r') ∧ contents r' = l
    | None => ∃ msg, run os r = Panic (Explicit msg)
    end).
Proof.
  intros Hs. apply (returns_mono _ _ _ (Init_returns size Hs)). intros r [Hwf Hc].
  rewrite <- Hc. clear Hs Hc. revert r Hwf.
  induction os as [|o os IH]; intros r Hwf; cbn; [by exists r|].
  pose proof (ring_step_refines o r Hwf) as Hstep.
  destruct (spec_step o (contents r)) as [[a l]|]; cbn.
  - destruct Hstep as (r' & -> & Hwf' & <-). cbn. specialize (IH r' Hwf').
    destruct (spec_run os (contents r')) as [[out l]|]; cbn.
    + destruct IH as (r'' & -> & <-). by exists r''.
    + destruct IH as (msg & ->). by exists msg.
  - destruct Hstep as (msg & ->). by exists msg.
Qed.

End refinement.

Lemma ring_refines_queue_witness :
  returns (Init (T := Z) zero 2) (λ r,
    ∃ r', run [OPush 1; OPush 2; OPop; OPush 3; OPush 4; OPop] r
          = Ok ([None; None; Some 1; None; None; Some 2], r') ∧ contents r' = [3; 4]).
Proof.
  exact (ring_refines_queue (T := Z) 2
           [OPush 1; OPush 2; OPop; OPush 3; OPush 4; OPop] ltac:(lia)).
Defined.

End Ring.

(** Clients reason with the lemmas, not by unfolding the operations. *)
#[global] Arguments Ring.Init : simpl never.
#[global] Arguments Ring.Len : simpl never.
#[global] Arguments Ring.Empty : simpl never.
#[global] Arguments Ring.grow : simpl never.
#[global] Arguments Ring.PushBack : simpl never.
#[global] Arguments Ring.PopFront : simpl never.
#[global] Arguments Ring.load : simpl never.
#[global] Arguments Ring.Offset : simpl never.
#[global] Arguments Ring.Front : simpl never.
#[global] Arguments Ring.Back : simpl never.
#[global] Arguments Ring.Clear : simpl never.
#[global] Arguments Ring.contents : simpl never.
