(* ===== verification/WindowedFilter.v ===== *)
(** * Windowed filter (h3frontend/internal/congestion/bbr/windowed_filter.go)

    Kathleen Nichols' running-maximum filter over a sliding window of round
    trips.  [Filter.Update] is the code's method; the theorems describe the
    estimates it holds in terms of the whole history of samples fed to it. *)

From stdpp Require Import sorting.
From S2P Require Import Prelude.

Module Filter.

(** ** Data and operations *)

Record entry (V : Type) := mkEntry { sample : V; time : Z }.
Arguments mkEntry {V} sample time.
Arguments sample {V} _.
Arguments time {V} _.

#[global] Instance zero_entry V `{!Zero V} : Zero (entry V) := mkEntry zero 0.

(** The slice [estimates] always has its three elements; the window length and
    the times are [roundTripCount], a [uint64]. *)
Record WindowedFilter (V : Type) := mkFilter {
  windowLength : Z;
  estimate0 : entry V;
  estimate1 : entry V;
  estimate2 : entry V
}.
Arguments mkFilter {V} windowLength estimate0 estimate1 estimate2.
Arguments windowLength {V} _.
Arguments estimate0 {V} _.
Arguments estimate1 {V} _.
Arguments estimate2 {V} _.

(** The comparator stored in the filter: positive, zero or negative as its
    first argument is better than, as good as, or worse than the second. *)
Class Comparator (V : Type) := comparator : V → V → Z.

Definition MaxFilter (a b : Z) : Z := if b <? a then 1 else if a <? b then -1 else 0.
Definition MinFilter (a b : Z) : Z := if a <? b then 1 else if b <? a then -1 else 0.

Section operations.
Context {V : Type} `{!Zero V, !Comparator V}.
Implicit Types (f : WindowedFilter V) (v : V).

Definition NewWindowedFilter (windowLength : Z) : WindowedFilter V :=
  mkFilter windowLength zero zero zero.

Definition SetWindowLength f (windowLength : Z) : WindowedFilter V :=
  mkFilter windowLength (estimate0 f) (estimate1 f) (estimate2 f).

Definition GetBest f : V := sample (estimate0 f).
Definition GetSecondBest f : V := sample (estimate1 f).
Definition GetThirdBest f : V := sample (estimate2 f).

Definition Reset f (newSample : V) (newTime : Z) : WindowedFilter V :=
  let e := mkEntry newSample newTime in mkFilter (windowLength f) e e e.

Definition Clear f : WindowedFilter V := mkFilter (windowLength f) zero zero zero.

(** [newTime - e.time > limit], a [uint64] subtraction. *)
Definition older_than (newTime limit : Z) (e : entry V) : bool :=
  limit <? u64 (newTime - time e).

Definition Update f (newSample : V) (newTime : Z) : WindowedFilter V :=
  let new := mkEntry newSample newTime in
  let window := windowLength f in
  if (comparator (sample (estimate0 f)) zero =? 0)
     || (0 <=? comparator newSample (sample (estimate0 f)))
     || older_than newTime window (estimate2 f)
  then Reset f newSample newTime
  else
    let '(e1, e2) :=
      if 0 <=? comparator newSample (sample (estimate1 f)) then (new, new)
      else if 0 <=? comparator newSample (sample (estimate2 f)) then (estimate1 f, new)
      else (estimate1 f, estimate2 f) in
    if older_than newTime window (estimate0 f) then
      if older_than newTime window e1
      then mkFilter window e2 new new
      else mkFilter window e1 e2 new
    else if (comparator (sample e1) (sample (estimate0 f)) =? 0)
            && older_than newTime (Z.quot window 4) e1
    then mkFilter window (estimate0 f) new new
    else if (comparator (sample e2) (sample e1) =? 0)
            && older_than newTime (Z.quot window 2) e2
    then mkFilter window (estimate0 f) e1 new
    else mkFilter window (estimate0 f) e1 e2.

(** Feed a list of samples, oldest first. *)
Definition feed f (samples : list (entry V)) : WindowedFilter V :=
  fold_left (λ f e, Update f (sample e) (time e)) samples f.

End operations.

(** What a comparator must satisfy: it is a total preorder. *)
Class ComparatorLaws (V : Type) `{!Comparator V} : Prop := {
  comparator_refl v : comparator v v = 0;
  comparator_anti v w : comparator v w < 0 ↔ 0 < comparator w v;
  comparator_trans u v w : comparator u v <= 0 → comparator v w <= 0 → comparator u w <= 0
}.

#[global] Instance MaxFilter_laws : @ComparatorLaws Z MaxFilter.
Proof. split; unfold comparator, MaxFilter; intros; if_lia. Qed.

#[global] Instance MinFilter_laws : @ComparatorLaws Z MinFilter.
Proof. split; unfold comparator, MinFilter; intros; if_lia. Qed.

(** ** Invariants *)

Section facts.
Context {V : Type} `{!Zero V, !Comparator V}.
Implicit Types (f : WindowedFilter V) (v : V) (hist : list (entry V)).

(** [e] was fed at some point and beats everything fed after it. *)
Definition beats_later hist (e : entry V) : Prop :=
  ∃ earlier later, hist = earlier ++ e :: later ∧
    Forall (λ x, comparator (sample x) (sample e) < 0) later.

Lemma beats_later_new hist e : beats_later (hist ++ [e]) e.
Proof. by exists hist, []. Qed.

Lemma beats_later_worse hist e x :
  beats_later hist e → comparator (sample x) (sample e) < 0 → beats_later (hist ++ [x]) e.
Proof.
  intros (earlier & later & -> & Hl) Hx. exists earlier, (later ++ [x]).
  rewrite <- app_assoc. split; [done|]. apply Forall_app; auto.
Qed.

(** All three estimates are samples that beat everything later, and the best
    one is inside the window ending at [now]. *)
Definition tracks f hist (now : Z) : Prop :=
  beats_later hist (estimate0 f) ∧ beats_later hist (estimate1 f) ∧
  beats_later hist (estimate2 f) ∧ older_than now (windowLength f) (estimate0 f) = false.

Lemma older_than_self now limit v :
  0 <= limit → older_than now limit (mkEntry v now) = false.
Proof. intros. unfold older_than. cbn [time]. rewrite Z.sub_diag. change (u64 0) with 0. lia. Qed.

Lemma Reset_tracks f hist v now :
  0 <= windowLength f → tracks (Reset f v now) (hist ++ [mkEntry v now]) now.
Proof.
  intros. unfold tracks, Reset; cbn. split_and!; eauto using beats_later_new, older_than_self.
Qed.

Lemma Update_windowLength f v now : windowLength (Update f v now) = windowLength f.
Proof. unfold Update. by repeat case_match. Qed.

Lemma Update_tracks f hist v now last :
  0 <= windowLength f → tracks f hist last →
  tracks (Update f v now) (hist ++ [mkEntry v now]) now.
Proof.
  intros Hw (H0 & H1 & H2 & _). unfold Update.
  set (new := mkEntry v now). set (c0 := comparator v (sample (estimate0 f))).
  destruct (_ || _ || _) eqn:Hreset; [by apply Reset_tracks|].
  apply orb_false_iff in Hreset as [[_ Hc0]%orb_false_iff Hold2].
  assert (∀ e, beats_later hist e → (0 <=? comparator v (sample e)) = false →
    beats_later (hist ++ [new]) e) as Hkeep by (intros; apply beats_later_worse; [done|cbn; lia]).
  assert (older_than now (windowLength f) new = false) by by apply older_than_self.
  pose proof (beats_later_new hist new) as Hnew.
  unfold tracks. repeat case_match; simplify_eq/=; split_and!; auto.
Qed.

Lemma feed_app f hist k : feed f (hist ++ k) = feed (feed f hist) k.
Proof. apply fold_left_app. Qed.

Lemma feed_windowLength f hist : windowLength (feed f hist) = windowLength f.
Proof.
  revert f. induction hist as [|e hist IH]; intros f; [done|].
  change (feed f (e :: hist)) with (feed (Update f (sample e) (time e)) hist).
  by rewrite IH, Update_windowLength.
Qed.

Context `{!ComparatorLaws V}.

(** The first sample resets the fresh filter. *)
Lemma Update_fresh w v now :
  Update (NewWindowedFilter w) v now = Reset (NewWindowedFilter w) v now.
Proof. unfold Update. cbn. by rewrite (comparator_refl (V := V) zero). Qed.

(** The estimates are ranked, and recorded in that order. *)
Definition ordered f (now : Z) : Prop :=
  comparator (sample (estimate1 f)) (sample (estimate0 f)) <= 0 ∧
  comparator (sample (estimate2 f)) (sample (estimate1 f)) <= 0 ∧
  0 <= time (estimate0 f) <= time (estimate1 f) ∧
  time (estimate1 f) <= time (estimate2 f) <= now.

Lemma Reset_ordered f v now : 0 <= now → ordered (Reset f v now) now.
Proof. intros. unfold ordered, Reset; cbn. rewrite !comparator_refl. lia. Qed.

Lemma Update_ordered f v last now :
  last <= now → ordered f last → ordered (Update f v now) now.
Proof.
  intros Hnow (H10 & H21 & Ht1 & Ht2). unfold Update.
  destruct (_ || _ || _) eqn:Hreset; [apply Reset_ordered; lia|].
  apply orb_false_iff in Hreset as [[_ Hc0]%orb_false_iff _].
  pose proof (comparator_refl (V := V)) as Hrefl.
  pose proof (comparator_trans _ _ _ H21 H10).
  unfold ordered. repeat case_match; simplify_eq/=; reflect_tests;
    rewrite ?Hrefl; split_and!; try lia.
Qed.

(** ** The maximum of the window *)

(** The reference: the latest of the best samples of a list, and of those that are
    not older than the window. *)
Fixpoint best_of (l : list (entry V)) : option (entry V) :=
  match l with
  | [] => None
  | x :: l =>
      match best_of l with
      | Some y => if comparator (sample x) (sample y) <=? 0 then Some y else Some x
      | None => Some x
      end
  end.

Definition window_best (w now : Z) (samples : list (entry V)) : option (entry V) :=
  best_of (List.filter (λ x, negb (older_than now w x)) samples).

(** No sample that was in the window before [e] came was better than [e]. *)
Definition best_on_arrival (w : Z) (earlier : list (entry V)) (e : entry V) : Prop :=
  Forall (λ x, ∀ l, last earlier = Some l → older_than (time l) w x = false →
    comparator (sample x) (sample e) <= 0) earlier.

Lemma comparator_gt v1 v2 : 0 < comparator v1 v2 ↔ comparator v2 v1 < 0.
Proof. symmetry. apply comparator_anti. Qed.

Lemma best_of_spec l : match best_of l with
  | None => l = []
  | Some e => Forall (λ x, comparator (sample x) (sample e) <= 0) l ∧
      ∃ a b, l = a ++ e :: b ∧ Forall (λ x, comparator (sample x) (sample e) < 0) b
  end.
Proof.
  induction l as [|x l IH]; [done|]. cbn [best_of]. destruct (best_of l) as [y|].
  - destruct IH as (Hle & a & b & -> & Hlt). destruct (Z.leb_spec (comparator (sample x) (sample y)) 0) as [Hx|Hx].
    + split; [by constructor|]. by exists (x :: a), b.
    + apply comparator_gt in Hx as Hy.
      assert (Forall (λ z, comparator (sample z) (sample x) < 0) (a ++ y :: b)) as Hall.
      { eapply Forall_impl; [exact Hle|]. intros z Hz. cbn in Hz.
        destruct (Z.lt_ge_cases (comparator (sample z) (sample x)) 0) as [|Hge]; [done|exfalso].
        assert (comparator (sample x) (sample z) <= 0) as Hxz.
        { destruct (Z.le_gt_cases (comparator (sample x) (sample z)) 0) as [|Hgt]; [done|]. apply comparator_gt in Hgt. lia. }
        pose proof (comparator_trans _ _ _ Hxz Hz). lia. }
      split; [|by exists [], (a ++ y :: b)]. constructor; [rewrite comparator_refl; lia|].
      eapply Forall_impl; [exact Hall|]. cbn. lia.
  - subst l. split; [constructor; [rewrite comparator_refl; lia|done]|]. by exists [], [].
Qed.

Lemma filter_app_cons {A} (P : A → bool) l a e b : List.filter P l = a ++ e :: b →
  ∃ a' b', l = a' ++ e :: b' ∧ b = List.filter P b'.
Proof.
  revert a. induction l as [|x l IH]; intros a; cbn; [by destruct a|].
  destruct (P x).
  - destruct a as [|y a]; cbn; [intros [= -> <-]; by exists [], l|].
    intros [= -> H]. destruct (IH a H) as (a' & b' & -> & ->). by exists (y :: a'), b'.
  - intros H. destruct (IH a H) as (a' & b' & -> & ->). by exists (x :: a'), b'.
Qed.

(** A best estimate in the window survives a worse sample. *)
Lemma Update_retains f v now last :
  0 <= windowLength f → now < 18446744073709551616 → last <= now → ordered f last →
  comparator (sample (estimate0 f)) zero ≠ 0 → comparator v (sample (estimate0 f)) < 0 →
  now - time (estimate0 f) <= windowLength f → estimate0 (Update f v now) = estimate0 f.
Proof.
  intros Hw Hnow Hl (_ & _ & Ht1 & Ht2) H0 Hv Hage.
  assert (∀ e : entry V, time (estimate0 f) <= time e <= now → older_than now (windowLength f) e = false) as Hin.
  { intros e He. unfold older_than. rewrite u64_id by (unfold in_u64; lia). lia. }
  unfold Update. rewrite (proj2 (Z.eqb_neq _ _) H0), Hin by lia.
  destruct (Z.leb_spec 0 (comparator v (sample (estimate0 f)))); [lia|]. cbn [orb].
  rewrite (Hin (estimate0 f)) by lia. by repeat case_match.
Qed.

Lemma sorted_le hist e later :
  StronglySorted (λ a b : entry V, time a <= time b) (hist ++ e :: later) →
  StronglySorted (λ a b : entry V, time a <= time b) hist ∧ Forall (λ x, time x <= time e) hist ∧
  Forall (λ x, time e <= time x) later.
Proof.
  intros (Hle & Hh & Hl)%StronglySorted_app. split_and!; [done| |by apply StronglySorted_cons in Hl as [Hl _]].
  apply Forall_forall. intros x Hx. apply (Hle x e); [done|by left].
Qed.

(** After a non-empty run of samples in time order the estimates track it and are ordered. *)
Lemma feed_tracks w hist v now : 0 <= w →
  tracks (feed (NewWindowedFilter w) (hist ++ [mkEntry v now])) (hist ++ [mkEntry v now]) now.
Proof.
  intros Hw. induction hist as [|e hist IH] using rev_ind in v, now |- *.
  { cbn. rewrite Update_fresh. by apply (Reset_tracks _ []). }
  rewrite feed_app. cbn [feed fold_left sample time]. destruct e as [v1 t1].
  apply Update_tracks with (last := t1); [by rewrite feed_windowLength|apply IH].
Qed.

Lemma feed_ordered w hist v now :
  0 <= now → StronglySorted (λ a b, time a <= time b) (hist ++ [mkEntry v now]) →
  Forall (λ e, 0 <= time e) hist →
  ordered (feed (NewWindowedFilter w) (hist ++ [mkEntry v now])) now.
Proof.
  intros Hnow Hs Hpos. induction hist as [|e hist IH] using rev_ind in v, now, Hnow, Hs, Hpos |- *.
  { cbn. rewrite Update_fresh. by apply Reset_ordered. }
  apply Forall_app in Hpos as [Hpos [He _]%Forall_cons].
  rewrite feed_app. cbn [feed fold_left sample time]. destruct e as [v1 t1]. cbn in He.
  destruct (sorted_le _ _ _ Hs) as (Hs1 & Hle & _). cbn in Hle.
  apply Forall_app in Hle as [_ [Hle _]%Forall_cons]. cbn in Hle.
  apply Update_ordered with (last := t1); [done|by apply IH].
Qed.

(** When samples arrive in time order the three estimates stay ranked from
    best to third best and were recorded in that order, the invariant the
    source comment promises. *)
Theorem estimates_stay_ordered w hist v now :
  0 <= now → StronglySorted (λ a b, time a <= time b) (hist ++ [mkEntry v now]) →
  Forall (λ e, 0 <= time e) hist →
  ordered (feed (NewWindowedFilter w) (hist ++ [mkEntry v now])) now.
Proof. apply feed_ordered. Qed.

(** A sample that is the best on its arrival becomes the estimate. *)
Lemma arrival_adopted w earlier v t : 0 <= w → best_on_arrival w earlier (mkEntry v t) →
  estimate0 (feed (NewWindowedFilter w) (earlier ++ [mkEntry v t])) = mkEntry v t.
Proof.
  intros Hw Hbest. destruct earlier as [|[v1 t1] earlier _] using rev_ind.
  { cbn. by rewrite Update_fresh. }
  rewrite feed_app. cbn [feed fold_left sample time].
  destruct (feed_tracks w earlier v1 t1 Hw) as ((a & b & Hab & _) & _ & _ & Hold).
  rewrite feed_windowLength in Hold.
  assert (estimate0 (feed (NewWindowedFilter w) (earlier ++ [mkEntry v1 t1])) ∈ earlier ++ [mkEntry v1 t1]) as Hin
    by (rewrite Hab at 2; apply list_elem_of_In, in_elt).
  pose proof (proj1 (Forall_forall _ _) Hbest _ Hin (mkEntry v1 t1)) as Hle.
  rewrite last_snoc in Hle. specialize (Hle eq_refl Hold). cbn [sample] in Hle.
  unfold Update. destruct (Z.leb_spec 0 (comparator v (sample (estimate0 (feed (NewWindowedFilter w) (earlier ++ [mkEntry v1 t1])))))) as [Hge|Hlt].
  - by rewrite orb_true_r.
  - apply comparator_anti in Hlt. lia.
Qed.

(** It stays the estimate until a sample as good comes or it leaves the window. *)
Lemma arrival_retained w earlier e later now : 0 <= w → now < 18446744073709551616 →
  best_on_arrival w earlier e → comparator (sample e) zero ≠ 0 →
  StronglySorted (λ a b, time a <= time b) (earlier ++ e :: later) →
  Forall (λ x, 0 <= time x) (earlier ++ e :: later) →
  Forall (λ x, comparator (sample x) (sample e) < 0) later →
  Forall (λ x, time x <= now) later → now - time e <= w →
  estimate0 (feed (NewWindowedFilter w) (earlier ++ e :: later)) = e.
Proof.
  intros Hw Hnow Hbest H0. induction later as [|[v t] later IH] using rev_ind; intros Hs Hpos Hlt Hle Hage.
  { destruct e. by apply arrival_adopted. }
  assert (earlier ++ e :: later ++ [mkEntry v t] = (earlier ++ e :: later) ++ [mkEntry v t]) as Heq by (by rewrite <- app_assoc).
  rewrite Heq in *. apply Forall_app in Hpos as [Hpos _], Hlt as [Hlt [Hv _]%Forall_cons], Hle as [Hle [Ht _]%Forall_cons].
  destruct (sorted_le _ _ _ Hs) as (Hs1 & Hts & _). specialize (IH Hs1 Hpos Hlt Hle Hage). cbn in Ht, Hv.
  assert (∃ hist v1 t1, earlier ++ e :: later = hist ++ [mkEntry v1 t1]) as (hist & v1 & t1 & Hh).
  { destruct (exists_last (l := earlier ++ e :: later)) as (hist & [v1 t1] & ->); [by destruct earlier|by exists hist, v1, t1]. }
  rewrite Hh in Hpos, Hs1, Hts. apply Forall_app in Hpos as [Hpos [Ht1 _]%Forall_cons], Hts as [_ [Hts _]%Forall_cons].
  pose proof (feed_ordered w hist v1 t1 Ht1 Hs1 Hpos) as Ho. rewrite <- Hh in Ho.
  rewrite feed_app. cbn [feed fold_left sample time] in *.
  rewrite (Update_retains _ v t t1); rewrite ?feed_windowLength, ?IH; try done; cbn in *; lia.
Qed.

(** C8. The filter reports the maximum of the window.  After any non-empty run of
    samples on a new filter: the best estimate is one of the samples, not older
    than the window, and every sample recorded after it is strictly worse; so it
    is never better than the maximum of the samples in the window, computed by
    looking at all of them.  It is that maximum (the latest one) whenever samples
    come in time order and the maximum was already the best of the window in which
    it came: the filter neither forgets it before it is older than the window nor
    keeps it longer.  (A sample that came while a better one was in the window can
    be forgotten: the filter keeps three estimates only.  A sample that compares
    equal to the zero value stands for none.) *)
Theorem best_is_windowed_max w hist v now :
  0 <= w →
  let samples := hist ++ [mkEntry v now] in
  let f := feed (NewWindowedFilter w) samples in
  (∃ earlier later, samples = earlier ++ estimate0 f :: later ∧
     Forall (λ x, comparator (sample x) (GetBest f) < 0) later) ∧
  older_than now w (estimate0 f) = false ∧
  ∃ e, window_best w now samples = Some e ∧
    comparator (GetBest f) (sample e) <= 0 ∧
    (StronglySorted (λ a b, time a <= time b) samples → Forall (λ x, 0 <= time x) samples →
     now < 18446744073709551616 → comparator (sample e) zero ≠ 0 →
     (∀ earlier later, samples = earlier ++ e :: later →
        Forall (λ x, comparator (sample x) (sample e) < 0) later → best_on_arrival w earlier e) →
     estimate0 f = e).
Proof.
  intros Hw samples f. destruct (feed_tracks w hist v now Hw) as (Hbest & _ & _ & Hold).
  rewrite feed_windowLength in Hold. cbn [windowLength NewWindowedFilter] in Hold. fold samples in Hbest, Hold. fold f in Hbest, Hold.
  split_and!; [exact Hbest|exact Hold|].
  assert (estimate0 f ∈ List.filter (λ x, negb (older_than now w x)) samples) as Hin.
  { apply list_elem_of_In, filter_In. rewrite Hold. split; [|done]. destruct Hbest as (a & b & Hab & _).
    rewrite Hab. apply in_elt. }
  unfold window_best. pose proof (best_of_spec (List.filter (λ x, negb (older_than now w x)) samples)) as Hspec.
  destruct (best_of _) as [e|]; [|rewrite Hspec in Hin; by apply elem_of_nil in Hin].
  destruct Hspec as (Hall & a & b & Hab & Hlt). exists e.
  split_and!; [done|by apply (proj1 (Forall_forall _ _) Hall)|].
  intros Hs Hpos Hnow H0 Harr. destruct (filter_app_cons _ _ _ _ _ Hab) as (earlier & later & Heq & ->).
  assert (older_than now w e = false) as He.
  { apply negb_true_iff. apply (filter_In (λ x, negb (older_than now w x)) e samples). rewrite Hab. apply in_elt. }
  assert (Forall (λ x, time x <= now) samples) as Hle.
  { apply Forall_app. split; [by apply (sorted_le hist (mkEntry v now) [])|by repeat constructor]. }
  rewrite Heq in Hle, Hs, Hpos. apply Forall_app in Hle as [_ [Hte Hle]%Forall_cons].
  apply Forall_app in Hpos as Hpos'. destruct Hpos' as [_ [Hpe Hpl]%Forall_cons].
  destruct (sorted_le _ _ _ Hs) as (_ & _ & Hge).
  assert (∀ x : entry V, time e <= time x <= now → older_than now w x = false) as Hwin.
  { intros x Hx. unfold older_than in *. rewrite u64_id in * by (unfold in_u64; lia). lia. }
  assert (List.filter (λ x, negb (older_than now w x)) later = later) as Hf.
  { clear Hab Hlt Heq Hs Hpos Hpl. induction later as [|x later IH]; [done|]. cbn.
    apply Forall_cons in Hle as [Hx Hle], Hge as [Hxe Hge]. rewrite Hwin by done. cbn. by rewrite IH. }
  rewrite Hf in Hlt. subst f. rewrite Heq. apply (arrival_retained w earlier e later now); try done.
  - by apply (Harr earlier later).
  - unfold older_than in He. rewrite u64_id in He by (unfold in_u64; lia). lia.
Qed.

End facts.

Lemma best_is_windowed_max_witness :
  let samples := [mkEntry 7 1; mkEntry 5 4] ++ [mkEntry 3 9] in
  let f := feed (Comparator0 := MaxFilter) (NewWindowedFilter 10) samples in
  estimate0 f = mkEntry 7 1 ∧
  (∃ earlier later, samples = earlier ++ estimate0 f :: later ∧
     Forall (λ x, MaxFilter (sample x) (GetBest f) < 0) later).
Proof.
  destruct (best_is_windowed_max (Comparator0 := MaxFilter) 10
           [mkEntry 7 1; mkEntry 5 4] 3 9 ltac:(lia)) as (Hl & _ & e & He & _ & Hb).
  assert (e = mkEntry 7 1) as -> by (vm_compute in He; congruence).
  split; [|exact Hl].
  apply Hb; [repeat (apply SSorted_nil || apply Forall_nil_2 || (constructor; cbn; try lia))|repeat constructor; cbn; lia|lia|vm_compute; discriminate|].
  intros earlier later Heq _. destruct earlier as [|x [|y [|z [|]]]]; try discriminate Heq. constructor.
Defined.

Lemma estimates_stay_ordered_witness :
  let f := feed (Comparator0 := MaxFilter) (NewWindowedFilter 10) ([mkEntry 7 1] ++ [mkEntry 5 4]) in
  GetSecondBest f = 5 ∧ ordered (Comparator0 := MaxFilter) f 4.
Proof.
  split; [by vm_compute|].
  apply (estimates_stay_ordered (Comparator0 := MaxFilter) 10 [mkEntry 7 1] 5 4).
  - lia.
  - repeat constructor; cbn; lia.
  - repeat constructor; cbn; lia.
Defined.

End Filter.

(** Clients reason with the lemmas, not by unfolding the operations. *)
#[global] Arguments Filter.Update : simpl never.
#[global] Arguments Filter.Reset : simpl never.
#[global] Arguments Filter.Clear : simpl never.
#[global] Arguments Filter.GetBest : simpl never.
#[global] Arguments Filter.GetSecondBest : simpl never.
#[global] Arguments Filter.GetThirdBest : simpl never.
#[global] Arguments Filter.NewWindowedFilter : simpl never.
