(* ===== verification/PacketQueue.v ===== *)
(** * Packet-number indexed queue
    (h3frontend/internal/congestion/bbr/packet_number_indexed_queue.go)

    A deque of mostly consecutive packet numbers over [Ring.RingBuffer].  The
    abstraction is a finite map from packet numbers to entries together with
    the last packet number inserted; every operation is a map operation. *)

From stdpp Require Import gmap.
From S2P Require Import Prelude RingBuffer.

Module PnQueue.

(** ** Data and operations *)

(** [congestion.PacketNumber] is a 64-bit integer; the queue reserves [-1]. *)
Definition invalidPacketNumber : Z := -1.

Record entryWrapper (T : Type) := mkWrapper { present : bool; wrapped : T }.
Arguments mkWrapper {T} present wrapped.
Arguments present {T} _.
Arguments wrapped {T} _.

#[global] Instance zero_entryWrapper T `{!Zero T} : Zero (entryWrapper T) := mkWrapper false zero.

Record packetNumberIndexedQueue (T : Type) := mkQueue {
  entries : Ring.RingBuffer (entryWrapper T);
  numberOfPresentEntries : Z;
  firstPacket : Z
}.
Arguments mkQueue {T} entries numberOfPresentEntries firstPacket.
Arguments entries {T} _.
Arguments numberOfPresentEntries {T} _.
Arguments firstPacket {T} _.

Section operations.
Context {T : Type} `{!Zero T}.
Implicit Types (q : packetNumberIndexedQueue T) (pn : Z).

Definition newPacketNumberIndexedQueue (size : Z) : result (packetNumberIndexedQueue T) :=
  ents ← Ring.Init zero size;
  Ok (mkQueue ents 0 invalidPacketNumber).

Definition IsEmpty q : bool := numberOfPresentEntries q =? 0.

Definition NumberOfPresentEntries q : Z := numberOfPresentEntries q.

Definition EntrySlotsUsed q : Z := Ring.Len (entries q).

Definition FirstPacket q : Z := firstPacket q.

Definition LastPacket q : Z :=
  if IsEmpty q then invalidPacketNumber
  else i64 (firstPacket q + (Ring.Len (entries q) - 1)).

(** [n] iterations of [p.entries.PushBack(entryWrapper[T]{})]. *)
Fixpoint pushMissing (n : nat) (ents : Ring.RingBuffer (entryWrapper T))
    : result (Ring.RingBuffer (entryWrapper T)) :=
  match n with
  | O => Ok ents
  | S n => ents ← Ring.PushBack ents zero; pushMissing n ents
  end.

(** The entry is passed by pointer; [None] is the nil pointer. *)
Definition Emplace q pn (entry : option T) : result (bool * packetNumberIndexedQueue T) :=
  match entry with
  | None => Ok (false, q)
  | Some e =>
      if pn =? invalidPacketNumber then Ok (false, q)
      else if IsEmpty q then
        ents ← Ring.PushBack (entries q) (mkWrapper true e);
        Ok (true, mkQueue ents 1 pn)
      else if pn <=? LastPacket q then Ok (false, q)
      else
        let offset := i64 (pn - FirstPacket q) in
        let gap := offset - Ring.Len (entries q) in
        ents ← (if 0 <? gap then pushMissing (Z.to_nat gap) (entries q) else Ok (entries q));
        ents ← Ring.PushBack ents (mkWrapper true e);
        Ok (true, mkQueue ents (numberOfPresentEntries q + 1) (firstPacket q))
  end.

(** A pointer to the wrapper of a present packet, if there is one. *)
Definition getEntryWraper q pn : result (option Ring.ptr) :=
  if (pn =? invalidPacketNumber) || IsEmpty q || (pn <? firstPacket q) then Ok None
  else
    let offset := i64 (pn - firstPacket q) in
    if Ring.Len (entries q) <=? offset then Ok None
    else
      ew ← Ring.Offset (entries q) offset;
      w ← Ring.load (entries q) ew;
      Ok (if present w then Some ew else None).

(** The source returns [&ew.entry]; callers only read through it, before any
    further operation on the queue, so the model returns the entry. *)
Definition GetEntry q pn : result (option T) :=
  ew ← getEntryWraper q pn;
  match ew with
  | None => Ok None
  | Some ew => w ← Ring.load (entries q) ew; Ok (Some (wrapped w))
  end.

(** [for !p.entries.Empty() && !p.entries.Front().present { ... }] *)
Fixpoint clearupLoop (fuel : nat) q : result (packetNumberIndexedQueue T) :=
  if Ring.Empty (entries q) then Ok q
  else
    ew ← Ring.Front (entries q);
    w ← Ring.load (entries q) ew;
    if present w then Ok q
    else
      match fuel with
      | O => OutOfFuel
      | S fuel =>
          '(_, ents) ← Ring.PopFront (entries q);
          clearupLoop fuel (mkQueue ents (numberOfPresentEntries q) (i64 (firstPacket q + 1)))
      end.

Definition clearup q : result (packetNumberIndexedQueue T) :=
  q ← clearupLoop (Z.to_nat (Ring.Len (entries q))) q;
  Ok (if Ring.Empty (entries q)
      then mkQueue (entries q) (numberOfPresentEntries q) invalidPacketNumber else q).

(** The removed entry is returned: it is the argument of the callback [f]. *)
Definition Remove q pn : result (option T * packetNumberIndexedQueue T) :=
  ew ← getEntryWraper q pn;
  match ew with
  | None => Ok (None, q)
  | Some ew =>
      w ← Ring.load (entries q) ew;
      ents ← Ring.store (entries q) ew (mkWrapper false (wrapped w));
      let q := mkQueue ents (numberOfPresentEntries q - 1) (firstPacket q) in
      q ← (if pn =? FirstPacket q then clearup q else Ok q);
      Ok (Some (wrapped w), q)
  end.

Fixpoint removeLoop (fuel : nat) q pn : result (packetNumberIndexedQueue T) :=
  if negb (Ring.Empty (entries q)) && negb (firstPacket q =? invalidPacketNumber)
     && (firstPacket q <? pn)
  then
    match fuel with
    | O => OutOfFuel
    | S fuel =>
        ew ← Ring.Front (entries q);
        w ← Ring.load (entries q) ew;
        let n := if present w then numberOfPresentEntries q - 1 else numberOfPresentEntries q in
        '(_, ents) ← Ring.PopFront (entries q);
        removeLoop fuel (mkQueue ents n (i64 (firstPacket q + 1))) pn
    end
  else Ok q.

Definition RemoveUpTo q pn : result (packetNumberIndexedQueue T) :=
  q ← removeLoop (Z.to_nat (Ring.Len (entries q))) q pn;
  clearup q.

(** ** Abstraction *)

(** The map held by consecutive slots whose first packet number is [pn]. *)
Fixpoint slots_map (pn : Z) (l : list (entryWrapper T)) : gmap Z T :=
  match l with
  | [] => ∅
  | w :: l =>
      let m := slots_map (pn + 1) l in
      if present w then <[pn := wrapped w]> m else m
  end.

Definition to_map q : gmap Z T := slots_map (firstPacket q) (Ring.contents (entries q)).

(** Largest packet number the queue accepts in the theorems; QUIC packet
    numbers are below [2^62]. *)
Definition maxPacketNumber : Z := 4611686018427387903.

(** Slots, count and numbering agree; the front may be absent. *)
Definition wf_slots q : Prop :=
  Ring.wf (entries q) ∧
  numberOfPresentEntries q = Z.of_nat (size (to_map q)) ∧
  0 <= firstPacket q ∧
  firstPacket q + Ring.Len (entries q) <= maxPacketNumber + 1.

(** The invariant between operations: the front slot is present. *)
Definition wf q : Prop :=
  Ring.wf (entries q) ∧
  numberOfPresentEntries q = Z.of_nat (size (to_map q)) ∧
  match Ring.contents (entries q) with
  | [] => firstPacket q = invalidPacketNumber
  | w :: _ => present w = true ∧ 0 <= firstPacket q ∧
              firstPacket q + Ring.Len (entries q) <= maxPacketNumber + 1
  end.

End operations.

(** ** The slot map *)

Section slots.
Context {T : Type} `{!Zero T}.
Implicit Types (l : list (entryWrapper T)) (w : entryWrapper T).

Lemma slots_map_lookup f l k :
  slots_map f l !! k =
    if decide (f <= k) then
      w ← l !! Z.to_nat (k - f);
      if present w then Some (wrapped w) else None
    else None.
Proof.
  induction l as [|w l IH] in f |- *; cbn [slots_map].
  { rewrite lookup_empty. by case_decide. }
  destruct (decide (k = f)) as [->|Hne].
  - rewrite decide_True, Z.sub_diag by lia. change (Z.to_nat 0) with 0%nat. cbn.
    destruct (present w); [by rewrite lookup_insert_eq|].
    by rewrite IH, decide_False by lia.
  - transitivity (slots_map (f + 1) l !! k).
    { destruct (present w); by rewrite ?lookup_insert_ne. }
    rewrite IH. destruct (decide (f + 1 <= k)).
    + rewrite decide_True by lia.
      by replace (Z.to_nat (k - f)) with (S (Z.to_nat (k - (f + 1)))) by lia.
    + by rewrite decide_False by lia.
Qed.

Lemma slots_map_lookup_below f l k : k < f → slots_map f l !! k = None.
Proof. intros. rewrite slots_map_lookup, decide_False by lia. done. Qed.

Lemma slots_map_lookup_above f l k : f + len l <= k → slots_map f l !! k = None.
Proof.
  intros. rewrite slots_map_lookup. case_decide; [|done].
  by rewrite lookup_ge_None_2 by (unfold len in *; lia).
Qed.

Lemma slots_map_app f l1 l2 :
  slots_map f (l1 ++ l2) = slots_map f l1 ∪ slots_map (f + len l1) l2.
Proof.
  induction l1 as [|w l1 IH] in f |- *; cbn [slots_map app].
  { by rewrite Z.add_0_r, (left_id_L ∅ (∪)). }
  rewrite IH, len_cons. replace (f + 1 + len l1) with (f + (len l1 + 1)) by lia.
  destruct (present w); [|done]. by rewrite insert_union_l.
Qed.

Lemma slots_map_absent f n : slots_map f (replicate n (zero (T := entryWrapper T))) = ∅.
Proof. induction n in f |- *; cbn; [done|]. by rewrite IHn. Qed.

(** Appending a present slot. *)
Lemma slots_map_push f l e :
  slots_map f (l ++ [mkWrapper true e]) = <[f + len l := e]> (slots_map f l).
Proof.
  rewrite slots_map_app. cbn. rewrite insert_empty.
  rewrite <- insert_union_singleton_r; [done|]. apply slots_map_lookup_above. lia.
Qed.

(** Appending absent slots. *)
Lemma slots_map_pad f l n :
  slots_map f (l ++ replicate n zero) = slots_map f l.
Proof. by rewrite slots_map_app, slots_map_absent, (right_id_L ∅ (∪)). Qed.

(** Dropping the front slot. *)
Lemma slots_map_tail f w l : slots_map (f + 1) l = delete f (slots_map f (w :: l)).
Proof.
  cbn. assert (slots_map (f + 1) l !! f = None) by (apply slots_map_lookup_below; lia).
  destruct (present w); [by rewrite delete_insert_id|by rewrite delete_id].
Qed.

(** Marking slot [i] absent. *)
Lemma slots_map_erase f l i w e :
  l !! i = Some w →
  slots_map f (<[i := mkWrapper false e]> l) = delete (f + Z.of_nat i) (slots_map f l).
Proof.
  intros Hi. apply map_eq. intros k. rewrite slots_map_lookup.
  destruct (decide (k = f + Z.of_nat i)) as [->|Hne].
  - rewrite lookup_delete_eq, decide_True by lia.
    replace (Z.to_nat (f + Z.of_nat i - f)) with i by lia.
    rewrite list_lookup_insert_eq; [done|]. by eapply lookup_lt_Some.
  - rewrite lookup_delete_ne, slots_map_lookup by done.
    case_decide; [|done]. by rewrite list_lookup_insert_ne by lia.
Qed.

Lemma slots_map_front_present f w l :
  present w = true → slots_map f (w :: l) !! f = Some (wrapped w).
Proof. intros Hw. cbn. by rewrite Hw, lookup_insert_eq. Qed.

Lemma slots_map_front_absent f w l :
  present w = false → slots_map f (w :: l) !! f = None.
Proof. intros Hw. cbn. rewrite Hw. apply slots_map_lookup_below. lia. Qed.

End slots.

(** ** Operations preserve the invariant and act on the map *)

Section facts.
Context {T : Type} `{!Zero T}.
Implicit Types (q : packetNumberIndexedQueue T) (pn : Z).

Lemma wf_ring q : wf q → Ring.wf (entries q).
Proof. by intros [? _]. Qed.

Lemma wf_slots_of_wf q : wf q → Ring.contents (entries q) ≠ [] → wf_slots q.
Proof. intros (? & ? & Hc) Hne. unfold wf_slots. destruct (Ring.contents _); [done|]. tauto. Qed.

Lemma IsEmpty_contents q : wf q → IsEmpty q = true ↔ Ring.contents (entries q) = [].
Proof.
  intros (Hr & Hn & Hc). unfold IsEmpty. rewrite Z.eqb_eq, Hn. unfold to_map.
  destruct (Ring.contents (entries q)) as [|w l]; [cbn; by rewrite map_size_empty|].
  split; [|done]. intros Hs.
  pose proof (slots_map_front_present (firstPacket q) w l (proj1 Hc)) as Hf.
  assert (slots_map (firstPacket q) (w :: l) = ∅) as He by (apply map_size_empty_iff; lia).
  by rewrite He, lookup_empty in Hf.
Qed.

Lemma IsEmpty_map q : wf q → IsEmpty q = true ↔ to_map q = ∅.
Proof.
  intros (Hr & Hn & Hc). unfold IsEmpty. rewrite Z.eqb_eq, Hn.
  rewrite <- (map_size_empty_iff (to_map q)). lia.
Qed.

Lemma LastPacket_eq q :
  wf q → LastPacket q = if IsEmpty q then -1 else firstPacket q + Ring.Len (entries q) - 1.
Proof.
  intros Hwf. unfold LastPacket. destruct (IsEmpty q) eqn:He; [done|].
  destruct (wf_slots_of_wf q Hwf) as (Hr & _ & ? & Hb).
  { intros Hc%IsEmpty_contents; [|done]. congruence. }
  pose proof (Ring.Len_bounds _ Hr). unfold maxPacketNumber in Hb.
  rewrite i64_id by mach. lia.
Qed.

Lemma wf_intro (ents : Ring.RingBuffer (entryWrapper T)) n first w l :
  Ring.wf ents → Ring.contents ents = w :: l → present w = true → 0 <= first →
  first + Ring.Len ents <= maxPacketNumber + 1 →
  n = Z.of_nat (size (slots_map first (w :: l))) → wf (mkQueue ents n first).
Proof. intros Hr Hc Hw Hf Hb Hn. unfold wf, to_map. cbn [entries]. by rewrite Hc. Qed.

Lemma new_returns size :
  0 <= size → returns (newPacketNumberIndexedQueue size)
    (λ q, wf q ∧ to_map q = ∅ ∧ LastPacket q = -1).
Proof.
  intros Hs. unfold newPacketNumberIndexedQueue.
  eapply returns_bind; [by apply Ring.Init_returns|]. intros ents [Hwf Hc].
  apply returns_ok. unfold wf, to_map. cbn [entries]. rewrite Hc. cbn. by rewrite map_size_empty.
Qed.

Lemma pushMissing_returns n (ents : Ring.RingBuffer (entryWrapper T)) :
  Ring.wf ents →
  returns (pushMissing n ents) (λ ents', Ring.wf ents' ∧
    Ring.contents ents' = Ring.contents ents ++ replicate n zero).
Proof.
  revert ents. induction n as [|n IH]; intros ents Hwf; cbn.
  { apply returns_ok. by rewrite app_nil_r. }
  eapply returns_bind; [by apply Ring.PushBack_returns|]. intros ents' [Hwf' Hc].
  apply (returns_mono _ _ _ (IH ents' Hwf')). intros ents'' [? ->].
  split; [done|]. by rewrite Hc, <- app_assoc.
Qed.

(** Insertion into an empty queue starts a new numbering. *)
Lemma Emplace_first q pn e :
  wf q → 0 <= pn <= maxPacketNumber → IsEmpty q = true →
  returns (Emplace q pn (Some e)) (λ '(b, q'), b = true ∧ wf q' ∧
    to_map q' = {[pn := e]} ∧ LastPacket q' = pn).
Proof.
  intros Hwf Hpn He. pose proof (wf_ring q Hwf) as Hr.
  unfold Emplace. rewrite He. unfold invalidPacketNumber. replace (pn =? -1) with false by lia.
  eapply returns_bind; [by apply Ring.PushBack_returns|]. intros ents [Hwf' Hc].
  apply IsEmpty_contents in He; [|done]. rewrite He in Hc. cbn in Hc.
  assert (Ring.Len ents = 1) as HL by (rewrite <- Ring.contents_len, Hc by done; done).
  assert (wf (mkQueue ents 1 pn)) as Hq.
  { eapply wf_intro; [done|exact Hc|done|lia|lia|]. cbn. by rewrite insert_empty, map_size_singleton. }
  apply returns_ok. split_and!; [done|done| |].
  - unfold to_map. cbn [entries firstPacket]. rewrite Hc. cbn. by rewrite insert_empty.
  - rewrite LastPacket_eq by done. cbn. lia.
Qed.

(** Insertion past the end pads with absent slots. *)
Lemma Emplace_next q pn e :
  wf q → pn <= maxPacketNumber → IsEmpty q = false → LastPacket q < pn →
  returns (Emplace q pn (Some e)) (λ '(b, q'), b = true ∧ wf q' ∧
    to_map q' = <[pn := e]> (to_map q) ∧ LastPacket q' = pn).
Proof.
  intros Hwf Hpn He Hlast. pose proof (wf_ring q Hwf) as Hr.
  assert (Ring.contents (entries q) ≠ []) as Hne.
  { intros Hc%IsEmpty_contents; [|done]. congruence. }
  destruct (wf_slots_of_wf q Hwf Hne) as (_ & Hn & Hf & Hb).
  pose proof (Ring.Len_bounds _ Hr) as HL. pose proof (Ring.contents_len _ Hr) as Hcl.
  assert (0 < Ring.Len (entries q)) as HL0.
  { rewrite <- Hcl. destruct (Ring.contents _); [done|rewrite len_cons]. pose proof (len_nonneg l). lia. }
  unfold Emplace. rewrite He. replace (pn <=? LastPacket q) with false by lia.
  rewrite LastPacket_eq, He in Hlast by done. unfold invalidPacketNumber, FirstPacket.
  replace (pn =? -1) with false by lia.
  unfold maxPacketNumber in *. rewrite i64_id by mach.
  set (gap := pn - firstPacket q - _).
  apply (returns_bind _ _ (λ ents, Ring.wf ents ∧
    Ring.contents ents = Ring.contents (entries q) ++ replicate (Z.to_nat gap) zero)).
  { destruct (0 <? gap) eqn:Hg; [by apply pushMissing_returns|].
    apply returns_ok. replace (Z.to_nat gap) with 0%nat by lia. by rewrite app_nil_r. }
  intros ents [Hr' Hc']. eapply returns_bind; [by apply Ring.PushBack_returns|].
  intros ents' [Hr'' Hc'']. rewrite Hc' in Hc''.
  assert (len (Ring.contents (entries q) ++ replicate (Z.to_nat gap) (zero (T:=entryWrapper T)))
    = pn - firstPacket q) as Hlen.
  { rewrite len_app, Hcl. unfold len. rewrite length_replicate. subst gap. lia. }
  assert (Ring.Len ents' = pn - firstPacket q + 1) as HL'.
  { rewrite <- Ring.contents_len, Hc'', len_app, Hlen by done. done. }
  assert (slots_map (firstPacket q) (Ring.contents ents') = <[pn := e]> (to_map q)) as Hmap.
  { rewrite Hc'', slots_map_push, slots_map_pad, Hlen. unfold to_map. f_equal. lia. }
  assert (to_map q !! pn = None) as Hfresh by (apply slots_map_lookup_above; lia).
  assert (wf (mkQueue ents' (numberOfPresentEntries q + 1) (firstPacket q))) as Hq.
  { destruct Hwf as (_ & _ & Hfront). destruct (Ring.contents (entries q)) as [|w l]; [done|].
    eapply wf_intro; [done|exact Hc''|tauto|done|unfold maxPacketNumber; lia|].
    replace (slots_map _ _) with (slots_map (firstPacket q) (Ring.contents ents'))
      by (by rewrite Hc'').
    rewrite Hmap, map_size_insert_None by done. lia. }
  apply returns_ok. split_and!; [done|done|done|].
  rewrite LastPacket_eq by done. unfold IsEmpty. cbn.
  replace (numberOfPresentEntries q + 1 =? 0) with false by lia. lia.
Qed.

Lemma Emplace_rejected q pn e :
  pn = -1 ∨ IsEmpty q = false ∧ pn <= LastPacket q → Emplace q pn (Some e) = Ok (false, q).
Proof.
  intros H. unfold Emplace, invalidPacketNumber. destruct (Z.eqb_spec pn (-1)); [done|].
  destruct H as [->|[-> Hle]]; [done|]. by replace (pn <=? LastPacket q) with true by lia.
Qed.

Lemma getEntryWraper_spec q pn :
  wf q → in_i64 pn →
  match to_map q !! pn with
  | Some e =>
      let i := pn - firstPacket q in
      0 <= i < Ring.Len (entries q) ∧
      Ring.contents (entries q) !! Z.to_nat i = Some (mkWrapper true e) ∧
      getEntryWraper q pn = Ok (Some (Ring.slot (entries q) i))
  | None => getEntryWraper q pn = Ok None
  end.
Proof.
  intros Hwf Hpn. pose proof (wf_ring q Hwf) as Hr. unfold getEntryWraper.
  destruct (decide (Ring.contents (entries q) = [])) as [Hc|Hc].
  { unfold to_map. rewrite Hc. cbn. rewrite (proj2 (IsEmpty_contents q Hwf) Hc), orb_true_r. done. }
  destruct (wf_slots_of_wf q Hwf Hc) as (_ & _ & Hf & Hb). unfold maxPacketNumber in Hb.
  pose proof (Ring.Len_bounds _ Hr). pose proof (Ring.contents_len _ Hr) as Hcl.
  assert (IsEmpty q = false) as ->.
  { destruct (IsEmpty q) eqn:He; [|done]. by apply IsEmpty_contents in He. }
  unfold to_map, invalidPacketNumber. rewrite slots_map_lookup.
  destruct (decide (firstPacket q <= pn)) as [Hle|Hgt].
  2: { by replace ((pn =? -1) || false || (pn <? firstPacket q)) with true by lia. }
  replace ((pn =? -1) || false || (pn <? firstPacket q)) with false by lia.
  rewrite i64_id by mach.
  destruct (Z.leb_spec (Ring.Len (entries q)) (pn - firstPacket q)) as [Hge|Hlt].
  { by rewrite lookup_ge_None_2 by (unfold len in *; lia). }
  destruct (lookup_lt_is_Some_2 (Ring.contents (entries q)) (Z.to_nat (pn - firstPacket q)))
    as [[b e] Hw]; [unfold len in *; lia|].
  rewrite Ring.Offset_ok by (done || lia). cbn [mbind result_bind].
  assert (0 <= pn - firstPacket q < Ring.Len (entries q)) as Hi by lia.
  rewrite (Ring.load_slot _ _ _ Hr Hi Hw), Hw. cbn. by destruct b.
Qed.

(** [GetEntry] is the lookup of the abstract map. *)
Lemma GetEntry_spec q pn : wf q → in_i64 pn → GetEntry q pn = Ok (to_map q !! pn).
Proof.
  intros Hwf Hpn. pose proof (getEntryWraper_spec q pn Hwf Hpn) as H. unfold GetEntry.
  destruct (to_map q !! pn) as [e|]; [|by rewrite H].
  destruct H as (Hi & Hw & ->). cbn.
  by rewrite (Ring.load_slot _ _ _ (wf_ring q Hwf) Hi Hw).
Qed.

(** What popping the front slot does to a queue under repair. *)
Lemma pop_slot q w l :
  wf_slots q → Ring.contents (entries q) = w :: l →
  Ring.Front (entries q) = Ok (Ring.slot (entries q) 0) ∧
  Ring.load (entries q) (Ring.slot (entries q) 0) = Ok w ∧
  let n := if present w then numberOfPresentEntries q - 1 else numberOfPresentEntries q in
  ∃ ents, Ring.PopFront (entries q) = Ok (w, ents) ∧ Ring.contents ents = l ∧
    let q' := mkQueue ents n (i64 (firstPacket q + 1)) in
    wf_slots q' ∧ firstPacket q' = firstPacket q + 1 ∧
    Ring.Len ents = Ring.Len (entries q) - 1 ∧
    to_map q' = delete (firstPacket q) (to_map q).
Proof.
  intros (Hr & Hn & Hf & Hb) Hc. pose proof (Ring.contents_len _ Hr) as Hl.
  rewrite Hc, len_cons in Hl. pose proof (len_nonneg l).
  pose proof (Ring.PopFront_spec _ Hr) as Hp. rewrite Hc in Hp.
  destruct Hp as (ents & Hp & Hr' & Hc' & _).
  assert (Ring.Len ents = Ring.Len (entries q) - 1) as HL.
  { rewrite <- Ring.contents_len, Hc' by done. lia. }
  split_and!; [apply Ring.Front_ok; [done|lia]| |].
  { apply Ring.load_slot; [done|lia|]. by rewrite Hc. }
  exists ents. split; [done|]. split; [done|]. cbn zeta.
  rewrite (i64_id (firstPacket q + 1)) by (unfold maxPacketNumber in Hb; mach).
  set (q' := mkQueue _ _ _).
  assert (to_map q' = delete (firstPacket q) (to_map q)) as Hmap.
  { unfold to_map. cbn [entries firstPacket q']. rewrite Hc', Hc. by apply slots_map_tail. }
  unfold wf_slots. rewrite Hmap. cbn [entries firstPacket numberOfPresentEntries q'].
  split_and!; try done; try lia.
  unfold to_map in *. rewrite Hc in *. destruct (present w) eqn:Hw.
  - rewrite map_size_delete_Some by (eexists; by apply slots_map_front_present).
    assert (size (slots_map (firstPacket q) (w :: l)) ≠ 0%nat); [|lia].
    intros E%map_size_empty_iff. pose proof (slots_map_front_present (firstPacket q) _ l Hw) as Hlk.
    by rewrite E, lookup_empty in Hlk.
  - by rewrite delete_id by by apply slots_map_front_absent.
Qed.

Lemma clearupLoop_returns n q :
  wf_slots q → Ring.Len (entries q) <= Z.of_nat n →
  returns (clearupLoop n q) (λ q', wf_slots q' ∧ to_map q' = to_map q ∧
    firstPacket q' + Ring.Len (entries q') = firstPacket q + Ring.Len (entries q) ∧
    (∀ w l, Ring.contents (entries q') = w :: l → present w = true)).
Proof.
  revert q. induction n as [|n IH]; intros q Hwf Hfuel;
    pose proof Hwf as (Hr & _); pose proof (Ring.contents_len _ Hr) as Hl;
    cbn [clearupLoop]; destruct (Ring.contents (entries q)) as [|w l] eqn:Hc.
  1,3: rewrite (proj1 (Ring.contents_nil _ Hr) Hc); apply returns_ok; split_and!;
       [done|done|done|intros; congruence].
  - rewrite len_cons in Hl. pose proof (len_nonneg l). lia.
  - assert (Ring.Empty (entries q) = false) as ->.
    { destruct (Ring.Empty _) eqn:He; [|done]. apply Ring.contents_nil in He; congruence. }
    destruct (pop_slot q w l Hwf Hc) as (-> & Hload & ents & Hpop & Hc' & Hwf' & Hf & HL & Hmap).
    cbn [mbind result_bind]. rewrite Hload. cbn [mbind result_bind].
    destruct (present w) eqn:Hw.
    { apply returns_ok. split_and!; [done|done|done|]. intros; congruence. }
    rewrite Hpop. cbn [mbind result_bind].
    apply (returns_mono _ _ _ (IH _ Hwf' ltac:(cbn [entries]; lia))).
    intros q' (? & Hm & Hsum & ?). rewrite Hm, Hmap, Hsum, Hf. cbn [entries].
    split_and!; [done| |lia|done].
    apply delete_id. unfold to_map. rewrite Hc. by apply slots_map_front_absent.
Qed.

(** [clearup] restores the invariant without changing the map. *)
Lemma clearup_returns q :
  wf_slots q →
  returns (clearup q) (λ q', wf q' ∧ to_map q' = to_map q ∧
    (to_map q ≠ ∅ → LastPacket q' = firstPacket q + Ring.Len (entries q) - 1)).
Proof.
  intros Hwf. pose proof (Ring.Len_bounds _ (proj1 Hwf)).
  unfold clearup. eapply returns_bind; [apply clearupLoop_returns; [done|lia]|].
  intros q' (Hwf' & Hm & Hsum & Hfront). apply returns_ok. pose proof Hwf' as (Hr & Hn & Hf & Hb).
  destruct (Ring.contents (entries q')) as [|w l] eqn:Hc.
  - rewrite (proj1 (Ring.contents_nil _ Hr) Hc).
    assert (to_map q = ∅) as He by (rewrite <- Hm; unfold to_map; by rewrite Hc).
    split_and!; [|unfold to_map at 1; cbn [entries firstPacket]; by rewrite Hc, He|done].
    unfold wf, to_map. cbn [entries firstPacket numberOfPresentEntries].
    rewrite Hc, Hn, Hm, He. done.
  - assert (Ring.Empty (entries q') = false) as ->.
    { destruct (Ring.Empty _) eqn:He; [|done]. apply Ring.contents_nil in He; congruence. }
    assert (wf q') as Hq'.
    { unfold wf. rewrite Hc. split_and!; [done|done|by eapply Hfront|done|done]. }
    split_and!; [done|done|]. intros Hne. rewrite LastPacket_eq, Hsum by done.
    destruct (IsEmpty q') eqn:He; [|lia]. apply IsEmpty_map in He; [|done]. congruence.
Qed.

(** [Remove] deletes one packet and reports the entry it held. *)
Lemma Remove_returns q pn :
  wf q → in_i64 pn →
  returns (Remove q pn) (λ '(out, q'), out = to_map q !! pn ∧ wf q' ∧
    to_map q' = delete pn (to_map q) ∧
    (delete pn (to_map q) ≠ ∅ → LastPacket q' = LastPacket q)).
Proof.
  intros Hwf Hpn. pose proof (getEntryWraper_spec q pn Hwf Hpn) as Hget.
  pose proof (wf_ring q Hwf) as Hr. unfold Remove.
  destruct (to_map q !! pn) as [e|] eqn:Hlook.
  2: { rewrite Hget. apply returns_ok. by rewrite delete_id. }
  destruct Hget as (Hi & Hw & ->). cbn [mbind result_bind].
  rewrite (Ring.load_slot _ _ _ Hr Hi Hw). cbn [mbind result_bind wrapped].
  assert (Ring.contents (entries q) ≠ []) as Hne by (intros Hc; by rewrite Hc in Hw).
  destruct (wf_slots_of_wf q Hwf Hne) as (_ & Hn & Hf & Hb).
  eapply returns_bind; [by apply Ring.store_slot|]. intros ents [Hr' Hc'].
  assert (Ring.Len ents = Ring.Len (entries q)) as HL.
  { rewrite <- !Ring.contents_len, Hc', len_insert by done. done. }
  set (q1 := mkQueue _ _ _).
  assert (to_map q1 = delete pn (to_map q)) as Hmap.
  { unfold to_map. cbn [entries firstPacket q1]. rewrite Hc', (slots_map_erase _ _ _ _ _ Hw).
    f_equal. lia. }
  assert (size (to_map q) ≠ 0%nat) as Hsz.
  { intros E%map_size_empty_iff. by rewrite E in Hlook. }
  assert (wf_slots q1) as Hwf1.
  { unfold wf_slots. rewrite Hmap, map_size_delete_Some by done. cbn [q1 entries firstPacket
      numberOfPresentEntries]. split_and!; [done|lia|done|lia]. }
  assert (LastPacket q = firstPacket q1 + Ring.Len (entries q1) - 1) as Hlast.
  { rewrite LastPacket_eq by done. cbn [q1 entries firstPacket]. rewrite HL.
    destruct (IsEmpty q) eqn:He; [|done]. by apply IsEmpty_contents in He. }
  unfold FirstPacket. cbn [q1 firstPacket]. fold q1.
  apply (returns_bind _ _ (λ q', wf q' ∧ to_map q' = delete pn (to_map q) ∧
    (delete pn (to_map q) ≠ ∅ → LastPacket q' = LastPacket q))).
  2: { intros q' (? & ? & ?). by apply returns_ok. }
  destruct (Z.eqb_spec pn (firstPacket q)) as [->|Hother].
  - apply (returns_mono _ _ _ (clearup_returns q1 Hwf1)).
    intros q' (? & -> & Hl). rewrite Hmap in *. split_and!; [done|done|].
    intros Hd. by rewrite Hl, Hlast.
  - assert (∃ w l, Ring.contents ents = w :: l ∧ present w = true) as (w & l & Hcons & Hpw).
    { destruct Hwf as (_ & _ & Hfront). rewrite Hc'.
      destruct (Ring.contents (entries q)) as [|w l]; [done|].
      destruct (Z.to_nat (pn - firstPacket q)) as [|n] eqn:En; [lia|].
      exists w. eexists. split; [done|]. tauto. }
    assert (wf q1) as Hq1.
    { destruct Hwf1 as (? & ? & ? & ?). unfold wf. cbn [q1 entries] in *. by rewrite Hcons. }
    apply returns_ok. split_and!; [done|done|]. intros Hd.
    rewrite (LastPacket_eq q1), Hlast by done.
    destruct (IsEmpty q1) eqn:He; [|done]. apply IsEmpty_map in He; congruence.
Qed.

(** The packets [RemoveUpTo] keeps. *)
Definition from_packet pn (m : gmap Z T) : gmap Z T := filter (λ '(k, _), pn <= k) m.

Lemma from_packet_delete pn k (m : gmap Z T) :
  k < pn → from_packet pn (delete k m) = from_packet pn m.
Proof.
  intros Hk. unfold from_packet. rewrite map_filter_delete. apply delete_id.
  apply map_lookup_filter_None. right. intros ? _. cbn. lia.
Qed.

Lemma from_packet_all pn first (l : list (entryWrapper T)) :
  pn <= first → from_packet pn (slots_map first l) = slots_map first l.
Proof.
  intros Hle. apply map_filter_id. intros k e He.
  destruct (decide (k < first)); [|cbn; lia]. by rewrite slots_map_lookup_below in He.
Qed.

Lemma removeLoop_returns n q pn :
  wf_slots q → Ring.Len (entries q) <= Z.of_nat n →
  returns (removeLoop n q pn) (λ q', wf_slots q' ∧ to_map q' = from_packet pn (to_map q) ∧
    firstPacket q' + Ring.Len (entries q') = firstPacket q + Ring.Len (entries q)).
Proof.
  revert q. induction n as [|n IH]; intros q Hwf Hfuel;
    pose proof Hwf as (Hr & _ & Hf & _); pose proof (Ring.contents_len _ Hr) as Hl;
    cbn [removeLoop]; destruct (Ring.contents (entries q)) as [|w l] eqn:Hc.
  1,3: rewrite (proj1 (Ring.contents_nil _ Hr) Hc); apply returns_ok; split_and!;
       [done|unfold to_map; by rewrite Hc|done].
  - rewrite len_cons in Hl. pose proof (len_nonneg l). lia.
  - assert (Ring.Empty (entries q) = false) as ->.
    { destruct (Ring.Empty _) eqn:He; [|done]. apply Ring.contents_nil in He; congruence. }
    unfold invalidPacketNumber. replace (firstPacket q =? -1) with false by lia. cbn [negb andb].
    destruct (Z.ltb_spec (firstPacket q) pn) as [Hlt|Hge].
    2: { apply returns_ok. split_and!; [done|by symmetry; apply from_packet_all|done]. }
    destruct (pop_slot q w l Hwf Hc) as (-> & Hload & ents & Hpop & Hc' & Hwf' & Hf' & HL & Hmap).
    cbn [mbind result_bind]. rewrite Hload. cbn [mbind result_bind].
    rewrite Hpop. cbn [mbind result_bind].
    apply (returns_mono _ _ _ (IH _ Hwf' ltac:(cbn [entries]; lia))).
    intros q' (? & -> & ->). rewrite Hmap, Hf', from_packet_delete by done. cbn [entries].
    split_and!; [done|done|lia].
Qed.

(** [RemoveUpTo] keeps exactly the packets from [pn] on. *)
Lemma RemoveUpTo_returns q pn :
  wf q →
  returns (RemoveUpTo q pn) (λ q', wf q' ∧ to_map q' = from_packet pn (to_map q) ∧
    (from_packet pn (to_map q) ≠ ∅ → LastPacket q' = LastPacket q)).
Proof.
  intros Hwf. pose proof (Ring.Len_bounds _ (wf_ring q Hwf)) as HL. unfold RemoveUpTo.
  destruct (decide (Ring.contents (entries q) = [])) as [Hc|Hc].
  - pose proof (proj1 (Ring.contents_nil _ (wf_ring q Hwf)) Hc) as He.
    destruct (Z.to_nat _); cbn [removeLoop]; rewrite He; cbn [negb andb mbind result_bind];
      unfold clearup; (destruct (Z.to_nat _); cbn [clearupLoop]; rewrite He);
      cbn [mbind result_bind]; apply returns_ok; rewrite He;
      pose proof Hwf as (? & ? & Hfirst); rewrite Hc in Hfirst;
      (replace (mkQueue _ _ _) with q by (destruct q; cbn in *; congruence));
      unfold to_map; rewrite Hc; done.
  - eapply returns_bind; [apply removeLoop_returns; [by apply wf_slots_of_wf|lia]|].
    intros q1 (Hwf1 & Hm1 & Hsum). apply (returns_mono _ _ _ (clearup_returns q1 Hwf1)).
    intros q' (? & -> & Hl). rewrite Hm1 in *. split_and!; [done|done|].
    intros Hd. rewrite (Hl Hd), Hsum, LastPacket_eq by done.
    destruct (IsEmpty q) eqn:He; [|done]. by apply IsEmpty_contents in He.
Qed.

End facts.

(** ** Refinement: the queue is a map with an insertion frontier *)

Inductive op (T : Type) :=
  | OEmplace (pn : Z) (e : T)
  | OGet (pn : Z)
  | ORemove (pn : Z)
  | ORemoveUpTo (pn : Z)
  | OCount.
Arguments OEmplace {T} pn e.
Arguments OGet {T} pn.
Arguments ORemove {T} pn.
Arguments ORemoveUpTo {T} pn.
Arguments OCount {T}.

Inductive output (T : Type) :=
  | Inserted (b : bool)
  | Found (e : option T)
  | Count (n : Z)
  | Done.
Arguments Inserted {T} b.
Arguments Found {T} e.
Arguments Count {T} n.
Arguments Done {T}.

Section refinement.
Context {T : Type} `{!Zero T}.

Definition step (o : op T) (q : packetNumberIndexedQueue T)
    : result (output T * packetNumberIndexedQueue T) :=
  match o with
  | OEmplace pn e => '(b, q) ← Emplace q pn (Some e); Ok (Inserted b, q)
  | OGet pn => e ← GetEntry q pn; Ok (Found e, q)
  | ORemove pn => '(e, q) ← Remove q pn; Ok (Found e, q)
  | ORemoveUpTo pn => q ← RemoveUpTo q pn; Ok (Done, q)
  | OCount => Ok (Count (NumberOfPresentEntries q), q)
  end.

Fixpoint run (os : list (op T)) (q : packetNumberIndexedQueue T)
    : result (list (output T) * packetNumberIndexedQueue T) :=
  match os with
  | [] => Ok ([], q)
  | o :: os => '(a, q) ← step o q; '(out, q) ← run os q; Ok (a :: out, q)
  end.

(** The specification state: the entries and the last number inserted, which
    is forgotten when the queue becomes empty. *)
Definition settle (m : gmap Z T) (last : Z) : gmap Z T * Z :=
  (m, if decide (m = ∅) then -1 else last).

Definition spec_step (o : op T) (s : gmap Z T * Z) : output T * (gmap Z T * Z) :=
  let '(m, last) := s in
  match o with
  | OEmplace pn e =>
      if decide (pn = -1) then (Inserted false, s)
      else if decide (m = ∅) then (Inserted true, ({[pn := e]}, pn))
      else if decide (pn <= last) then (Inserted false, s)
      else (Inserted true, (<[pn := e]> m, pn))
  | OGet pn => (Found (m !! pn), s)
  | ORemove pn => (Found (m !! pn), settle (delete pn m) last)
  | ORemoveUpTo pn => (Done, settle (from_packet pn m) last)
  | OCount => (Count (Z.of_nat (size m)), s)
  end.

Fixpoint spec_run (os : list (op T)) (s : gmap Z T * Z) : list (output T) * (gmap Z T * Z) :=
  match os with
  | [] => ([], s)
  | o :: os => let '(a, s) := spec_step o s in let '(out, s) := spec_run os s in (a :: out, s)
  end.

Definition valid_op (o : op T) : Prop :=
  match o with
  | OEmplace pn _ | OGet pn | ORemove pn | ORemoveUpTo pn => -1 <= pn <= maxPacketNumber
  | OCount => True
  end.

Definition abs (q : packetNumberIndexedQueue T) : gmap Z T * Z := (to_map q, LastPacket q).

Lemma abs_settle q m last :
  wf q → to_map q = m → (m ≠ ∅ → LastPacket q = last) → abs q = settle m last.
Proof.
  intros Hwf <- Hl. unfold abs, settle. case_decide as Hm; [|by rewrite Hl].
  rewrite LastPacket_eq by done. by rewrite (proj2 (IsEmpty_map q Hwf)).
Qed.

Lemma queue_step_refines o q :
  wf q → valid_op o →
  returns (step o q) (λ '(a, q'), wf q' ∧ (a, abs q') = spec_step o (abs q)).
Proof.
  intros Hwf Hv. destruct o as [pn e|pn|pn|pn|]; unfold abs at 2;
    cbn [step spec_step valid_op] in *.
  - pose proof (IsEmpty_map q Hwf) as He.
    destruct (decide (pn = -1)) as [->|]; [|destruct (decide (to_map q = ∅)) as [Hm|Hm]].
    + rewrite Emplace_rejected by auto. by apply returns_ok.
    + eapply returns_bind; [apply Emplace_first; [done|lia|by apply He]|].
      intros [b q'] (-> & ? & Hm' & Hl). apply returns_ok. unfold abs. by rewrite Hm', Hl.
    + assert (IsEmpty q = false) as HE by (destruct (IsEmpty q); [by destruct Hm; apply He|done]).
      case_decide as Hle; [rewrite Emplace_rejected by auto; by apply returns_ok|].
      eapply returns_bind; [apply Emplace_next; [done|lia|done|lia]|].
      intros [b q'] (-> & ? & Hm' & Hl). apply returns_ok. unfold abs. by rewrite Hm', Hl.
  - rewrite GetEntry_spec by (done || (unfold maxPacketNumber in Hv; mach)). by apply returns_ok.
  - eapply returns_bind; [apply Remove_returns; [done|unfold maxPacketNumber in Hv; mach]|].
    intros [out q'] (-> & ? & Hm & Hl). apply returns_ok. by erewrite abs_settle.
  - eapply returns_bind; [by apply RemoveUpTo_returns|].
    intros q' (? & Hm & Hl). apply returns_ok. by erewrite abs_settle.
  - apply returns_ok. split; [done|]. destruct Hwf as (_ & <- & _). done.
Qed.

(** C5. The queue refines a finite map: from a new queue, any sequence of
    insertions, look-ups, removals and prefix removals returns (no panic, every
    loop ends), with the outputs of the map specification.  In particular an
    insertion succeeds exactly when the queue is empty or the number is past
    the last one inserted. *)
Theorem queue_refines_map size os :
  0 <= size → Forall valid_op os →
  returns (newPacketNumberIndexedQueue size) (λ q,
    returns (run os q) (λ '(out, q'), (out, abs q') = spec_run os (∅, -1))).
Proof.
  intros Hs Hos. apply (returns_mono _ _ _ (new_returns size Hs)). intros q (Hwf & Hm & Hl).
  replace (∅, -1) with (abs q) by (unfold abs; by rewrite Hm, Hl). clear Hs Hm Hl.
  revert q Hwf. induction Hos as [|o os Ho Hos IH]; intros q Hwf; cbn [run spec_run].
  { by apply returns_ok. }
  destruct (queue_step_refines o q Hwf Ho) as ([a q1] & -> & Hwf1 & <-). cbn [mbind result_bind].
  destruct (IH q1 Hwf1) as ([out q2] & -> & <-). by apply returns_ok.
Qed.

End refinement.

Lemma queue_refines_map_witness :
  let os := [OEmplace 5 50; OEmplace 8 80; OEmplace 7 70; OGet 8; ORemove 5; OGet 5;
             ORemoveUpTo 9; OCount; OEmplace 2 20] in
  fst (spec_run os (∅, -1)) = [Inserted true; Inserted true; Inserted false; Found (Some 80);
    Found (Some 50); Found None; Done; Count 0; Inserted true] ∧
  returns (newPacketNumberIndexedQueue 2) (λ q,
    returns (run os q) (λ '(out, q'), (out, abs q') = spec_run os (∅, -1))).
Proof.
  split; [by vm_compute|]. apply (queue_refines_map (T := Z) 2); [lia|].
  repeat constructor; unfold maxPacketNumber; cbn; lia.
Defined.

End PnQueue.

(** Clients reason with the lemmas, not by unfolding the operations. *)
#[global] Arguments PnQueue.newPacketNumberIndexedQueue : simpl never.
#[global] Arguments PnQueue.Emplace : simpl never.
#[global] Arguments PnQueue.GetEntry : simpl never.
#[global] Arguments PnQueue.Remove : simpl never.
#[global] Arguments PnQueue.RemoveUpTo : simpl never.
#[global] Arguments PnQueue.to_map : simpl never.
#[global] Arguments PnQueue.LastPacket : simpl never.
#[global] Arguments PnQueue.IsEmpty : simpl never.
