(* ===== verification/Pacer.v ===== *)
(** * Token-bucket pacer (h3frontend/internal/congestion/common/pacer.go) *)

From S2P Require Import Prelude QuicGo.

Module Pacer.

Definition maxBurstPackets : Z := 10.
Definition maxBurstPacingDelayMultiplier : Z := 4.

(** The closure [getBandwidth] reads the state of the congestion controller; it
    is passed to each method as the outcome of calling it there. *)
Record Pacer := mkPacer {
  budgetAtLastSent : Z;
  maxDatagramSize : Z;
  lastSentTime : Z
}.

Section operations.
Context `{Q : QuicGo}.
Implicit Types (p : Pacer) (getBandwidth : result Z).

Definition NewPacer : Pacer := mkPacer (maxBurstPackets * InitialPacketSize) InitialPacketSize 0.

Definition maxBurstSize getBandwidth p : result Z :=
  bw ← getBandwidth;
  Ok (Z.max (Z.quot (i64 (i64 (maxBurstPacingDelayMultiplier * MinPacingDelay) * bw)) 1000000000)
            (i64 (maxBurstPackets * maxDatagramSize p))).

Definition Budget getBandwidth p (now : Z) : result Z :=
  if time_IsZero (lastSentTime p) then maxBurstSize getBandwidth p
  else
    bw ← getBandwidth;
    let earned := Z.quot (i64 (bw * time_Sub now (lastSentTime p))) 1000000000 in
    let budget := i64 (budgetAtLastSent p + earned) in
    let budget := if budget <? 0 then 4611686018427387903 else budget in
    burst ← maxBurstSize getBandwidth p;
    Ok (Z.min burst budget).

Definition SentPacket getBandwidth p (sendTime size : Z) : result Pacer :=
  budget ← Budget getBandwidth p sendTime;
  Ok (mkPacer (if budget <? size then 0 else i64 (budget - size)) (maxDatagramSize p) sendTime).

(** The zero time means that a packet can be sent immediately. *)
Definition TimeUntilSend getBandwidth p : result Z :=
  if maxDatagramSize p <=? budgetAtLastSent p then Ok 0
  else
    let diff := u64 (1000000000 * u64 (i64 (maxDatagramSize p - budgetAtLastSent p))) in
    bw ← getBandwidth;
    let bw := u64 bw in
    d ← quot_u64 diff bw;
    let d := if 0 <? Z.rem diff bw then u64 (d + 1) else d in
    Ok (time_Add (lastSentTime p) (Z.max MinPacingDelay (i64 d))).

Definition SetMaxDatagramSize p (s : Z) : Pacer :=
  mkPacer (budgetAtLastSent p) s (lastSentTime p).

(** ** Facts *)

(** The ranges in which pacing arithmetic is exact: a bandwidth below 4 GB/s
    and datagrams below 64 KiB. *)
Definition bandwidth_ok (bw : Z) : Prop := 0 < bw < 4294967296.
Definition wf p : Prop :=
  0 < maxDatagramSize p <= 65535 ∧ 0 <= budgetAtLastSent p <= 4611686018427387903 ∧
  0 <= lastSentTime p <= 4611686018427387903.

(** [maxBurstSize] when the bandwidth is [bw]. *)
Definition burst bw p : Z :=
  Z.max (4 * MinPacingDelay * bw / 1000000000) (10 * maxDatagramSize p).

Context `{!QuicGoLaws Q}.

Lemma maxBurstSize_ok bw p :
  bandwidth_ok bw → wf p → maxBurstSize (Ok bw) p = Ok (burst bw p).
Proof.
  intros Hbw Hp. pose proof MinPacingDelay_range as Hd. unfold bandwidth_ok, wf, Millisecond in *.
  unfold maxBurstSize, burst, maxBurstPacingDelayMultiplier, maxBurstPackets. cbn [mbind result_bind].
  assert (4 * MinPacingDelay * bw < 9223372036854775808) by nia.
  rewrite (i64_id (4 * _)), (i64_id (4 * _ * _)), (i64_id (10 * _)) by (unfold in_i64; nia).
  rewrite Z.quot_div_nonneg by nia. done.
Qed.

Lemma burst_covers_datagrams bw p : wf p → 10 * maxDatagramSize p <= burst bw p.
Proof. unfold burst. lia. Qed.

Lemma burst_range bw p : bandwidth_ok bw → wf p → 0 < burst bw p <= 1717986919.
Proof.
  intros Hbw Hp. pose proof MinPacingDelay_range as Hd. unfold burst, bandwidth_ok, wf, Millisecond in *.
  assert (4 * MinPacingDelay * bw / 1000000000 <= 1717986919); [|lia].
  apply Z.div_le_upper_bound; nia.
Qed.

(** Tokens earned in [dt] nanoseconds. *)
Definition earned bw dt : Z := bw * dt / 1000000000.

Lemma Budget_ok bw p now :
  bandwidth_ok bw → wf p → lastSentTime p <= now <= 4611686018427387903 →
  lastSentTime p ≠ 0 → bw * (now - lastSentTime p) < 4611686018427387904 →
  Budget (Ok bw) p now =
    Ok (Z.min (burst bw p) (budgetAtLastSent p + earned bw (now - lastSentTime p))).
Proof.
  intros Hbw Hp Hnow Hne Hov. unfold Budget. rewrite time_IsZero_spec, maxBurstSize_ok by done.
  replace (lastSentTime p =? 0) with false by lia. cbn [mbind result_bind].
  unfold bandwidth_ok, wf in *. rewrite time_Sub_spec.
  rewrite (i64_id (now - _)) by mach. rewrite (i64_id (bw * _)) by (unfold in_i64; nia).
  rewrite Z.quot_div_nonneg by nia. fold (earned bw (now - lastSentTime p)).
  assert (0 <= earned bw (now - lastSentTime p) <= 4611686018427387903) as He.
  { unfold earned. split; [apply Z.div_pos; nia|]. apply Z.div_le_upper_bound; nia. }
  rewrite i64_id by mach.
  by replace (_ <? 0) with false by lia.
Qed.

(** [Budget] is always between zero and the burst size, even when the token
    arithmetic overflows. *)
Lemma Budget_bounds bw p now :
  bandwidth_ok bw → wf p →
  returns (Budget (Ok bw) p now) (λ b, 0 <= b <= burst bw p).
Proof.
  intros Hbw Hp. pose proof (burst_range bw p Hbw Hp). unfold Budget.
  destruct (time_IsZero _); rewrite maxBurstSize_ok by done; apply returns_ok; [lia|].
  destruct (_ <? 0) eqn:E; reflect_tests; lia.
Qed.

(** Whatever the bandwidth, the budget fits and is not negative. *)
Lemma Budget_total bw p now :
  wf p → returns (Budget (Ok bw) p now) (λ b, 0 <= b <= 4611686018427387903).
Proof.
  intros Hp. unfold wf in Hp.
  assert (returns (maxBurstSize (Ok bw) p) (λ b, 0 <= b <= 4611686018427387903)) as (m & Hm & Hb).
  { unfold maxBurstSize, maxBurstPackets. apply returns_ok. rewrite (i64_id (10 * _)) by mach.
    match goal with |- context [Z.quot (i64 ?x) 1000000000] => pose proof (i64_in x) as Hi; unfold in_i64 in Hi;
      pose proof (Z.quot_le_mono (i64 x) 9223372036854775807 1000000000 ltac:(lia) ltac:(lia)) as Hq end.
    change (Z.quot 9223372036854775807 1000000000) with 9223372036 in Hq. lia. }
  unfold Budget. case_match; [by exists m|]. cbn [mbind result_bind].
  case_match eqn:E; rewrite Hm; cbn [mbind result_bind]; apply returns_ok; reflect_tests; lia.
Qed.

Lemma SentPacket_ok bw p now size b :
  wf p → Budget (Ok bw) p now = Ok b → 0 <= b <= 4611686018427387903 → 0 <= size →
  0 <= now <= 4611686018427387903 →
  SentPacket (Ok bw) p now size = Ok (mkPacer (Z.max 0 (b - size)) (maxDatagramSize p) now) ∧
  wf (mkPacer (Z.max 0 (b - size)) (maxDatagramSize p) now).
Proof.
  intros Hp HB Hb Hs Hnow. unfold SentPacket. rewrite HB. cbn [mbind result_bind].
  split; [|unfold wf in *; cbn; lia].
  destruct (Z.ltb_spec b size); [by replace (Z.max 0 (b - size)) with 0 by lia|].
  rewrite i64_id by mach. by replace (Z.max 0 (b - size)) with (b - size) by lia.
Qed.

(** The deadline of an empty bucket: [d] is the rounded-up refill time. *)
Lemma TimeUntilSend_ok bw p :
  bandwidth_ok bw → wf p → budgetAtLastSent p < maxDatagramSize p →
  ∃ d, TimeUntilSend (Ok bw) p = Ok (lastSentTime p + Z.max MinPacingDelay d) ∧
       0 <= d <= 65535000000001 ∧
       1000000000 * (maxDatagramSize p - budgetAtLastSent p) <= bw * d ∧
       bw * d < 1000000000 * (maxDatagramSize p - budgetAtLastSent p) + bw.
Proof.
  intros Hbw Hp Hlow. pose proof MinPacingDelay_range as Hd.
  unfold bandwidth_ok, wf, Millisecond in *. unfold TimeUntilSend.
  replace (maxDatagramSize p <=? budgetAtLastSent p) with false by lia.
  rewrite i64_id by mach. rewrite (u64_id (_ - _)) by mach.
  set (need := maxDatagramSize p - budgetAtLastSent p).
  rewrite (u64_id (_ * need)) by (unfold in_u64; subst need; lia). cbn [mbind result_bind].
  rewrite (u64_id bw) by mach. rewrite quot_u64_ok by lia. cbn [mbind result_bind].
  assert (0 < need <= 65535) by lia.
  rewrite Z.quot_div_nonneg, Z.rem_mod_nonneg by lia.
  pose proof (Z.div_mod (1000000000 * need) bw) as Hdiv.
  pose proof (Z.mod_pos_bound (1000000000 * need) bw) as Hmod.
  assert (0 <= 1000000000 * need / bw <= 65535000000000) as Hq.
  { split; [apply Z.div_pos; lia|]. apply Z.div_le_upper_bound; nia. }
  set (d := if 0 <? _ then _ else _).
  assert (0 <= d <= 65535000000001 ∧ 1000000000 * need <= bw * d ∧ bw * d < 1000000000 * need + bw) as (Hd1 & Hd2 & Hd3).
  { subst d. destruct (Z.ltb_spec 0 ((1000000000 * need) mod bw)).
    - rewrite u64_id by mach. nia.
    - nia. }
  exists d. split_and!; [|lia..]. rewrite time_Add_spec, (i64_id d), i64_id by mach. done.
Qed.

Lemma deadline_covers bw p :
  bandwidth_ok bw → wf p → lastSentTime p ≠ 0 →
  returns (TimeUntilSend (Ok bw) p) (λ t,
    (t = 0 ∨ lastSentTime p + MinPacingDelay <= t) ∧
    ∀ now, t <= now → lastSentTime p <= now <= 4611686018427387903 →
      bw * (now - lastSentTime p) < 4611686018427387904 →
      returns (Budget (Ok bw) p now) (λ b, maxDatagramSize p <= b)).
Proof.
  intros Hbw Hp Hne.
  pose proof (burst_covers_datagrams bw p Hp) as Hburst.
  assert (0 < maxDatagramSize p ∧ 0 < bw) as [Hm Hb] by (unfold wf, bandwidth_ok in *; lia).
  assert (∀ now, lastSentTime p <= now → 0 <= earned bw (now - lastSentTime p)) as Hearn.
  { intros. unfold earned. apply Z.div_pos; nia. }
  destruct (Z.leb_spec (maxDatagramSize p) (budgetAtLastSent p)) as [Hfull|Hlow].
  - unfold TimeUntilSend. replace (maxDatagramSize p <=? budgetAtLastSent p) with true by lia.
    apply returns_ok. split; [by left|]. intros now _ Hnow Hov.
    rewrite Budget_ok by done. apply returns_ok. specialize (Hearn now). lia.
  - destruct (TimeUntilSend_ok bw p Hbw Hp Hlow) as (d & -> & Hd & Hneed & _).
    apply returns_ok. split; [right; lia|]. intros now Ht Hnow Hov.
    rewrite Budget_ok by done. apply returns_ok.
    assert (maxDatagramSize p - budgetAtLastSent p <= earned bw (now - lastSentTime p)); [|lia].
    unfold earned. apply Z.div_le_lower_bound; [lia|]. nia.
Qed.

(** Waking up at the deadline is early enough for the arithmetic to be exact. *)
Lemma deadline_exact bw p t :
  bandwidth_ok bw → wf p → TimeUntilSend (Ok bw) p = Ok t →
  bw * (Z.max t (lastSentTime p) - lastSentTime p) < 4611686018427387904.
Proof.
  intros Hbw Hp. pose proof MinPacingDelay_range as Hm. unfold bandwidth_ok, wf, Millisecond in *.
  destruct (Z.leb_spec (maxDatagramSize p) (budgetAtLastSent p)) as [Hfull|Hlow].
  - unfold TimeUntilSend. replace (maxDatagramSize p <=? budgetAtLastSent p) with true by lia. intros [= <-]. nia.
  - destruct (TimeUntilSend_ok bw p Hbw Hp Hlow) as (d & -> & Hd & Hneed & Hround). intros [= <-].
    replace (Z.max _ _ - _) with (Z.max MinPacingDelay d) by lia.
    destruct (Z.max_spec MinPacingDelay d) as [[_ ->]|[_ ->]]; nia.
Qed.

(** C10. The sender that sleeps until the deadline can send.  For a bandwidth from 1 up
    to 2^32 - 1 bytes a second, a datagram size below 2^16, a budget and times below 2^62, and after a first packet:
    [TimeUntilSend] returns a deadline that is zero, when a packet can be sent at
    once, or lies at least [MinPacingDelay] after the last packet; at the deadline
    the budget covers a full datagram; and so it does at every later time as long
    as the bandwidth times the nanoseconds since the last packet is below 2^62,
    about four and a half seconds at a gigabyte a second.  (Beyond, the product of [Budget]
    can wrap.) *)
Theorem deadline_is_sufficient bw p :
  bandwidth_ok bw → wf p → lastSentTime p ≠ 0 →
  returns (TimeUntilSend (Ok bw) p) (λ t,
    (t = 0 ∨ lastSentTime p + MinPacingDelay <= t) ∧
    (t <= 4611686018427387903 →
      returns (Budget (Ok bw) p (Z.max t (lastSentTime p))) (λ b, maxDatagramSize p <= b)) ∧
    ∀ now, t <= now → lastSentTime p <= now <= 4611686018427387903 →
      bw * (now - lastSentTime p) < 4611686018427387904 →
      returns (Budget (Ok bw) p now) (λ b, maxDatagramSize p <= b)).
Proof.
  intros Hbw Hp Hne. destruct (deadline_covers bw p Hbw Hp Hne) as (t & Ht & Hmin & Hcov).
  exists t. split_and!; [done|done| |exact Hcov]. intros Hle.
  assert (lastSentTime p <= 4611686018427387903) by (unfold wf in Hp; lia).
  apply Hcov; [lia|lia|by apply deadline_exact].
Qed.

(** A run of packets each sent when [HasPacingBudget] allowed it: the budget at
    the send time covered a datagram, and the packet was no larger. *)
Inductive paced bw : Pacer → list (Z * Z) → Pacer → Prop :=
  | paced_nil p : paced bw p [] p
  | paced_cons p now size b p' l p'' :
      Budget (Ok bw) p now = Ok b → maxDatagramSize p <= b →
      0 <= size <= maxDatagramSize p →
      lastSentTime p <= now <= 4611686018427387903 →
      bw * (now - lastSentTime p) < 4611686018427387904 →
      SentPacket (Ok bw) p now size = Ok p' →
      paced bw p' l p'' → paced bw p ((now, size) :: l) p''.

Definition bytes_sent (l : list (Z * Z)) : Z := foldr (λ (x : Z * Z) n, snd x + n) 0 l.


End operations.

(** The product of the bandwidth and the elapsed time can wrap to zero: seventeen
    seconds of a gigabyte a second earn nothing. *)
Lemma budget_wraps :
  Budget (Q := sample_quic) (Ok (2 ^ 30)) (mkPacer 100 1280 5000000) (5000000 + 2 ^ 34) = Ok 100.
Proof. vm_compute. reflexivity. Qed.

Lemma deadline_is_sufficient_witness :
  let p := mkPacer 100 1280 5000000 in
  TimeUntilSend (Q := sample_quic) (Ok 65536) p = Ok 23005372 ∧
  returns (Budget (Q := sample_quic) (Ok 65536) p 23005372) (λ b, 1280 <= b).
Proof.
  split; [by vm_compute|].
  destruct (deadline_is_sufficient (Q := sample_quic) (QuicGoLaws0 := sample_quic_laws) 65536
    (mkPacer 100 1280 5000000)
    ltac:(unfold bandwidth_ok; lia) ltac:(unfold wf; cbn [maxDatagramSize budgetAtLastSent lastSentTime]; lia) ltac:(done)) as (t & Ht & _ & Hb & _).
  assert (t = 23005372) as -> by (vm_compute in Ht; congruence).
  apply Hb; lia.
Defined.


End Pacer.
