(* ===== verification/Sampler.v ===== *)
(** * Bandwidth sampler (h3frontend/internal/congestion/bbr/bandwidth_sampler.go)

    [AckHeight] is the ack-aggregation tracker, [AckPoints] the two most recent
    ack points, [Sampler] the sampler itself: it records the connection state
    with every packet sent and produces a bandwidth sample for every packet
    acknowledged. *)

From S2P Require Import Prelude Float64 QuicGo RingBuffer WindowedFilter PacketQueue.

Import PnQueue(invalidPacketNumber).

(** ** Unit conversions *)

Definition infRTT : Z := 9223372036854775807.
Definition defaultConnectionStateMapQueueSize : Z := 256.
Definition defaultCandidatesBufferSize : Z := 256.

Definition bytesFromBandwidthAndTimeDelta (bandwidth delta : Z) : Z :=
  Z.quot (i64 (i64 bandwidth * delta)) (Second * 8).

Definition timeDeltaFromBytesAndBandwidth (bytes bandwidth : Z) : result Z :=
  quot_i64 (i64 (i64 (bytes * 8) * Second)) (i64 bandwidth).

(** ** Ack-aggregation tracker *)

Module AckHeight.

Record extraAckedEvent := mkEvent {
  extraAcked : Z;
  bytesAcked : Z;
  timeDelta : Z;
  round : Z
}.

#[global] Instance zero_event : Zero extraAckedEvent := mkEvent 0 0 0 0.

Definition maxExtraAckedEventFunc (a b : extraAckedEvent) : Z :=
  if extraAcked b <? extraAcked a then 1
  else if extraAcked a <? extraAcked b then -1 else 0.

#[global] Instance event_comparator : Filter.Comparator extraAckedEvent := maxExtraAckedEventFunc.

#[global] Instance event_comparator_laws : Filter.ComparatorLaws extraAckedEvent.
Proof.
  split; unfold Filter.comparator, event_comparator, maxExtraAckedEventFunc; intros; if_lia.
Qed.

Record maxAckHeightTracker := mkTracker {
  maxAckHeightFilter : Filter.WindowedFilter extraAckedEvent;
  aggregationEpochStartTime : Z;
  aggregationEpochBytes : Z;
  lastSentPacketNumberBeforeEpoch : Z;
  numAckAggregationEpochs : Z;
  ackAggregationBandwidthThreshold : float64;
  startNewAggregationEpochAfterFullRound : bool;
  reduceExtraAckedOnBandwidthIncrease : bool
}.

#[global] Instance eta_tracker : Eta maxAckHeightTracker := λ m,
  mkTracker (maxAckHeightFilter m) (aggregationEpochStartTime m) (aggregationEpochBytes m)
    (lastSentPacketNumberBeforeEpoch m) (numAckAggregationEpochs m)
    (ackAggregationBandwidthThreshold m) (startNewAggregationEpochAfterFullRound m)
    (reduceExtraAckedOnBandwidthIncrease m).

Section operations.
Context `{Q : QuicGo} `{!Platform}.
Implicit Types (m : maxAckHeightTracker).

Definition newMaxAckHeightTracker (windowLength : Z) : maxAckHeightTracker :=
  mkTracker (Filter.NewWindowedFilter windowLength) 0 0 invalidPacketNumber 0
    (f64_const 1 1) false false.

Definition Get m : Z := extraAcked (Filter.GetBest (maxAckHeightFilter m)).

(** Reinsert one saved height after recomputing it for a new bandwidth. *)
Definition reinsert (bandwidthEstimate : Z) (e : extraAckedEvent)
    (f : Filter.WindowedFilter extraAckedEvent) : Filter.WindowedFilter extraAckedEvent :=
  let expectedBytesAcked := bytesFromBandwidthAndTimeDelta bandwidthEstimate (timeDelta e) in
  if expectedBytesAcked <? bytesAcked e then
    let e := mkEvent (i64 (bytesAcked e - expectedBytesAcked)) (bytesAcked e) (timeDelta e) (round e) in
    Filter.Update f e (round e)
  else f.

(** Start measuring a new aggregation epoch. *)
Definition startEpoch m (lastSentPacketNumber ackTime bytes : Z) : maxAckHeightTracker :=
  m <| aggregationEpochBytes := bytes |>
    <| aggregationEpochStartTime := ackTime |>
    <| lastSentPacketNumberBeforeEpoch := lastSentPacketNumber |>
    <| numAckAggregationEpochs := u64 (numAckAggregationEpochs m + 1) |>.

Definition Update m (bandwidthEstimate : Z) (isNewMaxBandwidth : bool)
    (roundTripCount lastSentPacketNumber lastAckedPacketNumber ackTime bytes : Z)
    : Z * maxAckHeightTracker :=
  let m :=
    if reduceExtraAckedOnBandwidthIncrease m && isNewMaxBandwidth then
      let f := maxAckHeightFilter m in
      let best := Filter.GetBest f in
      let secondBest := Filter.GetSecondBest f in
      let thirdBest := Filter.GetThirdBest f in
      let f := Filter.Clear f in
      let f := reinsert bandwidthEstimate best f in
      let f := reinsert bandwidthEstimate secondBest f in
      let f := reinsert bandwidthEstimate thirdBest f in
      m <| maxAckHeightFilter := f |>
    else m in
  let forceNewEpoch :=
    startNewAggregationEpochAfterFullRound m &&
    negb (lastSentPacketNumberBeforeEpoch m =? invalidPacketNumber) &&
    negb (lastAckedPacketNumber =? invalidPacketNumber) &&
    (lastSentPacketNumberBeforeEpoch m <? lastAckedPacketNumber) in
  if time_IsZero (aggregationEpochStartTime m) || forceNewEpoch then
    (0, startEpoch m lastSentPacketNumber ackTime bytes)
  else
    let aggregationDelta := time_Sub ackTime (aggregationEpochStartTime m) in
    let expectedBytesAcked := bytesFromBandwidthAndTimeDelta bandwidthEstimate aggregationDelta in
    if aggregationEpochBytes m <=?
       f64_to_i64 (f64_mul (ackAggregationBandwidthThreshold m) (f64_of_int expectedBytesAcked))
    then (0, startEpoch m lastSentPacketNumber ackTime bytes)
    else
      let m := m <| aggregationEpochBytes := i64 (aggregationEpochBytes m + bytes) |> in
      let extraBytesAcked := i64 (aggregationEpochBytes m - expectedBytesAcked) in
      let newEvent := mkEvent extraBytesAcked (aggregationEpochBytes m) aggregationDelta 0 in
      (extraBytesAcked,
       m <| maxAckHeightFilter := Filter.Update (maxAckHeightFilter m) newEvent roundTripCount |>).

Definition SetFilterWindowLength m (length : Z) : maxAckHeightTracker :=
  m <| maxAckHeightFilter := Filter.SetWindowLength (maxAckHeightFilter m) length |>.

Definition Reset m (newHeight newTime : Z) : maxAckHeightTracker :=
  m <| maxAckHeightFilter :=
    Filter.Reset (maxAckHeightFilter m) (mkEvent newHeight 0 0 newTime) newTime |>.

Definition SetAckAggregationBandwidthThreshold m (threshold : float64) : maxAckHeightTracker :=
  m <| ackAggregationBandwidthThreshold := threshold |>.

Definition SetStartNewAggregationEpochAfterFullRound m (value : bool) : maxAckHeightTracker :=
  m <| startNewAggregationEpochAfterFullRound := value |>.

Definition SetReduceExtraAckedOnBandwidthIncrease m (value : bool) : maxAckHeightTracker :=
  m <| reduceExtraAckedOnBandwidthIncrease := value |>.

Definition AckAggregationBandwidthThreshold m : float64 := ackAggregationBandwidthThreshold m.

Definition NumAckAggregationEpochs m : Z := numAckAggregationEpochs m.

End operations.
End AckHeight.

(** ** Recent ack points *)

Module AckPoints.

Record ackPoint := mkPoint { ackTime : Z; totalBytesAcked : Z }.

#[global] Instance zero_point : Zero ackPoint := mkPoint 0 0.

(** The two elements of the array [ackPoints]. *)
Record recentAckPoints := mkPoints { ackPoints0 : ackPoint; ackPoints1 : ackPoint }.

#[global] Instance zero_points : Zero recentAckPoints := mkPoints zero zero.

Section operations.
Context `{Q : QuicGo}.
Implicit Types (r : recentAckPoints).

Definition Update r (time total : Z) : recentAckPoints :=
  let r :=
    if time_Before time (ackTime (ackPoints1 r)) then
      mkPoints (ackPoints0 r) (mkPoint time (totalBytesAcked (ackPoints1 r)))
    else if time_After time (ackTime (ackPoints1 r)) then
      mkPoints (ackPoints1 r) (mkPoint time (totalBytesAcked (ackPoints1 r)))
    else r in
  mkPoints (ackPoints0 r) (mkPoint (ackTime (ackPoints1 r)) total).

Definition Clear r : recentAckPoints := mkPoints zero zero.

Definition MostRecentPoint r : ackPoint := ackPoints1 r.

Definition LessRecentPoint r : ackPoint :=
  if negb (totalBytesAcked (ackPoints0 r) =? 0) then ackPoints0 r else ackPoints1 r.

End operations.
End AckPoints.

(** ** The sampler *)

Module Sampler.
Import AckPoints(ackPoint, recentAckPoints, mkPoint).

Record sendTimeState := mkSendState {
  isValid : bool;
  sts_isAppLimited : bool;
  sts_totalBytesSent : Z;
  sts_totalBytesAcked : Z;
  sts_totalBytesLost : Z;
  sts_bytesInFlight : Z
}.

#[global] Instance zero_sendTimeState : Zero sendTimeState := mkSendState false false 0 0 0 0.

Definition newSendTimeState (isAppLimited : bool) (sent acked lost inFlight : Z) : sendTimeState :=
  mkSendState true isAppLimited sent acked lost inFlight.

Record bandwidthSample := mkSample {
  bandwidth : Z;
  rtt : Z;
  sendRate : Z;
  stateAtSend : sendTimeState
}.

Definition newBandwidthSample : bandwidthSample := mkSample 0 0 infBandwidth zero.

Record connectionStateOnSentPacket := mkSent {
  sentTime : Z;
  size : Z;
  cs_totalBytesSentAtLastAckedPacket : Z;
  cs_lastAckedPacketSentTime : Z;
  cs_lastAckedPacketAckTime : Z;
  cs_sendTimeState : sendTimeState
}.

#[global] Instance zero_connectionState : Zero connectionStateOnSentPacket :=
  mkSent 0 0 0 0 0 zero.

Record congestionEventSample := mkEventSample {
  sampleMaxBandwidth : Z;
  sampleIsAppLimited : bool;
  sampleRtt : Z;
  sampleMaxInflight : Z;
  lastPacketSendState : sendTimeState;
  es_extraAcked : Z
}.

#[global] Instance eta_eventSample : Eta congestionEventSample := λ e,
  mkEventSample (sampleMaxBandwidth e) (sampleIsAppLimited e) (sampleRtt e) (sampleMaxInflight e)
    (lastPacketSendState e) (es_extraAcked e).

Definition newCongestionEventSample : congestionEventSample :=
  mkEventSample 0 false infRTT 0 zero 0.

Record bandwidthSampler := mkSampler {
  totalBytesSent : Z;
  totalBytesAcked : Z;
  totalBytesLost : Z;
  totalBytesNeutered : Z;
  totalBytesSentAtLastAckedPacket : Z;
  lastAckedPacketSentTime : Z;
  lastAckedPacketAckTime : Z;
  lastSentPacket : Z;
  lastAckedPacket : Z;
  isAppLimited : bool;
  endOfAppLimitedPhase : Z;
  connectionStateMap : PnQueue.packetNumberIndexedQueue connectionStateOnSentPacket;
  recentPoints : recentAckPoints;
  a0Candidates : Ring.RingBuffer ackPoint;
  maxTrackedPackets : Z;
  tracker : AckHeight.maxAckHeightTracker;
  totalBytesAckedAfterLastAckEvent : Z;
  overestimateAvoidance : bool;
  limitMaxAckHeightTrackerBySendRate : bool
}.

#[global] Instance eta_sampler : Eta bandwidthSampler := λ b,
  mkSampler (totalBytesSent b) (totalBytesAcked b) (totalBytesLost b) (totalBytesNeutered b)
    (totalBytesSentAtLastAckedPacket b) (lastAckedPacketSentTime b) (lastAckedPacketAckTime b)
    (lastSentPacket b) (lastAckedPacket b) (isAppLimited b) (endOfAppLimitedPhase b)
    (connectionStateMap b) (recentPoints b) (a0Candidates b) (maxTrackedPackets b) (tracker b)
    (totalBytesAckedAfterLastAckEvent b) (overestimateAvoidance b)
    (limitMaxAckHeightTrackerBySendRate b).

Section operations.
Context `{Q : QuicGo} `{!Platform}.
Implicit Types (b : bandwidthSampler).

(** Snapshot of the sampler taken when a packet is sent. *)
Definition newConnectionStateOnSentPacket (time bytes bytesInFlight : Z) b
    : connectionStateOnSentPacket :=
  mkSent time bytes (totalBytesSentAtLastAckedPacket b) (lastAckedPacketSentTime b)
    (lastAckedPacketAckTime b)
    (newSendTimeState (isAppLimited b) (totalBytesSent b) (totalBytesAcked b)
       (totalBytesLost b) bytesInFlight).

Definition newBandwidthSampler (windowLength : Z) : result bandwidthSampler :=
  queue ← PnQueue.newPacketNumberIndexedQueue defaultConnectionStateMapQueueSize;
  candidates ← Ring.Init zero defaultCandidatesBufferSize;
  Ok (mkSampler 0 0 0 0 0 0 0 invalidPacketNumber invalidPacketNumber false invalidPacketNumber
        queue zero candidates 0 (AckHeight.newMaxAckHeightTracker windowLength) 0 false false).

Definition MaxAckHeight b : Z := AckHeight.Get (tracker b).

Definition NumAckAggregationEpochs b : Z := AckHeight.NumAckAggregationEpochs (tracker b).

Definition SetMaxAckHeightTrackerWindowLength b (length : Z) : bandwidthSampler :=
  b <| tracker := AckHeight.SetFilterWindowLength (tracker b) length |>.

Definition ResetMaxAckHeightTracker b (newHeight newTime : Z) : bandwidthSampler :=
  b <| tracker := AckHeight.Reset (tracker b) newHeight newTime |>.

Definition SetStartNewAggregationEpochAfterFullRound b (value : bool) : bandwidthSampler :=
  b <| tracker := AckHeight.SetStartNewAggregationEpochAfterFullRound (tracker b) value |>.

Definition SetLimitMaxAckHeightTrackerBySendRate b (value : bool) : bandwidthSampler :=
  b <| limitMaxAckHeightTrackerBySendRate := value |>.

Definition SetReduceExtraAckedOnBandwidthIncrease b (value : bool) : bandwidthSampler :=
  b <| tracker := AckHeight.SetReduceExtraAckedOnBandwidthIncrease (tracker b) value |>.

Definition EnableOverestimateAvoidance b : bandwidthSampler :=
  if overestimateAvoidance b then b
  else b <| overestimateAvoidance := true |>
         <| tracker := AckHeight.SetAckAggregationBandwidthThreshold (tracker b) (f64_const 2 1) |>.

Definition IsOverestimateAvoidanceEnabled b : bool := overestimateAvoidance b.

Definition OnPacketSent b (sent packetNumber bytes bytesInFlight : Z) (isRetransmittable : bool)
    : result bandwidthSampler :=
  let b := b <| lastSentPacket := packetNumber |> in
  if negb isRetransmittable then Ok b
  else
    let b := b <| totalBytesSent := i64 (totalBytesSent b + bytes) |> in
    b ← (if bytesInFlight =? 0 then
           let b := b <| lastAckedPacketAckTime := sent |> in
           b ← (if overestimateAvoidance b then
                  let points := AckPoints.Update (AckPoints.Clear (recentPoints b)) sent
                                  (totalBytesAcked b) in
                  candidates ← Ring.PushBack (Ring.Clear (a0Candidates b))
                                 (AckPoints.MostRecentPoint points);
                  Ok (b <| recentPoints := points |> <| a0Candidates := candidates |>)
                else Ok b);
           Ok (b <| totalBytesSentAtLastAckedPacket := totalBytesSent b |>
                 <| lastAckedPacketSentTime := sent |>)
         else Ok b);
    '(_, queue) ← PnQueue.Emplace (connectionStateMap b) packetNumber
                    (Some (newConnectionStateOnSentPacket sent bytes (i64 (bytesInFlight + bytes)) b));
    Ok (b <| connectionStateMap := queue |>).

Definition sentPacketToSendTimeState (sent : connectionStateOnSentPacket) : sendTimeState :=
  let s := cs_sendTimeState sent in
  mkSendState true (sts_isAppLimited s) (sts_totalBytesSent s) (sts_totalBytesAcked s)
    (sts_totalBytesLost s) (sts_bytesInFlight s).

Definition OnPacketLost b (packetNumber bytesLost : Z) : result (sendTimeState * bandwidthSampler) :=
  let b := b <| totalBytesLost := i64 (totalBytesLost b + bytesLost) |> in
  sent ← PnQueue.GetEntry (connectionStateMap b) packetNumber;
  Ok (match sent with Some sent => sentPacketToSendTimeState sent | None => zero end, b).

Definition OnPacketNeutered b (packetNumber : Z) : result bandwidthSampler :=
  '(sent, queue) ← PnQueue.Remove (connectionStateMap b) packetNumber;
  let b := b <| connectionStateMap := queue |> in
  Ok (match sent with
      | Some sent => b <| totalBytesNeutered := i64 (totalBytesNeutered b + size sent) |>
      | None => b
      end).

Definition OnAppLimited b : bandwidthSampler :=
  b <| isAppLimited := true |> <| endOfAppLimitedPhase := lastSentPacket b |>.

Definition RemoveObsoletePackets b (leastUnacked : Z) : result bandwidthSampler :=
  queue ← PnQueue.RemoveUpTo (connectionStateMap b) leastUnacked;
  Ok (b <| connectionStateMap := queue |>).

Definition TotalBytesSent b : Z := totalBytesSent b.
Definition TotalBytesLost b : Z := totalBytesLost b.
Definition TotalBytesAcked b : Z := totalBytesAcked b.
Definition TotalBytesNeutered b : Z := totalBytesNeutered b.
Definition IsAppLimited b : bool := isAppLimited b.
Definition EndOfAppLimitedPhase b : Z := endOfAppLimitedPhase b.
Definition max_ack_height b : Z := AckHeight.Get (tracker b).

(** [n] calls of [b.a0Candidates.PopFront()]. *)
Fixpoint popFronts (n : nat) (r : Ring.RingBuffer ackPoint) : result (Ring.RingBuffer ackPoint) :=
  match n with
  | O => Ok r
  | S n => '(_, r) ← Ring.PopFront r; popFronts n r
  end.

(** [for i := 1; i < Len(); i++]: the first candidate past [total] selects its
    predecessor and drops everything before it. *)
Fixpoint scanCandidates (fuel : nat) (i : Z) (r : Ring.RingBuffer ackPoint) (total : Z)
    : result (option (ackPoint * Ring.RingBuffer ackPoint)) :=
  if i <? Ring.Len r then
    match fuel with
    | O => OutOfFuel
    | S fuel =>
        p ← Ring.Offset r i;
        c ← Ring.load r p;
        if total <? AckPoints.totalBytesAcked c then
          p ← Ring.Offset r (i - 1);
          a0 ← Ring.load r p;
          r ← (if 1 <? i then popFronts (Z.to_nat (i - 1)) r else Ok r);
          Ok (Some (a0, r))
        else scanCandidates fuel (i + 1) r total
    end
  else Ok None.

(** [for k := 0; k < Len()-1; k++ { PopFront() }]; the bound is re-evaluated
    as the buffer shrinks. *)
Fixpoint dropCandidates (fuel : nat) (k : Z) (r : Ring.RingBuffer ackPoint)
    : result (Ring.RingBuffer ackPoint) :=
  if k <? Ring.Len r - 1 then
    match fuel with
    | O => OutOfFuel
    | S fuel => '(_, r) ← Ring.PopFront r; dropCandidates fuel (k + 1) r
    end
  else Ok r.

(** [None] is the result [false]. *)
Definition chooseA0Point (r : Ring.RingBuffer ackPoint) (total : Z)
    : result (option (ackPoint * Ring.RingBuffer ackPoint)) :=
  if Ring.Empty r then Ok None
  else if Ring.Len r =? 1 then
    p ← Ring.Front r; a0 ← Ring.load r p; Ok (Some (a0, r))
  else
    found ← scanCandidates (Z.to_nat (Ring.Len r)) 1 r total;
    match found with
    | Some found => Ok (Some found)
    | None =>
        p ← Ring.Back r;
        a0 ← Ring.load r p;
        r ← dropCandidates (Z.to_nat (Ring.Len r)) 0 r;
        Ok (Some (a0, r))
    end.

(** The state changes made for an acknowledged packet, before any sample. *)
Definition recordAck b (ackTime packetNumber : Z) (sent : connectionStateOnSentPacket)
    : bandwidthSampler :=
  let b := b <| totalBytesAcked := i64 (totalBytesAcked b + size sent) |>
             <| totalBytesSentAtLastAckedPacket := sts_totalBytesSent (cs_sendTimeState sent) |>
             <| lastAckedPacketSentTime := sentTime sent |>
             <| lastAckedPacketAckTime := ackTime |> in
  let b := if overestimateAvoidance b
           then b <| recentPoints := AckPoints.Update (recentPoints b) ackTime (totalBytesAcked b) |>
           else b in
  if isAppLimited b &&
     ((endOfAppLimitedPhase b =? invalidPacketNumber) || (endOfAppLimitedPhase b <? packetNumber))
  then b <| isAppLimited := false |> else b.

Definition onPacketAcknowledged b (ackTime packetNumber : Z)
    : result (bandwidthSample * bandwidthSampler) :=
  let sample := newBandwidthSample in
  let b := b <| lastAckedPacket := packetNumber |> in
  sentPacket ← PnQueue.GetEntry (connectionStateMap b) packetNumber;
  match sentPacket with
  | None => Ok (sample, b)
  | Some sent =>
      let b := recordAck b ackTime packetNumber sent in
      if time_IsZero (cs_lastAckedPacketSentTime sent) then Ok (sample, b)
      else
        let state := cs_sendTimeState sent in
        rate ← (if time_After (sentTime sent) (cs_lastAckedPacketSentTime sent) then
                  BandwidthFromDelta
                    (i64 (sts_totalBytesSent state - cs_totalBytesSentAtLastAckedPacket sent))
                    (time_Sub (sentTime sent) (cs_lastAckedPacketSentTime sent))
                else Ok infBandwidth);
        chosen ← (if overestimateAvoidance b
                  then chooseA0Point (a0Candidates b) (sts_totalBytesAcked state)
                  else Ok None);
        let '(a0, b) :=
          match chosen with
          | Some (a0, r) => (a0, b <| a0Candidates := r |>)
          | None => (mkPoint (cs_lastAckedPacketAckTime sent) (sts_totalBytesAcked state), b)
          end in
        if time_Sub ackTime (AckPoints.ackTime a0) <=? 0 then Ok (sample, b)
        else
          ackRate ← BandwidthFromDelta (i64 (totalBytesAcked b - AckPoints.totalBytesAcked a0))
                      (time_Sub ackTime (AckPoints.ackTime a0));
          Ok (mkSample (Z.min rate ackRate) (time_Sub ackTime (sentTime sent)) rate
                (sentPacketToSendTimeState sent), b)
  end.

Definition onAckEventEnd b (bandwidthEstimate : Z) (isNewMaxBandwidth : bool) (roundTripCount : Z)
    : result (Z * bandwidthSampler) :=
  let newlyAckedBytes := i64 (totalBytesAcked b - totalBytesAckedAfterLastAckEvent b) in
  if newlyAckedBytes =? 0 then Ok (0, b)
  else
    let b := b <| totalBytesAckedAfterLastAckEvent := totalBytesAcked b |> in
    let '(extraAcked, t) :=
      AckHeight.Update (tracker b) bandwidthEstimate isNewMaxBandwidth roundTripCount
        (lastSentPacket b) (lastAckedPacket b) (lastAckedPacketAckTime b) newlyAckedBytes in
    let b := b <| tracker := t |> in
    if overestimateAvoidance b && (extraAcked =? 0) then
      candidates ← Ring.PushBack (a0Candidates b) (AckPoints.LessRecentPoint (recentPoints b));
      Ok (extraAcked, b <| a0Candidates := candidates |>)
    else Ok (extraAcked, b).

(** One iteration of the loop over the lost packets. *)
Definition lostStep (s : sendTimeState * bandwidthSampler) (p : LostPacketInfo)
    : result (sendTimeState * bandwidthSampler) :=
  let '(last, b) := s in
  '(sendState, b) ← OnPacketLost b (lost_PacketNumber p) (BytesLost p);
  Ok (if isValid sendState then sendState else last, b).

(** State of the loop over the acknowledged packets: the event sample so far,
    the send state of the last valid packet and the largest send rate. *)
Record ackLoop := mkAckLoop {
  loop_event : congestionEventSample;
  loop_last : sendTimeState;
  loop_maxSendRate : Z;
  loop_sampler : bandwidthSampler
}.

(** Fold one bandwidth sample into the event sample. *)
Definition absorbSample (event : congestionEventSample) (sample : bandwidthSample) (acked : Z)
    : congestionEventSample :=
  let event := if negb (rtt sample =? 0)
               then event <| sampleRtt := Z.min (sampleRtt event) (rtt sample) |> else event in
  let event := if sampleMaxBandwidth event <? bandwidth sample
               then event <| sampleMaxBandwidth := bandwidth sample |>
                          <| sampleIsAppLimited := sts_isAppLimited (stateAtSend sample) |>
               else event in
  let inflightSample := i64 (acked - sts_totalBytesAcked (stateAtSend sample)) in
  if sampleMaxInflight event <? inflightSample
  then event <| sampleMaxInflight := inflightSample |> else event.

Definition ackedStep (ackTime : Z) (s : ackLoop) (p : AckedPacketInfo) : result ackLoop :=
  '(sample, b) ← onPacketAcknowledged (loop_sampler s) ackTime (acked_PacketNumber p);
  if negb (isValid (stateAtSend sample))
  then Ok (mkAckLoop (loop_event s) (loop_last s) (loop_maxSendRate s) b)
  else
    Ok (mkAckLoop (absorbSample (loop_event s) sample (totalBytesAcked b)) (stateAtSend sample)
          (if negb (sendRate sample =? infBandwidth)
           then Z.max (loop_maxSendRate s) (sendRate sample) else loop_maxSendRate s) b).

Definition OnCongestionEvent b (ackTime : Z) (ackedPackets : list AckedPacketInfo)
    (lostPackets : list LostPacketInfo) (maxBandwidth estBandwidthUpperBound roundTripCount : Z)
    : result (congestionEventSample * bandwidthSampler) :=
  '(lastLost, b) ← foldM lostStep lostPackets (zero, b);
  if len ackedPackets =? 0 then
    Ok (newCongestionEventSample <| lastPacketSendState := lastLost |>, b)
  else
    s ← foldM (ackedStep ackTime) ackedPackets (mkAckLoop newCongestionEventSample zero 0 b);
    let event := loop_event s in
    let lastAcked := loop_last s in
    lastState ←
      (if negb (isValid lastLost) then Ok lastAcked
       else if negb (isValid lastAcked) then Ok lastLost
       else
         lostP ← slice_get lostPackets (len lostPackets - 1);
         ackedP ← slice_get ackedPackets (len ackedPackets - 1);
         Ok (if acked_PacketNumber ackedP <? lost_PacketNumber lostP then lastLost else lastAcked));
    let event := event <| lastPacketSendState := lastState |> in
    let isNewMaxBandwidth := maxBandwidth <? sampleMaxBandwidth event in
    let maxBandwidth := Z.max maxBandwidth (sampleMaxBandwidth event) in
    let maxBandwidth := if limitMaxAckHeightTrackerBySendRate (loop_sampler s)
                        then Z.max maxBandwidth (loop_maxSendRate s) else maxBandwidth in
    '(extra, b) ← onAckEventEnd (loop_sampler s) (Z.min estBandwidthUpperBound maxBandwidth)
                    isNewMaxBandwidth roundTripCount;
    Ok (event <| es_extraAcked := extra |>, b).

End operations.
End Sampler.
