(* ===== verification/SamplerSpec.v ===== *)
(** * Theorems about the bandwidth sampler

    The invariant of the sampler and that every operation keeps it without a
    panic; the selection of the starting ack point; what a bandwidth sample
    says about the deliveries it measures; the app-limited phase. *)

From stdpp Require Import gmap.
From Stdlib Require Import Sorted.
From S2P Require Import Prelude Float64 QuicGo RingBuffer WindowedFilter PacketQueue Sampler.

Import PnQueue(invalidPacketNumber).
Import AckPoints(ackPoint, recentAckPoints, mkPoint).
Import Sampler.

#[global] Arguments AckPoints.Update : simpl never.
#[global] Arguments AckPoints.Clear : simpl never.
#[global] Arguments AckPoints.LessRecentPoint : simpl never.
#[global] Arguments AckHeight.Update : simpl never.

(** ** Selecting the starting ack point *)

Module Candidates.

(** The choice as a function on the list of candidates, oldest first. *)
Definition choose (l : list ackPoint) (total : Z) : option (ackPoint * list ackPoint) :=
  match l with
  | [] => None
  | [a] => Some (a, l)
  | a :: rest =>
      match list_find (λ c, total < AckPoints.totalBytesAcked c) rest with
      | Some (i, _) => (λ a0, (a0, drop i l)) <$> l !! i
      | None => (λ a0, (a0, drop (length l / 2) l)) <$> last l
      end
  end.

Section facts.
Implicit Types (r : Ring.RingBuffer ackPoint) (l : list ackPoint).

Lemma Len_contents r : Ring.wf r → Ring.Len r = Z.of_nat (length (Ring.contents r)).
Proof. intros. by rewrite <- Ring.contents_len. Qed.

Lemma load_offset r i a :
  Ring.wf r → Ring.contents r !! i = Some a →
  (p ← Ring.Offset r (Z.of_nat i); Ring.load r p) = Ok a.
Proof.
  intros Hr Ha. pose proof (Len_contents r Hr). pose proof (lookup_lt_Some _ _ _ Ha).
  rewrite Ring.Offset_ok by (done || lia). cbn.
  apply Ring.load_slot; [done|lia|by rewrite Nat2Z.id].
Qed.

Lemma popFronts_returns n r :
  Ring.wf r → (n <= length (Ring.contents r))%nat →
  returns (popFronts n r) (λ r', Ring.wf r' ∧ Ring.contents r' = drop n (Ring.contents r)).
Proof.
  revert r. induction n as [|n IH]; intros r Hr Hn; cbn; [by apply returns_ok|].
  pose proof (Ring.PopFront_spec r Hr) as Hp. destruct (Ring.contents r) as [|t l]; [cbn in Hn; lia|].
  destruct Hp as (r' & -> & Hr' & Hc & _). cbn. subst l. apply IH; [done|cbn in Hn; lia].
Qed.

Lemma dropCandidates_returns fuel k r :
  Ring.wf r → 0 <= k → Ring.Len r <= Z.of_nat fuel →
  returns (dropCandidates fuel k r) (λ r', Ring.wf r' ∧
    Ring.contents r' = drop (Z.to_nat ((Ring.Len r - k) / 2)) (Ring.contents r)).
Proof.
  revert k r. induction fuel as [|fuel IH]; intros k r Hr Hk Hf;
    pose proof (Len_contents r Hr); cbn [dropCandidates];
    destruct (Z.ltb_spec k (Ring.Len r - 1)); try lia.
  1,3: apply returns_ok; split; [done|];
    replace (Z.to_nat _) with 0%nat; [done|];
    assert ((Ring.Len r - k) / 2 <= 0); [|lia];
    apply Z.lt_succ_r, Z.div_lt_upper_bound; lia.
  pose proof (Ring.PopFront_spec r Hr) as Hp.
  destruct (Ring.contents r) as [|t l] eqn:Hc; [cbn in *; lia|].
  destruct Hp as (r' & -> & Hr' & Hc' & _). cbn [mbind result_bind].
  pose proof (Len_contents r' Hr') as Hl'. rewrite Hc' in Hl'. cbn [length] in *.
  apply (returns_mono _ _ _ (IH (k + 1) r' Hr' ltac:(lia) ltac:(lia))).
  intros r'' [? ->]. split; [done|]. rewrite Hc'.
  replace (Ring.Len r - k) with ((Ring.Len r' - (k + 1)) + 1 * 2) by lia.
  rewrite Z.div_add by lia. rewrite Z2Nat.inj_add; [|apply Z.div_pos; lia|lia].
  by rewrite Nat.add_comm.
Qed.

Lemma scanCandidates_eq fuel i r total :
  Ring.wf r → (length (Ring.contents r) <= i + fuel)%nat → (1 <= i)%nat →
  match list_find (λ c, total < AckPoints.totalBytesAcked c) (drop i (Ring.contents r)) with
  | Some (j, _) => returns (scanCandidates fuel (Z.of_nat i) r total) (λ o, ∃ a0 r',
      o = Some (a0, r') ∧ Ring.contents r !! (i + j - 1)%nat = Some a0 ∧
      Ring.wf r' ∧ Ring.contents r' = drop (i + j - 1) (Ring.contents r))
  | None => scanCandidates fuel (Z.of_nat i) r total = Ok None
  end.
Proof.
  revert i. induction fuel as [|fuel IH]; intros i Hr Hf Hi; pose proof (Len_contents r Hr) as HL;
    cbn [scanCandidates]; destruct (Z.ltb_spec (Z.of_nat i) (Ring.Len r)); try lia.
  1,3: by rewrite drop_ge by lia.
  destruct (lookup_lt_is_Some_2 (Ring.contents r) i) as [c Hc]; [lia|].
  assert ((p ← Ring.Offset r (Z.of_nat i); Ring.load r p) = Ok c) as Hload by by apply load_offset.
  rewrite (drop_S _ _ _ Hc). cbn [list_find].
  apply bind_ok_inv in Hload as (p & Hp & Hload).
  rewrite Hp. cbn [mbind result_bind]. rewrite Hload. cbn [mbind result_bind].
  destruct (Z.ltb_spec total (AckPoints.totalBytesAcked c)) as [Hlt|Hge].
  - rewrite decide_True by done. rewrite Nat.add_0_r.
    destruct (lookup_lt_is_Some_2 (Ring.contents r) (i - 1)) as [a0 Ha0]; [lia|].
    pose proof (load_offset r _ a0 Hr Ha0) as Hload0.
    replace (Z.of_nat (i - 1)) with (Z.of_nat i - 1) in Hload0 by lia.
    apply bind_ok_inv in Hload0 as (p0 & -> & Hload0). cbn [mbind result_bind].
    rewrite Hload0. cbn [mbind result_bind].
    eapply (returns_bind _ _ (λ r', Ring.wf r' ∧ Ring.contents r' = drop (i - 1) (Ring.contents r))).
    + destruct (Z.ltb_spec 1 (Z.of_nat i)).
      * replace (Z.to_nat (Z.of_nat i - 1)) with (i - 1)%nat by lia.
        apply popFronts_returns; [done|lia].
      * apply returns_ok. split; [done|]. by replace (i - 1)%nat with 0%nat by lia.
    + intros r' []. apply returns_ok. eauto 6.
  - rewrite decide_False by lia. pose proof (IH (S i) Hr ltac:(lia) ltac:(lia)) as IH'.
    replace (Z.of_nat i + 1) with (Z.of_nat (S i)) by lia.
    destruct (list_find _ (drop (S i) _)) as [[j x]|]; cbn; [|done].
    apply (returns_mono _ _ _ IH'). by replace (i + S j - 1)%nat with (S i + j - 1)%nat by lia.
Qed.

(** The loops of [chooseA0Point] compute [choose]. *)
Lemma chooseA0Point_choose r total :
  Ring.wf r →
  returns (chooseA0Point r total) (λ o,
    match o with
    | Some (a0, r') => Ring.wf r' ∧ choose (Ring.contents r) total = Some (a0, Ring.contents r')
    | None => choose (Ring.contents r) total = None
    end).
Proof.
  intros Hr. unfold chooseA0Point. pose proof (Len_contents r Hr) as HL.
  destruct (Ring.contents r) as [|a rest] eqn:Hc.
  { rewrite (proj1 (Ring.contents_nil r Hr) Hc). by apply returns_ok. }
  cbn [length] in HL.
  rewrite Ring.Empty_Len by done. replace (Ring.Len r =? 0) with false by lia.
  destruct rest as [|c rest].
  { cbn in HL. rewrite HL. cbn [Z.eqb Z.of_nat].
    rewrite Ring.Front_ok by (done || lia). cbn [mbind result_bind].
    rewrite (Ring.load_slot r 0 a) by (done || lia || by rewrite Hc).
    cbn. apply returns_ok. by rewrite Hc. }
  cbn [length] in HL. replace (Ring.Len r =? 1) with false by lia. rewrite <- Hc.
  pose proof (scanCandidates_eq (Z.to_nat (Ring.Len r)) 1 r total Hr) as Hscan.
  rewrite Hc in Hscan. cbn [length] in Hscan.
  specialize (Hscan ltac:(lia) ltac:(lia)). change (Z.of_nat 1) with 1 in Hscan.
  cbn [drop] in Hscan.
  assert (∀ X, choose (Ring.contents r) total = X ↔
    match list_find (λ c, total < AckPoints.totalBytesAcked c) (c :: rest) with
    | Some (i, _) => (λ a0, (a0, drop i (Ring.contents r))) <$> Ring.contents r !! i
    | None => (λ a0, (a0, drop (length (Ring.contents r) / 2) (Ring.contents r)))
                <$> last (Ring.contents r)
    end = X) as Hchoose by (rewrite Hc; done).
  destruct (list_find _ (c :: rest)) as [[j x]|] eqn:Hfind.
  - destruct Hscan as (o & Hs & a0 & r' & -> & Ha0 & Hr' & Hc'). rewrite Hs. cbn [mbind result_bind].
    replace (1 + j - 1)%nat with j in * by lia.
    apply returns_ok. split; [done|]. apply Hchoose. by rewrite Hc, Ha0, Hc'.
  - rewrite Hscan. cbn [mbind result_bind]. rewrite Ring.Back_ok by (done || lia). cbn [mbind result_bind].
    destruct (last (Ring.contents r)) as [a0|] eqn:Hlast; [|by rewrite Hc in Hlast; apply last_None in Hlast].
    rewrite (Ring.load_slot r (Ring.Len r - 1) a0).
    2: done. 2: lia.
    2: { rewrite last_lookup in Hlast. rewrite <- Hlast. f_equal. rewrite Hc. cbn [length]. lia. }
    cbn [mbind result_bind]. eapply returns_bind; [apply (dropCandidates_returns _ 0); [done|lia|lia]|].
    intros r' [Hr' Hc']. apply returns_ok. split; [done|]. apply Hchoose. cbn. do 2 f_equal.
    rewrite Hc'. f_equal. rewrite (Len_contents r Hr), Z.sub_0_r.
    change 2 with (Z.of_nat 2). by rewrite <- Nat2Z.inj_div, Nat2Z.id.
Qed.

End facts.
(** *** Selection is sound *)

Section selection.
Implicit Types (r : Ring.RingBuffer ackPoint) (l : list ackPoint).

(** Candidates in the order in which they were recorded. *)
Definition by_total l : Prop :=
  StronglySorted (λ a c, AckPoints.totalBytesAcked a <= AckPoints.totalBytesAcked c) l.

Lemma by_total_lookup l i j a c :
  by_total l → l !! i = Some a → l !! j = Some c → (i <= j)%nat →
  AckPoints.totalBytesAcked a <= AckPoints.totalBytesAcked c.
Proof.
  intros Hs. revert i j. induction Hs as [|x l Hs IH Hx]; intros i j Ha Hc Hij; [done|].
  destruct i as [|i], j as [|j]; simplify_eq/=; [done| |lia|apply (IH i j); auto with lia].
  rewrite Forall_forall in Hx. apply Hx. by apply list_elem_of_lookup_2 in Hc.
Qed.

Lemma choose_selects l total :
  by_total l → l ≠ [] →
  (∀ a, head l = Some a → AckPoints.totalBytesAcked a <= total) →
  ∃ a0 k, choose l total = Some (a0, drop k l) ∧ a0 ∈ drop k l ∧
    AckPoints.totalBytesAcked a0 <= total ∧
    ∀ c, c ∈ l → AckPoints.totalBytesAcked c <= total →
      AckPoints.totalBytesAcked c <= AckPoints.totalBytesAcked a0.
Proof.
  intros Hs Hne Hhead. destruct l as [|a [|b rest]]; [done| |].
  { exists a, 0%nat. split_and!; [done|by left|by apply Hhead|]. intros c Hc _.
    apply list_elem_of_singleton in Hc. by subst. }
  set (l := a :: b :: rest) in *.
  assert (choose l total =
    match list_find (λ c, total < AckPoints.totalBytesAcked c) (b :: rest) with
    | Some (i, _) => (λ a0, (a0, drop i l)) <$> l !! i
    | None => (λ a0, (a0, drop (length l / 2) l)) <$> last l
    end) as -> by done.
  destruct (list_find _ (b :: rest)) as [[j x]|] eqn:Hfind.
  - apply list_find_Some in Hfind as (Hx & Hlt & Hbefore).
    change ((b :: rest) !! j) with (l !! S j) in Hx.
    destruct (lookup_lt_is_Some_2 l j) as [a0 Ha0]; [apply lookup_lt_Some in Hx; lia|].
    exists a0, j. rewrite Ha0. split_and!; [done| | |].
    + apply list_elem_of_lookup. exists 0%nat. by rewrite lookup_drop, Nat.add_0_r.
    + destruct j as [|j]; [by apply Hhead|].
      apply Z.nlt_ge. by apply (Hbefore j); [|lia].
    + intros c [i Hc]%list_elem_of_lookup Hle.
      destruct (decide (i <= j)%nat); [by eapply by_total_lookup|].
      pose proof (by_total_lookup _ _ _ _ _ Hs Hx Hc). lia.
  - apply list_find_None in Hfind.
    destruct (last l) as [a0|] eqn:Hlast; [|by apply last_None in Hlast].
    rewrite last_lookup in Hlast.
    exists a0, (length l / 2)%nat. split_and!; [done| | |].
    + apply list_elem_of_lookup. exists (pred (length l) - length l / 2)%nat.
      rewrite lookup_drop, <- Hlast. f_equal.
      pose proof (Nat.div_lt (length l) 2 ltac:(cbn; lia) ltac:(lia)). lia.
    + rewrite Forall_forall in Hfind. apply Z.nlt_ge, Hfind.
      apply list_elem_of_lookup. by exists (length rest).
    + intros c [i Hc]%list_elem_of_lookup _. eapply by_total_lookup; [done..|].
      apply lookup_lt_Some in Hc. lia.
Qed.

(** Overestimate avoidance starts a bandwidth sample from the right
    candidate: among the recorded ack points, kept in order of the bytes acked,
    [chooseA0Point] returns the one with the most bytes acked that is not past
    the bytes acked when the packet was sent; it neither panics nor runs out of
    loop iterations, and it drops only candidates older than the chosen one. *)
Theorem chooseA0Point_selects r total :
  Ring.wf r → by_total (Ring.contents r) → Ring.contents r ≠ [] →
  (∀ a, head (Ring.contents r) = Some a → AckPoints.totalBytesAcked a <= total) →
  returns (chooseA0Point r total) (λ o, ∃ a0 r' k,
    o = Some (a0, r') ∧ Ring.wf r' ∧
    Ring.contents r' = drop k (Ring.contents r) ∧ a0 ∈ Ring.contents r' ∧
    AckPoints.totalBytesAcked a0 <= total ∧
    ∀ c, c ∈ Ring.contents r → AckPoints.totalBytesAcked c <= total →
      AckPoints.totalBytesAcked c <= AckPoints.totalBytesAcked a0).
Proof.
  intros Hr Hs Hne Hhead. destruct (choose_selects _ total Hs Hne Hhead) as (a0 & k & Hc & Hin & Hle & Hmax).
  apply (returns_mono _ _ _ (chooseA0Point_choose r total Hr)). intros [[a r']|] H; [|congruence].
  destruct H as [Hr' H]. rewrite Hc in H.
  injection H as <- Hd. exists a0, r', k. rewrite <- Hd. by split_and!.
Qed.

(** When no candidate is past the packet, the loop meant to drop all of them
    but the last re-evaluates its bound while the buffer shrinks, so only half
    of them are dropped. *)
Theorem drop_keeps_half r total :
  Ring.wf r → (1 < length (Ring.contents r))%nat →
  Forall (λ c, AckPoints.totalBytesAcked c <= total) (Ring.contents r) →
  returns (chooseA0Point r total) (λ o, ∃ a0 r',
    o = Some (a0, r') ∧ last (Ring.contents r) = Some a0 ∧
    Ring.contents r' = drop (length (Ring.contents r) / 2) (Ring.contents r)).
Proof.
  intros Hr Hlen Hall. apply (returns_mono _ _ _ (chooseA0Point_choose r total Hr)).
  destruct (Ring.contents r) as [|a [|b rest]]; [cbn in Hlen; lia..|].
  assert (list_find (λ c, total < AckPoints.totalBytesAcked c) (b :: rest) = None) as Hfind.
  { apply list_find_None. apply Forall_cons in Hall as [_ Hall].
    apply (Forall_impl _ _ _ Hall). intros. by apply Z.nlt_ge. }
  intros o. unfold choose. rewrite Hfind.
  destruct (last (a :: b :: rest)) as [a0|] eqn:Hlast; [|by apply last_None in Hlast].
  intros H. destruct o as [[a1 r']|]; [|done]. destruct H as [_ H]. cbn [fmap option_fmap option_map] in H.
  simplify_eq. by exists a1, r'.
Qed.

(** Four candidates, of which the third was the last not past the packet. *)
Definition four_candidates : Ring.RingBuffer ackPoint :=
  Ring.mkRingBuffer [mkPoint 10 100; mkPoint 20 200; mkPoint 30 300; mkPoint 40 400] 0 0 true.

Lemma chooseA0Point_selects_witness :
  fst <$> choose (Ring.contents four_candidates) 350 = Some (mkPoint 30 300) ∧
  returns (chooseA0Point four_candidates 350) (λ o, ∃ a0 r' k,
    o = Some (a0, r') ∧ Ring.wf r' ∧
    Ring.contents r' = drop k (Ring.contents four_candidates) ∧ a0 ∈ Ring.contents r' ∧
    AckPoints.totalBytesAcked a0 <= 350 ∧
    ∀ c, c ∈ Ring.contents four_candidates → AckPoints.totalBytesAcked c <= 350 →
      AckPoints.totalBytesAcked c <= AckPoints.totalBytesAcked a0).
Proof.
  split; [by vm_compute|]. apply (chooseA0Point_selects four_candidates 350).
  - by vm_compute.
  - unfold by_total. cbn. repeat constructor; cbn; lia.
  - done.
  - intros a [= <-]. cbn. lia.
Defined.

Lemma drop_keeps_half_witness :
  returns (chooseA0Point four_candidates 500) (λ o, ∃ a0 r',
    o = Some (a0, r') ∧ last (Ring.contents four_candidates) = Some a0 ∧
    Ring.contents r' = drop (length (Ring.contents four_candidates) / 2) (Ring.contents four_candidates)).
Proof.
  apply (drop_keeps_half four_candidates 500).
  - by vm_compute.
  - vm_compute. lia.
  - repeat constructor; cbn; lia.
Defined.

End selection.

End Candidates.

(** ** The sampler's invariant *)

Module Safety.

Section invariant.
Implicit Types (b : bandwidthSampler).

Definition point_ok (p : ackPoint) : Prop := in_i64 (AckPoints.ackTime p).

(** The times stored with a sent packet are [int64] values. *)
Record sent_ok (s : connectionStateOnSentPacket) : Prop := {
  ok_sentTime : in_i64 (sentTime s);
  ok_lastAckedSentTime : in_i64 (cs_lastAckedPacketSentTime s);
  ok_lastAckedAckTime : in_i64 (cs_lastAckedPacketAckTime s)
}.

Record wf b : Prop := {
  wf_queue : PnQueue.wf (connectionStateMap b);
  wf_sent pn s : PnQueue.to_map (connectionStateMap b) !! pn = Some s → sent_ok s;
  wf_candidates : Ring.wf (a0Candidates b);
  wf_points : Forall point_ok (Ring.contents (a0Candidates b));
  wf_point0 : point_ok (AckPoints.ackPoints0 (recentPoints b));
  wf_point1 : point_ok (AckPoints.ackPoints1 (recentPoints b));
  wf_lastSentTime : in_i64 (lastAckedPacketSentTime b);
  wf_lastAckTime : in_i64 (lastAckedPacketAckTime b)
}.

Lemma wf_with_queue b q :
  wf b → PnQueue.wf q →
  (∀ pn s, PnQueue.to_map q !! pn = Some s → sent_ok s) →
  wf (b <| connectionStateMap := q |>).
Proof. intros [] ??. by split. Qed.

(** The fields the invariant does not constrain. *)
Lemma wf_same b b' :
  connectionStateMap b' = connectionStateMap b → a0Candidates b' = a0Candidates b →
  recentPoints b' = recentPoints b → lastAckedPacketSentTime b' = lastAckedPacketSentTime b →
  lastAckedPacketAckTime b' = lastAckedPacketAckTime b → wf b → wf b'.
Proof. intros H1 H2 H3 H4 H5 []. split; rewrite ?H1, ?H2, ?H3, ?H4, ?H5; assumption. Qed.

Lemma wf_with_candidates b r :
  wf b → Ring.wf r → Forall point_ok (Ring.contents r) → wf (b <| a0Candidates := r |>).
Proof. intros [] ??. by split. Qed.

Lemma zero_point_ok : point_ok zero.
Proof. by vm_compute. Qed.

End invariant.

Section safety.
Context `{Q : QuicGo} `{!QuicGoLaws Q} `{!Platform}.
Implicit Types (b : bandwidthSampler).

Lemma newBandwidthSampler_returns w : returns (newBandwidthSampler w) wf.
Proof.
  unfold newBandwidthSampler.
  eapply returns_bind; [by apply PnQueue.new_returns|]. intros q (Hq & Hm & _).
  eapply returns_bind; [by apply Ring.Init_returns|]. intros r (Hr & Hc).
  apply returns_ok. split; cbn; try done.
  - intros pn s. by rewrite Hm, lookup_empty.
  - by rewrite Hc.
Qed.

Lemma points_Update_ok r time total :
  point_ok (AckPoints.ackPoints0 r) → point_ok (AckPoints.ackPoints1 r) → in_i64 time →
  point_ok (AckPoints.ackPoints0 (AckPoints.Update r time total)) ∧
  point_ok (AckPoints.ackPoints1 (AckPoints.Update r time total)).
Proof.
  intros H0 H1 Ht. unfold AckPoints.Update. rewrite time_Before_spec, time_After_spec.
  by repeat case_match.
Qed.

Lemma LessRecentPoint_ok r :
  point_ok (AckPoints.ackPoints0 r) → point_ok (AckPoints.ackPoints1 r) →
  point_ok (AckPoints.LessRecentPoint r).
Proof. intros. unfold AckPoints.LessRecentPoint. by case_match. Qed.

(** Packet numbers the sampler is given for a packet: [-1] is the invalid one. *)
Definition valid_pn (pn : Z) : Prop := -1 <= pn <= PnQueue.maxPacketNumber.

Lemma valid_pn_i64 pn : valid_pn pn → in_i64 pn.
Proof. unfold valid_pn, PnQueue.maxPacketNumber. mach. Qed.

(** A packet emplaced in the queue is the only new entry. *)
Lemma Emplace_adds (q : PnQueue.packetNumberIndexedQueue connectionStateOnSentPacket) pn s :
  PnQueue.wf q → valid_pn pn →
  returns (PnQueue.Emplace q pn (Some s)) (λ '(_, q'), PnQueue.wf q' ∧
    ∀ k x, PnQueue.to_map q' !! k = Some x → x = s ∨ PnQueue.to_map q !! k = Some x).
Proof.
  intros Hq Hpn. unfold valid_pn in Hpn.
  destruct (decide (pn = -1 ∨ PnQueue.IsEmpty q = false ∧ pn <= PnQueue.LastPacket q)) as [Hrej|Hacc].
  { rewrite PnQueue.Emplace_rejected by done. apply returns_ok. eauto. }
  destruct (PnQueue.IsEmpty q) eqn:He.
  - destruct (PnQueue.Emplace_first q pn s Hq ltac:(lia) He) as ([ok q'] & -> & _ & Hq' & Hm & _).
    apply returns_ok. split; [done|]. intros k x. rewrite Hm, lookup_singleton_Some. intros [_ <-]. by left.
  - destruct (PnQueue.Emplace_next q pn s Hq ltac:(lia) He ltac:(lia))
      as ([ok q'] & -> & _ & Hq' & Hm & _).
    apply returns_ok. split; [done|]. intros k x. rewrite Hm, lookup_insert_Some. intros [[_ <-]|[_ ?]]; auto.
Qed.

Lemma OnPacketSent_returns b time pn bytes inFlight retransmittable :
  wf b → in_i64 time → valid_pn pn →
  returns (OnPacketSent b time pn bytes inFlight retransmittable) wf.
Proof.
  intros Hwf Ht Hpn. unfold OnPacketSent. destruct retransmittable; cbn [negb].
  2: { apply returns_ok. by apply (wf_same b). }
  set (b1 := b <| lastSentPacket := pn |>).
  assert (wf (b1 <| totalBytesSent := i64 (totalBytesSent b1 + bytes) |>)) as H2
    by by apply (wf_same b).
  revert H2. generalize (b1 <| totalBytesSent := i64 (totalBytesSent b1 + bytes) |>). clear b1 b Hwf.
  intros b Hwf. cbn zeta.
  eapply (returns_bind _ _ wf).
  - destruct (inFlight =? 0); [|by apply returns_ok].
    eapply (returns_bind _ _ (λ b', wf b')).
    2: { intros b' []. apply returns_ok. by split. }
    destruct Hwf as [Hq Hs Hc Hp H0 H1 Hst Hat].
    cbn. destruct (overestimateAvoidance b); [|apply returns_ok; by split].
    destruct (points_Update_ok (AckPoints.Clear (recentPoints b)) time (totalBytesAcked b)) as [P0 P1];
      [apply zero_point_ok..|done|].
    eapply returns_bind; [apply Ring.PushBack_returns, Ring.Clear_wf|].
    intros r [Hr Hrc]. apply returns_ok. split; try done. cbn. rewrite Hrc, Ring.Clear_contents.
    by apply Forall_singleton.
  - intros b' Hb'. eapply returns_bind.
    + apply Emplace_adds; [apply Hb'|done].
    + intros [ok q] [Hq Hall]. apply returns_ok. apply wf_with_queue; [done..|].
      intros k x [->|Hx]%Hall; [|by eapply Hb']. split; cbn; [done|apply Hb'|apply Hb'].
Qed.

Lemma OnPacketLost_returns b pn bytes :
  wf b → in_i64 pn → returns (OnPacketLost b pn bytes) (λ '(_, b'), wf b').
Proof.
  intros Hwf Hpn. unfold OnPacketLost. cbn zeta.
  rewrite PnQueue.GetEntry_spec; [|apply Hwf|done]. cbn. apply returns_ok.
  by apply (wf_same b).
Qed.

Lemma OnPacketNeutered_returns b pn :
  wf b → in_i64 pn → returns (OnPacketNeutered b pn) wf.
Proof.
  intros Hwf Hpn. unfold OnPacketNeutered.
  eapply returns_bind; [apply PnQueue.Remove_returns; [apply Hwf|done]|].
  intros [out q] (Hout & Hq & Hm & _). apply returns_ok.
  assert (wf (b <| connectionStateMap := q |>)) as Hwf'.
  { apply wf_with_queue; [done..|]. intros k s. rewrite Hm, lookup_delete_Some.
    intros [_ Hs]. by eapply Hwf. }
  destruct out; [|done]. by apply (wf_same (b <| connectionStateMap := q |>)).
Qed.

Lemma RemoveObsoletePackets_returns b pn : wf b → returns (RemoveObsoletePackets b pn) wf.
Proof.
  intros Hwf. unfold RemoveObsoletePackets.
  eapply returns_bind; [apply PnQueue.RemoveUpTo_returns, Hwf|].
  intros q (Hq & Hm & _). apply returns_ok. apply wf_with_queue; [done..|].
  intros k s. rewrite Hm. unfold PnQueue.from_packet. rewrite map_lookup_filter_Some.
  intros [Hs _]. by eapply Hwf.
Qed.

Lemma OnAppLimited_wf b : wf b → wf (OnAppLimited b).
Proof. by apply wf_same. Qed.

(** *** Acknowledgements *)

Lemma choose_from l total a0 l' :
  Candidates.choose l total = Some (a0, l') → a0 ∈ l ∧ ∃ k, l' = drop k l.
Proof.
  unfold Candidates.choose. destruct l as [|a [|c rest]]; [done| |].
  { intros [= <- <-]. split; [by left|by exists 0%nat]. }
  destruct (list_find _ (c :: rest)) as [[i x]|].
  - destruct ((a :: c :: rest) !! i) as [b|] eqn:Hb; intros [= <- <-].
    split; [by eapply list_elem_of_lookup_2|by eexists].
  - destruct (last (a :: c :: rest)) as [b|] eqn:Hb; intros [= <- <-].
    rewrite last_lookup in Hb. split; [by eapply list_elem_of_lookup_2|by eexists].
Qed.

Definition sample_ok (s : bandwidthSample) : Prop := in_u64 (bandwidth s) ∧ in_i64 (rtt s).

Lemma newBandwidthSample_ok : sample_ok newBandwidthSample.
Proof. by vm_compute. Qed.

Lemma recordAck_wf b ackTime pn s :
  wf b → sent_ok s → in_i64 ackTime → wf (recordAck b ackTime pn s).
Proof.
  intros [] [] Ht. unfold recordAck. cbn.
  pose proof (points_Update_ok (recentPoints b) ackTime (i64 (totalBytesAcked b + size s))) as Hp.
  case_match; case_match; split; cbn; try done; by apply Hp.
Qed.

Lemma onPacketAcknowledged_returns b ackTime pn :
  wf b → in_i64 ackTime → in_i64 pn →
  returns (onPacketAcknowledged b ackTime pn) (λ '(s, b'), wf b' ∧ sample_ok s).
Proof.
  intros Hwf Ht Hpn. unfold onPacketAcknowledged.
  assert (wf (b <| lastAckedPacket := pn |>)) as Hwf1 by by apply (wf_same b).
  revert Hwf1. generalize (b <| lastAckedPacket := pn |>). clear b Hwf. intros b Hwf. cbn zeta.
  rewrite PnQueue.GetEntry_spec by (done || apply Hwf). cbn [mbind result_bind].
  destruct (PnQueue.to_map (connectionStateMap b) !! pn) as [s|] eqn:Hs.
  2: { apply returns_ok. split; [done|apply newBandwidthSample_ok]. }
  pose proof (wf_sent b Hwf pn s Hs) as Hsent.
  pose proof (recordAck_wf b ackTime pn s Hwf Hsent Ht) as Hwf1.
  revert Hwf1. generalize (recordAck b ackTime pn s). clear b Hwf Hs. intros b Hwf.
  case_match; [apply returns_ok; split; [done|apply newBandwidthSample_ok]|].
  eapply (returns_bind _ _ in_u64).
  { rewrite time_After_spec. case_match eqn:Hafter; [|by apply returns_ok].
    apply BandwidthFromDelta_returns, time_Sub_nonzero; [apply Hsent..|lia]. }
  intros rate Hrate.
  eapply (returns_bind _ _ (λ o, match o with
    | Some (a0, r) => point_ok a0 ∧ Ring.wf r ∧ Forall point_ok (Ring.contents r)
    | None => True end)).
  { case_match; [|by apply returns_ok].
    apply (returns_mono _ _ _ (Candidates.chooseA0Point_choose _ _ (wf_candidates b Hwf))).
    intros [[a0 r]|]; [|done]. intros [Hr Hc]. apply choose_from in Hc as [Ha [k Hk]].
    pose proof (wf_points b Hwf) as Hp. split_and!; [|done|].
    - rewrite Forall_forall in Hp. by apply Hp.
    - rewrite Hk. by apply Forall_drop. }
  intros chosen Hchosen.
  set (p := match chosen with Some _ => _ | None => _ end).
  assert (point_ok (fst p) ∧ wf (snd p)) as [Ha0 Hb'].
  { subst p. destruct chosen as [[a0 r]|]; cbn [fst snd].
    - destruct Hchosen as (? & ? & ?). split; [done|by apply wf_with_candidates].
    - split; [apply Hsent|done]. }
  destruct p as [a0 b']. cbn [fst snd] in *. clear Hwf.
  destruct (Z.leb_spec (time_Sub ackTime (AckPoints.ackTime a0)) 0) as [Hle|Hgt].
  { apply returns_ok. split; [done|apply newBandwidthSample_ok]. }
  eapply returns_bind.
  { apply BandwidthFromDelta_returns, u64_nonzero_pos; [|done]. rewrite time_Sub_spec. apply i64_in. }
  intros ackRate Hack. apply returns_ok. split; [done|]. split; cbn; [mach|].
  rewrite time_Sub_spec. apply i64_in.
Qed.

Lemma tracker_Update_extra m bw new rt sent acked time bytes :
  in_i64 (fst (AckHeight.Update m bw new rt sent acked time bytes)).
Proof. unfold AckHeight.Update. repeat case_match; cbn; try apply i64_in; by vm_compute. Qed.

Lemma onAckEventEnd_returns b bw new rt :
  wf b → returns (onAckEventEnd b bw new rt) (λ '(extra, b'), wf b' ∧ in_i64 extra).
Proof.
  intros Hwf. unfold onAckEventEnd.
  case_match; [apply returns_ok; split; [done|by vm_compute]|]. cbn zeta.
  match goal with |- context [AckHeight.Update ?m ?a ?b ?c ?d ?e ?f ?g] =>
    pose proof (tracker_Update_extra m a b c d e f g) as Hx; destruct (AckHeight.Update m a b c d e f g) as [x t] end.
  cbn [fst] in Hx. set (b1 := _ <| tracker := t |>).
  assert (wf b1) as Hb1 by by apply (wf_same b). clearbody b1.
  case_match; [|by apply returns_ok].
  eapply returns_bind; [apply Ring.PushBack_returns, Hb1|]. intros r [Hr Hc].
  apply returns_ok. split; [|done]. apply wf_with_candidates; [done..|]. rewrite Hc.
  apply Forall_app. split; [apply Hb1|]. apply Forall_singleton, LessRecentPoint_ok; apply Hb1.
Qed.

(** What the congestion controller may rely on in an event sample. *)
Record event_ok (e : congestionEventSample) : Prop := {
  ok_maxBandwidth : in_u64 (sampleMaxBandwidth e);
  ok_rtt : in_i64 (sampleRtt e);
  ok_rtt_nonzero : sampleRtt e ≠ 0;
  ok_extraAcked : in_i64 (es_extraAcked e)
}.

Lemma newCongestionEventSample_ok : event_ok newCongestionEventSample.
Proof. by split; vm_compute. Qed.

Lemma absorbSample_ok e s acked : event_ok e → sample_ok s → event_ok (absorbSample e s acked).
Proof.
  intros [] [Hb Hr]. unfold absorbSample. cbn zeta.
  destruct (Z.eqb_spec (rtt s) 0); cbn [negb]; repeat case_match;
    split; cbn in *; try done; unfold in_i64 in *; lia.
Qed.

Definition acked_ok (l : list AckedPacketInfo) : Prop := Forall (λ p, in_i64 (acked_PacketNumber p)) l.
Definition lost_ok (l : list LostPacketInfo) : Prop := Forall (λ p, in_i64 (lost_PacketNumber p)) l.

Lemma lost_loop_returns lost b :
  wf b → lost_ok lost → returns (foldM lostStep lost (zero, b)) (λ '(_, b'), wf b').
Proof.
  intros Hwf Hl. apply (foldM_invariant (λ '(_, b'), wf b')); [done|].
  intros [s b'] p Hp Hwf'. unfold lostStep. unfold lost_ok in Hl. rewrite Forall_forall in Hl.
  eapply returns_bind; [apply OnPacketLost_returns; [done|by apply Hl]|].
  intros [x b''] ?. by apply returns_ok.
Qed.

Lemma acked_loop_returns t acked s :
  wf (loop_sampler s) → event_ok (loop_event s) → in_i64 t → acked_ok acked →
  returns (foldM (ackedStep t) acked s) (λ s', wf (loop_sampler s') ∧ event_ok (loop_event s')).
Proof.
  intros Hwf He Ht Ha. apply (foldM_invariant (λ s', wf (loop_sampler s') ∧ event_ok (loop_event s'))); [done|].
  intros s' p Hp [Hwf' He']. unfold ackedStep. unfold acked_ok in Ha. rewrite Forall_forall in Ha.
  eapply returns_bind; [apply onPacketAcknowledged_returns; [done..|by apply Ha]|].
  intros [x b''] [? ?]. case_match; apply returns_ok; split; try done. by apply absorbSample_ok.
Qed.

Lemma OnCongestionEvent_returns b t acked lost maxBw bound rt :
  wf b → in_i64 t → acked_ok acked → lost_ok lost →
  returns (OnCongestionEvent b t acked lost maxBw bound rt) (λ '(e, b'), wf b' ∧ event_ok e).
Proof.
  intros Hwf Ht Ha Hl. unfold OnCongestionEvent.
  assert (returns (foldM lostStep lost (zero, b)) (λ '(s, b'), wf b' ∧ (lost = [] → s = zero))) as Hlost.
  { destruct (lost_loop_returns lost b Hwf Hl) as ([s b'] & Hrun & Hb'). exists (s, b').
    split_and!; [done..|]. intros ->. cbn in Hrun. by simplify_eq. }
  eapply returns_bind; [exact Hlost|]. clear Hlost. intros [s b'] [Hb' Hempty].
  case_match eqn:Hlen.
  { apply returns_ok. split; [done|]. destruct newCongestionEventSample_ok. by split. }
  assert (acked ≠ []) as Hne by (intros ->; done).
  eapply returns_bind; [apply acked_loop_returns; [exact Hb'|apply newCongestionEventSample_ok|done..]|].
  intros ls [Hls He].
  eapply (returns_bind _ _ (λ _, True)).
  { case_match eqn:Hv; [by apply returns_ok|]. case_match; [by apply returns_ok|].
    assert (lost ≠ []) as Hlne by (intros ->; by rewrite Hempty in Hv).
    eapply returns_bind; [by apply slice_get_last|]. intros ? _.
    eapply returns_bind; [by apply slice_get_last|]. intros ? _. by apply returns_ok. }
  intros last _. eapply returns_bind; [by apply onAckEventEnd_returns|].
  intros [x b''] [? ?]. apply returns_ok. split; [done|]. by destruct He; split.
Qed.

End safety.
End Safety.

(** ** Runs of the sampler *)

Module Runs.
Import Safety.

(** The calls the congestion controller makes. *)
Inductive op :=
  | Sent (time pn bytes inFlight : Z) (retransmittable : bool)
  | Event (time : Z) (acked : list AckedPacketInfo) (lost : list LostPacketInfo)
      (maxBandwidth bound rounds : Z)
  | Neutered (pn : Z)
  | Obsolete (pn : Z)
  | AppLimited
  | AvoidOverestimates
  | ResetHeight (height time : Z).

Definition valid_op (o : op) : Prop :=
  match o with
  | Sent time pn _ _ _ => in_i64 time ∧ valid_pn pn
  | Event time acked lost _ _ _ => in_i64 time ∧ acked_ok acked ∧ lost_ok lost
  | Neutered pn => in_i64 pn
  | _ => True
  end.

Section runs.
Context `{Q : QuicGo} `{!QuicGoLaws Q} `{!Platform}.
Implicit Types (b : bandwidthSampler).

Definition exec b (o : op) : result bandwidthSampler :=
  match o with
  | Sent time pn bytes inFlight r => OnPacketSent b time pn bytes inFlight r
  | Event time acked lost bw bound rounds =>
      '(_, b) ← OnCongestionEvent b time acked lost bw bound rounds; Ok b
  | Neutered pn => OnPacketNeutered b pn
  | Obsolete pn => RemoveObsoletePackets b pn
  | AppLimited => Ok (OnAppLimited b)
  | AvoidOverestimates => Ok (EnableOverestimateAvoidance b)
  | ResetHeight height time => Ok (ResetMaxAckHeightTracker b height time)
  end.

Lemma exec_returns b o : wf b → valid_op o → returns (exec b o) wf.
Proof.
  intros Hwf Hv. destruct o; cbn [exec valid_op] in *.
  - apply OnPacketSent_returns; tauto.
  - destruct Hv as (? & ? & ?). eapply returns_bind; [by apply OnCongestionEvent_returns|].
    intros [e b'] []. by apply returns_ok.
  - by apply OnPacketNeutered_returns.
  - by apply RemoveObsoletePackets_returns.
  - by apply returns_ok, OnAppLimited_wf.
  - apply returns_ok. unfold EnableOverestimateAvoidance. case_match; [done|]. by apply (wf_same b).
  - apply returns_ok. by apply (wf_same b).
Qed.

(** C6. The sampler never panics and its loops terminate: from a new sampler,
    every sequence of calls with valid packet numbers and [int64] times, in any
    order and with acknowledgements and losses of packets it never saw or has
    already forgotten, runs to completion (no division by a zero interval, no
    index out of range, no pop from an empty buffer) and keeps the invariant
    [wf]. *)
Theorem sampler_never_panics w os :
  Forall valid_op os →
  returns (b ← newBandwidthSampler w; foldM exec os b) wf.
Proof.
  intros Hos. eapply returns_bind; [apply newBandwidthSampler_returns|].
  intros b Hb. apply (foldM_invariant wf); [done|]. intros b' o Ho Hb'.
  apply exec_returns; [done|]. rewrite Forall_forall in Hos. by apply Hos.
Qed.

End runs.

Definition sample_run : list op :=
  [AvoidOverestimates; Sent 1000 1 1200 0 true; Sent 2000 2 1200 1200 true; AppLimited;
   Event 50000000 [mkAcked 1 1200; mkAcked 2 1200; mkAcked 9 1200] [mkLost 7 1200] 0 infBandwidth 1;
   Sent 60000000 3 1200 0 true; Event 90000000 [mkAcked 3 1200] [] 0 infBandwidth 2;
   Neutered 3; Obsolete 3].

Lemma sampler_never_panics_witness :
  let _ := sample_quic in let _ := amd64 in
  match (b ← newBandwidthSampler 10; foldM exec (take 7 sample_run) b) with
  | Ok b => totalBytesAcked b = 3600 ∧ isAppLimited b = false
  | _ => False
  end ∧
  returns (b ← newBandwidthSampler 10; foldM exec sample_run b) wf.
Proof.
  cbn zeta. split; [by vm_compute|].
  apply (@sampler_never_panics sample_quic sample_quic_laws amd64 10 sample_run).
  repeat constructor; vm_compute; intuition discriminate.
Defined.

End Runs.
