(* ===== verification/SamplerSamples.v ===== *)
(** * Bandwidth samples and the app-limited phase

    What one acknowledgement says about the deliveries it measures, and how
    long the sampler stays app-limited. *)

From stdpp Require Import gmap.
From S2P Require Import Prelude Float64 QuicGo RingBuffer WindowedFilter PacketQueue Sampler SamplerSpec.

Import PnQueue(invalidPacketNumber).
Import AckPoints(ackPoint, recentAckPoints, mkPoint).
Import Sampler.

(** ** Bandwidth samples *)

Module Samples.
Import Safety.

(** [BandwidthFromDelta] without the machine arithmetic. *)
Definition rate (bytes delta : Z) : Z := 8 * (bytes * 1000000000 / delta).

Lemma BandwidthFromDelta_exact bytes delta :
  0 <= bytes < 2147483648 → 0 < delta < 9223372036854775808 →
  BandwidthFromDelta bytes delta = Ok (rate bytes delta).
Proof.
  intros Hb Hd. unfold BandwidthFromDelta, BytesPerSecond, BitsPerSecond, Second.
  rewrite !(u64_id 1000000000), (u64_id bytes), (u64_id delta) by mach.
  rewrite u64_id by mach. rewrite quot_u64_ok by lia. cbn [mbind result_bind].
  rewrite Z.quot_div_nonneg by lia.
  assert (0 <= bytes * 1000000000 / delta <= 2147483648 * 1000000000).
  { split; [apply Z.div_pos; lia|]. apply Z.div_le_upper_bound; nia. }
  unfold rate. rewrite u64_id by mach. f_equal. lia.
Qed.

Lemma rate_bound bytes delta : 0 < delta → rate bytes delta * delta <= 8 * 1000000000 * bytes.
Proof.
  intros. unfold rate. pose proof (Z.mul_div_le (bytes * 1000000000) delta ltac:(done)). lia.
Qed.

Section samples.
Context `{Q : QuicGo} `{!QuicGoLaws Q} `{!Platform}.
Implicit Types (b : bandwidthSampler) (s : connectionStateOnSentPacket).

(** Bytes acknowledged, and bytes sent, over the intervals of a sample. *)
Definition bytesAckedSince b s : Z := totalBytesAcked b + size s - sts_totalBytesAcked (cs_sendTimeState s).
Definition bytesSentSince s : Z :=
  sts_totalBytesSent (cs_sendTimeState s) - cs_totalBytesSentAtLastAckedPacket s.

(** Times are non-negative and at most 2 GiB are measured by one sample. *)
Record measurable b s (t : Z) : Prop := {
  me_time : 0 <= t ∧ in_i64 t;
  me_sent : 0 <= sentTime s ∧ in_i64 (sentTime s);
  me_lastSent : 0 <= cs_lastAckedPacketSentTime s;
  me_lastAck : 0 <= cs_lastAckedPacketAckTime s;
  me_total : in_i64 (totalBytesAcked b + size s);
  me_acked : 0 <= bytesAckedSince b s < 2147483648;
  me_bytes : 0 <= bytesSentSince s < 2147483648
}.

Definition is_sample_of b s (t : Z) (x : bandwidthSample) : Prop :=
  let sendInterval := sentTime s - cs_lastAckedPacketSentTime s in
  let ackInterval := t - cs_lastAckedPacketAckTime s in
  isValid (stateAtSend x) = true ∧
  stateAtSend x = sentPacketToSendTimeState s ∧
  rtt x = t - sentTime s ∧
  sendRate x = (if 0 <? sendInterval then rate (bytesSentSince s) sendInterval else infBandwidth) ∧
  bandwidth x = Z.min (sendRate x) (rate (bytesAckedSince b s) ackInterval) ∧
  bandwidth x * ackInterval <= 8 * 1000000000 * bytesAckedSince b s.

Lemma recordAck_fields b t pn s :
  totalBytesAcked (recordAck b t pn s) = i64 (totalBytesAcked b + size s) ∧
  overestimateAvoidance (recordAck b t pn s) = overestimateAvoidance b ∧
  a0Candidates (recordAck b t pn s) = a0Candidates b ∧
  connectionStateMap (recordAck b t pn s) = connectionStateMap b ∧
  endOfAppLimitedPhase (recordAck b t pn s) = endOfAppLimitedPhase b.
Proof. unfold recordAck. cbn. by repeat case_match. Qed.

(** C7. A bandwidth sample measures the deliveries it is made from. Acknowledging
    a tracked packet (overestimate avoidance off) counts its size once and, when
    the packet was sent after an earlier acknowledgement and time has passed
    since, yields the sample of that packet: the smaller of the rate it was sent
    at and the rate acknowledgements came in at since the packet was sent, each
    computed exactly (no overflow), together with the round-trip time and the
    state at send. In particular the sample never exceeds the bytes really
    acknowledged over the interval. Otherwise no sample is produced. *)
Theorem sample_measures_delivery b pn s t :
  wf b → in_i64 pn → overestimateAvoidance b = false →
  PnQueue.to_map (connectionStateMap b) !! pn = Some s → measurable b s t →
  returns (onPacketAcknowledged b t pn) (λ '(x, b'),
    totalBytesAcked b' = totalBytesAcked b + size s ∧ lastAckedPacket b' = pn ∧
    if decide (cs_lastAckedPacketSentTime s ≠ 0 ∧ cs_lastAckedPacketAckTime s < t)
    then is_sample_of b s t x else x = newBandwidthSample).
Proof.
  intros Hwf Hpn Hoa Hs [[Ht Hti] [Hst Hsti] Hls Hla Htot Hack Hsent].
  pose proof (wf_sent b Hwf pn s Hs) as [_ Hlsi Hlai].
  unfold onPacketAcknowledged. cbn zeta.
  change (connectionStateMap (b <| lastAckedPacket := pn |>)) with (connectionStateMap b).
  rewrite PnQueue.GetEntry_spec by (done || apply Hwf). rewrite Hs. cbn [mbind result_bind].
  pose proof (recordAck_fields (b <| lastAckedPacket := pn |>) t pn s) as (HA & Hoa' & _).
  assert (lastAckedPacket (recordAck (b <| lastAckedPacket := pn |>) t pn s) = pn) as Hlp
    by (unfold recordAck; cbn; by repeat case_match).
  revert HA Hoa' Hlp. generalize (recordAck (b <| lastAckedPacket := pn |>) t pn s).
  cbn. intros b' HA Hoa' Hlp. rewrite i64_id in HA by done. rewrite Hoa', Hoa.
  rewrite time_IsZero_spec, time_After_spec, !time_Sub_spec.
  unfold bytesAckedSince, bytesSentSince, is_sample_of in *.
  destruct (Z.eqb_spec (cs_lastAckedPacketSentTime s) 0) as [Hz|Hz].
  { apply returns_ok. split_and!; [done..|]. by rewrite decide_False by tauto. }
  eapply (returns_bind _ _ (λ r, r = if 0 <? sentTime s - cs_lastAckedPacketSentTime s
    then rate (sts_totalBytesSent (cs_sendTimeState s) - cs_totalBytesSentAtLastAckedPacket s)
           (sentTime s - cs_lastAckedPacketSentTime s) else infBandwidth)).
  { rewrite !i64_id by mach. replace (0 <? _) with (cs_lastAckedPacketSentTime s <? sentTime s) by lia.
    destruct (Z.ltb_spec (cs_lastAckedPacketSentTime s) (sentTime s)); [|by apply returns_ok].
    rewrite BandwidthFromDelta_exact by mach. by apply returns_ok. }
  intros r Hr. cbn. rewrite HA, !time_Sub_spec, !i64_id by mach.
  destruct (Z.leb_spec (t - cs_lastAckedPacketAckTime s) 0).
  { apply returns_ok. split_and!; [done..|]. by rewrite decide_False by lia. }
  rewrite BandwidthFromDelta_exact by mach. apply returns_ok.
  rewrite decide_True by lia. split_and!; cbn; [lia|done..|].
  etransitivity; [|apply (rate_bound _ (t - cs_lastAckedPacketAckTime s)); lia].
  apply Z.mul_le_mono_nonneg_r; [lia|apply Z.le_min_r].
Qed.

End samples.

(** Two packets of 1200 bytes sent 10 ms apart, the first acknowledged after 50 ms. *)
Definition warm_sampler : result bandwidthSampler :=
  let _ := sample_quic in let _ := amd64 in
  b ← newBandwidthSampler 10;
  b ← OnPacketSent b 1000000 1 1200 0 true;
  b ← OnPacketSent b 11000000 2 1200 1200 true;
  '(_, b) ← onPacketAcknowledged b 51000000 1;
  OnPacketSent b 52000000 3 1200 1200 true.

Lemma warm_sampler_wf : returns warm_sampler wf.
Proof.
  pose proof sample_quic_laws. unfold warm_sampler.
  eapply returns_bind; [apply newBandwidthSampler_returns|]. intros b1 H1.
  eapply returns_bind; [by apply OnPacketSent_returns|]. intros b2 H2.
  eapply returns_bind; [by apply OnPacketSent_returns|]. intros b3 H3.
  eapply returns_bind; [by apply onPacketAcknowledged_returns|]. intros [x b4] [H4 _].
  by apply OnPacketSent_returns.
Qed.

Lemma sample_measures_delivery_witness :
  let _ := sample_quic in let _ := amd64 in
  ∃ b s, warm_sampler = Ok b ∧ PnQueue.to_map (connectionStateMap b) !! 3 = Some s ∧
  cs_lastAckedPacketSentTime s ≠ 0 ∧ cs_lastAckedPacketAckTime s < 102000000 ∧
  returns (onPacketAcknowledged b 102000000 3) (λ '(x, b'),
    totalBytesAcked b' = totalBytesAcked b + size s ∧ lastAckedPacket b' = 3 ∧
    if decide (cs_lastAckedPacketSentTime s ≠ 0 ∧ cs_lastAckedPacketAckTime s < 102000000)
    then is_sample_of b s 102000000 x else x = newBandwidthSample).
Proof.
  cbn zeta. destruct warm_sampler_wf as (b & Hb & Hwf). exists b.
  assert (PnQueue.to_map (connectionStateMap b) !! 3 = Some
    (mkSent 52000000 1200 1200 1000000 51000000 (newSendTimeState false 3600 1200 0 2400))) as Hs.
  { revert Hb. vm_compute. by intros [= <-]. }
  eexists. split; [done|]. split; [exact Hs|]. split; [done|]. split; [done|].
  apply (@sample_measures_delivery sample_quic sample_quic_laws b 3); [done|done| |exact Hs|].
  - revert Hb. vm_compute. by intros [= <-].
  - revert Hb. clear. intros Hb.
    assert (totalBytesAcked b = 1200) as Ha by (revert Hb; vm_compute; by intros [= <-]).
    split; unfold bytesAckedSince, bytesSentSince; rewrite ?Ha; cbn; mach.
Defined.

End Samples.

(** ** The app-limited phase *)

Module AppLimitedPhase.
Import Safety Runs Samples.

Section phase.
Context `{Q : QuicGo} `{!QuicGoLaws Q} `{!Platform}.
Implicit Types (b : bandwidthSampler).

Definition tracked b := PnQueue.to_map (connectionStateMap b).

(** [b] is in the app-limited phase that ends after packet [n]; every packet
    tracked since [b0] was sent marked app-limited. *)
Record in_phase (n : Z) (b0 b : bandwidthSampler) : Prop := {
  ph_limited : isAppLimited b = true;
  ph_end : endOfAppLimitedPhase b = n;
  ph_marked pn s : tracked b !! pn = Some s →
    tracked b0 !! pn = Some s ∨ sts_isAppLimited (cs_sendTimeState s) = true
}.

Lemma in_phase_same n b0 b b' :
  isAppLimited b' = isAppLimited b → endOfAppLimitedPhase b' = endOfAppLimitedPhase b →
  connectionStateMap b' = connectionStateMap b → in_phase n b0 b → in_phase n b0 b'.
Proof. intros H1 H2 H3 []. split; unfold tracked in *; rewrite ?H1, ?H2, ?H3; assumption. Qed.

Lemma onPacketAcknowledged_phase n b0 b t pn x b' :
  onPacketAcknowledged b t pn = Ok (x, b') → n ≠ invalidPacketNumber → pn <= n →
  in_phase n b0 b → in_phase n b0 b'.
Proof.
  intros Hack Hn Hpn Hph. unfold onPacketAcknowledged in Hack.
  assert (in_phase n b0 (b <| lastAckedPacket := pn |>)) as Hph1 by by apply (in_phase_same n b0 b).
  revert Hph1 Hack. generalize (b <| lastAckedPacket := pn |>). clear b Hph. intros b Hph Hack.
  cbn zeta in Hack. inv_bind Hack. destruct v as [s|]; [|by simplify_eq].
  assert (in_phase n b0 (recordAck b t pn s)) as Hph1.
  { apply (in_phase_same n b0 b); [|apply recordAck_fields..|done]; try apply Hph; clear Hack.
    pose proof (ph_end _ _ _ Hph) as He. unfold recordAck. cbn.
    destruct (overestimateAvoidance b); cbn; rewrite He, (ph_limited _ _ _ Hph);
      unfold invalidPacketNumber in *; case_match; cbn;
      rewrite ?(ph_limited _ _ _ Hph); (done || lia). }
  revert Hph1 Hack. generalize (recordAck b t pn s). clear b Hph E. intros b Hph Hack.
  case_match; [by simplify_eq|]. inv_bind Hack. inv_bind Hack.
  destruct v0 as [[a0 r]|]; case_match; [simplify_eq|inv_bind Hack; simplify_eq|
    simplify_eq|inv_bind Hack; simplify_eq]; by try apply (in_phase_same n b0 b).
Qed.

Lemma lost_loop_phase n b0 lost b last b' :
  foldM lostStep lost (zero, b) = Ok (last, b') → in_phase n b0 b → in_phase n b0 b'.
Proof.
  intros Hrun Hph.
  apply (foldM_preserves (λ '(_, b), in_phase n b0 b) _ _ _ _ Hrun); [done|].
  intros [x b1] p [y b2] _ Hs Hph1. unfold lostStep, OnPacketLost in Hs. cbn zeta in Hs.
  inv_bind Hs. inv_bind E. cbn in E. destruct v. simplify_eq. by apply (in_phase_same n b0 b1).
Qed.

Lemma acked_loop_phase n b0 t acked s s' :
  foldM (ackedStep t) acked s = Ok s' →
  n ≠ invalidPacketNumber → Forall (λ p, acked_PacketNumber p <= n) acked →
  in_phase n b0 (loop_sampler s) → in_phase n b0 (loop_sampler s').
Proof.
  intros Hrun Hn Hall Hph.
  apply (foldM_preserves (λ s, in_phase n b0 (loop_sampler s)) _ _ _ _ Hrun); [done|].
  intros s1 p s2 Hp Hs Hph1. unfold ackedStep in Hs. inv_bind Hs. destruct v as [x b].
  rewrite Forall_forall in Hall.
  pose proof (onPacketAcknowledged_phase _ _ _ _ _ _ _ E Hn (Hall p Hp) Hph1).
  case_match; by simplify_eq.
Qed.

Lemma onAckEventEnd_phase n b0 b bw new rt x b' :
  onAckEventEnd b bw new rt = Ok (x, b') → in_phase n b0 b → in_phase n b0 b'.
Proof.
  intros Hrun Hph. unfold onAckEventEnd in Hrun. case_match; [by simplify_eq|].
  cbn zeta in Hrun. case_match. case_match; [inv_bind Hrun|]; simplify_eq;
  by apply (in_phase_same n b0 b).
Qed.

Lemma OnCongestionEvent_phase n b0 b t acked lost maxBw bound rt e b' :
  OnCongestionEvent b t acked lost maxBw bound rt = Ok (e, b') →
  n ≠ invalidPacketNumber → Forall (λ p, acked_PacketNumber p <= n) acked →
  in_phase n b0 b → in_phase n b0 b'.
Proof.
  intros Hrun Hn Hall Hph. unfold OnCongestionEvent in Hrun. inv_bind Hrun.
  destruct v as [last b1]. apply (lost_loop_phase n b0) in E; [|done].
  case_match; [by simplify_eq|]. inv_bind Hrun. inv_bind Hrun. inv_bind Hrun.
  destruct v1 as [x b2]. simplify_eq. eapply onAckEventEnd_phase; [done|].
  by eapply acked_loop_phase.
Qed.

(** Calls that do not acknowledge anything past packet [n]. *)
Definition within (n : Z) (o : op) : Prop :=
  match o with
  | Event _ acked _ _ _ _ => Forall (λ p, acked_PacketNumber p <= n) acked
  | AppLimited => False
  | _ => True
  end.

Lemma OnPacketSent_phase n b0 b t pn bytes inFlight r b' :
  wf b → in_i64 t → valid_pn pn → OnPacketSent b t pn bytes inFlight r = Ok b' →
  in_phase n b0 b → in_phase n b0 b'.
Proof.
  intros Hwf Ht Hpn Hrun Hph. unfold OnPacketSent in Hrun. cbn zeta in Hrun.
  destruct r; cbn [negb] in Hrun; [|simplify_eq; by apply (in_phase_same n b0 b)].
  inv_bind Hrun. inv_bind Hrun. destruct v0 as [ok q]. simplify_eq.
  assert (in_phase n b0 v ∧ connectionStateMap v = connectionStateMap b) as [Hv Hq].
  { case_match; [|by simplify_eq; split; [apply (in_phase_same n b0 b)|]].
    inv_bind E. simplify_eq. case_match; [inv_bind E1|]; simplify_eq;
      split; by try apply (in_phase_same n b0 b). }
  destruct (Emplace_adds (connectionStateMap v) pn
    (newConnectionStateOnSentPacket t bytes (i64 (inFlight + bytes)) v)) as ([ok' q'] & Hem & _ & Hall);
    [rewrite Hq; apply Hwf|done|].
  rewrite E0 in Hem. injection Hem as <- <-.
  split; [apply Hv|apply Hv|]. cbn. intros k s [->|Hs]%Hall; [right; apply Hv|by apply Hv].
Qed.

Lemma exec_phase n b0 b o b' :
  wf b → valid_op o → within n o → n ≠ invalidPacketNumber → exec b o = Ok b' →
  in_phase n b0 b → in_phase n b0 b'.
Proof.
  intros Hwf Hv Hw Hn Hrun Hph. destruct o; cbn [exec valid_op within] in *.
  - destruct Hv. by eapply OnPacketSent_phase.
  - inv_bind Hrun. destruct v as [e b1]. simplify_eq. by eapply OnCongestionEvent_phase.
  - unfold OnPacketNeutered in Hrun.
    destruct (PnQueue.Remove_returns _ pn (wf_queue b Hwf) Hv) as ([out q] & HR & _ & _ & Hm & _).
    rewrite HR in Hrun. cbn in Hrun.
    assert (in_phase n b0 (b <| connectionStateMap := q |>)).
    { split; [apply Hph..|]. unfold tracked; cbn. intros k s. rewrite Hm, lookup_delete_Some. intros [_ Hs]. by apply Hph. }
    destruct out; simplify_eq; [|done]. by eapply in_phase_same; [..|eassumption].
  - unfold RemoveObsoletePackets in Hrun.
    destruct (PnQueue.RemoveUpTo_returns _ pn (wf_queue b Hwf)) as (q & HR & _ & Hm & _).
    rewrite HR in Hrun. cbn in Hrun. simplify_eq. split; [apply Hph..|]. unfold tracked; cbn. intros k s.
    rewrite Hm. unfold PnQueue.from_packet. rewrite map_lookup_filter_Some. intros [Hs _]. by apply Hph.
  - done.
  - simplify_eq. unfold EnableOverestimateAvoidance. case_match; [done|].
    by eapply in_phase_same; [..|eassumption].
  - simplify_eq. by apply (in_phase_same n b0 b).
Qed.

(** Once the sender is known to be app-limited, with [n] the last packet
    sent, the sampler stays app-limited until a packet sent after [n] is
    acknowledged: any sequence of calls that acknowledges nothing past [n] leaves
    it app-limited, and every packet sent meanwhile is recorded as app-limited,
    so no bandwidth sample taken from it can be mistaken for the capacity of the
    path. The first acknowledgement of a tracked packet sent after [n] ends the
    phase. *)
Theorem app_limited_until_acked b n os pn t :
  wf b → lastSentPacket b = n → n ≠ invalidPacketNumber →
  Forall valid_op os → Forall (within n) os → n < pn → in_i64 pn → in_i64 t →
  returns (foldM exec os (OnAppLimited b)) (λ b',
    in_phase n b b' ∧
    (tracked b' !! pn ≠ None →
     returns (onPacketAcknowledged b' t pn) (λ '(_, b''), isAppLimited b'' = false))).
Proof.
  intros Hwf Hlast Hn Hv Hw Hpn Hpi Ht.
  assert (returns (foldM exec os (OnAppLimited b)) (λ b', wf b' ∧ in_phase n b b')) as H'.
  { apply foldM_invariant.
    - split; [by apply OnAppLimited_wf|]. split; [done..|]. by left.
    - intros b1 o Ho [Hwf1 Hph]. rewrite Forall_forall in Hv, Hw.
      destruct (exec_returns b1 o Hwf1 (Hv o Ho)) as (b2 & Hrun & Hwf2). exists b2.
      split_and!; [done..|]. apply (exec_phase n b b1 o b2); auto. }
  apply (returns_mono _ _ _ H'). intros b' [Hwf' Hph]. split; [done|]. intros Htr.
  destruct (tracked b' !! pn) as [s|] eqn:Hs; [|done].
  destruct (onPacketAcknowledged_returns b' t pn Hwf' Ht Hpi) as ([x b2] & Hrun & _).
  exists (x, b2). split; [done|]. unfold onPacketAcknowledged in Hrun. cbn zeta in Hrun.
  change (connectionStateMap (b' <| lastAckedPacket := pn |>)) with (connectionStateMap b') in Hrun.
  rewrite PnQueue.GetEntry_spec in Hrun by (done || apply Hwf'). unfold tracked in Hs.
  rewrite Hs in Hrun. cbn [mbind result_bind] in Hrun.
  assert (isAppLimited (recordAck (b' <| lastAckedPacket := pn |>) t pn s) = false) as Hoff.
  { pose proof (ph_end _ _ _ Hph). pose proof (ph_limited _ _ _ Hph) as Hl. unfold recordAck. cbn.
    repeat case_match; cbn in *; try done; rewrite Hl in *; lia. }
  revert Hoff Hrun. generalize (recordAck (b' <| lastAckedPacket := pn |>) t pn s). intros b3 Hoff Hrun.
  case_match; [by simplify_eq|]. inv_bind Hrun. inv_bind Hrun.
  destruct v0 as [[a0 r]|]; case_match; [simplify_eq|inv_bind Hrun; simplify_eq|
    simplify_eq|inv_bind Hrun; simplify_eq]; done.
Qed.

End phase.

Definition one_packet_sent : result bandwidthSampler :=
  let _ := sample_quic in let _ := amd64 in
  b ← newBandwidthSampler 10; OnPacketSent b 1000000 4 1200 0 true.

Lemma app_limited_until_acked_witness :
  let _ := sample_quic in let _ := amd64 in
  let os := [Sent 2000000 5 1200 1200 true; Event 30000000 [mkAcked 4 1200] [] 0 infBandwidth 1] in
  returns one_packet_sent (λ b,
    returns (foldM exec os (OnAppLimited b)) (λ b',
      in_phase 4 b b' ∧
      (PnQueue.to_map (connectionStateMap b') !! 5 ≠ None →
       returns (onPacketAcknowledged b' 40000000 5) (λ '(_, b''), isAppLimited b'' = false)))).
Proof.
  intros Q P os. pose proof sample_quic_laws as HQ.
  assert (returns one_packet_sent wf) as (b & Hb & Hwf).
  { unfold one_packet_sent. eapply returns_bind; [apply newBandwidthSampler_returns|].
    intros b Hwf. by apply OnPacketSent_returns. }
  exists b. split; [exact Hb|].
  assert (lastSentPacket b = 4) as Hl by (revert Hb; vm_compute; by intros [= <-]).
  apply (@app_limited_until_acked Q HQ P b 4 os 5); try done.
  - subst os. repeat constructor; vm_compute; intuition discriminate.
  - subst os. repeat constructor; vm_compute; intuition discriminate.
Defined.

End AppLimitedPhase.
