(* ===== verification/Bbr.v ===== *)
(** * The BBR sender (h3frontend/internal/congestion/bbr/bbr_sender.go)

    The congestion controller: its state, the profiles that configure it, the
    mode and recovery state machines, the pacing rate and the windows.  Debug
    output is not modelled. *)

From S2P Require Import Prelude Float64 QuicGo RingBuffer WindowedFilter PacketQueue Pacer Sampler.

Module Bbr.

Definition minBps : Z := 65536.
Definition invalidPacketNumber : Z := -1.
Definition initialCongestionWindowPackets : Z := 32.
Definition minCongestionWindowPackets : Z := 4.
Definition defaultHighGain : float64 := f64_const 2885 1000.
Definition derivedHighCWNDGain : float64 := f64_const 2 1.

(** The array [pacingGain] of the PROBE_BW cycle; the field of that name is
    [pacingGain] below. *)
Definition pacingGainCycle : list float64 :=
  [f64_const 5 4; f64_const 3 4; f64_const 1 1; f64_const 1 1;
   f64_const 1 1; f64_const 1 1; f64_const 1 1; f64_const 1 1].

Definition gainCycleLength : Z := 8.
Definition bandwidthWindowSize : Z := gainCycleLength + 2.
Definition minRttExpiry : Z := 10 * Second.
Definition probeRttTime : Z := 200 * Millisecond.
Definition startupGrowthTarget : float64 := f64_const 5 4.
Definition roundTripsWithoutGrowthBeforeExitingStartup : Z := 3.
Definition defaultStartupFullLossCount : Z := 8.
Definition quicBbr2DefaultLossThreshold : float64 := f64_const 2 100.

Inductive bbrMode := Startup | Drain | ProbeBw | ProbeRtt.

Inductive bbrRecoveryState := NotInRecovery | Conservation | Growth.

#[global] Instance bbrMode_eq_dec : EqDecision bbrMode.
Proof. solve_decision. Defined.

#[global] Instance bbrRecoveryState_eq_dec : EqDecision bbrRecoveryState.
Proof. solve_decision. Defined.

(** ** Profiles *)

Definition Profile := string.

Definition ProfileConservative : Profile := "conservative".
Definition ProfileStandard : Profile := "standard".
Definition ProfileAggressive : Profile := "aggressive".

Record profileConfig := mkConfig {
  cfg_highGain : float64;
  cfg_highCwndGain : float64;
  cfg_congestionWindowGainConstant : float64;
  cfg_numStartupRtts : Z;
  cfg_drainToTarget : bool;
  cfg_detectOvershooting : bool;
  cfg_bytesLostMultiplier : Z;
  cfg_enableAckAggregationStartup : bool;
  cfg_expireAckAggregationStartup : bool;
  cfg_enableOverestimateAvoidance : bool;
  cfg_reduceExtraAckedOnBandwidthIncrease : bool
}.

Definition configForProfile (profile : Profile) : profileConfig :=
  if String.eqb profile ProfileConservative then
    mkConfig (f64_const 225 100) (f64_const 175 100) (f64_const 175 100) 2
      true true 1 false false true true
  else if String.eqb profile ProfileAggressive then
    mkConfig (f64_const 3 1) (f64_const 225 100) (f64_const 25 10) 4
      false false 2 true true false false
  else
    mkConfig defaultHighGain derivedHighCWNDGain (f64_const 2 1)
      roundTripsWithoutGrowthBeforeExitingStartup
      false false 2 false false false false.

(** ** State *)

Record bbrSender := mkSender {
  rttStats : option Z;
  pacer : Pacer.Pacer;
  mode : bbrMode;
  sampler : Sampler.bandwidthSampler;
  roundTripCount : Z;
  lastSentPacket : Z;
  currentRoundTripEnd : Z;
  numLossEventsInRound : Z;
  bytesLostInRound : Z;
  maxBandwidth : Filter.WindowedFilter Z;
  minRtt : Z;
  minRttTimestamp : Z;
  congestionWindow : Z;
  initialCongestionWindow : Z;
  maxCongestionWindow : Z;
  minCongestionWindow : Z;
  profile : Profile;
  highGain : float64;
  highCwndGain : float64;
  drainGain : float64;
  pacingRate : Z;
  pacingGain : float64;
  congestionWindowGain : float64;
  congestionWindowGainConstant : float64;
  numStartupRtts : Z;
  cycleCurrentOffset : Z;
  lastCycleStart : Z;
  isAtFullBandwidth : bool;
  roundsWithoutBandwidthGain : Z;
  bandwidthAtLastRound : Z;
  exitingQuiescence : bool;
  exitProbeRttAt : Z;
  probeRttRoundPassed : bool;
  lastSampleIsAppLimited : bool;
  hasNoAppLimitedSample : bool;
  recoveryState : bbrRecoveryState;
  endRecoveryAt : Z;
  recoveryWindow : Z;
  enableAckAggregationDuringStartup : bool;
  expireAckAggregationInStartup : bool;
  drainToTarget : bool;
  detectOvershooting : bool;
  bytesLostWhileDetectingOvershooting : Z;
  bytesLostMultiplierWhileDetectingOvershooting : Z;
  cwndToCalculateMinPacingRate : Z;
  maxCongestionWindowWithNetworkParametersAdjusted : Z;
  maxDatagramSize : Z;
  bytesInFlight : Z
}.

#[global] Instance eta_sender : Eta bbrSender := λ b,
  mkSender (rttStats b) (pacer b) (mode b) (sampler b) (roundTripCount b) (lastSentPacket b)
    (currentRoundTripEnd b) (numLossEventsInRound b) (bytesLostInRound b) (maxBandwidth b)
    (minRtt b) (minRttTimestamp b) (congestionWindow b) (initialCongestionWindow b)
    (maxCongestionWindow b) (minCongestionWindow b) (profile b) (highGain b) (highCwndGain b)
    (drainGain b) (pacingRate b) (pacingGain b) (congestionWindowGain b)
    (congestionWindowGainConstant b) (numStartupRtts b) (cycleCurrentOffset b)
    (lastCycleStart b) (isAtFullBandwidth b) (roundsWithoutBandwidthGain b)
    (bandwidthAtLastRound b) (exitingQuiescence b) (exitProbeRttAt b) (probeRttRoundPassed b)
    (lastSampleIsAppLimited b) (hasNoAppLimitedSample b) (recoveryState b) (endRecoveryAt b)
    (recoveryWindow b) (enableAckAggregationDuringStartup b)
    (expireAckAggregationInStartup b) (drainToTarget b) (detectOvershooting b)
    (bytesLostWhileDetectingOvershooting b) (bytesLostMultiplierWhileDetectingOvershooting b)
    (cwndToCalculateMinPacingRate b) (maxCongestionWindowWithNetworkParametersAdjusted b)
    (maxDatagramSize b) (bytesInFlight b).

#[global] Instance bandwidth_comparator : Filter.Comparator Z := Filter.MaxFilter.

Section operations.
Context `{Q : QuicGo} `{!Platform}.
Implicit Types (b : bbrSender).

Definition minCongestionWindowForMaxDatagramSize (maxDatagramSize : Z) : Z :=
  i64 (minCongestionWindowPackets * maxDatagramSize).

Definition scaleByteWindowForDatagramSize (window oldMaxDatagramSize newMaxDatagramSize : Z)
    : result Z :=
  if oldMaxDatagramSize =? newMaxDatagramSize then Ok window
  else
    w ← quot_u64 (u64 (u64 window * u64 newMaxDatagramSize)) (u64 oldMaxDatagramSize);
    Ok (i64 w).

(** [b.rttStats.MinRTT()]: a call on the host library's provider; the model
    keeps the reading it gives at present, [None] while no provider is set. *)
Definition MinRTT b : result Z :=
  match rttStats b with Some rtt => Ok rtt | None => Panic NilDereference end.

Definition SetRTTStatsProvider b (provider : Z) : bbrSender := b <| rttStats := Some provider |>.

(** [math/rand.Int31n(n)] for an arbitrary source value [r]. *)
Definition Int31n (n r : Z) : result Z :=
  if n <=? 0 then Panic (Explicit "invalid argument to Int31n") else Ok (r mod n).

(** ** Estimates *)

Definition bdpFromRttAndBandwidth (rtt bandwidth : Z) : Z :=
  Z.quot (Z.quot (i64 (rtt * i64 bandwidth)) BytesPerSecond) Second.

Definition bandwidthEstimate b : Z := Filter.GetBest (maxBandwidth b).

Definition getMinRtt b : result Z :=
  if negb (minRtt b =? 0) then Ok (minRtt b)
  else
    rtt ← MinRTT b;
    Ok (if rtt =? 0 then 100 * Millisecond else rtt).

Definition PacingRate b : result Z :=
  if pacingRate b =? 0 then
    rtt ← getMinRtt b;
    bw ← BandwidthFromDelta (initialCongestionWindow b) rtt;
    Ok (f64_to_u64 (f64_mul (highGain b) (f64_of_int bw)))
  else Ok (pacingRate b).

Definition bandwidthForPacer b : result Z :=
  rate ← PacingRate b;
  let bps := f64_to_i64 (f64_div (f64_of_int rate) (f64_of_int BytesPerSecond)) in
  Ok (if bps <? minBps then minBps else bps).

Definition getTargetCongestionWindow b (gain : float64) : result Z :=
  rtt ← getMinRtt b;
  let bdp := bdpFromRttAndBandwidth rtt (bandwidthEstimate b) in
  let window := f64_to_i64 (f64_mul gain (f64_of_int bdp)) in
  let window := if window =? 0
                then f64_to_i64 (f64_mul gain (f64_of_int (initialCongestionWindow b))) else window in
  Ok (Z.max window (minCongestionWindow b)).

Definition probeRttCongestionWindow b : Z := minCongestionWindow b.

(** ** Construction *)

Definition enterStartupMode b (now : Z) : bbrSender :=
  b <| mode := Startup |> <| pacingGain := highGain b |> <| congestionWindowGain := highCwndGain b |>.

Definition applyProfile b (p : Profile) : bbrSender :=
  let p := if String.eqb p "" then ProfileStandard else p in
  let cfg := configForProfile p in
  let b := b <| profile := p |>
             <| highGain := cfg_highGain cfg |>
             <| highCwndGain := cfg_highCwndGain cfg |>
             <| drainGain := f64_div (f64_const 1 1) (cfg_highGain cfg) |>
             <| congestionWindowGainConstant := cfg_congestionWindowGainConstant cfg |>
             <| numStartupRtts := cfg_numStartupRtts cfg |>
             <| drainToTarget := cfg_drainToTarget cfg |>
             <| detectOvershooting := cfg_detectOvershooting cfg |>
             <| bytesLostMultiplierWhileDetectingOvershooting := cfg_bytesLostMultiplier cfg |>
             <| enableAckAggregationDuringStartup := cfg_enableAckAggregationStartup cfg |>
             <| expireAckAggregationInStartup := cfg_expireAckAggregationStartup cfg |> in
  let s := if cfg_enableOverestimateAvoidance cfg
           then Sampler.EnableOverestimateAvoidance (sampler b) else sampler b in
  b <| sampler := Sampler.SetReduceExtraAckedOnBandwidthIncrease s
                    (cfg_reduceExtraAckedOnBandwidthIncrease cfg) |>.

Definition newBbrSender (now initialMaxDatagramSize initialWindow initialMaxWindow : Z)
    (p : Profile) : result bbrSender :=
  s ← Sampler.newBandwidthSampler bandwidthWindowSize;
  let b := {|
    rttStats := None;
    pacer := Pacer.NewPacer;
    mode := Startup;
    sampler := s;
    roundTripCount := 0;
    lastSentPacket := invalidPacketNumber;
    currentRoundTripEnd := invalidPacketNumber;
    numLossEventsInRound := 0;
    bytesLostInRound := 0;
    maxBandwidth := Filter.NewWindowedFilter bandwidthWindowSize;
    minRtt := 0;
    minRttTimestamp := 0;
    congestionWindow := initialWindow;
    initialCongestionWindow := initialWindow;
    maxCongestionWindow := initialMaxWindow;
    minCongestionWindow := minCongestionWindowForMaxDatagramSize initialMaxDatagramSize;
    profile := ProfileStandard;
    highGain := defaultHighGain;
    highCwndGain := derivedHighCWNDGain;
    drainGain := f64_const 1000 2885;
    pacingRate := 0;
    pacingGain := f64_const 1 1;
    congestionWindowGain := f64_const 1 1;
    congestionWindowGainConstant := f64_const 2 1;
    numStartupRtts := roundTripsWithoutGrowthBeforeExitingStartup;
    cycleCurrentOffset := 0;
    lastCycleStart := 0;
    isAtFullBandwidth := false;
    roundsWithoutBandwidthGain := 0;
    bandwidthAtLastRound := 0;
    exitingQuiescence := false;
    exitProbeRttAt := 0;
    probeRttRoundPassed := false;
    lastSampleIsAppLimited := false;
    hasNoAppLimitedSample := false;
    recoveryState := NotInRecovery;
    endRecoveryAt := invalidPacketNumber;
    recoveryWindow := initialMaxWindow;
    enableAckAggregationDuringStartup := false;
    expireAckAggregationInStartup := false;
    drainToTarget := false;
    detectOvershooting := false;
    bytesLostWhileDetectingOvershooting := 0;
    bytesLostMultiplierWhileDetectingOvershooting := 2;
    cwndToCalculateMinPacingRate := initialWindow;
    maxCongestionWindowWithNetworkParametersAdjusted := initialMaxWindow;
    maxDatagramSize := initialMaxDatagramSize;
    bytesInFlight := 0
  |} in
  Ok (enterStartupMode (applyProfile b p) now).

Definition NewBbrSender (now initialMaxDatagramSize : Z) (p : Profile) : result bbrSender :=
  newBbrSender now initialMaxDatagramSize
    (i64 (initialCongestionWindowPackets * initialMaxDatagramSize))
    (i64 (MaxCongestionWindowPackets * initialMaxDatagramSize)) p.

(** ** Sending *)

Definition TimeUntilSend b : result Z := Pacer.TimeUntilSend (bandwidthForPacer b) (pacer b).

Definition HasPacingBudget b (now : Z) : result bool :=
  budget ← Pacer.Budget (bandwidthForPacer b) (pacer b) now;
  Ok (maxDatagramSize b <=? budget).

Definition OnPacketSent b (sentTime inFlight packetNumber bytes : Z) (isRetransmittable : bool)
    : result bbrSender :=
  p ← Pacer.SentPacket (bandwidthForPacer b) (pacer b) sentTime bytes;
  let b := b <| pacer := p |> <| lastSentPacket := packetNumber |>
             <| bytesInFlight := inFlight |> in
  let b := if inFlight =? 0 then b <| exitingQuiescence := true |> else b in
  s ← Sampler.OnPacketSent (sampler b) sentTime packetNumber bytes inFlight isRetransmittable;
  Ok (b <| sampler := s |>).

Definition InSlowStart b : bool := bool_decide (mode b = Startup).

Definition InRecovery b : bool := negb (bool_decide (recoveryState b = NotInRecovery)).

Definition GetCongestionWindow b : Z :=
  if bool_decide (mode b = ProbeRtt) then probeRttCongestionWindow b
  else if InRecovery b then Z.min (congestionWindow b) (recoveryWindow b)
  else congestionWindow b.

Definition CanSend b (inFlight : Z) : bool := inFlight <? GetCongestionWindow b.

Definition rescalePacketSizedWindows b (newSize : Z) : result bbrSender :=
  let oldMaxDatagramSize := maxDatagramSize b in
  let b := b <| maxDatagramSize := newSize |> in
  w ← scaleByteWindowForDatagramSize (initialCongestionWindow b) oldMaxDatagramSize newSize;
  let b := b <| initialCongestionWindow := w |> in
  w ← scaleByteWindowForDatagramSize (maxCongestionWindow b) oldMaxDatagramSize newSize;
  let b := b <| maxCongestionWindow := w |>
             <| minCongestionWindow := minCongestionWindowForMaxDatagramSize newSize |> in
  w ← scaleByteWindowForDatagramSize (cwndToCalculateMinPacingRate b) oldMaxDatagramSize newSize;
  let b := b <| cwndToCalculateMinPacingRate := w |> in
  w ← scaleByteWindowForDatagramSize (maxCongestionWindowWithNetworkParametersAdjusted b)
        oldMaxDatagramSize newSize;
  Ok (b <| maxCongestionWindowWithNetworkParametersAdjusted := w |>).

Definition SetMaxDatagramSize b (s : Z) : result bbrSender :=
  if s <? maxDatagramSize b then Panic (Explicit "congestion BUG: decreased max datagram size")
  else
    let oldMinCongestionWindow := minCongestionWindow b in
    let oldInitialCongestionWindow := initialCongestionWindow b in
    b ← rescalePacketSizedWindows b s;
    let cwnd :=
      if congestionWindow b =? oldMinCongestionWindow then minCongestionWindow b
      else if congestionWindow b =? oldInitialCongestionWindow then initialCongestionWindow b
      else Z.min (maxCongestionWindow b) (Z.max (congestionWindow b) (minCongestionWindow b)) in
    let b := b <| congestionWindow := cwnd |> in
    let b := b <| recoveryWindow :=
      Z.min (maxCongestionWindow b) (Z.max (recoveryWindow b) (minCongestionWindow b)) |> in
    Ok (b <| pacer := Pacer.SetMaxDatagramSize (pacer b) s |>).

(** ** Updating the model *)

Definition maybeUpdateMinRtt b (now sampleMinRtt : Z) : bool * bbrSender :=
  let minRttExpired :=
    negb (minRtt b =? 0) && time_After now (time_Add (minRttTimestamp b) minRttExpiry) in
  (minRttExpired,
   if minRttExpired || (sampleMinRtt <? minRtt b) || (minRtt b =? 0)
   then b <| minRtt := sampleMinRtt |> <| minRttTimestamp := now |> else b).

Definition enterProbeBandwidthMode b (now rand : Z) : result bbrSender :=
  let b := b <| mode := ProbeBw |> <| congestionWindowGain := congestionWindowGainConstant b |> in
  r ← Int31n PacketsPerConnectionID rand;
  let offset := Z.rem r (gainCycleLength - 1) in
  let offset := if 1 <=? offset then offset + 1 else offset in
  let b := b <| cycleCurrentOffset := offset |> <| lastCycleStart := now |> in
  gain ← slice_get pacingGainCycle (cycleCurrentOffset b);
  Ok (b <| pacingGain := gain |>).

Definition updateRoundTripCounter b (lastAckedPacket : Z) : bool * bbrSender :=
  if (currentRoundTripEnd b =? invalidPacketNumber) || (currentRoundTripEnd b <? lastAckedPacket)
  then (true, b <| roundTripCount := u64 (roundTripCount b + 1) |>
                <| currentRoundTripEnd := lastSentPacket b |>)
  else (false, b).

Definition updateGainCyclePhase b (now priorInFlight : Z) (hasLosses : bool) : result bbrSender :=
  rtt ← getMinRtt b;
  let advance := time_After now (time_Add (lastCycleStart b) rtt) in
  advance ← (if f64_ltb (f64_const 1 1) (pacingGain b) && negb hasLosses then
               target ← getTargetCongestionWindow b (pacingGain b);
               Ok (if priorInFlight <? target then false else advance)
             else Ok advance);
  advance ← (if f64_ltb (pacingGain b) (f64_const 1 1) then
               target ← getTargetCongestionWindow b (f64_const 1 1);
               Ok (if bytesInFlight b <=? target then true else advance)
             else Ok advance);
  if negb (advance : bool) then Ok b
  else
    let b := b <| cycleCurrentOffset := Z.rem (i64 (cycleCurrentOffset b + 1)) gainCycleLength |>
               <| lastCycleStart := now |> in
    stay ← (if drainToTarget b && f64_ltb (pacingGain b) (f64_const 1 1) then
              gain ← slice_get pacingGainCycle (cycleCurrentOffset b);
              if f64_eqb gain (f64_const 1 1) then
                target ← getTargetCongestionWindow b (f64_const 1 1);
                Ok (target <? bytesInFlight b)
              else Ok false
            else Ok false);
    if stay : bool then Ok b
    else
      gain ← slice_get pacingGainCycle (cycleCurrentOffset b);
      Ok (b <| pacingGain := gain |>).

Definition shouldExitStartupDueToLoss b (lastPacketSendState : Sampler.sendTimeState) : bool :=
  if (numLossEventsInRound b <? defaultStartupFullLossCount) ||
     negb (Sampler.isValid lastPacketSendState) then false
  else
    let inflightAtSend := Sampler.sts_bytesInFlight lastPacketSendState in
    if (0 <? inflightAtSend) && (0 <? bytesLostInRound b) then
      f64_to_i64 (f64_mul (f64_of_int inflightAtSend) quicBbr2DefaultLossThreshold)
        <? bytesLostInRound b
    else false.

Definition checkIfFullBandwidthReached b (lastPacketSendState : Sampler.sendTimeState) : bbrSender :=
  if lastSampleIsAppLimited b then b
  else
    let target := f64_to_u64 (f64_mul (f64_of_int (bandwidthAtLastRound b)) startupGrowthTarget) in
    if target <=? bandwidthEstimate b then
      let b := b <| bandwidthAtLastRound := bandwidthEstimate b |>
                 <| roundsWithoutBandwidthGain := 0 |> in
      if expireAckAggregationInStartup b
      then b <| sampler := Sampler.ResetMaxAckHeightTracker (sampler b) 0 (roundTripCount b) |>
      else b
    else
      let b := b <| roundsWithoutBandwidthGain := i64 (roundsWithoutBandwidthGain b + 1) |> in
      if (numStartupRtts b <=? roundsWithoutBandwidthGain b) ||
         shouldExitStartupDueToLoss b lastPacketSendState
      then b <| isAtFullBandwidth := true |> else b.

Definition maybeAppLimited b (inFlight : Z) : result bbrSender :=
  target ← getTargetCongestionWindow b (f64_const 1 1);
  Ok (if inFlight <? target then b <| sampler := Sampler.OnAppLimited (sampler b) |> else b).

Definition maybeExitStartupOrDrain b (now rand : Z) : result bbrSender :=
  let b := if bool_decide (mode b = Startup) && isAtFullBandwidth b
           then b <| mode := Drain |> <| pacingGain := drainGain b |>
                  <| congestionWindowGain := highCwndGain b |>
           else b in
  if bool_decide (mode b = Drain) then
    target ← getTargetCongestionWindow b (f64_const 1 1);
    if bytesInFlight b <=? target then enterProbeBandwidthMode b now rand else Ok b
  else Ok b.

(** The body of [if b.mode == bbrModeProbeRtt] in [maybeEnterOrExitProbeRtt]. *)
Definition inProbeRtt b (now rand : Z) (isRoundStart : bool) : result bbrSender :=
  let b := b <| sampler := Sampler.OnAppLimited (sampler b) |> in
  if time_IsZero (exitProbeRttAt b) then
    Ok (if bytesInFlight b <? i64 (probeRttCongestionWindow b + MaxPacketBufferSize)
        then b <| exitProbeRttAt := time_Add now probeRttTime |> <| probeRttRoundPassed := false |>
        else b)
  else
    let b := if isRoundStart then b <| probeRttRoundPassed := true |> else b in
    if (0 <=? time_Sub now (exitProbeRttAt b)) && probeRttRoundPassed b then
      let b := b <| minRttTimestamp := now |> in
      if negb (isAtFullBandwidth b) then Ok (enterStartupMode b now)
      else enterProbeBandwidthMode b now rand
    else Ok b.

Definition maybeEnterOrExitProbeRtt b (now rand : Z) (isRoundStart minRttExpired : bool)
    : result bbrSender :=
  let b := if minRttExpired && negb (exitingQuiescence b) && negb (bool_decide (mode b = ProbeRtt))
           then b <| mode := ProbeRtt |> <| pacingGain := f64_const 1 1 |> <| exitProbeRttAt := 0 |>
           else b in
  b ← (if bool_decide (mode b = ProbeRtt) then inProbeRtt b now rand isRoundStart else Ok b);
  Ok (b <| exitingQuiescence := false |>).

Definition updateRecoveryState b (lastAckedPacket : Z) (hasLosses isRoundStart : bool) : bbrSender :=
  if negb (isAtFullBandwidth b) then b
  else
    let b := if hasLosses then b <| endRecoveryAt := lastSentPacket b |> else b in
    let maybeExit b :=
      if negb hasLosses && (endRecoveryAt b <? lastAckedPacket)
      then b <| recoveryState := NotInRecovery |> else b in
    match recoveryState b with
    | NotInRecovery =>
        if hasLosses then
          b <| recoveryState := Conservation |> <| recoveryWindow := 0 |>
            <| currentRoundTripEnd := lastSentPacket b |>
        else b
    | Conservation => maybeExit (if isRoundStart then b <| recoveryState := Growth |> else b)
    | Growth => maybeExit b
    end.

(** ** Pacing rate and windows *)

Definition calculatePacingRate b (bytesLost : Z) : result bbrSender :=
  if bandwidthEstimate b =? 0 then Ok b
  else
    let targetRate := f64_to_u64 (f64_mul (pacingGain b) (f64_of_int (bandwidthEstimate b))) in
    if isAtFullBandwidth b then Ok (b <| pacingRate := targetRate |>)
    else
      first ← (if pacingRate b =? 0 then
                 rtt ← MinRTT b;
                 if negb (rtt =? 0) then
                   rate ← BandwidthFromDelta (initialCongestionWindow b) rtt; Ok (Some rate)
                 else Ok None
               else Ok None);
      match first with
      | Some rate => Ok (b <| pacingRate := rate |>)
      | None =>
          b ← (if detectOvershooting b then
                 let b := b <| bytesLostWhileDetectingOvershooting :=
                   i64 (bytesLostWhileDetectingOvershooting b + bytesLost) |> in
                 if (targetRate <? pacingRate b) && (0 <? bytesLostWhileDetectingOvershooting b) &&
                    (hasNoAppLimitedSample b ||
                     (initialCongestionWindow b <?
                      i64 (bytesLostWhileDetectingOvershooting b *
                           bytesLostMultiplierWhileDetectingOvershooting b)))
                 then
                   rtt ← MinRTT b;
                   floor ← BandwidthFromDelta (cwndToCalculateMinPacingRate b) rtt;
                   Ok (b <| pacingRate := Z.max targetRate floor |>
                         <| bytesLostWhileDetectingOvershooting := 0 |>
                         <| detectOvershooting := false |>)
                 else Ok b
               else Ok b);
          Ok (b <| pacingRate := Z.max (pacingRate b) targetRate |>)
      end.

Definition calculateCongestionWindow b (bytesAcked excessAcked : Z) : result bbrSender :=
  if bool_decide (mode b = ProbeRtt) then Ok b
  else
    target ← getTargetCongestionWindow b (congestionWindowGain b);
    let target :=
      if isAtFullBandwidth b then i64 (target + Sampler.MaxAckHeight (sampler b))
      else if enableAckAggregationDuringStartup b then i64 (target + excessAcked) else target in
    let cwnd :=
      if isAtFullBandwidth b then Z.min target (i64 (congestionWindow b + bytesAcked))
      else if (congestionWindow b <? target) ||
              (Sampler.TotalBytesAcked (sampler b) <? initialCongestionWindow b)
      then i64 (congestionWindow b + bytesAcked) else congestionWindow b in
    let cwnd := Z.max cwnd (minCongestionWindow b) in
    Ok (b <| congestionWindow := Z.min cwnd (maxCongestionWindow b) |>).

Definition calculateRecoveryWindow b (bytesAcked bytesLost : Z) : result bbrSender :=
  if bool_decide (recoveryState b = NotInRecovery) then Ok b
  else
    target ← getTargetCongestionWindow b (f64_const 1 1);
    let recoveryFloor := Z.quot target 2 in
    if recoveryWindow b =? 0 then
      let w := i64 (bytesInFlight b + bytesAcked) in
      let w := Z.max (minCongestionWindow b) w in
      Ok (b <| recoveryWindow := Z.max w recoveryFloor |>)
    else
      let w := if bytesLost <=? recoveryWindow b then i64 (recoveryWindow b - bytesLost)
               else maxDatagramSize b in
      let w := if bool_decide (recoveryState b = Growth) then i64 (w + bytesAcked) else w in
      let w := Z.max w (i64 (bytesInFlight b + bytesAcked)) in
      let w := Z.max (minCongestionWindow b) w in
      Ok (b <| recoveryWindow := Z.max w recoveryFloor |>).

(** ** A congestion event *)

(** The bytes in flight after the event: lines 552-559. *)
Definition inFlightAfter (priorInFlight : Z) (acked : list AckedPacketInfo)
    (lost : list LostPacketInfo) : Z :=
  let n := foldl (λ n p, i64 (n - BytesAcked p)) priorInFlight acked in
  foldl (λ n p, i64 (n - BytesLost p)) n lost.

(** Round and recovery bookkeeping for the last acknowledged packet. *)
Definition noteAcked b (acked : list AckedPacketInfo) (hasLosses : bool) : result (bool * bbrSender) :=
  if len acked =? 0 then Ok (false, b)
  else
    p ← slice_get acked (len acked - 1);
    let '(isRoundStart, b) := updateRoundTripCounter b (acked_PacketNumber p) in
    Ok (isRoundStart, updateRecoveryState b (acked_PacketNumber p) hasLosses isRoundStart).

(** What the event sample changes: app-limited flags, bandwidth filter, min RTT. *)
Definition absorbEvent b (now totalBytesAckedBefore : Z) (sample : Sampler.congestionEventSample)
    : bool * bbrSender :=
  let state := Sampler.lastPacketSendState sample in
  let b := if Sampler.isValid state then
             let b := b <| lastSampleIsAppLimited := Sampler.sts_isAppLimited state |> in
             b <| hasNoAppLimitedSample := hasNoAppLimitedSample b || negb (lastSampleIsAppLimited b) |>
           else b in
  let b := if negb (totalBytesAckedBefore =? Sampler.TotalBytesAcked (sampler b)) &&
              (negb (Sampler.sampleIsAppLimited sample) ||
               (Filter.GetBest (maxBandwidth b) <? Sampler.sampleMaxBandwidth sample))
           then b <| maxBandwidth :=
                  Filter.Update (maxBandwidth b) (Sampler.sampleMaxBandwidth sample) (roundTripCount b) |>
           else b in
  if negb (Sampler.sampleRtt sample =? infRTT)
  then maybeUpdateMinRtt b now (Sampler.sampleRtt sample) else (false, b).

(** The mode state machines, in the order of the code. *)
Definition updateModes b (now rand priorInFlight : Z) (hasLosses isRoundStart minRttExpired : bool)
    (lastPacketSendState : Sampler.sendTimeState) : result bbrSender :=
  b ← (if bool_decide (mode b = ProbeBw)
       then updateGainCyclePhase b now priorInFlight hasLosses else Ok b);
  let b := if isRoundStart && negb (isAtFullBandwidth b)
           then checkIfFullBandwidthReached b lastPacketSendState else b in
  b ← maybeExitStartupOrDrain b now rand;
  maybeEnterOrExitProbeRtt b now rand isRoundStart minRttExpired.

(** The packet number below which the sampler forgets packets. *)
Definition leastUnacked (acked : list AckedPacketInfo) (lost : list LostPacketInfo) : result Z :=
  if negb (len acked =? 0) then
    p ← slice_get acked (len acked - 1); Ok (i64 (acked_PacketNumber p - 2))
  else
    p ← slice_get lost (len lost - 1); Ok (i64 (lost_PacketNumber p + 1)).

(** The end of the event: pacing rate, windows, and forgetting old packets. *)
Definition updateRates b (totalBytesAckedBefore bytesLost excessAcked : Z)
    (acked : list AckedPacketInfo) (lost : list LostPacketInfo) (isRoundStart : bool)
    : result bbrSender :=
  let bytesAcked := i64 (Sampler.TotalBytesAcked (sampler b) - totalBytesAckedBefore) in
  b ← calculatePacingRate b bytesLost;
  b ← calculateCongestionWindow b bytesAcked excessAcked;
  b ← calculateRecoveryWindow b bytesAcked bytesLost;
  least ← leastUnacked acked lost;
  s ← Sampler.RemoveObsoletePackets (sampler b) least;
  let b := b <| sampler := s |> in
  Ok (if isRoundStart then b <| numLossEventsInRound := 0 |> <| bytesLostInRound := 0 |> else b).

(** [rand] is the value drawn if PROBE_BW is entered during the event. *)
Definition OnCongestionEventEx b (priorInFlight eventTime rand : Z)
    (acked : list AckedPacketInfo) (lost : list LostPacketInfo) : result bbrSender :=
  let totalBytesAckedBefore := Sampler.TotalBytesAcked (sampler b) in
  let totalBytesLostBefore := Sampler.TotalBytesLost (sampler b) in
  let hasLosses := negb (len lost =? 0) in
  b ← maybeAppLimited b priorInFlight;
  let b := b <| bytesInFlight := inFlightAfter priorInFlight acked lost |> in
  '(isRoundStart, b) ← noteAcked b acked hasLosses;
  '(sample, s) ← Sampler.OnCongestionEvent (sampler b) eventTime acked lost
                   (Filter.GetBest (maxBandwidth b)) infBandwidth (roundTripCount b);
  let b := b <| sampler := s |> in
  let '(minRttExpired, b) := absorbEvent b eventTime totalBytesAckedBefore sample in
  let bytesLost := i64 (Sampler.TotalBytesLost (sampler b) - totalBytesLostBefore) in
  let b := if hasLosses
           then b <| numLossEventsInRound := u64 (numLossEventsInRound b + 1) |>
                  <| bytesLostInRound := i64 (bytesLostInRound b + bytesLost) |>
           else b in
  b ← updateModes b eventTime rand priorInFlight hasLosses isRoundStart minRttExpired
        (Sampler.lastPacketSendState sample);
  updateRates b totalBytesAckedBefore bytesLost (Sampler.es_extraAcked sample) acked lost isRoundStart.

Definition setHighCwndGain b (gain : float64) : bbrSender :=
  let b := b <| highCwndGain := gain |> in
  if bool_decide (mode b = Startup) then b <| congestionWindowGain := gain |> else b.

End operations.
End Bbr.
