(* ===== verification/BbrFacts.v ===== *)
(** * The BBR sender: invariant and totality

    The invariant of the sender, the frame each part of a congestion event
    respects, and that no operation panics. *)

From S2P Require Import Prelude Float64 QuicGo RingBuffer WindowedFilter PacketQueue Pacer Sampler SamplerSpec Bbr.

Import Bbr.

#[global] Arguments Sampler.OnCongestionEvent : simpl never.
#[global] Arguments Sampler.OnPacketSent : simpl never.
#[global] Arguments Sampler.RemoveObsoletePackets : simpl never.
#[global] Arguments Sampler.OnAppLimited : simpl never.
#[global] Arguments f64_mul : simpl never.
#[global] Arguments f64_div : simpl never.
#[global] Arguments f64_const : simpl never.
#[global] Arguments f64_of_int : simpl never.
#[global] Arguments f64_ltb : simpl never.
#[global] Arguments f64_eqb : simpl never.

(** ** What the parts of an event leave alone *)

(** The fields outside the mode machine, which it does not change; the sampler
    keeps its invariant. *)
Record frame (b b' : bbrSender) : Prop := {
  fr_rtt : rttStats b' = rttStats b;
  fr_pacer : pacer b' = pacer b;
  fr_minRtt : minRtt b' = minRtt b;
  fr_cwnd : congestionWindow b' = congestionWindow b;
  fr_init : initialCongestionWindow b' = initialCongestionWindow b;
  fr_max : maxCongestionWindow b' = maxCongestionWindow b;
  fr_min : minCongestionWindow b' = minCongestionWindow b;
  fr_calc : cwndToCalculateMinPacingRate b' = cwndToCalculateMinPacingRate b;
  fr_adj : maxCongestionWindowWithNetworkParametersAdjusted b' =
           maxCongestionWindowWithNetworkParametersAdjusted b;
  fr_mds : maxDatagramSize b' = maxDatagramSize b;
  fr_detect : detectOvershooting b' = detectOvershooting b;
  fr_recovery : recoveryState b' = recoveryState b;
  fr_recoveryWindow : recoveryWindow b' = recoveryWindow b;
  fr_inFlight : bytesInFlight b' = bytesInFlight b;
  fr_highGain : highGain b' = highGain b;
  fr_highCwndGain : highCwndGain b' = highCwndGain b;
  fr_drainGain : drainGain b' = drainGain b;
  fr_gainConstant : congestionWindowGainConstant b' = congestionWindowGainConstant b;
  fr_filter : maxBandwidth b' = maxBandwidth b;
  fr_rate : pacingRate b' = pacingRate b;
  fr_acked : Sampler.totalBytesAcked (sampler b') = Sampler.totalBytesAcked (sampler b);
  fr_sampler : Safety.wf (sampler b) → Safety.wf (sampler b')
}.

#[global] Instance frame_preorder : PreOrder frame.
Proof.
  split; [intros b; by split|]. intros b1 b2 b3 [] []. split; try congruence. auto.
Qed.

Section estimates.
Context `{Q : QuicGo} `{!QuicGoLaws Q} `{!Platform}.
Implicit Types (b : bbrSender).

(** What the estimates need of the state. *)
Definition rtt_ok b : Prop :=
  in_i64 (minRtt b) ∧ ∃ r, rttStats b = Some r ∧ in_i64 r.

Lemma rtt_ok_frame b b' : frame b b' → rtt_ok b → rtt_ok b'.
Proof. intros Hf. unfold rtt_ok. by rewrite (fr_rtt _ _ Hf), (fr_minRtt _ _ Hf). Qed.

Lemma getMinRtt_returns b : rtt_ok b → returns (getMinRtt b) (λ r, in_i64 r ∧ r ≠ 0).
Proof.
  intros (Hm & r & Hr & Hi). unfold getMinRtt, MinRTT. rewrite Hr.
  destruct (Z.eqb_spec (minRtt b) 0); cbn; [|by apply returns_ok].
  apply returns_ok. destruct (Z.eqb_spec r 0); [|done]. by vm_compute.
Qed.

Lemma u64_nonzero r : in_i64 r → r ≠ 0 → u64 r ≠ 0.
Proof.
  intros Hi Hr. rewrite <- (i64_id r Hi). rewrite <- (Z.sub_0_r r).
  apply u64_of_diff_nonzero; [done|by vm_compute|done].
Qed.

Lemma PacingRate_returns b : rtt_ok b → returns (PacingRate b) (λ _, True).
Proof.
  intros Hb. unfold PacingRate. case_match; [|by apply returns_ok].
  eapply returns_bind; [by apply getMinRtt_returns|]. intros r [Hi Hr].
  eapply returns_bind; [by apply BandwidthFromDelta_returns, u64_nonzero|].
  intros bw _. by apply returns_ok.
Qed.

Lemma bandwidthForPacer_returns b :
  rtt_ok b → returns (bandwidthForPacer b) (λ bps, minBps <= bps ∧ in_i64 bps).
Proof.
  intros Hb. unfold bandwidthForPacer. eapply returns_bind; [by apply PacingRate_returns|].
  intros rate _. cbn zeta. apply returns_ok.
  pose proof (f64_to_i64_in (f64_div (f64_of_int rate) (f64_of_int BytesPerSecond))).
  case_match; unfold minBps in *; mach.
Qed.

Lemma getTarget_returns b gain :
  rtt_ok b → returns (getTargetCongestionWindow b gain) (λ w, minCongestionWindow b <= w ∧
    (in_i64 (minCongestionWindow b) → in_i64 w)).
Proof.
  intros Hb. unfold getTargetCongestionWindow.
  eapply returns_bind; [by apply getMinRtt_returns|]. intros r _. cbn zeta. apply returns_ok.
  split; [lia|]. intros. apply in_i64_max; [|done]. case_match; apply f64_to_i64_in.
Qed.

End estimates.

(** ** The mode machine *)

Section modes.
Context `{Q : QuicGo} `{!QuicGoLaws Q} `{!Platform}.
Implicit Types (b : bbrSender).

(** The offset in the gain cycle drawn on entering PROBE_BW. *)
Definition drawn_offset (rand : Z) : Z :=
  let o := rand mod PacketsPerConnectionID mod 7 in if 1 <=? o then o + 1 else o.

Lemma drawn_offset_range rand : 0 <= drawn_offset rand < 8 ∧ drawn_offset rand ≠ 1.
Proof.
  unfold drawn_offset.
  pose proof (Z.mod_pos_bound (rand mod PacketsPerConnectionID) 7 ltac:(lia)). if_lia.
Qed.

(** Position in the gain cycle and gain agree. *)
Definition cycle_gain (offset : Z) (gain : float64) : Prop :=
  pacingGainCycle !! Z.to_nat offset = Some gain.

Lemma cycle_get o : 0 <= o < 8 → returns (slice_get pacingGainCycle o) (cycle_gain o).
Proof.
  intros Ho. destruct (lookup_lt_is_Some_2 pacingGainCycle (Z.to_nat o)) as [g Hg]; [cbn; lia|].
  exists g. split; [by apply slice_get_ok; [lia|]|done].
Qed.

Lemma enterProbeBandwidthMode_returns b now rand :
  returns (enterProbeBandwidthMode b now rand) (λ b', frame b b' ∧
    mode b' = ProbeBw ∧ isAtFullBandwidth b' = isAtFullBandwidth b ∧
    congestionWindowGain b' = congestionWindowGainConstant b ∧
    cycleCurrentOffset b' = drawn_offset rand ∧ cycle_gain (drawn_offset rand) (pacingGain b') ∧
    lastCycleStart b' = now).
Proof.
  unfold enterProbeBandwidthMode, Int31n. pose proof PacketsPerConnectionID_range.
  replace (PacketsPerConnectionID <=? 0) with false by lia. cbn [mbind result_bind]. cbn zeta.
  assert (0 <= rand mod PacketsPerConnectionID) by (apply Z.mod_pos_bound; lia).
  unfold gainCycleLength. change (8 - 1) with 7. rewrite Z.rem_mod_nonneg by lia.
  fold (drawn_offset rand). cbn [cycleCurrentOffset set_field].
  eapply returns_bind; [apply cycle_get, drawn_offset_range|]. intros g Hg.
  apply returns_ok. split; [by split|]. by split_and!.
Qed.

Lemma updateGainCyclePhase_returns b now prior losses :
  rtt_ok b → 0 <= cycleCurrentOffset b < 8 →
  returns (updateGainCyclePhase b now prior losses) (λ b', frame b b' ∧
    mode b' = mode b ∧ isAtFullBandwidth b' = isAtFullBandwidth b ∧
    congestionWindowGain b' = congestionWindowGain b ∧ 0 <= cycleCurrentOffset b' < 8 ∧
    (pacingGain b' = pacingGain b ∨ cycle_gain (cycleCurrentOffset b') (pacingGain b'))).
Proof.
  intros Hb Ho. unfold updateGainCyclePhase.
  eapply returns_bind; [by apply getMinRtt_returns|]. intros rtt _. cbn zeta.
  eapply (returns_bind _ _ (λ _, True)).
  { case_match; [|by apply returns_ok]. eapply returns_bind; [by apply getTarget_returns|].
    intros ? _. by apply returns_ok. }
  intros advance1 _. eapply (returns_bind _ _ (λ _, True)).
  { case_match; [|by apply returns_ok]. eapply returns_bind; [by apply getTarget_returns|].
    intros ? _. by apply returns_ok. }
  intros advance _. destruct advance; cbn [negb].
  2: { apply returns_ok. split; [reflexivity|]. split_and!; try done; try apply Ho; by left. }
  set (o := Z.rem (i64 (cycleCurrentOffset b + 1)) gainCycleLength).
  assert (0 <= o < 8) as Ho'.
  { subst o. rewrite i64_id by mach. unfold gainCycleLength. rewrite Z.rem_mod_nonneg by lia.
    apply Z.mod_pos_bound. lia. }
  set (b1 := b <| cycleCurrentOffset := o |> <| lastCycleStart := now |>).
  assert (frame b b1) as Hf by by split.
  eapply (returns_bind _ _ (λ _, True)).
  { case_match; [|by apply returns_ok].
    eapply returns_bind; [by apply cycle_get|]. intros g _. case_match; [|by apply returns_ok].
    eapply returns_bind; [apply getTarget_returns, (rtt_ok_frame b b1); done|].
    intros ? _. by apply returns_ok. }
  intros stay _. destruct stay.
  { apply returns_ok. split_and!; try done; try apply Ho'; by left. }
  eapply returns_bind; [by apply cycle_get|]. intros g Hg. apply returns_ok.
  split; [by split|]. split_and!; try done; try apply Ho'. by right.
Qed.

(** The verdict of [checkIfFullBandwidthReached] after a round. *)
Lemma checkIfFullBandwidthReached_frame b state :
  let b' := checkIfFullBandwidthReached b state in
  frame b b' ∧ mode b' = mode b ∧ cycleCurrentOffset b' = cycleCurrentOffset b ∧
  pacingGain b' = pacingGain b ∧ congestionWindowGain b' = congestionWindowGain b ∧
  (isAtFullBandwidth b = true → isAtFullBandwidth b' = true).
Proof.
  unfold checkIfFullBandwidthReached. cbn zeta. repeat case_match;
    (split; [split; try done; by apply Safety.wf_same|]); by split_and!.
Qed.

End modes.

(** ** Gains and transitions *)

(** Each mode runs with its own gains; PROBE_BW gains come from the cycle. *)
Definition gains (b : bbrSender) : Prop :=
  match mode b with
  | Startup => pacingGain b = highGain b ∧ congestionWindowGain b = highCwndGain b
  | Drain => pacingGain b = drainGain b ∧ congestionWindowGain b = highCwndGain b
  | ProbeBw => pacingGain b ∈ pacingGainCycle ∧
               congestionWindowGain b = congestionWindowGainConstant b
  | ProbeRtt => pacingGain b = f64_const 1 1
  end.

(** DRAIN and PROBE_BW are only for a sender that has found the bandwidth. *)
Definition full_if_past_startup (b : bbrSender) : Prop :=
  match mode b with Drain | ProbeBw => isAtFullBandwidth b = true | _ => True end.

(** STARTUP is only for one that has not. *)
Definition searching_in_startup (b : bbrSender) : Prop :=
  mode b = Startup → isAtFullBandwidth b = false.

(** The transitions of (mode, full bandwidth reached) in one congestion event. *)
Inductive mode_step : bbrMode → bool → bbrMode → bool → Prop :=
  | step_same m f : mode_step m f m f
  | step_found_in_probe_rtt : mode_step ProbeRtt false ProbeRtt true
  | step_drain : mode_step Startup false Drain true
  | step_probe_bw m f : m ≠ ProbeBw → (m = Drain → f = true) → mode_step m f ProbeBw true
  | step_enter_probe_rtt m f f' :
      m ≠ ProbeRtt → (f ≠ f' → m = Startup ∧ f = false) → mode_step m f ProbeRtt f'
  | step_restart : mode_step ProbeRtt false Startup false.

Record machine (b : bbrSender) : Prop := {
  mc_gains : gains b;
  mc_full : full_if_past_startup b;
  mc_offset : 0 <= cycleCurrentOffset b < 8
}.

(** Framing and invariant goals for a state that differs in a few fields. *)
Ltac keep :=
  try done;
  match goal with
  | |- frame _ _ =>
      first [assumption | reflexivity | by split | etransitivity; [eassumption|by split]
            | etransitivity; eassumption]
  | |- machine _ => repeat match goal with H : machine _ |- _ => destruct H end; by split
  | _ => idtac
  end.

Section transitions.
Context `{Q : QuicGo} `{!QuicGoLaws Q} `{!Platform}.
Implicit Types (b : bbrSender).

Lemma cycle_gain_elem o g : cycle_gain o g → g ∈ pacingGainCycle.
Proof. apply list_elem_of_lookup_2. Qed.

Lemma enterProbeBw_machine b now rand :
  isAtFullBandwidth b = true →
  returns (enterProbeBandwidthMode b now rand) (λ b', frame b b' ∧ machine b' ∧
    mode b' = ProbeBw ∧ isAtFullBandwidth b' = true).
Proof.
  intros Hf. apply (returns_mono _ _ _ (enterProbeBandwidthMode_returns b now rand)).
  intros b' (Hfr & Hm & Hfull & Hg & Ho & Hc & _). split_and!; [done| |done|congruence].
  split; unfold gains, full_if_past_startup; rewrite ?Hm.
  - split; [by eapply cycle_gain_elem|]. by rewrite Hg, (fr_gainConstant _ _ Hfr).
  - congruence.
  - rewrite Ho. apply drawn_offset_range.
Qed.

Lemma maybeExitStartupOrDrain_returns b now rand :
  rtt_ok b → machine b →
  returns (maybeExitStartupOrDrain b now rand) (λ b', frame b b' ∧ machine b' ∧
    isAtFullBandwidth b' = isAtFullBandwidth b ∧ searching_in_startup b' ∧
    (mode b' = mode b ∨
     (mode b = Startup ∨ mode b = Drain) ∧ isAtFullBandwidth b = true ∧
     (mode b' = Drain ∨ mode b' = ProbeBw))).
Proof.
  intros Hb Hmc. pose proof Hmc as [Hg Hfull Ho]. unfold maybeExitStartupOrDrain.
  set (b1 := if bool_decide (mode b = Startup) && isAtFullBandwidth b then _ else b).
  assert (frame b b1 ∧ machine b1 ∧ isAtFullBandwidth b1 = isAtFullBandwidth b ∧
    searching_in_startup b1 ∧ (mode b1 = mode b ∨ mode b = Startup ∧ isAtFullBandwidth b = true ∧ mode b1 = Drain))
    as (Hf1 & Hm1 & Hfull1 & Hs1 & Hmode1).
  { subst b1. case_bool_decide as Hm; [destruct (isAtFullBandwidth b) eqn:Hfb|]; cbn [andb].
    - split_and!; try done; try (by split); by right.
    - split_and!; try done; [by intros ?|by left].
    - split_and!; try done; [by intros ?|by left]. }
  clearbody b1. cbn zeta. case_bool_decide as Hd.
  2: { apply returns_ok. split_and!; try done. destruct Hmode1 as [->|(? & ? & ?)]; [by left|done]. }
  assert (isAtFullBandwidth b1 = true) as Hfb.
  { pose proof (mc_full b1 Hm1) as H'. unfold full_if_past_startup in H'. by rewrite Hd in H'. }
  assert (mode b = Startup ∨ mode b = Drain) as Hfrom by (destruct Hmode1 as [H'|[]]; [right; congruence|by left]).
  eapply returns_bind; [by apply getTarget_returns, (rtt_ok_frame b b1)|]. intros target _.
  case_match.
  - apply (returns_mono _ _ _ (enterProbeBw_machine b1 now rand Hfb)).
    intros b' (Hfr & Hm & Hmode & Hf'). split_and!; try done; try congruence.
    + by transitivity b1.
    + right. split_and!; [done|congruence|by right].
  - apply returns_ok. split_and!; try done. right. split_and!; [done|congruence|by left].
Qed.

Lemma inProbeRtt_returns b now rand round :
  machine b → mode b = ProbeRtt →
  returns (inProbeRtt b now rand round) (λ b', frame b b' ∧ machine b' ∧
    isAtFullBandwidth b' = isAtFullBandwidth b ∧
    (mode b' = ProbeRtt ∧
       (exitProbeRttAt b' = exitProbeRttAt b ∨
        exitProbeRttAt b = 0 ∧ exitProbeRttAt b' = time_Add now probeRttTime) ∨
     mode b' = (if isAtFullBandwidth b then ProbeBw else Startup) ∧
       exitProbeRttAt b ≠ 0 ∧ 0 <= time_Sub now (exitProbeRttAt b) ∧
       (probeRttRoundPassed b = true ∨ round = true))).
Proof.
  intros Hmc Hm. pose proof Hmc as [Hg Hfull Ho]. unfold inProbeRtt.
  set (b1 := b <| sampler := Sampler.OnAppLimited (sampler b) |>).
  assert (frame b b1 ∧ machine b1) as [Hf1 Hm1].
  { split; [|by split]. split; try done. apply Safety.OnAppLimited_wf. }
  rewrite time_IsZero_spec. change (exitProbeRttAt b1) with (exitProbeRttAt b).
  destruct (Z.eqb_spec (exitProbeRttAt b) 0) as [Hz|Hz].
  { apply returns_ok. case_match.
    - split_and!; keep. left. split; [done|by right].
    - split_and!; keep. left. split; [done|by left]. }
  set (b2 := if round then b1 <| probeRttRoundPassed := true |> else b1).
  assert (frame b b2 ∧ machine b2 ∧ mode b2 = ProbeRtt ∧ exitProbeRttAt b2 = exitProbeRttAt b ∧
    isAtFullBandwidth b2 = isAtFullBandwidth b ∧
    (probeRttRoundPassed b2 = true → probeRttRoundPassed b = true ∨ round = true))
    as (Hf2 & Hm2 & Hmode2 & He2 & Hfull2 & Hround).
  { subst b2. destruct round; split_and!; keep; auto. }
  clearbody b2. rewrite He2. cbn zeta.
  destruct ((0 <=? time_Sub now (exitProbeRttAt b)) && probeRttRoundPassed b2) eqn:Hexit.
  2: { apply returns_ok. split_and!; keep. left. split; [done|by left]. }
  apply andb_prop in Hexit as [Hle%Z.leb_le Hp].
  set (b3 := b2 <| minRttTimestamp := now |>).
  assert (frame b b3) as Hf3 by (transitivity b2; [done|by split]).
  assert (isAtFullBandwidth b3 = isAtFullBandwidth b) as Hfull3 by done.
  assert (0 <= cycleCurrentOffset b3 < 8) as Ho3 by apply Hm2.
  clearbody b3. rewrite Hfull3. destruct (isAtFullBandwidth b) eqn:Hfb; cbn [negb].
  - apply (returns_mono _ _ _ (enterProbeBw_machine b3 now rand Hfull3)).
    intros b' (Hfr & Hm' & Hmode & Hf'). split_and!; keep.
    right. split_and!; auto.
  - apply returns_ok. split_and!; keep.
    right. split_and!; auto.
Qed.

(** How PROBE_RTT is entered and left. *)
Definition probe_rtt_moves b (now : Z) (round expired : bool) (b' : bbrSender) : Prop :=
  (mode b ≠ ProbeRtt →
     mode b' = mode b ∨
     mode b' = ProbeRtt ∧ expired = true ∧ exitingQuiescence b = false ∧
     (exitProbeRttAt b' = 0 ∨ exitProbeRttAt b' = time_Add now probeRttTime)) ∧
  (mode b = ProbeRtt →
     mode b' = ProbeRtt ∧
       (exitProbeRttAt b' = exitProbeRttAt b ∨
        exitProbeRttAt b = 0 ∧ exitProbeRttAt b' = time_Add now probeRttTime) ∨
     mode b' = (if isAtFullBandwidth b then ProbeBw else Startup) ∧
       exitProbeRttAt b ≠ 0 ∧ 0 <= time_Sub now (exitProbeRttAt b) ∧
       (probeRttRoundPassed b = true ∨ round = true)).

Lemma maybeEnterOrExitProbeRtt_returns b now rand round expired :
  machine b → searching_in_startup b →
  returns (maybeEnterOrExitProbeRtt b now rand round expired) (λ b', frame b b' ∧ machine b' ∧
    isAtFullBandwidth b' = isAtFullBandwidth b ∧ searching_in_startup b' ∧
    probe_rtt_moves b now round expired b').
Proof.
  intros Hmc Hs. unfold maybeEnterOrExitProbeRtt.
  set (b1 := if expired && _ && _ then _ else b).
  cbn zeta. eapply (returns_bind _ _ (λ b2, frame b b2 ∧ machine b2 ∧
    isAtFullBandwidth b2 = isAtFullBandwidth b ∧ searching_in_startup b2 ∧
    probe_rtt_moves b now round expired b2)).
  2: { intros b2 (Hf & Hm & Hfull & Hs2 & Hrest). apply returns_ok.
       split_and!; keep; apply Hrest. }
  destruct (decide (mode b = ProbeRtt)) as [Hm|Hm].
  - assert (b1 = b) as ->.
    { subst b1. rewrite (bool_decide_eq_true_2 _ Hm), andb_false_r. done. }
    rewrite bool_decide_eq_true_2 by done.
    apply (returns_mono _ _ _ (inProbeRtt_returns b now rand round Hmc Hm)).
    intros b' (? & ? & Hfull & Hcase). split_and!; try done.
    intros Hst. destruct Hcase as [[? _]|[Hst' _]]; [congruence|].
    rewrite Hfull. destruct (isAtFullBandwidth b); congruence.
  - destruct (expired && negb (exitingQuiescence b) && negb (bool_decide (mode b = ProbeRtt))) eqn:Henter.
    + apply andb_prop in Henter as [[Hexp Hq]%andb_prop _].
      assert (machine b1 ∧ mode b1 = ProbeRtt ∧ frame b b1) as (Hm1 & Hmode1 & Hf1).
      { destruct Hmc. subst b1. split_and!; keep. }
      rewrite (bool_decide_eq_true_2 _ Hmode1).
      apply (returns_mono _ _ _ (inProbeRtt_returns b1 now rand round Hm1 Hmode1)).
      intros b' (Hf' & ? & Hfull & Hcase).
      destruct Hcase as [[Hmode Hexit]|(_ & Hexit & _)]; [|done].
      split_and!; keep; [intros ?; congruence|].
      split; [|done]. intros _. right. split_and!; [done|done|by destruct (exitingQuiescence b)|].
      destruct Hexit as [->|[_ ->]]; [by left|by right].
    + assert (b1 = b) as -> by done. rewrite bool_decide_eq_false_2 by done.
      apply returns_ok. split_and!; try done. split; [by left|done].
Qed.

End transitions.

(** ** The invariant *)

(** Windows are whole numbers of datagrams, the congestion window is between
    the smallest and the largest. *)
Record core `{Q : QuicGo} (b : bbrSender) : Prop := {
  co_size : 0 < maxDatagramSize b <= 65535;
  co_initial : initialCongestionWindow b = initialCongestionWindowPackets * maxDatagramSize b;
  co_floor : cwndToCalculateMinPacingRate b = initialCongestionWindowPackets * maxDatagramSize b;
  co_min : minCongestionWindow b = minCongestionWindowPackets * maxDatagramSize b;
  co_max : maxCongestionWindow b = MaxCongestionWindowPackets * maxDatagramSize b;
  co_adjusted : maxCongestionWindowWithNetworkParametersAdjusted b = maxCongestionWindow b;
  co_window : minCongestionWindow b <= congestionWindow b <= maxCongestionWindow b;
  co_rtt : rtt_ok b;
  co_sampler : Safety.wf (sampler b);
  co_pacer : Pacer.wf (pacer b) ∧ maxDatagramSize b <= Pacer.maxDatagramSize (pacer b)
}.

(** Recovery only starts once the bandwidth is known. *)
Definition recovery_ok (b : bbrSender) : Prop :=
  recoveryState b ≠ NotInRecovery → isAtFullBandwidth b = true.

Record inv `{Q : QuicGo} (b : bbrSender) : Prop := {
  in_core : core b;
  in_machine : machine b;
  in_searching : searching_in_startup b;
  in_recovery : recovery_ok b;
  in_window : minCongestionWindow b <= recoveryWindow b
}.

Section preservation.
Context `{Q : QuicGo} `{!QuicGoLaws Q} `{!Platform}.
Implicit Types (b : bbrSender).

Lemma core_frame b b' : frame b b' → core b → core b'.
Proof.
  intros Hf []. destruct (Hf). split; try congruence; [by apply (rtt_ok_frame b)|auto].
Qed.

Lemma maybeAppLimited_returns b inFlight :
  rtt_ok b → returns (maybeAppLimited b inFlight) (λ b', frame b b' ∧
    ∃ s, b' = b <| sampler := s |>).
Proof.
  intros Hb. unfold maybeAppLimited. eapply returns_bind; [by apply getTarget_returns|].
  intros t _. apply returns_ok. case_match.
  - split; [|by eexists]. split; try done. apply Safety.OnAppLimited_wf.
  - split; [reflexivity|]. exists (sampler b). by destruct b.
Qed.

(** Between noting the acknowledgements and computing the recovery window a new
    recovery has the window 0. *)
Definition window_pending b : Prop :=
  minCongestionWindow b <= recoveryWindow b ∨ recoveryWindow b = 0 ∧ recoveryState b = Conservation.

Record inv_mid b : Prop := {
  mi_core : core b;
  mi_machine : machine b;
  mi_searching : searching_in_startup b;
  mi_recovery : recovery_ok b;
  mi_window : window_pending b
}.

Lemma updateRecoveryState_mid b pn losses round :
  inv b → inv_mid (updateRecoveryState b pn losses round) ∧
    mode (updateRecoveryState b pn losses round) = mode b ∧
    isAtFullBandwidth (updateRecoveryState b pn losses round) = isAtFullBandwidth b.
Proof.
  intros [Hc Hm Hs Hr Hw]. unfold updateRecoveryState.
  destruct (isAtFullBandwidth b) eqn:Hf; cbn [negb].
  2: { split_and!; try done. split; try done. by left. }
  destruct Hc, Hm. destruct losses, round, (recoveryState b) eqn:Hrs; cbn [negb andb];
    try case_match; (split_and!; try done; split; first [done|by split|by intros ?|by left|by right]).
Qed.

Lemma updateRoundTripCounter_inv b pn round b' :
  updateRoundTripCounter b pn = (round, b') → inv b → inv b' ∧
    mode b' = mode b ∧ isAtFullBandwidth b' = isAtFullBandwidth b.
Proof.
  unfold updateRoundTripCounter. intros H' Hi. case_match; simplify_eq; [|done].
  by destruct Hi as [[] [] ???].
Qed.

Lemma noteAcked_returns b acked losses :
  inv b → returns (noteAcked b acked losses) (λ '(round, b'), inv_mid b' ∧
    mode b' = mode b ∧ isAtFullBandwidth b' = isAtFullBandwidth b).
Proof.
  intros Hi. unfold noteAcked. case_match eqn:Hl.
  { apply returns_ok. split_and!; try done. destruct Hi; split; try done. by left. }
  eapply returns_bind; [apply slice_get_last; by intros ->|]. intros p _.
  destruct (updateRoundTripCounter b (acked_PacketNumber p)) as [round b1] eqn:Hc.
  destruct (updateRoundTripCounter_inv _ _ _ _ Hc Hi) as (Hi1 & Hm1 & Hf1).
  apply returns_ok.
  destruct (updateRecoveryState_mid b1 (acked_PacketNumber p) losses round Hi1) as (? & -> & ->).
  by split_and!.
Qed.

End preservation.
