(* ===== verification/BbrEvent.v ===== *)
(** * The BBR sender: congestion events, runs and the invariant

    Every part of a congestion event keeps the invariant and returns; so does
    every sequence of calls the host makes. *)

From S2P Require Import Prelude Float64 QuicGo RingBuffer WindowedFilter PacketQueue Pacer Sampler SamplerSpec Bbr BbrFacts.

Import Bbr.

(** The invariant of a state that differs in fields the invariant ignores. *)
Ltac same_inv :=
  match goal with
  | H : inv_mid ?b |- inv_mid _ => destruct H as [[] [] ???]; split; [by split|by split|done..]
  end.

Section event.
Context `{Q : QuicGo} `{!QuicGoLaws Q} `{!Platform}.
Implicit Types (b : bbrSender).

Lemma with_sampler_mid b s : inv_mid b → Safety.wf s → inv_mid (b <| sampler := s |>).
Proof. intros [[] [] ???] Hs. split; [by split|by split|done..]. Qed.

Lemma maybeUpdateMinRtt_mid b now rtt expired b' :
  maybeUpdateMinRtt b now rtt = (expired, b') → in_i64 rtt → inv_mid b → inv_mid b' ∧
  mode b' = mode b ∧ isAtFullBandwidth b' = isAtFullBandwidth b.
Proof.
  unfold maybeUpdateMinRtt. intros H' Hr Hi. case_match; simplify_eq; [|done].
  split_and!; [|done..]. destruct Hi as [[???????[Hm Hp]??] [] ???]. split; [|by split|done..].
  by split.
Qed.

Lemma absorbEvent_mid b now before sample expired b' :
  absorbEvent b now before sample = (expired, b') → Safety.event_ok sample → inv_mid b → inv_mid b' ∧
  mode b' = mode b ∧ isAtFullBandwidth b' = isAtFullBandwidth b.
Proof.
  unfold absorbEvent. cbn zeta. intros H' [_ Hr _ _] Hi.
  set (b1 := if Sampler.isValid _ then _ else b) in H'.
  assert (inv_mid b1 ∧ mode b1 = mode b ∧ isAtFullBandwidth b1 = isAtFullBandwidth b) as (Hi1 & <- & <-).
  { clear H'. subst b1. case_match; [|done]. split_and!; [same_inv|done..]. }
  clearbody b1. set (b2 := if negb _ && _ then _ else b1) in H'.
  assert (inv_mid b2 ∧ mode b2 = mode b1 ∧ isAtFullBandwidth b2 = isAtFullBandwidth b1) as (Hi2 & <- & <-).
  { clear H'. subst b2. case_match; [|done]. split_and!; [same_inv|done..]. }
  clearbody b2. case_match; [|by simplify_eq]. by eapply maybeUpdateMinRtt_mid.
Qed.

(** *** The mode machine takes one transition per event *)

Lemma mode_step_compose m0 f0 m1 f1 m2 :
  (f0 = true → f1 = true) →
  match m0 with Drain | ProbeBw => f0 = true | _ => True end →
  (m0 = Startup → f0 = false) →
  (m1 = m0 ∨ (m0 = Startup ∨ m0 = Drain) ∧ f1 = true ∧ (m1 = Drain ∨ m1 = ProbeBw)) →
  (m1 = Startup → f1 = false) →
  (m1 ≠ ProbeRtt → m2 = m1 ∨ m2 = ProbeRtt) →
  (m1 = ProbeRtt → m2 = ProbeRtt ∨ m2 = if f1 then ProbeBw else Startup) →
  mode_step m0 f0 m2 f1.
Proof.
  intros Hmono Hpast Hs0 H1 Hs1 Hout Hin.
  destruct (decide (m1 = ProbeRtt)) as [Heq|Hne].
  - assert (m0 = ProbeRtt) as -> by (destruct H1 as [|(_ & _ & [|])]; congruence).
    destruct f0, f1, (Hin Heq) as [-> | ->]; try (by constructor); discriminate (Hmono eq_refl).
  - destruct (Hout Hne) as [-> | ->].
    + destruct H1 as [-> |([-> | ->] & -> & [-> | ->])].
      * destruct m0, f0, f1; try (by constructor); exfalso; auto; naive_solver.
      * rewrite Hs0 by done. constructor.
      * by constructor.
      * rewrite Hpast. constructor.
      * by constructor.
    + constructor; [naive_solver|]. intros Hf.
      destruct m0, f0, f1; try done; naive_solver.
Qed.

(** The mode machine before PROBE_RTT is considered. *)
Definition modes_prefix b (now rand priorInFlight : Z) (hasLosses isRoundStart : bool)
    (lastPacketSendState : Sampler.sendTimeState) : result bbrSender :=
  b ← (if bool_decide (mode b = ProbeBw)
       then updateGainCyclePhase b now priorInFlight hasLosses else Ok b);
  maybeExitStartupOrDrain
    (if isRoundStart && negb (isAtFullBandwidth b)
     then checkIfFullBandwidthReached b lastPacketSendState else b) now rand.

Lemma updateModes_eq b now rand prior losses round expired state :
  updateModes b now rand prior losses round expired state =
  (b ← modes_prefix b now rand prior losses round state;
   maybeEnterOrExitProbeRtt b now rand round expired).
Proof. unfold updateModes, modes_prefix. by case_match; [destruct (updateGainCyclePhase _ _ _ _)|]. Qed.

Lemma modes_prefix_returns b now rand prior losses round state :
  machine b → searching_in_startup b → rtt_ok b →
  returns (modes_prefix b now rand prior losses round state) (λ b3, frame b b3 ∧
    machine b3 ∧ searching_in_startup b3 ∧
    (isAtFullBandwidth b = true → isAtFullBandwidth b3 = true) ∧
    (mode b3 = mode b ∨
     (mode b = Startup ∨ mode b = Drain) ∧ isAtFullBandwidth b3 = true ∧
     (mode b3 = Drain ∨ mode b3 = ProbeBw))).
Proof.
  intros Hm Hs Hb. unfold modes_prefix.
  eapply (returns_bind _ _ (λ b1, frame b b1 ∧ machine b1 ∧ mode b1 = mode b ∧
    isAtFullBandwidth b1 = isAtFullBandwidth b)).
  { case_bool_decide as Hp; [|apply returns_ok; split_and!; keep].
    apply (returns_mono _ _ _ (updateGainCyclePhase_returns b now prior losses Hb (mc_offset b Hm))).
    intros b1 (Hf & Hmode & Hfull & Hg & Ho & Hpg). split_and!; try done.
    destruct Hm as [Hgains Hpast _]. split; [| |done]; unfold gains, full_if_past_startup in *;
      rewrite Hmode, Hp in *; [|congruence].
    rewrite Hg, (fr_gainConstant _ _ Hf). split; [|apply Hgains].
    destruct Hpg as [->|Hcyc]; [apply Hgains|by eapply cycle_gain_elem]. }
  intros b1 (Hf1 & Hm1 & Hmode1 & Hfull1).
  set (b2 := if round && _ then _ else b1).
  assert (frame b b2 ∧ machine b2 ∧ mode b2 = mode b ∧
    (isAtFullBandwidth b = true → isAtFullBandwidth b2 = true)) as (Hf2 & Hm2 & Hmode2 & Hfull2).
  { subst b2. case_match; [|split_and!; try done; congruence].
    destruct (checkIfFullBandwidthReached_frame b1 state) as (Hf & Hmode & Ho & Hpg & Hg & Hfull).
    split_and!; [by transitivity b1| |congruence|rewrite <- Hfull1; exact Hfull].
    destruct Hm1 as [Hgains Hpast Hoff]. split; unfold gains, full_if_past_startup in *;
      rewrite ?Hmode, ?Hpg, ?Hg, ?Ho, ?(fr_highGain _ _ Hf), ?(fr_highCwndGain _ _ Hf),
        ?(fr_drainGain _ _ Hf), ?(fr_gainConstant _ _ Hf); try done.
    destruct (mode b1); auto. }
  clearbody b2. clear b1 Hf1 Hm1 Hmode1 Hfull1.
  eapply returns_mono; [apply maybeExitStartupOrDrain_returns; [by apply (rtt_ok_frame b)|done]|].
  intros b3 (Hf3 & Hm3 & Hfull3 & Hs3 & Hmode3). rewrite Hfull3.
  split_and!; [by transitivity b2|done|done|exact Hfull2|]. by rewrite <- Hmode2.
Qed.

Lemma updateModes_returns b now rand prior losses round expired state :
  inv_mid b → rtt_ok b →
  returns (updateModes b now rand prior losses round expired state) (λ b', frame b b' ∧
    machine b' ∧ searching_in_startup b' ∧
    (isAtFullBandwidth b = true → isAtFullBandwidth b' = true) ∧
    mode_step (mode b) (isAtFullBandwidth b) (mode b') (isAtFullBandwidth b')).
Proof.
  intros [Hc Hm Hs _ _] Hb. rewrite updateModes_eq.
  eapply returns_bind; [by apply modes_prefix_returns|].
  intros b3 (Hf3 & Hm3 & Hs3 & Hfull3 & Hmode3).
  apply (returns_mono _ _ _ (maybeEnterOrExitProbeRtt_returns b3 now rand round expired Hm3 Hs3)).
  intros b4 (Hf4 & Hm4 & Hfull4 & Hs4 & Hout & Hin).
  split_and!; [by transitivity b3|done|done|by rewrite Hfull4|].
  apply (mode_step_compose _ _ (mode b3)); rewrite ?Hfull4; try done.
  - by apply mc_full in Hm.
  - intros Hne. destruct (Hout Hne) as [?|[? _]]; auto.
  - intros He. destruct (Hin He) as [[? _]|[? _]]; auto.
Qed.

(** *** Pacing rate and windows *)

(** The provider has an RTT sample. *)
Definition has_rtt b : Prop := ∃ r, rttStats b = Some r ∧ in_i64 r ∧ r ≠ 0.

Definition with_pacing b (rate bytes : Z) (detect : bool) : bbrSender :=
  b <| pacingRate := rate |> <| bytesLostWhileDetectingOvershooting := bytes |>
    <| detectOvershooting := detect |>.

Lemma with_rate b rate :
  b <| pacingRate := rate |> =
  with_pacing b rate (bytesLostWhileDetectingOvershooting b) (detectOvershooting b).
Proof. by destruct b. Qed.

Lemma with_nothing b :
  b = with_pacing b (pacingRate b) (bytesLostWhileDetectingOvershooting b) (detectOvershooting b).
Proof. by destruct b. Qed.

Lemma calculatePacingRate_returns b lost :
  has_rtt b →
  returns (calculatePacingRate b lost) (λ b', ∃ rate bytes detect, b' = with_pacing b rate bytes detect).
Proof.
  intros (r & Hprov & Hi & Hne). unfold calculatePacingRate.
  case_match; [apply returns_ok; do 3 eexists; apply with_nothing|].
  set (targetRate := f64_to_u64 _). cbn zeta.
  case_match; [apply returns_ok; do 3 eexists; apply with_rate|].
  eapply (returns_bind _ _ (λ _, True)).
  { case_match; [|by apply returns_ok]. unfold MinRTT. rewrite Hprov. cbn.
    destruct (Z.eqb_spec r 0); cbn; [by apply returns_ok|].
    eapply returns_bind; [by apply BandwidthFromDelta_returns, u64_nonzero|].
    intros ? _; by apply returns_ok. }
  intros [rate|] _; [apply returns_ok; do 3 eexists; apply with_rate|].
  eapply (returns_bind _ _ (λ b', ∃ rate bytes detect, b' = with_pacing b rate bytes detect)).
  - case_match eqn:Hd; [|apply returns_ok; do 3 eexists; apply with_nothing].
    set (b1 := b <| bytesLostWhileDetectingOvershooting := _ |>).
    assert (b1 = with_pacing b (pacingRate b1) (bytesLostWhileDetectingOvershooting b1) (detectOvershooting b))
      as Hb1 by by destruct b.
    case_match; [|apply returns_ok; do 3 eexists; exact Hb1].
    unfold MinRTT. change (rttStats b1) with (rttStats b). rewrite Hprov. cbn [mbind result_bind].
    eapply returns_bind; [by apply BandwidthFromDelta_returns, u64_nonzero|].
    intros floor _. apply returns_ok. exists (Z.max targetRate floor), 0, false. by destruct b.
  - intros b' (rate & bytes & detect & ->). apply returns_ok.
    exists (Z.max rate targetRate), bytes, detect. by destruct b.
Qed.

Lemma calculateCongestionWindow_returns b acked excess :
  core b → returns (calculateCongestionWindow b acked excess) (λ b', ∃ w,
    b' = b <| congestionWindow := w |> ∧ minCongestionWindow b <= w <= maxCongestionWindow b).
Proof.
  intros Hc. pose proof (co_window b Hc). unfold calculateCongestionWindow. case_match.
  { apply returns_ok. exists (congestionWindow b). split; [by destruct b|done]. }
  eapply returns_bind; [apply getTarget_returns, Hc|]. intros t _. cbn zeta. apply returns_ok.
  eexists. split; [done|]. pose proof (co_min b Hc). pose proof (co_max b Hc).
  pose proof (co_size b Hc). pose proof MaxCongestionWindowPackets_range.
  unfold minCongestionWindowPackets in *. split; [|apply Z.le_min_r].
  apply Z.min_glb; [apply Z.le_max_r|nia].
Qed.

Lemma calculateRecoveryWindow_returns b acked lost :
  rtt_ok b → window_pending b →
  returns (calculateRecoveryWindow b acked lost) (λ b', ∃ w,
    b' = b <| recoveryWindow := w |> ∧ minCongestionWindow b <= w).
Proof.
  intros Hr Hw. unfold calculateRecoveryWindow. case_bool_decide as Hrec.
  { apply returns_ok. exists (recoveryWindow b). split; [by destruct b|].
    destruct Hw as [|[_ ?]]; [done|congruence]. }
  eapply returns_bind; [by apply getTarget_returns|]. intros t _. cbn zeta.
  case_match; apply returns_ok; eexists; (split; [done|lia]).
Qed.

(** *** The whole event *)

(** The fields of the mode machine. *)
Record same_modes (b b' : bbrSender) : Prop := {
  sm_mode : mode b' = mode b;
  sm_full : isAtFullBandwidth b' = isAtFullBandwidth b;
  sm_exit : exitProbeRttAt b' = exitProbeRttAt b;
  sm_passed : probeRttRoundPassed b' = probeRttRoundPassed b;
  sm_quiescence : exitingQuiescence b' = exitingQuiescence b
}.

Definition event_args_ok (now : Z) (acked : list AckedPacketInfo) (lost : list LostPacketInfo) : Prop :=
  in_i64 now ∧ Safety.acked_ok acked ∧ Safety.lost_ok lost ∧ (acked ≠ [] ∨ lost ≠ []).

Lemma leastUnacked_returns acked lost :
  acked ≠ [] ∨ lost ≠ [] → returns (leastUnacked acked lost) (λ _, True).
Proof.
  intros Hne. unfold leastUnacked. destruct (Z.eqb_spec (len acked) 0) as [Hl|Hl]; cbn [negb].
  - apply len_nil_inv in Hl. destruct Hne; [done|].
    eapply returns_bind; [by apply slice_get_last|]. intros ? _. by apply returns_ok.
  - eapply returns_bind; [apply slice_get_last; by intros ->|]. intros ? _. by apply returns_ok.
Qed.

Lemma same_modes_trans b1 b2 b3 : same_modes b1 b2 → same_modes b2 b3 → same_modes b1 b3.
Proof. intros [] []. split; congruence. Qed.

(** What the host sets: the RTT provider and the datagram size. *)
Definition host b : option Z * Z := (rttStats b, maxDatagramSize b).

Lemma noteAcked_modes b acked losses round b' :
  noteAcked b acked losses = Ok (round, b') → same_modes b b' ∧ host b' = host b.
Proof.
  unfold noteAcked. intros Hrun. case_match; [by simplify_eq|]. inv_bind Hrun.
  destruct (updateRoundTripCounter b _) as [round' b1] eqn:Hc. simplify_eq.
  assert (same_modes b b1 ∧ host b1 = host b) as [Hs <-].
  { unfold updateRoundTripCounter in Hc. case_match; by simplify_eq. }
  assert (∀ l r, same_modes b1 (updateRecoveryState b1 (acked_PacketNumber v) l r) ∧
    host (updateRecoveryState b1 (acked_PacketNumber v) l r) = host b1) as Hu.
  { intros l r. unfold updateRecoveryState. destruct (isAtFullBandwidth b1) eqn:Hf; cbn [negb]; [|done].
    destruct l, r, (recoveryState b1); cbn [negb andb]; try case_match; by split. }
  split; [|apply Hu]. eapply same_modes_trans; [done|apply Hu].
Qed.

Lemma absorbEvent_modes b now before sample expired b' :
  absorbEvent b now before sample = (expired, b') → same_modes b b' ∧ host b' = host b.
Proof.
  unfold absorbEvent. cbn zeta. intros H'.
  set (b1 := if Sampler.isValid _ then _ else b) in H'.
  assert (same_modes b b1 ∧ host b1 = host b) as (Hi1 & <-)
    by (clear H'; subst b1; by case_match).
  clearbody b1. set (b2 := if negb _ && _ then _ else b1) in H'.
  assert (same_modes b b2 ∧ host b2 = host b1) as (Hi2 & <-).
  { clear H'. subst b2. case_match; [|done]. split; [|done]. by destruct Hi1; split. }
  clearbody b2. unfold maybeUpdateMinRtt in H'.
  repeat case_match; simplify_eq; (split; [by destruct Hi2; split|done]).
Qed.

Lemma updateModes_frame b now rand prior losses round expired state b' :
  updateModes b now rand prior losses round expired state = Ok b' →
  inv_mid b → frame b b'.
Proof.
  intros Hrun Hi. destruct (updateModes_returns b now rand prior losses round expired state Hi
    (co_rtt b (mi_core b Hi))) as (b2 & Hrun' & Hf & _). congruence.
Qed.

Lemma updateRates_returns b before lostBytes excess acked lost round :
  has_rtt b → core b → machine b → searching_in_startup b → recovery_ok b → window_pending b →
  acked ≠ [] ∨ lost ≠ [] →
  returns (updateRates b before lostBytes excess acked lost round) (λ b', inv b' ∧
    same_modes b b' ∧ host b' = host b).
Proof.
  intros Hr Hc Hm Hs Hrec Hw Hne. unfold updateRates. cbn zeta.
  eapply returns_bind; [by apply calculatePacingRate_returns|].
  intros b1 (rate & bytes & detect & Hb1).
  assert (core b1 ∧ machine b1 ∧ searching_in_startup b1 ∧ recovery_ok b1 ∧ window_pending b1 ∧
    same_modes b b1 ∧ host b1 = host b) as (Hc1 & Hm1 & Hs1 & Hrec1 & Hw1 & Hsm1 & Hr1).
  { subst b1. destruct Hc, Hm. split_and!; done || by split. }
  clear Hb1 Hr Hc Hm Hs Hrec Hw.
  eapply returns_bind; [by apply calculateCongestionWindow_returns|]. intros b2 (w & Hb2 & Hwin).
  assert (core b2 ∧ machine b2 ∧ searching_in_startup b2 ∧ recovery_ok b2 ∧ window_pending b2 ∧
    same_modes b b2 ∧ host b2 = host b) as (Hc2 & Hm2 & Hs2 & Hrec2 & Hw2 & Hsm2 & Hr2).
  { subst b2. destruct Hc1, Hm1, Hsm1. split_and!; done || by split. }
  clear Hb2 Hwin Hc1 Hm1 Hs1 Hrec1 Hw1 Hsm1 Hr1.
  eapply returns_bind; [apply calculateRecoveryWindow_returns; [apply Hc2|done]|].
  intros b3 (w' & Hb3 & Hrw).
  assert (inv b3 ∧ same_modes b b3 ∧ host b3 = host b) as (Hi3 & Hsm3 & Hr3).
  { subst b3. destruct Hc2, Hm2, Hsm2. split_and!; [split; done || by split|by split|done]. }
  clear Hb3 Hrw Hc2 Hm2 Hs2 Hrec2 Hw2 Hsm2 Hr2.
  eapply returns_bind; [by apply leastUnacked_returns|]. intros least _.
  eapply returns_bind; [apply Safety.RemoveObsoletePackets_returns, Hi3|]. intros s Hsam.
  apply returns_ok. destruct Hi3 as [[] [] ???], Hsm3.
  case_match; (split_and!; [split; [by split|by split|done..]|by split|done]).
Qed.

(** An event in three parts: the model is updated ([b1]), the mode machine takes
    its transition ([b2]), and rates and windows are recomputed. *)
Lemma OnCongestionEventEx_parts b prior now rand acked lost :
  inv b → has_rtt b → event_args_ok now acked lost →
  returns (OnCongestionEventEx b prior now rand acked lost) (λ b', inv b' ∧
    host b' = host b ∧
    ∃ b1 b2 round expired state,
      same_modes b b1 ∧ inv_mid b1 ∧
      updateModes b1 now rand prior (negb (len lost =? 0)) round expired state = Ok b2 ∧
      same_modes b2 b').
Proof.
  intros Hinv Hrtt (Hnow & Hacked & Hlost & Hne). unfold OnCongestionEventEx. cbn zeta.
  eapply returns_bind; [apply maybeAppLimited_returns, Hinv|]. intros ba [Hfa [s ->]].
  set (bb := (b <| sampler := s |>) <| bytesInFlight := inFlightAfter prior acked lost |>).
  assert (inv bb ∧ same_modes b bb ∧ host bb = host b) as (Hib & Hsb & Hrb).
  { assert (Safety.wf s) by (by apply (fr_sampler _ _ Hfa), Hinv).
    destruct Hinv as [[] [] ???]. split_and!; [split; [by split|by split|done..]|by split|done]. }
  clearbody bb. clear Hfa.
  pose proof (noteAcked_returns bb acked (negb (len lost =? 0)) Hib) as ([round bc] & Hrun & Hic & _).
  rewrite Hrun. cbn [mbind result_bind]. apply noteAcked_modes in Hrun as [Hsc Hrc].
  eapply returns_bind; [apply Safety.OnCongestionEvent_returns; [apply Hic|done..]|].
  intros [sample s'] [Hsam Hev].
  pose proof (with_sampler_mid bc s' Hic Hsam) as Hid.
  assert (same_modes bc (bc <| sampler := s' |>) ∧ host (bc <| sampler := s' |>) = host bc)
    as [Hsd Hrd] by by split.
  revert Hid Hsd Hrd. generalize (bc <| sampler := s' |>). intros bd Hid Hsd Hrd.
  destruct (absorbEvent bd now _ sample) as [expired be] eqn:Habs.
  pose proof (absorbEvent_mid _ _ _ _ _ _ Habs Hev Hid) as (Hie & _ & _).
  apply absorbEvent_modes in Habs as [Hse Hre].
  set (b1 := if negb (len lost =? 0) then _ else be).
  assert (inv_mid b1 ∧ same_modes be b1 ∧ host b1 = host be) as (Hi1 & Hs1 & Hr1).
  { subst b1. case_match; [|by split_and!]. split_and!; [same_inv|by split|done]. }
  clearbody b1.
  pose proof (updateModes_returns b1 now rand prior (negb (len lost =? 0)) round expired
    (Sampler.lastPacketSendState sample) Hi1 (co_rtt b1 (mi_core b1 Hi1)))
    as (b2 & Hmodes & Hf2 & Hm2 & Hse2 & Hmono & _).
  rewrite Hmodes. cbn [mbind result_bind].
  assert (core b2) as Hc2 by (by apply (core_frame b1), Hi1).
  assert (window_pending b2) as Hw2.
  { unfold window_pending. rewrite (fr_min _ _ Hf2), (fr_recoveryWindow _ _ Hf2), (fr_recovery _ _ Hf2).
    apply Hi1. }
  assert (recovery_ok b2) as Hrec2.
  { unfold recovery_ok. rewrite (fr_recovery _ _ Hf2). intros Hr. by apply Hmono, Hi1. }
  assert (host b2 = host b) as Hr2
    by (transitivity (host b1); [unfold host; by rewrite (fr_rtt _ _ Hf2), (fr_mds _ _ Hf2)|congruence]).
  assert (same_modes b b1) as Hs01 by (repeat (eapply same_modes_trans; [eassumption|]); done).
  assert (has_rtt b2) as Hhas2 by (injection Hr2 as Hr2 _; unfold has_rtt; by rewrite Hr2).
  apply (returns_mono _ _ _ (updateRates_returns b2 (Sampler.TotalBytesAcked (sampler b)) _ _
    acked lost round Hhas2 Hc2 Hm2 Hse2 Hrec2 Hw2 Hne)).
  intros b' (Hi' & Hs' & Hr'). split_and!; [done|congruence|].
  by exists b1, b2, round, expired, (Sampler.lastPacketSendState sample).
Qed.

End event.
