(* ===== verification/BbrSpec.v ===== *)
(** * The BBR sender: properties

    Runs of the sender, its windows, its mode machine, the timing of PROBE_RTT,
    recovery, and pacing. *)

From S2P Require Import Prelude Float64 QuicGo RingBuffer WindowedFilter PacketQueue Pacer Sampler SamplerSpec Bbr BbrFacts BbrEvent.

Import Bbr.

(** ** Operations that change the invariant's fields *)

Section operations.
Context `{Q : QuicGo} `{!QuicGoLaws Q} `{!Platform}.
Implicit Types (b : bbrSender).

Lemma with_provider b r : in_i64 r → inv b → inv (SetRTTStatsProvider b r).
Proof.
  intros Hr [[???????[Hm _]??] [] ???]. split; [|by split|done..]. split; try done.
  split; [done|by exists r].
Qed.

(** The windows of a new sender. *)
Record initial_windows b (size : Z) : Prop := {
  iw_size : maxDatagramSize b = size;
  iw_initial : initialCongestionWindow b = initialCongestionWindowPackets * size;
  iw_floor : cwndToCalculateMinPacingRate b = initialCongestionWindowPackets * size;
  iw_window : congestionWindow b = initialCongestionWindowPackets * size;
  iw_min : minCongestionWindow b = minCongestionWindowPackets * size;
  iw_max : maxCongestionWindow b = MaxCongestionWindowPackets * size;
  iw_adjusted : maxCongestionWindowWithNetworkParametersAdjusted b = MaxCongestionWindowPackets * size;
  iw_recovery : recoveryWindow b = MaxCongestionWindowPackets * size;
  iw_rtt : in_i64 (minRtt b);
  iw_pacer : pacer b = Pacer.NewPacer;
  iw_mode : isAtFullBandwidth b = false ∧ cycleCurrentOffset b = 0 ∧ recoveryState b = NotInRecovery;
  iw_sampler : Safety.wf (sampler b)
}.

Lemma EnableOverestimateAvoidance_wf s : Safety.wf s → Safety.wf (Sampler.EnableOverestimateAvoidance s).
Proof.
  intros Hs. unfold Sampler.EnableOverestimateAvoidance. case_match; [done|].
  by eapply Safety.wf_same; [..|exact Hs].
Qed.

Lemma SetReduce_wf s v :
  Safety.wf s → Safety.wf (Sampler.SetReduceExtraAckedOnBandwidthIncrease s v).
Proof. by apply Safety.wf_same. Qed.

(** The profile only sets gains, options and the sampler's options. *)
Lemma applyProfile_windows b p size : initial_windows b size → initial_windows (applyProfile b p) size.
Proof.
  intros []. split; [assumption..|]. unfold applyProfile. cbn zeta.
  match goal with |- Safety.wf (sampler (_ <| sampler := ?s |>)) => change (Safety.wf s) end.
  apply SetReduce_wf. case_match; [by apply EnableOverestimateAvoidance_wf|done].
Qed.

Lemma enterStartupMode_inv b size now r :
  0 < size <= InitialPacketSize → in_i64 r → initial_windows b size →
  inv (SetRTTStatsProvider (enterStartupMode b now) r) ∧
  maxDatagramSize (enterStartupMode b now) = size.
Proof.
  intros Hsize Hr [Hmds Hi Hcalc Hcw Hmin Hmax Hadj Hrw Hrtt Hp (Hf & Ho & Hrec) Hs].
  pose proof InitialPacketSize_range. pose proof MaxCongestionWindowPackets_range.
  unfold minCongestionWindowPackets, initialCongestionWindowPackets in *.
  split; [|by rewrite <- Hmds]. set (b' := SetRTTStatsProvider (enterStartupMode b now) r).
  assert (initial_windows b' size) as [Hmds' Hi' Hcalc' Hcw' Hmin' Hmax' Hadj' Hrw' Hrtt' Hp' (Hf' & Ho' & Hrec') Hs']
    by by split.
  assert (rttStats b' = Some r) as Hr' by done. assert (gains b') as Hg by by split.
  assert (mode b' = Startup) as Hm by done. clearbody b'.
  unfold minCongestionWindowPackets, initialCongestionWindowPackets in *.
  split.
  - split; unfold minCongestionWindowPackets, initialCongestionWindowPackets;
      rewrite ?Hmds', ?Hp'; try done; try lia; try nia; [by split; [|exists r]|].
    unfold Pacer.wf, Pacer.NewPacer, Pacer.maxBurstPackets. cbn. lia.
  - split; [done| |by rewrite Ho']. unfold full_if_past_startup. by rewrite Hm.
  - by intros _.
  - intros Hne. by destruct Hne.
  - nia.
Qed.

Lemma NewBbrSender_returns now size p r :
  0 < size <= InitialPacketSize → in_i64 r →
  returns (NewBbrSender now size p) (λ b, inv (SetRTTStatsProvider b r) ∧ maxDatagramSize b = size).
Proof.
  intros Hsize Hr. pose proof InitialPacketSize_range. pose proof MaxCongestionWindowPackets_range.
  unfold NewBbrSender, newBbrSender.
  eapply returns_bind; [apply Safety.newBandwidthSampler_returns|]. intros s Hs. cbn zeta.
  apply returns_ok. unfold initialCongestionWindowPackets.
  rewrite !i64_id by (mach || unfold in_i64; nia).
  unfold minCongestionWindowForMaxDatagramSize, minCongestionWindowPackets.
  rewrite !i64_id by mach.
  apply enterStartupMode_inv; [done..|]. apply applyProfile_windows. by split.
Qed.

Lemma sender_OnPacketSent_returns b time inFlight pn bytes r :
  inv b → 0 <= time <= 4611686018427387903 → Safety.valid_pn pn → 0 <= bytes →
  returns (OnPacketSent b time inFlight pn bytes r) (λ b', inv b' ∧ same_modes
    (if inFlight =? 0 then b <| exitingQuiescence := true |> else b) b' ∧
    maxDatagramSize b' = maxDatagramSize b).
Proof.
  intros Hi Ht Hpn Hbytes. unfold OnPacketSent.
  destruct (bandwidthForPacer_returns b (co_rtt b (in_core b Hi))) as (bw & -> & _ & _).
  destruct (co_pacer b (in_core b Hi)) as [Hp Hle].
  destruct (Pacer.Budget_total bw (pacer b) time Hp) as (budget & HB & Hbud).
  destruct (Pacer.SentPacket_ok bw (pacer b) time bytes budget Hp HB Hbud Hbytes Ht) as [-> Hp'].
  cbn [mbind result_bind]. cbn zeta.
  set (p := Pacer.mkPacer (Z.max 0 (budget - bytes)) (Pacer.maxDatagramSize (pacer b)) time).
  assert (Pacer.wf p ∧ maxDatagramSize b <= Pacer.maxDatagramSize p) as Hpb by done.
  clearbody p. clear Hp Hp' Hle HB.
  set (b1 := if inFlight =? 0 then _ else _).
  assert (inv b1 ∧ same_modes (if inFlight =? 0 then b <| exitingQuiescence := true |> else b) b1 ∧
    maxDatagramSize b1 = maxDatagramSize b) as (Hi1 & Hs1 & Hm1).
  { subst b1. destruct Hi as [[] [] ???]. case_match;
      (split_and!; [split; [by split|by split|done..]|by split|done]). }
  clearbody b1.
  eapply returns_bind; [apply Safety.OnPacketSent_returns; [apply Hi1|mach|done]|].
  intros s Hs. apply returns_ok. destruct Hi1 as [[] [] ???], Hs1.
  split_and!; [split; [by split|by split|done..]|by split|done].
Qed.

(** *** Datagram size *)

Lemma scale_exact k old new :
  0 < old <= 65535 → 0 < new <= 65535 → 0 <= k <= 1000000 →
  scaleByteWindowForDatagramSize (k * old) old new = Ok (k * new).
Proof.
  intros Ho Hn Hk. unfold scaleByteWindowForDatagramSize.
  destruct (Z.eqb_spec old new) as [->|]; [done|].
  assert (0 <= k * old <= 65535000000) by nia. assert (0 <= k * old * new <= 65535000000 * 65535) by nia.
  rewrite (u64_id (k * old)), (u64_id new), (u64_id old), u64_id by mach.
  rewrite quot_u64_ok by lia. cbn [mbind result_bind]. rewrite Z.quot_div_nonneg by lia.
  replace (k * old * new) with (k * new * old) by lia. rewrite Z.div_mul by lia.
  rewrite i64_id by (unfold in_i64; nia). done.
Qed.

Definition resized b (s : Z) : bbrSender :=
  b <| maxDatagramSize := s |>
    <| initialCongestionWindow := initialCongestionWindowPackets * s |>
    <| maxCongestionWindow := MaxCongestionWindowPackets * s |>
    <| minCongestionWindow := minCongestionWindowPackets * s |>
    <| cwndToCalculateMinPacingRate := initialCongestionWindowPackets * s |>
    <| maxCongestionWindowWithNetworkParametersAdjusted := MaxCongestionWindowPackets * s |>.

Lemma rescale_exact b s :
  core b → 0 < s <= 65535 → rescalePacketSizedWindows b s = Ok (resized b s).
Proof.
  intros [Hsz Hi Hf Hmin Hmax Hadj] Hs. pose proof MaxCongestionWindowPackets_range.
  unfold rescalePacketSizedWindows. cbn zeta. cbn [initialCongestionWindow set_field].
  rewrite Hi, scale_exact by (unfold initialCongestionWindowPackets; lia). cbn [mbind result_bind].
  match goal with |- context [maxCongestionWindow ?x] => change (maxCongestionWindow x) with (maxCongestionWindow b) end.
  rewrite Hmax, scale_exact by lia. cbn [mbind result_bind].
  match goal with |- context [cwndToCalculateMinPacingRate ?x] =>
    change (cwndToCalculateMinPacingRate x) with (cwndToCalculateMinPacingRate b) end.
  rewrite Hf, scale_exact by (unfold initialCongestionWindowPackets; lia). cbn [mbind result_bind].
  match goal with |- context [maxCongestionWindowWithNetworkParametersAdjusted ?x] =>
    change (maxCongestionWindowWithNetworkParametersAdjusted x)
      with (maxCongestionWindowWithNetworkParametersAdjusted b) end.
  rewrite Hadj, Hmax, scale_exact by lia. cbn [mbind result_bind].
  unfold minCongestionWindowForMaxDatagramSize, minCongestionWindowPackets. by rewrite i64_id by mach.
Qed.

Lemma SetMaxDatagramSize_returns b s :
  inv b → maxDatagramSize b <= s <= 65535 →
  returns (SetMaxDatagramSize b s) (λ b', inv b' ∧ same_modes b b' ∧ maxDatagramSize b' = s).
Proof.
  intros Hi Hs. pose proof MaxCongestionWindowPackets_range as Hmp.
  pose proof (co_size b (in_core b Hi)) as Hsz.
  unfold SetMaxDatagramSize. replace (s <? maxDatagramSize b) with false by lia. cbn zeta.
  rewrite (rescale_exact b s) by (apply Hi || lia). cbn [mbind result_bind]. apply returns_ok.
  split; [|by split].
  destruct Hi as [[] Hm Hse Hr Hw].
  set (cwnd := if congestionWindow _ =? _ then _ else _).
  assert (minCongestionWindowPackets * s <= cwnd <= MaxCongestionWindowPackets * s) as Hcw.
  { subst cwnd. unfold resized, minCongestionWindowPackets, initialCongestionWindowPackets in *. cbn.
    assert (4 * s <= 32 * s <= MaxCongestionWindowPackets * s) by nia. repeat case_match; lia. }
  clearbody cwnd. split; [split|destruct Hm; by split|done|done|]; cbn; try done; try lia.
  - unfold Pacer.wf in *. cbn. lia.
Qed.

End operations.

(** ** Runs *)

Module Runs.

(** The calls the host makes; [rtt] is the reading of the RTT provider then. *)
Inductive op :=
  | Sent (rtt time inFlight pn bytes : Z) (retransmittable : bool)
  | Event (rtt prior now rand : Z) (acked : list AckedPacketInfo) (lost : list LostPacketInfo)
  | Resize (size : Z).

(** Times are non-negative and datagrams only grow; an event reports at least one
    packet, at a time when the provider has an RTT sample. *)
Definition valid_op (size : Z) (o : op) : Prop :=
  match o with
  | Sent rtt time _ pn bytes _ =>
      in_i64 rtt ∧ 0 <= time <= 4611686018427387903 ∧ Safety.valid_pn pn ∧ 0 <= bytes
  | Event rtt _ now _ acked lost => in_i64 rtt ∧ rtt ≠ 0 ∧ event_args_ok now acked lost
  | Resize s => size <= s <= 65535
  end.

Definition size_after (size : Z) (o : op) : Z := match o with Resize s => s | _ => size end.

Fixpoint valid_run (size : Z) (os : list op) : Prop :=
  match os with
  | [] => True
  | o :: os => valid_op size o ∧ valid_run (size_after size o) os
  end.

Section runs.
Context `{Q : QuicGo} `{!QuicGoLaws Q} `{!Platform}.
Implicit Types (b : bbrSender).

Definition exec b (o : op) : result bbrSender :=
  match o with
  | Sent rtt time inFlight pn bytes r =>
      OnPacketSent (SetRTTStatsProvider b rtt) time inFlight pn bytes r
  | Event rtt prior now rand acked lost =>
      OnCongestionEventEx (SetRTTStatsProvider b rtt) prior now rand acked lost
  | Resize s => SetMaxDatagramSize b s
  end.

Lemma call_returns size b o :
  inv b → maxDatagramSize b = size → valid_op size o →
  returns (exec b o) (λ b', inv b' ∧ maxDatagramSize b' = size_after size o).
Proof.
  intros Hi <- Hv. destruct o as [rtt time inFlight pn bytes r|rtt prior now rand acked lost|s];
    cbn [exec valid_op size_after] in *.
  - destruct Hv as (? & ? & ? & ?).
    eapply returns_mono; [apply sender_OnPacketSent_returns; [by apply with_provider|done..]|].
    intros b' (? & _ & Hs). split; [done|by rewrite Hs].
  - destruct Hv as (? & ? & ?).
    eapply returns_mono; [apply OnCongestionEventEx_parts; [by apply with_provider|by exists rtt|done]|].
    intros b' (? & Hh & _). split; [done|]. by injection Hh.
  - eapply returns_mono; [by apply SetMaxDatagramSize_returns|]. intros b' (? & _ & ?). done.
Qed.

Lemma run_returns size b os :
  inv b → maxDatagramSize b = size → valid_run size os → returns (foldM exec os b) inv.
Proof.
  revert size b. induction os as [|o os IH]; intros size b Hi Hs Hv; cbn [foldM]; [by apply returns_ok|].
  destruct Hv as [Ho Hv]. eapply returns_bind; [by eapply call_returns|].
  intros b' [Hi' Hs']. by eapply IH.
Qed.

Lemma new_run_returns now size p r os :
  0 < size <= InitialPacketSize → in_i64 r → valid_run size os →
  returns (b ← NewBbrSender now size p; foldM exec os (SetRTTStatsProvider b r)) inv.
Proof.
  intros Hsize Hr Hv. eapply returns_bind; [by apply NewBbrSender_returns|].
  intros b [Hi Hs]. by eapply run_returns.
Qed.

(** C1. The congestion controller never panics: from a new sender of any profile,
    every sequence of packets sent, congestion events and datagram growths that
    the host can deliver (events report at least one packet and come after the
    provider's first RTT sample, times are non-negative, datagrams only grow)
    runs to completion and keeps the invariant [inv]: no division by zero, no
    index out of range, no nil provider, no invalid random draw. *)
Theorem sender_never_panics now size p r os :
  0 < size <= InitialPacketSize → in_i64 r → valid_run size os →
  returns (b ← NewBbrSender now size p; foldM exec os (SetRTTStatsProvider b r)) inv.
Proof. apply new_run_returns. Qed.

(** C2. The window never stalls the connection: whatever happened before, the
    initial, minimum and maximum windows are exactly 32, 4 and
    [MaxCongestionWindowPackets] datagrams of the current size, the congestion
    window is between the last two, the window in force (also during recovery
    and PROBE_RTT) is at least four datagrams, and so a sender with less than
    four datagrams in flight can always send. *)
Theorem window_never_stalls now size p r os :
  0 < size <= InitialPacketSize → in_i64 r → valid_run size os →
  returns (b ← NewBbrSender now size p; foldM exec os (SetRTTStatsProvider b r)) (λ b,
    initialCongestionWindow b = 32 * maxDatagramSize b ∧
    minCongestionWindow b = 4 * maxDatagramSize b ∧
    maxCongestionWindow b = MaxCongestionWindowPackets * maxDatagramSize b ∧
    minCongestionWindow b <= congestionWindow b <= maxCongestionWindow b ∧
    4 * maxDatagramSize b <= GetCongestionWindow b ∧
    ∀ inFlight, inFlight < 4 * maxDatagramSize b → CanSend b inFlight = true).
Proof.
  intros Hsize Hr Hv. eapply returns_mono; [by apply new_run_returns|].
  intros b [[] _ _ _ Hw]. unfold initialCongestionWindowPackets, minCongestionWindowPackets in *.
  assert (4 * maxDatagramSize b <= GetCongestionWindow b) as Hget.
  { unfold GetCongestionWindow, probeRttCongestionWindow. repeat case_match; lia. }
  split_and!; try done; try lia. intros n Hn. unfold CanSend. lia.
Qed.

(** *** The mode machine *)

Lemma event_modes b prior now rand acked lost :
  inv b → has_rtt b → event_args_ok now acked lost →
  returns (OnCongestionEventEx b prior now rand acked lost) (λ b', inv b' ∧
    mode_step (mode b) (isAtFullBandwidth b) (mode b') (isAtFullBandwidth b')).
Proof.
  intros Hi Hr Ha. eapply returns_mono; [by apply OnCongestionEventEx_parts|].
  intros b' (Hi' & _ & b1 & b2 & round & expired & state & Hs1 & Hm1 & Hrun & Hs2).
  split; [done|].
  destruct (updateModes_returns b1 now rand prior (negb (len lost =? 0)) round expired state Hm1
    (co_rtt b1 (mi_core b1 Hm1))) as (b2' & Hrun' & _ & _ & _ & _ & Hstep).
  rewrite Hrun in Hrun'. injection Hrun' as <-.
  by rewrite (sm_mode _ _ Hs2), (sm_full _ _ Hs2), <- (sm_mode _ _ Hs1), <- (sm_full _ _ Hs1).
Qed.

(** C3. A congestion event takes exactly one transition of BBR's mode machine
    ([mode_step]): STARTUP goes to DRAIN or PROBE_BW only by finding the full
    bandwidth, DRAIN goes to PROBE_BW, PROBE_RTT can be entered from every mode
    and is left for STARTUP or PROBE_BW according to whether the bandwidth was
    found. After it the gains are those of the mode (the high gains in STARTUP,
    the drain gain in DRAIN, a gain of the cycle in PROBE_BW, 1.0 in PROBE_RTT). *)
Theorem modes_follow_machine b prior now rand acked lost :
  inv b → has_rtt b → event_args_ok now acked lost →
  returns (OnCongestionEventEx b prior now rand acked lost) (λ b',
    mode_step (mode b) (isAtFullBandwidth b) (mode b') (isAtFullBandwidth b') ∧ gains b').
Proof.
  intros Hi Hr Ha. eapply returns_mono; [by apply event_modes|].
  intros b' [[_ [Hg _ _] _ _ _] Hstep]. done.
Qed.

Lemma exec_keeps_full size b o :
  inv b → maxDatagramSize b = size → valid_op size o → isAtFullBandwidth b = true →
  returns (exec b o) (λ b', isAtFullBandwidth b' = true).
Proof.
  intros Hi <- Hv Hf. destruct o as [rtt time inFlight pn bytes r|rtt prior now rand acked lost|s];
    cbn [exec valid_op] in *.
  - destruct Hv as (? & ? & ? & ?).
    eapply returns_mono; [apply sender_OnPacketSent_returns; [by apply with_provider|done..]|].
    intros b' (_ & Hs & _). rewrite (sm_full _ _ Hs). by case_match.
  - destruct Hv as (? & ? & ?).
    eapply returns_mono; [apply event_modes; [by apply with_provider|by exists rtt|done]|].
    intros b' [_ Hstep]. change (isAtFullBandwidth (SetRTTStatsProvider b rtt)) with (isAtFullBandwidth b) in Hstep.
    rewrite Hf in Hstep. inversion Hstep; try done.
    destruct (isAtFullBandwidth b'); [done|]. naive_solver.
  - eapply returns_mono; [by apply SetMaxDatagramSize_returns|].
    intros b' (_ & Hs & _). by rewrite (sm_full _ _ Hs).
Qed.

(** Finding the full bandwidth is permanent: from any state of the sender
    that has found it, no sequence of calls loses it or returns to STARTUP. *)
Theorem full_bandwidth_is_permanent size b os :
  inv b → maxDatagramSize b = size → valid_run size os → isAtFullBandwidth b = true →
  returns (foldM exec os b) (λ b', isAtFullBandwidth b' = true ∧ mode b' ≠ Startup).
Proof.
  revert size b. induction os as [|o os IH]; intros size b Hi Hs Hv Hf; cbn [foldM].
  { apply returns_ok. split; [done|]. intros Hm. pose proof (in_searching b Hi Hm). congruence. }
  destruct Hv as [Ho Hv]. destruct (call_returns size b o Hi Hs Ho) as (b' & Hrun & Hi' & Hs').
  destruct (exec_keeps_full size b o Hi Hs Ho Hf) as (b'' & Hrun' & Hf').
  rewrite Hrun in Hrun'. injection Hrun' as <-. rewrite Hrun. cbn [mbind result_bind].
  by apply (IH (size_after size o)).
Qed.

End runs.
End Runs.

(** ** A concrete run *)

Module Demo.
Import Runs.

Definition ms : Z := Millisecond.

(** Three packets of 60 kB with [prior] bytes already in flight, acknowledged
    together after 55 ms; in [lossy_flight] the first one is lost. *)
Definition flight (prior k : Z) : list op :=
  let t := 1000 * ms + k * 60 * ms in
  [Sent (50 * ms) t prior (3 * k + 1) 60000 true;
   Sent (50 * ms) (t + ms) (prior + 60000) (3 * k + 2) 60000 true;
   Sent (50 * ms) (t + 2 * ms) (prior + 120000) (3 * k + 3) 60000 true;
   Event (50 * ms) (prior + 180000) (t + 55 * ms) (k * 5)
     [mkAcked (3 * k + 1) 60000; mkAcked (3 * k + 2) 60000; mkAcked (3 * k + 3) 60000] []].

Definition lossy_flight (k : Z) : list op :=
  take 3 (flight 0 k) ++
  [Event (50 * ms) 180000 (1000 * ms + k * 60 * ms + 55 * ms) 0
     [mkAcked (3 * k + 3) 60000] [mkLost (3 * k + 1) 60000]].

Definition six_flights : list op := concat (map (flight 0) [0; 1; 2; 3; 4; 5]).

#[local] Existing Instance sample_quic.
#[local] Existing Instance sample_quic_laws.
#[local] Existing Instance amd64.

Definition demo_run (p : Profile) (os : list op) : result bbrSender :=
  b ← NewBbrSender 0 1200 p; foldM exec os (SetRTTStatsProvider b (50 * ms)).

(** Read a component of the state a concrete run ends in. *)
Lemma run_fact {A} (f : bbrSender → A) (r : result bbrSender) b v :
  r = Ok b → (b ← r; Ok (f b)) = Ok v → f b = v.
Proof. intros -> [= <-]. done. Qed.

Lemma rtt_50ms : in_i64 (50 * ms) ∧ 50 * ms ≠ 0.
Proof. done. Qed.

(** Check the calls of a concrete run one by one. *)
Ltac solve_valid :=
  match goal with |- valid_run ?s ?l => let l' := eval vm_compute in l in change (valid_run s l') end;
  repeat (split; [solve [repeat constructor; vm_compute; intuition discriminate]|]); exact I.

(** STARTUP finds the bandwidth after three rounds without growth; a loss starts
    recovery. *)
Example demo_reaches_probe_bw :
  match demo_run ProfileStandard six_flights with
  | Ok b => (mode b, isAtFullBandwidth b, congestionWindow b, bandwidthEstimate b, cycleCurrentOffset b)
            = (ProbeBw, true, 346908, 26181816, 4)
  | _ => False
  end.
Proof. by vm_compute. Qed.

Lemma demo_run_inv p os : valid_run 1200 os → returns (demo_run p os) inv.
Proof. intros Hv. apply (new_run_returns 0 1200 p (50 * ms) os); [done|done|done]. Qed.

Lemma six_flights_valid : valid_run 1200 (six_flights ++ lossy_flight 6 ++ [Resize 1400]).
Proof. solve_valid. Qed.

Lemma sender_never_panics_witness :
  returns (demo_run ProfileConservative (six_flights ++ lossy_flight 6 ++ [Resize 1400])) inv.
Proof.
  apply (sender_never_panics 0 1200 ProfileConservative (50 * ms)); [done|done|apply six_flights_valid].
Defined.

Lemma window_never_stalls_witness :
  returns (demo_run ProfileStandard (six_flights ++ lossy_flight 6 ++ [Resize 1400])) (λ b,
    initialCongestionWindow b = 32 * maxDatagramSize b ∧
    minCongestionWindow b = 4 * maxDatagramSize b ∧
    maxCongestionWindow b = MaxCongestionWindowPackets * maxDatagramSize b ∧
    minCongestionWindow b <= congestionWindow b <= maxCongestionWindow b ∧
    4 * maxDatagramSize b <= GetCongestionWindow b ∧
    ∀ inFlight, inFlight < 4 * maxDatagramSize b → CanSend b inFlight = true).
Proof.
  apply (window_never_stalls 0 1200 ProfileStandard (50 * ms)); [done|done|apply six_flights_valid].
Defined.

(** A state reached by a run, with its invariant. *)
Lemma demo_state p os :
  valid_run 1200 os → ∃ b, demo_run p os = Ok b ∧ inv b.
Proof. intros Hv. destruct (demo_run_inv p os Hv) as (b & ? & ?). eauto. Qed.

Lemma valid_three : valid_run 1200 (take 12 six_flights).
Proof. solve_valid. Qed.

Lemma valid_six : valid_run 1200 six_flights.
Proof. solve_valid. Qed.

Lemma modes_follow_machine_witness :
  ∃ b, demo_run ProfileStandard (take 12 six_flights) = Ok b ∧ mode b = Startup ∧
  returns (OnCongestionEventEx b 180000 (1300 * ms) 7 [mkAcked 9 60000] []) (λ b',
    mode_step (mode b) (isAtFullBandwidth b) (mode b') (isAtFullBandwidth b') ∧ gains b').
Proof.
  destruct (demo_state ProfileStandard (take 12 six_flights) valid_three) as (b & Hb & Hi).
  exists b. split; [exact Hb|]. split; [apply (run_fact _ _ _ _ Hb); vm_compute; reflexivity|].
  apply (modes_follow_machine b); [exact Hi| |].
  - exists (50 * ms). split; [apply (run_fact _ _ _ _ Hb); vm_compute; reflexivity|exact rtt_50ms].
  - clear. repeat constructor; vm_compute; intuition discriminate.
Defined.

Lemma full_bandwidth_is_permanent_witness :
  ∃ b, demo_run ProfileStandard six_flights = Ok b ∧
  returns (foldM exec (lossy_flight 6 ++ flight 0 200) b) (λ b',
    isAtFullBandwidth b' = true ∧ mode b' ≠ Startup).
Proof.
  destruct (demo_state ProfileStandard six_flights valid_six) as (b & Hb & Hi).
  exists b. split; [exact Hb|]. apply (full_bandwidth_is_permanent 1200); [exact Hi| | |].
  - apply (run_fact _ _ _ _ Hb); vm_compute; reflexivity.
  - clear. solve_valid.
  - apply (run_fact _ _ _ _ Hb); vm_compute; reflexivity.
Defined.

End Demo.
