(* ===== verification/BbrModes.v ===== *)
(** * The BBR sender: timing of the modes

    How long PROBE_RTT lasts, when STARTUP ends, the gain cycle, round trips and
    the minimum RTT. *)

From S2P Require Import Prelude Float64 QuicGo RingBuffer WindowedFilter PacketQueue Pacer Sampler SamplerSpec Bbr BbrFacts BbrEvent BbrSpec.

Import Bbr.

(** ** PROBE_RTT *)

Module ProbeRttTime.
Import Runs.

Section probe.
Context `{Q : QuicGo} `{!QuicGoLaws Q} `{!Platform}.
Implicit Types (b : bbrSender).

Definition probe_fields b : Z * bool * bool :=
  (exitProbeRttAt b, probeRttRoundPassed b, exitingQuiescence b).

Lemma updateGainCyclePhase_fields b now prior losses b' :
  updateGainCyclePhase b now prior losses = Ok b' → probe_fields b' = probe_fields b.
Proof.
  unfold updateGainCyclePhase. intros Hrun. inv_bind Hrun. cbn zeta in Hrun. inv_bind Hrun. inv_bind Hrun.
  case_match; [by simplify_eq|]. inv_bind Hrun.
  destruct v2; [by simplify_eq|]. inv_bind Hrun. by simplify_eq.
Qed.

Lemma checkIfFullBandwidthReached_fields b state :
  probe_fields (checkIfFullBandwidthReached b state) = probe_fields b.
Proof. unfold checkIfFullBandwidthReached. by repeat case_match. Qed.

Lemma enterProbeBandwidthMode_fields b now rand b' :
  enterProbeBandwidthMode b now rand = Ok b' → probe_fields b' = probe_fields b.
Proof. unfold enterProbeBandwidthMode. intros Hrun. inv_bind Hrun. cbn zeta in Hrun. inv_bind Hrun. by simplify_eq. Qed.

Lemma maybeExitStartupOrDrain_fields b now rand b' :
  maybeExitStartupOrDrain b now rand = Ok b' → probe_fields b' = probe_fields b.
Proof.
  unfold maybeExitStartupOrDrain. intros Hrun.
  set (b1 := if bool_decide (mode b = Startup) && _ then _ else b) in Hrun.
  assert (probe_fields b1 = probe_fields b) as <- by (clear Hrun; subst b1; by case_match).
  clearbody b1. cbn zeta in Hrun. case_bool_decide; [|by simplify_eq]. inv_bind Hrun.
  case_match; [by eapply enterProbeBandwidthMode_fields|by simplify_eq].
Qed.

Lemma modes_prefix_fields b now rand prior losses round state b' :
  modes_prefix b now rand prior losses round state = Ok b' → probe_fields b' = probe_fields b.
Proof.
  unfold modes_prefix. intros Hrun. inv_bind Hrun. apply maybeExitStartupOrDrain_fields in Hrun as ->.
  transitivity (probe_fields v).
  - clear E. case_match; [apply checkIfFullBandwidthReached_fields|done].
  - clear - E. case_match; [by eapply updateGainCyclePhase_fields|by simplify_eq].
Qed.

(** How an event moves a sender in or out of PROBE_RTT. *)
Lemma updateModes_probe b now rand prior losses round expired state b' :
  inv_mid b → updateModes b now rand prior losses round expired state = Ok b' →
  ∃ b3, (mode b3 = ProbeRtt ↔ mode b = ProbeRtt) ∧
        probe_fields b3 = probe_fields b ∧ probe_rtt_moves b3 now round expired b'.
Proof.
  intros [Hc Hm Hs _ _] Hrun. rewrite updateModes_eq in Hrun. inv_bind Hrun. exists v.
  destruct (modes_prefix_returns b now rand prior losses round state Hm Hs (co_rtt b Hc))
    as (b3 & E' & _ & Hm3 & Hs3 & _ & Hmode). rewrite E in E'. injection E' as <-.
  destruct (maybeEnterOrExitProbeRtt_returns v now rand round expired Hm3 Hs3)
    as (b4 & Hrun' & _ & _ & _ & _ & Hmoves). rewrite Hrun in Hrun'. injection Hrun' as <-.
  split_and!; [|by eapply modes_prefix_fields|done]. clear - Hmode.
  destruct Hmode as [->|(Hf & _ & Ht)]; [done|]. destruct Hf, Ht; split; congruence.
Qed.

(** The deadline for leaving PROBE_RTT, once set, is 200 ms after [t0] at least. *)
Definition probing (t0 : Z) b : Prop :=
  mode b = ProbeRtt ∧
  (exitProbeRttAt b = 0 ∨ t0 + probeRttTime <= exitProbeRttAt b <= 4611686018627387903).

Definition time_ok (t : Z) : Prop := 0 <= t <= 4611686018427387903.

Lemma time_Add_exact t : time_ok t → time_Add t probeRttTime = t + probeRttTime.
Proof. intros. unfold time_ok, probeRttTime, Millisecond in *. rewrite time_Add_spec, i64_id; mach. Qed.

Lemma event_probe b prior now rand acked lost t0 :
  inv b → has_rtt b → event_args_ok now acked lost → time_ok now → 0 <= t0 <= now →
  returns (OnCongestionEventEx b prior now rand acked lost) (λ b',
    (mode b ≠ ProbeRtt → mode b' = ProbeRtt → probing now b') ∧
    (probing t0 b → probing t0 b' ∨ t0 + probeRttTime <= now)).
Proof.
  intros Hi Hr Ha Ht Hle. eapply returns_mono; [by apply OnCongestionEventEx_parts|].
  intros b' (_ & _ & b1 & b2 & round & expired & state & Hs1 & Hm1 & Hrun & Hs2).
  apply updateModes_probe in Hrun as (b3 & Hmode3 & Hf3 & Hout & Hin); [|done].
  injection Hf3 as He3 Hp3 _. rewrite (sm_exit _ _ Hs1) in He3. rewrite (sm_mode _ _ Hs1) in Hmode3.
  unfold probing. rewrite (sm_mode _ _ Hs2), (sm_exit _ _ Hs2). rewrite time_Add_exact in * by done.
  unfold time_ok, probeRttTime, Millisecond in *. split.
  - intros Hne Hm2. split; [done|]. destruct (Hout ltac:(tauto)) as [Hsame|(_ & _ & _ & [->| ->])];
      [rewrite Hsame in Hm2; tauto|by left|right; lia].
  - intros [Hm Hex]. destruct (Hin ltac:(tauto)) as [[Hm2 Hex2]|(_ & Hne & Hsub & _)].
    + left. split; [done|]. destruct Hex2 as [->|[_ ->]]; [by rewrite He3|right; lia].
    + right. rewrite He3 in *. destruct Hex as [|Hex]; [done|].
      rewrite time_Sub_spec, i64_id in Hsub by mach. lia.
Qed.

(** The events of a run, at their times. *)
Definition event_time (o : op) : option Z := match o with Event _ _ now _ _ _ => Some now | _ => None end.

Definition from (t0 : Z) (o : op) : Prop := ∀ t, event_time o = Some t → t0 <= t ∧ time_ok t.

Definition reaches (t : Z) (o : op) : Prop := ∃ now, event_time o = Some now ∧ t <= now.

Lemma exec_probe size b o t0 :
  inv b → maxDatagramSize b = size → valid_op size o → 0 <= t0 → from t0 o → probing t0 b →
  returns (exec b o) (λ b', probing t0 b' ∨ reaches (t0 + probeRttTime) o).
Proof.
  intros Hi <- Hv Ht0 Hfrom Hp. destruct o as [rtt time inFlight pn bytes r|rtt prior now rand acked lost|s];
    cbn [exec valid_op] in *.
  - destruct Hv as (? & ? & ? & ?).
    eapply returns_mono; [apply sender_OnPacketSent_returns; [by apply with_provider|done..]|].
    intros b' (_ & Hs & _). left. unfold probing. rewrite (sm_mode _ _ Hs), (sm_exit _ _ Hs).
    by case_match.
  - destruct Hv as (? & ? & ?). destruct (Hfrom now eq_refl).
    eapply returns_mono; [apply (event_probe _ _ _ _ _ _ t0); [by apply with_provider|by exists rtt|done..]|].
    intros b' [_ Hstay]. destruct (Hstay Hp) as [|]; [by left|right; by exists now].
  - eapply returns_mono; [by apply SetMaxDatagramSize_returns|].
    intros b' (_ & Hs & _). left. unfold probing. by rewrite (sm_mode _ _ Hs), (sm_exit _ _ Hs).
Qed.

Lemma run_probe size b os t0 :
  inv b → maxDatagramSize b = size → valid_run size os → 0 <= t0 → Forall (from t0) os → probing t0 b →
  returns (foldM exec os b) (λ b', mode b' ≠ ProbeRtt → Exists (reaches (t0 + probeRttTime)) os).
Proof.
  revert size b. induction os as [|o os IH]; intros size b Hi Hs Hv Ht0 Hf Hp; cbn [foldM].
  { apply returns_ok. by destruct Hp. }
  destruct Hv as [Ho Hv]. apply Forall_cons in Hf as [Hfo Hf].
  destruct (call_returns size b o Hi Hs Ho) as (b1 & Hrun & Hi1 & Hs1).
  destruct (exec_probe size b o t0 Hi Hs Ho Ht0 Hfo Hp) as (b1' & Hrun' & Hp1).
  rewrite Hrun in Hrun'. injection Hrun' as <-. rewrite Hrun. cbn [mbind result_bind].
  destruct Hp1 as [Hp1|Hreach].
  - eapply returns_mono; [by apply (IH (size_after size o))|]. intros b2 H2 Hne.
    apply Exists_cons. auto.
  - eapply returns_mono; [by eapply run_returns|]. intros b2 _ _. apply Exists_cons. by left.
Qed.

(** PROBE_RTT lasts at least 200 ms: if a congestion event at time [t0] takes
    the sender into PROBE_RTT, then no run of further calls with events from
    [t0] on takes it out again unless it contains an event at [t0 + 200 ms] or
    later. *)
Theorem probe_rtt_lasts size b rtt prior t0 rand acked lost os :
  inv b → maxDatagramSize b = size → mode b ≠ ProbeRtt → time_ok t0 →
  valid_op size (Event rtt prior t0 rand acked lost) → valid_run size os → Forall (from t0) os →
  returns (exec b (Event rtt prior t0 rand acked lost)) (λ b1,
    returns (foldM exec os b1) (λ b2,
      mode b1 = ProbeRtt → mode b2 ≠ ProbeRtt → Exists (reaches (t0 + probeRttTime)) os)).
Proof.
  intros Hi Hs Hm Ht Hv Hrun Hf.
  destruct (call_returns size b _ Hi Hs Hv) as (b1 & Hexec & Hi1 & Hs1). exists b1. split; [done|].
  assert (mode b1 = ProbeRtt → probing t0 b1) as Hp.
  { destruct Hv as (? & ? & ?).
    destruct (event_probe (SetRTTStatsProvider b rtt) prior t0 rand acked lost t0) as (b1' & Hexec' & Henter & _);
      [by apply with_provider|by exists rtt|done|done|unfold time_ok in Ht; lia|].
    cbn [exec] in Hexec. rewrite Hexec in Hexec'. injection Hexec' as <-. auto. }
  destruct (decide (mode b1 = ProbeRtt)) as [Hin|Hout].
  - eapply returns_mono; [apply (run_probe size b1 os t0 Hi1 Hs1 Hrun (proj1 Ht) Hf (Hp Hin))|]. auto.
  - eapply returns_mono; [by eapply run_returns|]. done.
Qed.

End probe.
End ProbeRttTime.

(** ** Rounds, the end of STARTUP, the gain cycle, the minimum RTT *)

Module Rounds.

Section rounds.
Context `{Q : QuicGo} `{!QuicGoLaws Q} `{!Platform}.
Implicit Types (b : bbrSender).

(** [n] round ends with the same send state. *)
Definition rounds (n : nat) (state : Sampler.sendTimeState) b : bbrSender :=
  Nat.iter n (λ b, checkIfFullBandwidthReached b state) b.

(** The bandwidth estimate is below the growth target. *)
Definition stalled b : Prop :=
  bandwidthEstimate b < f64_to_u64 (f64_mul (f64_of_int (bandwidthAtLastRound b)) startupGrowthTarget).

(** A stalled round only counts, and stops the search when the count is reached. *)
Lemma stalled_round b state :
  lastSampleIsAppLimited b = false → stalled b → numLossEventsInRound b < defaultStartupFullLossCount →
  let b' := checkIfFullBandwidthReached b state in
  stalled b' ∧ lastSampleIsAppLimited b' = false ∧ numLossEventsInRound b' = numLossEventsInRound b ∧
  numStartupRtts b' = numStartupRtts b ∧
  roundsWithoutBandwidthGain b' = i64 (roundsWithoutBandwidthGain b + 1) ∧
  isAtFullBandwidth b' = isAtFullBandwidth b || (numStartupRtts b <=? roundsWithoutBandwidthGain b').
Proof.
  intros Hl Hs Hn. unfold checkIfFullBandwidthReached. rewrite Hl. cbn zeta.
  unfold stalled in Hs. replace (_ <=? bandwidthEstimate b) with false by lia.
  set (b1 := b <| roundsWithoutBandwidthGain := _ |>).
  assert (shouldExitStartupDueToLoss b1 state = false) as ->.
  { unfold shouldExitStartupDueToLoss. change (numLossEventsInRound b1) with (numLossEventsInRound b).
    by replace (numLossEventsInRound b <? defaultStartupFullLossCount) with true by lia. }
  rewrite orb_false_r. change (numStartupRtts b1) with (numStartupRtts b).
  destruct (numStartupRtts b <=? roundsWithoutBandwidthGain b1) eqn:Hc; (split_and!; try done);
    (etransitivity; [|symmetry; exact (f_equal (orb (isAtFullBandwidth b)) Hc)]);
    [by rewrite orb_true_r|by rewrite orb_false_r].
Qed.

(** STARTUP ends: when the bandwidth estimate stops growing by a quarter per
    round (and losses are few), the sender declares the full bandwidth found at
    the end of exactly the [numStartupRtts]-th such round (2, 3 or 4 by
    profile), neither earlier nor later. *)
Theorem startup_ends_without_growth b state n :
  lastSampleIsAppLimited b = false → stalled b → numLossEventsInRound b < defaultStartupFullLossCount →
  isAtFullBandwidth b = false → roundsWithoutBandwidthGain b = 0 →
  0 < numStartupRtts b < 9223372036854775808 → Z.of_nat n <= numStartupRtts b →
  isAtFullBandwidth (rounds n state b) = bool_decide (Z.of_nat n = numStartupRtts b).
Proof.
  intros Hl Hs Hn Hf Hr Hnum Hle.
  assert (∀ k, Z.of_nat k <= numStartupRtts b →
    let b' := rounds k state b in
    lastSampleIsAppLimited b' = false ∧ stalled b' ∧
    numLossEventsInRound b' < defaultStartupFullLossCount ∧ numStartupRtts b' = numStartupRtts b ∧
    roundsWithoutBandwidthGain b' = Z.of_nat k ∧
    isAtFullBandwidth b' = bool_decide (Z.of_nat k = numStartupRtts b)) as Hall.
  { induction k as [|k IH]; intros Hk.
    - cbn. split_and!; try done. rewrite bool_decide_eq_false_2 by lia. done.
    - destruct (IH ltac:(lia)) as (Hl' & Hs' & Hn' & Hnum' & Hr' & Hf').
      change (rounds (S k) state b) with (checkIfFullBandwidthReached (rounds k state b) state).
      destruct (stalled_round (rounds k state b) state Hl' Hs' Hn') as (S1 & S2 & S3 & S4 & S5 & S6).
      cbn zeta. rewrite S3, S4. split_and!; [done..| |].
      + rewrite S5, Hr', i64_id by mach. lia.
      + rewrite S6, S5, Hf', Hr', Hnum', i64_id by mach.
        rewrite (bool_decide_eq_false_2 (Z.of_nat k = _)) by lia. cbn [orb].
        destruct (bool_decide_reflect (Z.of_nat (S k) = numStartupRtts b)); [apply Z.leb_le|apply Z.leb_gt]; lia. }
  by apply Hall.
Qed.

(** Round trips are counted once per flight: acknowledgements up to the end of
    the current round leave the counter alone, the first one past it advances
    the counter by one and ends the new round at the last packet sent. *)
Theorem round_advances_once_per_flight b pns pn :
  currentRoundTripEnd b ≠ invalidPacketNumber → Forall (λ p, p <= currentRoundTripEnd b) pns →
  currentRoundTripEnd b < pn → in_u64 (roundTripCount b + 1) →
  let b' := foldl (λ b p, snd (updateRoundTripCounter b p)) b pns in
  b' = b ∧ ∃ b'', updateRoundTripCounter b' pn = (true, b'') ∧
    roundTripCount b'' = roundTripCount b + 1 ∧ currentRoundTripEnd b'' = lastSentPacket b.
Proof.
  intros Hend Hall Hpn Hc. cbn zeta.
  assert (foldl (λ b p, snd (updateRoundTripCounter b p)) b pns = b) as ->.
  { induction Hall as [|p pns Hp Hall IH]; [done|]. cbn.
    unfold updateRoundTripCounter at 2. unfold invalidPacketNumber in *.
    replace ((currentRoundTripEnd b =? -1) || (currentRoundTripEnd b <? p)) with false by lia. apply IH. }
  split; [done|]. unfold updateRoundTripCounter, invalidPacketNumber in *.
  replace ((currentRoundTripEnd b =? -1) || (currentRoundTripEnd b <? pn)) with true by lia.
  eexists. split; [done|]. cbn. by rewrite u64_id.
Qed.

(** PROBE_BW starts at a random place of the gain cycle but never in its
    draining phase: the offset drawn is one of 0 and 2 to 7, the pacing gain is
    the cycle's gain there (1.25 or 1.0, never 0.75), and each of these offsets
    is drawn for some random value. *)
Theorem probe_bw_never_starts_draining b now rand :
  returns (enterProbeBandwidthMode b now rand) (λ b', mode b' = ProbeBw ∧
    (cycleCurrentOffset b' = 0 ∧ pacingGain b' = f64_const 5 4 ∨
     2 <= cycleCurrentOffset b' <= 7 ∧ pacingGain b' = f64_const 1 1)) ∧
  (7 <= PacketsPerConnectionID → ∀ o, o = 0 ∨ 2 <= o <= 7 → ∃ rand',
    returns (enterProbeBandwidthMode b now rand') (λ b', cycleCurrentOffset b' = o)).
Proof.
  split.
  - eapply returns_mono; [apply enterProbeBandwidthMode_returns|].
    intros b' (_ & Hm & _ & _ & Ho & Hg & _). split; [done|]. rewrite Ho.
    pose proof (drawn_offset_range rand) as [Hr Hne]. unfold cycle_gain in Hg.
    assert (drawn_offset rand = 0 ∨ drawn_offset rand = 2 ∨ drawn_offset rand = 3 ∨ drawn_offset rand = 4 ∨
      drawn_offset rand = 5 ∨ drawn_offset rand = 6 ∨ drawn_offset rand = 7) as Hcases by lia.
    repeat destruct Hcases as [Heq|Hcases];
      (rewrite Heq in Hg |- *; injection Hg as <-; first [by left|right; split; [lia|done]]) ||
      (rewrite Hcases in Hg |- *; injection Hg as <-; right; split; [lia|done]).
  - intros Hp o Ho. set (x := if 1 <=? o then o - 1 else o).
    assert (0 <= x < 7) by (subst x; case_match; lia).
    exists x. eapply returns_mono; [apply enterProbeBandwidthMode_returns|].
    intros b' (_ & _ & _ & _ & -> & _). unfold drawn_offset.
    rewrite !(Z.mod_small x) by lia. subst x. repeat case_match; lia.
Qed.

(** The RTT samples of a sequence of events, with their times. *)
Definition feedRtts b (samples : list (Z * Z)) : bbrSender :=
  foldl (λ b s, snd (maybeUpdateMinRtt b (fst s) (snd s))) b samples.

(** The minimum RTT is the minimum: over any samples that arrive within ten
    seconds of the time the current estimate was taken, the estimate becomes the
    smallest of itself and the samples; a sample that arrives later expires it,
    is reported as an expiry and replaces it whatever its size. *)
Theorem min_rtt_is_windowed_minimum b samples t rtt :
  0 < minRtt b → 0 <= minRttTimestamp b <= 4611686018427387903 →
  Forall (λ s, minRttTimestamp b <= fst s <= minRttTimestamp b + minRttExpiry ∧ 0 < snd s) samples →
  minRttTimestamp b + 2 * minRttExpiry < t →
  let b' := feedRtts b samples in
  minRtt b' = foldr (λ s m, Z.min m (snd s)) (minRtt b) samples ∧
  let '(expired, b'') := maybeUpdateMinRtt b' t rtt in
  expired = true ∧ minRtt b'' = rtt ∧ minRttTimestamp b'' = t.
Proof.
  intros Hpos Ht Hall Hlate. cbn zeta.
  assert (0 < minRtt (feedRtts b samples) ∧
    minRttTimestamp b <= minRttTimestamp (feedRtts b samples) <= minRttTimestamp b + minRttExpiry ∧
    minRtt (feedRtts b samples) = foldr (λ s m, Z.min m (snd s)) (minRtt b) samples) as (Hp & Hts & Hmin).
  { rewrite <- (reverse_involutive samples) in Hall |- *. induction (reverse samples) as [|[u r] l IH].
    { cbn. unfold minRttExpiry, Second. lia. }
    rewrite reverse_cons in Hall |- *. apply Forall_app in Hall as [Hall Hs]. apply Forall_singleton in Hs as [Hu Hr].
    destruct (IH Hall) as (Hp & Hts & Hmin). unfold feedRtts in *. rewrite foldl_app, foldr_app. cbn in *.
    set (b1 := foldl _ b (reverse l)) in *. clearbody b1.
    assert (foldr (λ s m, Z.min m (snd s)) (Z.min (minRtt b) r) (reverse l) = Z.min (minRtt b1) r) as ->.
    { rewrite Hmin. clear. induction (reverse l) as [|[] k IH]; cbn; [done|rewrite IH; lia]. }
    unfold maybeUpdateMinRtt. rewrite time_After_spec, time_Add_spec, i64_id by (unfold minRttExpiry, Second in *; mach).
    replace (negb (minRtt b1 =? 0) && _) with false by lia. cbn [orb snd].
    replace (minRtt b1 =? 0) with false by lia. rewrite orb_false_r.
    destruct (Z.ltb_spec r (minRtt b1)); cbn; lia. }
  split; [done|]. unfold maybeUpdateMinRtt.
  rewrite time_After_spec, time_Add_spec, i64_id by (unfold minRttExpiry, Second in *; mach).
  by replace (negb (minRtt (feedRtts b samples) =? 0) && _) with true by lia.
Qed.

End rounds.
End Rounds.

(** ** Concrete instances *)

Module Demo.
Import Runs BbrSpec.Demo ProbeRttTime Rounds.

#[local] Existing Instance sample_quic.
#[local] Existing Instance sample_quic_laws.
#[local] Existing Instance amd64.

(** Twelve seconds later the minimum RTT has expired. *)
Definition before_probe : list op := six_flights ++ take 3 (flight 1 200).

Lemma before_probe_valid : valid_run 1200 before_probe.
Proof. solve_valid. Qed.

(** Two later events: the inflight is small at the first, PROBE_RTT is over at the second. *)
Definition during_probe : list op :=
  [Event (50 * ms) 2400 (13100 * ms) 3 [mkAcked 604 1200] [];
   Sent (50 * ms) (13200 * ms) 1 605 1200 true;
   Event (50 * ms) 1200 (13400 * ms) 3 [mkAcked 605 1200] []].

Example demo_probe_rtt :
  (b ← demo_run ProfileStandard (before_probe ++ drop 3 (flight 1 200)); Ok (mode b)) = Ok ProbeRtt ∧
  (b ← demo_run ProfileStandard (before_probe ++ drop 3 (flight 1 200) ++ during_probe); Ok (mode b))
    = Ok ProbeBw.
Proof. split; by vm_compute. Qed.

Lemma probe_rtt_lasts_witness :
  ∃ b, demo_run ProfileStandard before_probe = Ok b ∧
  returns (exec b (Event (50 * ms) 180001 (13055 * ms) 1000
      [mkAcked 601 60000; mkAcked 602 60000; mkAcked 603 60000] [])) (λ b1,
    returns (foldM exec during_probe b1) (λ b2,
      mode b1 = ProbeRtt → mode b2 ≠ ProbeRtt →
      Exists (reaches (13055 * ms + probeRttTime)) during_probe)).
Proof.
  destruct (demo_state ProfileStandard before_probe before_probe_valid) as (b & Hb & Hi).
  exists b. split; [exact Hb|].
  apply (probe_rtt_lasts 1200); [exact Hi| | | | | |].
  - apply (run_fact _ _ _ _ Hb); vm_compute; reflexivity.
  - rewrite (run_fact mode _ _ ProbeBw Hb); [discriminate|vm_compute; reflexivity].
  - clear. by vm_compute.
  - clear. repeat constructor; vm_compute; intuition discriminate.
  - clear. solve_valid.
  - clear. unfold during_probe. repeat (apply Forall_cons; split; [intros t [= <-]; split; by vm_compute|]). by apply Forall_nil.
Defined.

Lemma startup_ends_without_growth_witness :
  ∃ b, demo_run ProfileStandard (take 4 six_flights) = Ok b ∧
  isAtFullBandwidth (rounds 3 zero (b <| bandwidthAtLastRound := 26181816 |>)) =
    bool_decide (Z.of_nat 3 = numStartupRtts (b <| bandwidthAtLastRound := 26181816 |>)).
Proof.
  destruct (demo_state ProfileStandard (take 4 six_flights) ltac:(solve_valid)) as (b & Hb & Hi).
  exists b. split; [exact Hb|].
  pose proof (run_fact (λ b, (lastSampleIsAppLimited b, numLossEventsInRound b, isAtFullBandwidth b,
    roundsWithoutBandwidthGain b, numStartupRtts b, bandwidthEstimate b)) _ _
    (false, 0, false, 0, 3, 26181816) Hb ltac:(vm_compute; reflexivity)) as Hfacts.
  clear Hb Hi. injection Hfacts as H1 H2 H3 H4 H5 H6.
  apply (startup_ends_without_growth _ zero 3).
  - exact H1.
  - unfold stalled. change (bandwidthEstimate _) with (bandwidthEstimate b). rewrite H6. by vm_compute.
  - change (numLossEventsInRound b < defaultStartupFullLossCount). rewrite H2. by vm_compute.
  - exact H3.
  - exact H4.
  - change (0 < numStartupRtts b < 9223372036854775808). rewrite H5. lia.
  - change (Z.of_nat 3 <= numStartupRtts b). rewrite H5. lia.
Defined.

Lemma probe_bw_never_starts_draining_witness :
  ∃ b, demo_run ProfileStandard before_probe = Ok b ∧ 7 <= PacketsPerConnectionID ∧
  ∃ rand', returns (enterProbeBandwidthMode b 0 rand') (λ b', cycleCurrentOffset b' = 5).
Proof.
  destruct (demo_state ProfileStandard before_probe before_probe_valid) as (b & Hb & _).
  exists b. split; [exact Hb|]. split; [discriminate|].
  apply (probe_bw_never_starts_draining b 0 0); [discriminate|right; split; discriminate].
Defined.

Lemma round_advances_once_per_flight_witness :
  ∃ b, demo_run ProfileStandard (take 11 six_flights) = Ok b ∧
  let b' := foldl (λ b p, snd (updateRoundTripCounter b p)) b [4; 5; 6] in
  b' = b ∧ ∃ b'', updateRoundTripCounter b' 7 = (true, b'') ∧
    roundTripCount b'' = roundTripCount b + 1 ∧ currentRoundTripEnd b'' = lastSentPacket b.
Proof.
  destruct (demo_state ProfileStandard (take 11 six_flights) ltac:(solve_valid)) as (b & Hb & Hi).
  exists b. split; [exact Hb|].
  pose proof (run_fact currentRoundTripEnd _ _ 6 Hb ltac:(vm_compute; reflexivity)) as H1.
  pose proof (run_fact roundTripCount _ _ 2 Hb ltac:(vm_compute; reflexivity)) as H2.
  clear Hb Hi. apply (round_advances_once_per_flight b [4; 5; 6] 7).
  - rewrite H1. done.
  - rewrite H1. repeat constructor; lia.
  - rewrite H1. lia.
  - rewrite H2. by vm_compute.
Defined.

Lemma min_rtt_is_windowed_minimum_witness :
  ∃ b, demo_run ProfileStandard (take 4 six_flights) = Ok b ∧
  let samples := [(1060 * ms, 60 * ms); (1070 * ms, 40 * ms); (1080 * ms, 45 * ms)] in
  let b' := feedRtts b samples in
  minRtt b' = foldr (λ s m, Z.min m (snd s)) (minRtt b) samples ∧
  let '(expired, b'') := maybeUpdateMinRtt b' (30000 * ms) (90 * ms) in
  expired = true ∧ minRtt b'' = 90 * ms ∧ minRttTimestamp b'' = 30000 * ms.
Proof.
  destruct (demo_state ProfileStandard (take 4 six_flights) ltac:(solve_valid)) as (b & Hb & Hi).
  exists b. split; [exact Hb|].
  pose proof (run_fact minRtt _ _ 53000000 Hb ltac:(vm_compute; reflexivity)) as H1.
  pose proof (run_fact minRttTimestamp _ _ 1055000000 Hb ltac:(vm_compute; reflexivity)) as H2.
  clear Hb Hi. cbn zeta.
  apply (min_rtt_is_windowed_minimum b [(1060 * ms, 60 * ms); (1070 * ms, 40 * ms); (1080 * ms, 45 * ms)]).
  - rewrite H1. lia.
  - rewrite H2. lia.
  - rewrite H2. unfold ms, Millisecond, minRttExpiry, Second. repeat constructor; cbn; lia.
  - rewrite H2. unfold ms, Millisecond, minRttExpiry, Second. lia.
Defined.

End Demo.
