(* ===== verification/BbrRates.v ===== *)
(** * The BBR sender: rates and windows

    The pacing rate never starves the sender, the recovery window keeps its
    floor, STARTUP never shrinks the window, and the inputs on which the code
    panics. *)

From S2P Require Import Prelude Float64 QuicGo RingBuffer WindowedFilter PacketQueue Pacer Sampler SamplerSpec Bbr BbrFacts BbrEvent BbrSpec.

Import Bbr.

Section rates.
Context `{Q : QuicGo} `{!QuicGoLaws Q} `{!Platform}.
Implicit Types (b : bbrSender).

(** Pacing always makes progress: in every state of the sender the pacer is
    given a bandwidth of at least 64 KiB/s, so [TimeUntilSend] returns without
    dividing by zero, and from the deadline it reports on, [HasPacingBudget]
    allows a packet; the host's send loop cannot spin on a deadline in the past
    with no budget. *)
Theorem pacing_makes_progress b :
  inv b → Pacer.lastSentTime (pacer b) ≠ 0 →
  returns (bandwidthForPacer b) (λ bps, minBps <= bps ∧
    (bps < 4294967296 → returns (TimeUntilSend b) (λ t,
      ∀ now, t <= now → Pacer.lastSentTime (pacer b) <= now <= 4611686018427387903 →
        bps * (now - Pacer.lastSentTime (pacer b)) < 4611686018427387904 →
        HasPacingBudget b now = Ok true))).
Proof.
  intros Hi Hne. destruct (bandwidthForPacer_returns b (co_rtt b (in_core b Hi))) as (bps & Hbw & Hmin & _).
  exists bps. split_and!; [done..|]. intros Hmax.
  destruct (co_pacer b (in_core b Hi)) as [Hp Hle].
  unfold TimeUntilSend, HasPacingBudget. rewrite Hbw.
  eapply returns_mono; [apply Pacer.deadline_covers; [|done..]; unfold Pacer.bandwidth_ok, minBps in *; lia|].
  intros t [_ Hcover] now Ht Hnow Hov. destruct (Hcover now Ht Hnow Hov) as (budget & -> & Hb).
  cbn. f_equal. lia.
Qed.

(** One loss burst cannot pin the connection: while the sender is in recovery,
    the recomputed recovery window is at least half the current bandwidth-delay
    target, at least the minimum window, and at least the bytes in flight plus
    those just acknowledged, so at least as much as was acknowledged can be sent. *)
Theorem recovery_window_floor b bytesAcked bytesLost :
  rtt_ok b → recoveryState b ≠ NotInRecovery → in_i64 (bytesInFlight b + bytesAcked) →
  returns (calculateRecoveryWindow b bytesAcked bytesLost) (λ b',
    returns (getTargetCongestionWindow b (f64_const 1 1)) (λ target,
      Z.quot target 2 <= recoveryWindow b' ∧ minCongestionWindow b' <= recoveryWindow b' ∧
      bytesInFlight b' + bytesAcked <= recoveryWindow b')).
Proof.
  intros Hb Hrec Hin. unfold calculateRecoveryWindow. rewrite bool_decide_eq_false_2 by done.
  destruct (getTarget_returns b (f64_const 1 1) Hb) as (target & -> & _). cbn [mbind result_bind].
  rewrite (i64_id (bytesInFlight b + bytesAcked)) by done.
  case_match; apply returns_ok, returns_ok; cbn; lia.
Qed.

(** STARTUP never shrinks the window: until the full bandwidth is found, a
    congestion event leaves the congestion window where it was or grows it by
    the bytes acknowledged, up to the maximum; and below the target, or while
    less than the initial window was ever acknowledged, it does grow. *)
Theorem startup_window_grows b bytesAcked excessAcked :
  core b → isAtFullBandwidth b = false → mode b ≠ ProbeRtt → 0 <= bytesAcked →
  in_i64 (congestionWindow b + bytesAcked) →
  returns (calculateCongestionWindow b bytesAcked excessAcked) (λ b',
    congestionWindow b <= congestionWindow b' ∧
    (congestionWindow b' = congestionWindow b ∨
     congestionWindow b' = Z.min (congestionWindow b + bytesAcked) (maxCongestionWindow b)) ∧
    (Sampler.TotalBytesAcked (sampler b) < initialCongestionWindow b →
     congestionWindow b' = Z.min (congestionWindow b + bytesAcked) (maxCongestionWindow b))).
Proof.
  intros Hc Hf Hm Ha Hin. pose proof (co_window b Hc). unfold calculateCongestionWindow.
  rewrite bool_decide_eq_false_2, Hf by done.
  destruct (getTarget_returns b (congestionWindowGain b) (co_rtt b Hc)) as (target & -> & _).
  cbn [mbind result_bind]. rewrite (i64_id (congestionWindow b + bytesAcked)) by done. cbn zeta.
  apply returns_ok. cbn.
  match goal with |- context [if ?c || ?d then _ else _] => destruct c eqn:?, d eqn:? end; cbn [orb]; lia.
Qed.

(** Reaching the target: once the full bandwidth is found the window is capped
    by the target (the bandwidth-delay product times the mode's gain, plus the
    largest recent ack aggregation) unless that is below the minimum window. *)
Theorem full_bandwidth_window_capped b bytesAcked excessAcked :
  core b → isAtFullBandwidth b = true → mode b ≠ ProbeRtt →
  returns (calculateCongestionWindow b bytesAcked excessAcked) (λ b',
    returns (getTargetCongestionWindow b (congestionWindowGain b)) (λ target,
      congestionWindow b' <=
        Z.max (i64 (target + Sampler.MaxAckHeight (sampler b))) (minCongestionWindow b))).
Proof.
  intros Hc Hf Hm. unfold calculateCongestionWindow. rewrite bool_decide_eq_false_2, Hf by done.
  destruct (getTarget_returns b (congestionWindowGain b) (co_rtt b Hc)) as (target & -> & _).
  cbn [mbind result_bind]. cbn zeta. apply returns_ok, returns_ok. cbn. lia.
Qed.

(** A congestion event without a packet panics: with no acknowledged packet
    the code takes the last lost packet without checking that there is one. *)
Theorem empty_event_panics b prior now rand :
  leastUnacked [] [] = Panic IndexOutOfRange ∧
  ∀ b', OnCongestionEventEx b prior now rand [] [] ≠ Ok b'.
Proof.
  split; [done|]. intros b' Hrun. unfold OnCongestionEventEx in Hrun. cbn zeta in Hrun.
  inv_bind Hrun. inv_bind Hrun. destruct v0 as [round b1]. inv_bind Hrun. destruct v0 as [sample s].
  case_match. inv_bind Hrun. unfold updateRates in Hrun. do 3 inv_bind Hrun. done.
Qed.

(** The overshoot check divides by the provider's minimum RTT without the
    guard used everywhere else: with a reading of 0 the event panics as soon as
    the pacing rate exceeds the target after a loss. *)
Theorem overshoot_divides_by_min_rtt b bytesLost :
  rttStats b = Some 0 → isAtFullBandwidth b = false → detectOvershooting b = true →
  bandwidthEstimate b ≠ 0 → hasNoAppLimitedSample b = true →
  f64_to_u64 (f64_mul (pacingGain b) (f64_of_int (bandwidthEstimate b))) < pacingRate b →
  0 < i64 (bytesLostWhileDetectingOvershooting b + bytesLost) → 0 <= pacingRate b →
  calculatePacingRate b bytesLost = Panic DivideByZero.
Proof.
  intros Hr Hf Hd He Hn Hrate Hlost Hpos. unfold calculatePacingRate, MinRTT.
  replace (bandwidthEstimate b =? 0) with false by lia. rewrite Hf, Hd, Hr. cbn zeta.
  pose proof (f64_to_u64_in (f64_mul (pacingGain b) (f64_of_int (bandwidthEstimate b)))) as Hu. unfold in_u64 in Hu.
  replace (pacingRate b =? 0) with false by lia. cbn [mbind result_bind].
  set (b1 := b <| bytesLostWhileDetectingOvershooting := _ |>).
  change (hasNoAppLimitedSample b1) with (hasNoAppLimitedSample b). change (pacingRate b1) with (pacingRate b).
  change (bytesLostWhileDetectingOvershooting b1) with (i64 (bytesLostWhileDetectingOvershooting b + bytesLost)).
  rewrite Hn. replace (_ <? pacingRate b) with true by lia.
  replace (0 <? i64 (bytesLostWhileDetectingOvershooting b + bytesLost)) with true by lia. cbn [andb orb].
  change (rttStats b1) with (rttStats b). rewrite Hr. done.
Qed.

End rates.

(** ** Concrete instances *)

Module Demo.
Import Runs BbrSpec.Demo.

#[local] Existing Instance sample_quic.
#[local] Existing Instance sample_quic_laws.
#[local] Existing Instance amd64.

Lemma pacing_makes_progress_witness :
  ∃ b, demo_run ProfileStandard six_flights = Ok b ∧
  returns (bandwidthForPacer b) (λ bps, minBps <= bps ∧
    (bps < 4294967296 → returns (TimeUntilSend b) (λ t,
      ∀ now, t <= now → Pacer.lastSentTime (pacer b) <= now <= 4611686018427387903 →
        bps * (now - Pacer.lastSentTime (pacer b)) < 4611686018427387904 →
        HasPacingBudget b now = Ok true))).
Proof.
  destruct (demo_state ProfileStandard six_flights valid_six) as (b & Hb & Hi).
  exists b. split; [exact Hb|]. apply (pacing_makes_progress b); [exact Hi|].
  rewrite (run_fact (λ b, Pacer.lastSentTime (pacer b)) _ _ 1302000000 Hb); [discriminate|].
  vm_compute; reflexivity.
Defined.

Definition in_recovery : list op := six_flights ++ lossy_flight 6.

Lemma recovery_window_floor_witness :
  ∃ b, demo_run ProfileStandard in_recovery = Ok b ∧
  returns (calculateRecoveryWindow b 1200 90000) (λ b',
    returns (getTargetCongestionWindow b (f64_const 1 1)) (λ target,
      Z.quot target 2 <= recoveryWindow b' ∧ minCongestionWindow b' <= recoveryWindow b' ∧
      bytesInFlight b' + 1200 <= recoveryWindow b')).
Proof.
  destruct (demo_state ProfileStandard in_recovery ltac:(solve_valid)) as (b & Hb & Hi).
  exists b. split; [exact Hb|].
  apply (recovery_window_floor b 1200 90000); [exact (co_rtt b (in_core b Hi))| |].
  - rewrite (run_fact recoveryState _ _ Conservation Hb); [discriminate|vm_compute; reflexivity].
  - rewrite (run_fact bytesInFlight _ _ 60000 Hb); [clear; by vm_compute|vm_compute; reflexivity].
Defined.

Lemma startup_window_grows_witness :
  ∃ b, demo_run ProfileStandard (take 4 six_flights) = Ok b ∧
  returns (calculateCongestionWindow b 60000 0) (λ b',
    congestionWindow b <= congestionWindow b' ∧
    (congestionWindow b' = congestionWindow b ∨
     congestionWindow b' = Z.min (congestionWindow b + 60000) (maxCongestionWindow b)) ∧
    (Sampler.TotalBytesAcked (sampler b) < initialCongestionWindow b →
     congestionWindow b' = Z.min (congestionWindow b + 60000) (maxCongestionWindow b))).
Proof.
  destruct (demo_state ProfileStandard (take 4 six_flights) ltac:(solve_valid)) as (b & Hb & Hi).
  exists b. split; [exact Hb|].
  apply (startup_window_grows b 60000 0); [exact (in_core b Hi)| | | |].
  - apply (run_fact _ _ _ _ Hb); vm_compute; reflexivity.
  - rewrite (run_fact mode _ _ Startup Hb); [discriminate|vm_compute; reflexivity].
  - lia.
  - rewrite (run_fact congestionWindow _ _ 218400 Hb); [clear; by vm_compute|vm_compute; reflexivity].
Defined.

Lemma full_bandwidth_window_capped_witness :
  ∃ b, demo_run ProfileStandard six_flights = Ok b ∧
  returns (calculateCongestionWindow b 180000 0) (λ b',
    returns (getTargetCongestionWindow b (congestionWindowGain b)) (λ target,
      congestionWindow b' <=
        Z.max (i64 (target + Sampler.MaxAckHeight (sampler b))) (minCongestionWindow b))).
Proof.
  destruct (demo_state ProfileStandard six_flights valid_six) as (b & Hb & Hi).
  exists b. split; [exact Hb|].
  apply (full_bandwidth_window_capped b 180000 0); [exact (in_core b Hi)| |].
  - apply (run_fact _ _ _ _ Hb); vm_compute; reflexivity.
  - rewrite (run_fact mode _ _ ProbeBw Hb); [discriminate|vm_compute; reflexivity].
Defined.

(** Two flights of the conservative profile, then the provider reads 0. *)
Lemma overshoot_divides_by_min_rtt_witness :
  ∃ b, (b ← demo_run ProfileConservative (take 8 six_flights); Ok (SetRTTStatsProvider b 0)) = Ok b ∧
  f64_to_u64 (f64_mul (pacingGain (b <| pacingRate := 90000000 |>))
    (f64_of_int (bandwidthEstimate (b <| pacingRate := 90000000 |>)))) = 58909086 ∧
  calculatePacingRate (b <| pacingRate := 90000000 |>) 1200 = Panic DivideByZero.
Proof.
  destruct (demo_state ProfileConservative (take 8 six_flights) ltac:(solve_valid)) as (b0 & Hb0 & _).
  exists (SetRTTStatsProvider b0 0). rewrite Hb0. split; [reflexivity|].
  set (b := SetRTTStatsProvider b0 0).
  pose proof (run_fact (λ b, (isAtFullBandwidth b, detectOvershooting b, bandwidthEstimate b,
    hasNoAppLimitedSample b, pacingGain b, bytesLostWhileDetectingOvershooting b)) _ _
    (false, true, 26181816, true, f64_const 225 100, 0) Hb0 ltac:(vm_compute; reflexivity)) as Hfacts.
  clear Hb0. injection Hfacts as H1 H2 H3 H4 H5 H6.
  assert (f64_to_u64 (f64_mul (pacingGain (b <| pacingRate := 90000000 |>))
    (f64_of_int (bandwidthEstimate (b <| pacingRate := 90000000 |>)))) = 58909086) as Hrate.
  { assert (pacingGain (b <| pacingRate := 90000000 |>) = f64_const 225 100) as -> by exact H5.
    assert (bandwidthEstimate (b <| pacingRate := 90000000 |>) = 26181816) as -> by exact H3.
    clear. by vm_compute. }
  split; [exact Hrate|]. apply (overshoot_divides_by_min_rtt (b <| pacingRate := 90000000 |>) 1200).
  - reflexivity.
  - exact H1.
  - exact H2.
  - assert (bandwidthEstimate (b <| pacingRate := 90000000 |>) = 26181816) as -> by exact H3. discriminate.
  - exact H4.
  - rewrite Hrate. by vm_compute.
  - assert (bytesLostWhileDetectingOvershooting (b <| pacingRate := 90000000 |>) = 0) as -> by exact H6.
    clear. by vm_compute.
  - by vm_compute.
Defined.

End Demo.
