(* ===== verification/GoIP.v ===== *)
(** * net.IP: an address is its 4 or 16 bytes *)

From S2P Require Import Prelude.

Definition v4InV6Prefix : list Z := replicate 10 0 ++ [255; 255].

Definition To4 (ip : list Z) : option (list Z) :=
  if len ip =? 4 then Some ip
  else if (len ip =? 16) && bool_decide (take 12 ip = v4InV6Prefix) then Some (drop 12 ip)
  else None.

Definition To16 (ip : list Z) : option (list Z) :=
  if len ip =? 4 then Some (v4InV6Prefix ++ ip)
  else if len ip =? 16 then Some ip
  else None.

Lemma To4_len ip ip4 : To4 ip = Some ip4 → len ip4 = 4.
Proof.
  unfold To4. destruct (Z.eqb_spec (len ip) 4); [by intros [= <-]|].
  destruct (Z.eqb_spec (len ip) 16) as [H|]; cbn [andb]; [|done]. case_bool_decide; [|done].
  intros [= <-]. unfold len in *. rewrite length_drop. lia.
Qed.
