(* ===== verification/Dns.v ===== *)
(** * The DNS codec of the TUN data plane (tui/internal/tun/dns.go)

    Parsing the question of a query, rendering an answer, and extracting the
    addresses of a DNS-over-HTTPS response.  Packets are lists of bytes. *)

From S2P Require Import Prelude GoIP.

(** ** Byte slices *)

Definition byte_ok (b : Z) : Prop := 0 <= b < 256.

(** [l[i:j]] *)
Definition slice {A} (l : list A) (i j : Z) : result (list A) :=
  if (0 <=? i) && (i <=? j) && (j <=? len l)
  then Ok (take (Z.to_nat (j - i)) (drop (Z.to_nat i) l)) else Panic IndexOutOfRange.

(** [binary.BigEndian.Uint16(b)] *)
Definition Uint16 (b : list Z) : result Z :=
  lo ← slice_get b 1;
  hi ← slice_get b 0;
  Ok (Z.lor lo (Z.shiftl hi 8)).

(** [binary.BigEndian.PutUint16(b[i:], v)] and [PutUint32] *)
Definition PutUint16 (b : list Z) (i v : Z) : result (list Z) :=
  tl ← slice_from b i;
  _ ← slice_get tl 1;
  b ← slice_set b i (u8 (Z.shiftr v 8));
  slice_set b (i + 1) (u8 v).

Definition PutUint32 (b : list Z) (i v : Z) : result (list Z) :=
  tl ← slice_from b i;
  _ ← slice_get tl 3;
  b ← slice_set b i (u8 (Z.shiftr v 24));
  b ← slice_set b (i + 1) (u8 (Z.shiftr v 16));
  b ← slice_set b (i + 2) (u8 (Z.shiftr v 8));
  slice_set b (i + 3) (u8 v).

Module Dns.

Definition flagQR : Z := 32768.
Definition flagRD : Z := 256.
Definition flagRA : Z := 128.
Definition qtypeA : Z := 1.
Definition qtypeAAAA : Z := 28.

Record dnsHeader := mkHeader {
  ID : Z;
  Flags : Z;
  QDCount : Z;
  ANCount : Z;
  NSCount : Z;
  ARCount : Z
}.

(** [strings.Join(labels, ".")] *)
Fixpoint join (labels : list (list Z)) : list Z :=
  match labels with
  | [] => []
  | [l] => l
  | l :: labels => l ++ 46 :: join labels
  end.

(** The loop over the labels of the question, from offset [off]. *)
Fixpoint labelsLoop (fuel : nat) (pkt : list Z) (off : Z) (labels : list (list Z))
    : fallible (list (list Z) * Z) :=
  match fuel with
  | O => OutOfFuel
  | S fuel =>
      if len pkt <=? off then fail "dns name overruns packet"
      else
        l ← slice_get pkt off;
        let off := off + 1 in
        if l =? 0 then ret (labels, off)
        else if Z.land l 192 =? 192 then fail "compressed qname unsupported"
        else if len pkt <? off + l then fail "dns label overruns packet"
        else
          s ← slice pkt off (off + l);
          labelsLoop fuel pkt (off + l) (labels ++ [s])
  end.

(** Header, name, type and end of the question. *)
Definition parseQueryWithEnd (pkt : list Z) : fallible (dnsHeader * list Z * Z * Z) :=
  if len pkt <? 12 then fail "dns packet too short"
  else
    s ← slice_from pkt 0; id ← Uint16 s;
    s ← slice_from pkt 2; flags ← Uint16 s;
    s ← slice_from pkt 4; qd ← Uint16 s;
    s ← slice_from pkt 6; an ← Uint16 s;
    let h := mkHeader id flags qd an 0 0 in
    if negb (qd =? 1) then fail "dns query must contain exactly one question"
    else
      '(labels, off) ←? labelsLoop (S (length pkt)) pkt 12 [];
      if len pkt <? off + 4 then fail "dns question overruns packet"
      else
        s ← slice_from pkt off; qtype ← Uint16 s;
        ret (h, join labels, qtype, off + 4).

Definition parseQuery (pkt : list Z) : fallible (dnsHeader * list Z * Z) :=
  '(h, name, qtype, _) ←? parseQueryWithEnd pkt; ret (h, name, qtype).

(** The records kept for a query of type [qtype]. *)
Definition matches (qtype : Z) (ip : list Z) : bool :=
  ((qtype =? qtypeA) && bool_decide (To4 ip ≠ None)) ||
  ((qtype =? qtypeAAAA) && bool_decide (To4 ip = None) && bool_decide (To16 ip ≠ None)).

(** One resource record: name pointer, type, class, TTL, length and data. *)
Definition record (ip : list Z) (ttl : Z) : result (list Z) :=
  let '(typ, rdata) :=
    match To4 ip with
    | Some v4 => (qtypeA, v4)
    | None => (qtypeAAAA, default [] (To16 ip))
    end in
  rr ← PutUint16 (replicate 10 0) 0 typ;
  rr ← PutUint16 rr 2 1;
  rr ← PutUint32 rr 4 ttl;
  rr ← PutUint16 rr 8 (u16 (len rdata));
  Ok ([192; 12] ++ rr ++ rdata).

Definition buildResponse (query : list Z) (ips : list (list Z)) (ttl : Z) : fallible (list Z) :=
  '(h, _, qtype, questionEnd) ←? parseQueryWithEnd query;
  let ips := filter (λ ip, matches qtype ip = true) ips in
  resp ← slice query 0 12;
  let flags := Z.lor (Z.lor (Z.lor flagQR flagRA) (Z.land (Flags h) flagRD)) (Z.land (Flags h) 30720) in
  let flags := if len ips =? 0 then Z.lor flags 3 else flags in
  resp ← PutUint16 resp 2 flags;
  question ← slice query 12 questionEnd;
  let resp := resp ++ question in
  resp ← PutUint16 resp 8 0;
  resp ← PutUint16 resp 10 0;
  if len ips =? 0 then
    resp ← PutUint16 resp 6 0; ret resp
  else
    resp ← PutUint16 resp 6 (u16 (len ips));
    resp ← foldM (λ resp ip, rr ← record ip ttl; Ok (resp ++ rr)) ips resp;
    ret resp.

(** Skip the name of the question section. *)
Fixpoint skipQuestion (fuel : nat) (pkt : list Z) (off : Z) : fallible Z :=
  match fuel with
  | O => OutOfFuel
  | S fuel =>
      if len pkt <=? off then fail "dns response overruns"
      else
        l ← slice_get pkt off;
        let off := off + 1 in
        if l =? 0 then ret off
        else if Z.land l 192 =? 192 then ret (off + 1)
        else skipQuestion fuel pkt (off + l)
  end.

(** [for off < len(pkt) && pkt[off] != 0 { off += int(pkt[off]) + 1 }] *)
Fixpoint skipLabels (fuel : nat) (pkt : list Z) (off : Z) : result Z :=
  if off <? len pkt then
    l ← slice_get pkt off;
    if l =? 0 then Ok off
    else
      match fuel with
      | O => OutOfFuel
      | S fuel => skipLabels fuel pkt (off + (l + 1))
      end
  else Ok off.

(** The loop over the answers; [None] is leaving the loop. *)
Fixpoint answersLoop (n : nat) (pkt : list Z) (off : Z) (ips : list (list Z)) : result (list (list Z)) :=
  match n with
  | O => Ok ips
  | S n =>
      if negb (off + 10 <=? len pkt) then Ok ips
      else if len pkt <=? off then Ok ips
      else
        b ← slice_get pkt off;
        off ← (if Z.land b 192 =? 192 then Ok (off + 2)
               else off ← skipLabels (length pkt) pkt off; Ok (off + 1));
        if len pkt <? off + 10 then Ok ips
        else
          s ← slice_from pkt off; typ ← Uint16 s;
          s ← slice_from pkt (off + 8); rdlen ← Uint16 s;
          let off := off + 10 in
          if len pkt <? off + rdlen then Ok ips
          else
            ips ← (if (typ =? qtypeA) && (rdlen =? 4) then
                     ip ← slice pkt off (off + 4); Ok (ips ++ [ip])
                   else if (typ =? qtypeAAAA) && (rdlen =? 16) then
                     ip ← slice pkt off (off + 16); Ok (ips ++ [ip])
                   else Ok ips);
            answersLoop n pkt (off + rdlen) ips
  end.

Definition parseAnswers (pkt : list Z) : fallible (list (list Z)) :=
  if len pkt <? 12 then fail "dns response too short"
  else
    s ← slice_from pkt 6; anCount ← Uint16 s;
    off ←? skipQuestion (S (length pkt)) pkt 12;
    ips ← answersLoop (Z.to_nat anCount) pkt (off + 4) [];
    if len ips =? 0 then fail "no answers" else ret ips.

End Dns.
