(* ===== verification/DnsSpec.v ===== *)
(** * Theorems about the DNS codec

    No packet can make the codec panic or loop; a rendered query parses back; the
    addresses put in a response are the ones a resolver reads from it. *)

From S2P Require Import Prelude GoIP Dns.

Import Dns.

(** ** Reading and writing at an offset *)

Section slices.
Context {A : Type}.
Implicit Types (pre post l : list A).

Lemma slice_app pre s post i j :
  i = len pre → j = len pre + len s → slice (pre ++ s ++ post) i j = Ok s.
Proof.
  intros -> ->. pose proof (len_nonneg pre). pose proof (len_nonneg s). pose proof (len_nonneg post).
  unfold slice. rewrite !len_app.
  replace ((0 <=? len pre) && (len pre <=? len pre + len s) &&
    (len pre + len s <=? len pre + (len s + len post))) with true by lia.
  f_equal. replace (len pre + len s - len pre) with (len s) by lia.
  unfold len. by rewrite !Nat2Z.id, drop_app_length, take_app_length.
Qed.

Lemma slice_get_parts l pre x post n : l = pre ++ x :: post → n = len pre → slice_get l n = Ok x.
Proof. intros ->. apply slice_get_app. Qed.

Lemma slice_parts l pre s post i j :
  l = pre ++ s ++ post → i = len pre → j = len pre + len s → slice l i j = Ok s.
Proof. intros ->. apply slice_app. Qed.

Lemma slice_returns l i j :
  0 <= i <= j → j <= len l → returns (slice l i j) (λ s, len s = j - i).
Proof.
  intros Hi Hj. unfold slice. replace ((0 <=? i) && (i <=? j) && (j <=? len l)) with true by lia.
  apply returns_ok. unfold len in *. rewrite length_take, length_drop. lia.
Qed.

End slices.

(** A packet: a list of bytes. *)
Definition packet (l : list Z) : Prop := Forall byte_ok l.

Lemma packet_app l k : packet (l ++ k) ↔ packet l ∧ packet k.
Proof. apply Forall_app. Qed.

Lemma packet_get l i x : packet l → l !! i = Some x → byte_ok x.
Proof. intros Hl Hx. by eapply Forall_lookup_1. Qed.

Lemma Uint16_bytes hi lo post :
  byte_ok hi → byte_ok lo → Uint16 (hi :: lo :: post) = Ok (256 * hi + lo).
Proof.
  intros Hhi Hlo. unfold Uint16. rewrite (slice_get_ok _ 1 lo), (slice_get_ok _ 0 hi) by done.
  cbn [mbind result_bind]. f_equal. unfold byte_ok in *.
  rewrite Z.shiftl_mul_pow2 by lia. change (2 ^ 8) with 256.
  pose proof (Z.add_lor_land lo (hi * 256)) as Hadd.
  enough (Z.land lo (hi * 256) = 0) by lia. clear Hadd. apply Z.bits_inj'. intros n Hn. rewrite Z.land_spec, Z.bits_0.
  change 256 with (2 ^ 8). destruct (Z.ltb_spec n 8).
  - by rewrite Z.mul_pow2_bits_low, andb_false_r.
  - replace lo with (lo mod 2 ^ 8) by (apply Z.mod_small; lia).
    by rewrite Z.mod_pow2_bits_high by lia.
Qed.

(** Reading 16 bits inside a packet. *)
Lemma read16_returns pkt off :
  packet pkt → 0 <= off → off + 2 <= len pkt →
  returns (s ← slice_from pkt off; Uint16 s) (λ v, 0 <= v < 65536).
Proof.
  intros Hp Hoff Hlen. rewrite slice_from_ok by lia. cbn [mbind result_bind].
  assert (packet (drop (Z.to_nat off) pkt)) as Hd by by apply Forall_drop.
  assert (2 <= len (drop (Z.to_nat off) pkt)) as Hl by (unfold len in *; rewrite length_drop; lia).
  destruct (drop (Z.to_nat off) pkt) as [|hi [|lo post]]; [unfold len in Hl; cbn in Hl; lia..|].
  apply Forall_cons in Hd as [Hhi Hd]. apply Forall_cons in Hd as [Hlo _].
  rewrite Uint16_bytes by done. apply returns_ok. unfold byte_ok in *. lia.
Qed.

(** ** Totality *)

Section totality.
Implicit Types (pkt : list Z) (off : Z).

Lemma labelsLoop_returns fuel pkt off labels :
  packet pkt → 0 <= off → len pkt - off < Z.of_nat fuel → (0 < fuel)%nat →
  returns (labelsLoop fuel pkt off labels) (ok_with (λ '(_, off'), off < off' <= len pkt)).
Proof.
  intros Hp. revert off labels. induction fuel as [|fuel IH]; intros off labels Hoff Hfuel Hpos; [lia|].
  cbn [labelsLoop]. destruct (Z.leb_spec (len pkt) off); [by apply returns_ok|].
  eapply returns_bind; [apply slice_get_returns; lia|]. intros l Hl.
  pose proof (packet_get _ _ _ Hp Hl) as Hb. unfold byte_ok in Hb.
  destruct (Z.eqb_spec l 0); [apply returns_ok; cbn; lia|].
  case_match; [by apply returns_ok|].
  destruct (Z.ltb_spec (len pkt) (off + 1 + l)); [by apply returns_ok|].
  eapply returns_bind; [apply slice_returns; lia|]. intros s _.
  apply (returns_mono _ _ _ (IH (off + 1 + l) (labels ++ [s]) ltac:(lia) ltac:(lia) ltac:(lia))).
  intros [e|[ls off']]; cbn; [done|lia].
Qed.

Lemma parseQueryWithEnd_returns pkt :
  packet pkt → returns (parseQueryWithEnd pkt) (ok_with (λ '(h, _, qtype, e),
    12 < e - 4 ∧ e <= len pkt ∧ 0 <= qtype < 65536 ∧ 0 <= Flags h < 65536)).
Proof.
  intros Hp. unfold parseQueryWithEnd. destruct (Z.ltb_spec (len pkt) 12); [by apply returns_ok|].
  destruct (read16_returns pkt 0 Hp ltac:(lia) ltac:(lia)) as (id & Hid & _).
  destruct (read16_returns pkt 2 Hp ltac:(lia) ltac:(lia)) as (fl & Hfl & Hflr).
  destruct (read16_returns pkt 4 Hp ltac:(lia) ltac:(lia)) as (qd & Hqd & _).
  destruct (read16_returns pkt 6 Hp ltac:(lia) ltac:(lia)) as (an & Han & _).
  inv_bind Hid. inv_bind Hfl. inv_bind Hqd. inv_bind Han. rewrite E, E0, E1, E2.
  cbn [mbind result_bind]. rewrite Hid. cbn [mbind result_bind]. rewrite Hfl. cbn [mbind result_bind].
  rewrite Hqd. cbn [mbind result_bind]. rewrite Han. cbn [mbind result_bind].
  case_match; [by apply returns_ok|].
  eapply try_returns; [apply labelsLoop_returns; unfold len in *; [done|lia..]|].
  intros [labels off] Hoff. destruct (Z.ltb_spec (len pkt) (off + 4)); [by apply returns_ok|].
  destruct (read16_returns pkt off Hp ltac:(lia) ltac:(lia)) as (qt & Hqt & Hq).
  inv_bind Hqt. rewrite E3. cbn [mbind result_bind]. rewrite Hqt. cbn [mbind result_bind].
  apply returns_ok. cbn. lia.
Qed.

Lemma skipQuestion_returns fuel pkt off :
  packet pkt → 0 <= off → len pkt - off < Z.of_nat fuel → (0 < fuel)%nat →
  returns (skipQuestion fuel pkt off) (ok_with (λ off', off < off')).
Proof.
  intros Hp. revert off. induction fuel as [|fuel IH]; intros off Hoff Hfuel Hpos; [lia|].
  cbn [skipQuestion]. destruct (Z.leb_spec (len pkt) off); [by apply returns_ok|].
  eapply returns_bind; [apply slice_get_returns; lia|]. intros l Hl.
  pose proof (packet_get _ _ _ Hp Hl) as Hb. unfold byte_ok in Hb.
  case_match; [apply returns_ok; cbn; lia|]. case_match; [apply returns_ok; cbn; lia|].
  reflect_tests. apply (returns_mono _ _ _ (IH (off + 1 + l) ltac:(lia) ltac:(lia) ltac:(lia))).
  intros [e|off']; cbn; [done|lia].
Qed.

Lemma skipLabels_returns fuel pkt off :
  packet pkt → 0 <= off → len pkt - off <= Z.of_nat fuel →
  returns (skipLabels fuel pkt off) (λ off', off <= off').
Proof.
  intros Hp. revert off. induction fuel as [|fuel IH]; intros off Hoff Hfuel;
    cbn [skipLabels]; destruct (Z.ltb_spec off (len pkt)); try lia; try (apply returns_ok; lia).
  eapply returns_bind; [apply slice_get_returns; lia|]. intros l Hl.
  pose proof (packet_get _ _ _ Hp Hl) as Hb. unfold byte_ok in Hb.
  case_match; [apply returns_ok; lia|].
  apply (returns_mono _ _ _ (IH (off + (l + 1)) ltac:(lia) ltac:(lia))). lia.
Qed.

Lemma answersLoop_returns n pkt off ips :
  packet pkt → 0 <= off →
  Forall (λ ip, len ip = 4 ∨ len ip = 16) ips →
  returns (answersLoop n pkt off ips) (Forall (λ ip, len ip = 4 ∨ len ip = 16)).
Proof.
  intros Hp. revert off ips. induction n as [|n IH]; intros off ips Hoff Hips; cbn [answersLoop];
    [by apply returns_ok|].
  destruct (Z.leb_spec (off + 10) (len pkt)); cbn [negb]; [|by apply returns_ok].
  destruct (Z.leb_spec (len pkt) off); [by apply returns_ok|].
  eapply returns_bind; [apply slice_get_returns; lia|]. intros b _.
  eapply (returns_bind _ _ (λ off', 0 <= off')).
  { case_match; [apply returns_ok; lia|].
    eapply returns_bind; [apply skipLabels_returns; unfold len in *; [done|lia..]|].
    cbn beta. intros off' ?. apply returns_ok. lia. }
  intros off1 Hoff1. destruct (Z.ltb_spec (len pkt) (off1 + 10)); [by apply returns_ok|].
  destruct (read16_returns pkt off1 Hp ltac:(lia) ltac:(lia)) as (typ & Ht & _).
  destruct (read16_returns pkt (off1 + 8) Hp ltac:(lia) ltac:(lia)) as (rdlen & Hr & Hrd).
  inv_bind Ht. inv_bind Hr. rewrite E, E0. cbn [mbind result_bind]. rewrite Ht.
  cbn [mbind result_bind]. rewrite Hr. cbn [mbind result_bind].
  destruct (Z.ltb_spec (len pkt) (off1 + 10 + rdlen)); [by apply returns_ok|].
  eapply (returns_bind _ _ (Forall (λ ip, len ip = 4 ∨ len ip = 16))).
  - case_match; [|case_match; [|by apply returns_ok]]; reflect_tests.
    + eapply returns_bind; [apply slice_returns; lia|]. cbn beta. intros ip Hl. apply returns_ok.
      apply Forall_app. split; [done|]. apply Forall_singleton. lia.
    + eapply returns_bind; [apply slice_returns; lia|]. cbn beta. intros ip Hl. apply returns_ok.
      apply Forall_app. split; [done|]. apply Forall_singleton. lia.
  - intros ips' Hips'. apply IH; [lia|done].
Qed.

Lemma parseAnswers_returns pkt :
  packet pkt → returns (parseAnswers pkt) (ok_with (λ ips,
    ips ≠ [] ∧ Forall (λ ip, len ip = 4 ∨ len ip = 16) ips)).
Proof.
  intros Hp. unfold parseAnswers. destruct (Z.ltb_spec (len pkt) 12); [by apply returns_ok|].
  destruct (read16_returns pkt 6 Hp ltac:(lia) ltac:(lia)) as (an & Han & _).
  inv_bind Han. rewrite E. cbn [mbind result_bind]. rewrite Han. cbn [mbind result_bind].
  eapply try_returns; [apply skipQuestion_returns; unfold len in *; [done|lia..]|].
  intros off Hoff. cbn beta in Hoff.
  eapply returns_bind; [by apply answersLoop_returns; [|lia|]|].
  intros ips Hips. destruct (Z.eqb_spec (len ips) 0) as [|Hne]; apply returns_ok; [done|].
  split; [|done]. by intros ->.
Qed.

End totality.

(** ** The wire format *)

(** Two and four bytes, most significant first. *)
Definition be16 (v : Z) : list Z := [u8 (Z.shiftr v 8); u8 v].
Definition be32 (v : Z) : list Z :=
  [u8 (Z.shiftr v 24); u8 (Z.shiftr v 16); u8 (Z.shiftr v 8); u8 v].

(** The bytes of a domain name; the codec accepts labels of 1 to 191 bytes. *)
Definition label_ok (l : list Z) : Prop := 0 < len l < 192.
Definition name_bytes (labels : list (list Z)) : list Z :=
  concat (map (λ l, len l :: l) labels) ++ [0].

(** A packet with one question, whatever follows it. *)
Definition question_packet (id flags an : Z) (rest : list Z) (labels : list (list Z))
    (qtype qclass : Z) (tail : list Z) : list Z :=
  be16 id ++ be16 flags ++ be16 1 ++ be16 an ++ rest ++
  name_bytes labels ++ be16 qtype ++ be16 qclass ++ tail.

Lemma name_bytes_cons l labels : name_bytes (l :: labels) = (len l :: l) ++ name_bytes labels.
Proof. unfold name_bytes. cbn. by rewrite <- (assoc_L (++)). Qed.

Lemma name_bytes_length labels : (length labels < length (name_bytes labels))%nat.
Proof.
  induction labels as [|l labels IH]; [cbn; lia|]. rewrite name_bytes_cons. cbn [app length].
  rewrite length_app. lia.
Qed.

Lemma u8_byte v : byte_ok (u8 v).
Proof. apply Z.mod_pos_bound. lia. Qed.

Lemma be16_bytes v : 0 <= v < 65536 → 256 * u8 (Z.shiftr v 8) + u8 v = v.
Proof.
  intros Hv. unfold u8. rewrite Z.shiftr_div_pow2 by lia. change (2 ^ 8) with 256.
  pose proof (Z.div_mod v 256 ltac:(lia)). rewrite (Z.mod_small (v / 256)); [lia|].
  split; [apply Z.div_pos; lia|apply Z.div_lt_upper_bound; lia].
Qed.

Lemma bytes_be16 hi lo : byte_ok hi → byte_ok lo → be16 (256 * hi + lo) = [hi; lo].
Proof.
  unfold byte_ok, be16, u8. intros Hhi Hlo. rewrite Z.shiftr_div_pow2 by lia.
  change (2 ^ 8) with 256.
  replace ((256 * hi + lo) / 256) with hi by (apply (Z.div_unique _ _ _ lo); lia).
  replace ((256 * hi + lo) mod 256) with lo by (apply (Z.mod_unique _ _ hi); lia).
  by rewrite Z.mod_small by lia.
Qed.

(** Reading two bytes of a packet given by its parts. *)
Lemma read_bytes {B} pkt pre hi lo post n (k : Z → result B) :
  pkt = pre ++ hi :: lo :: post → n = len pre → byte_ok hi → byte_ok lo →
  (s ← slice_from pkt n; x ← Uint16 s; k x) = k (256 * hi + lo).
Proof.
  intros -> -> Hhi Hlo. rewrite slice_from_app by done. cbn [mbind result_bind].
  by rewrite Uint16_bytes.
Qed.

Lemma read_field {B} pkt pre v post n (k : Z → result B) :
  pkt = pre ++ be16 v ++ post → n = len pre → 0 <= v < 65536 →
  (s ← slice_from pkt n; x ← Uint16 s; k x) = k v.
Proof.
  intros -> -> Hv. rewrite (read_bytes _ pre (u8 (Z.shiftr v 8)) (u8 v) post) by
    (done || apply u8_byte). by rewrite be16_bytes.
Qed.

(** Overwriting two bytes of a packet given by its parts. *)
Lemma PutUint16_app pkt pre a b post i v :
  pkt = pre ++ a :: b :: post → i = len pre → PutUint16 pkt i v = Ok (pre ++ be16 v ++ post).
Proof.
  intros -> ->. unfold PutUint16. rewrite slice_from_app by done. cbn [mbind result_bind].
  rewrite (slice_get_ok _ 1 b) by done. cbn [mbind result_bind].
  rewrite slice_set_app by done. cbn [mbind result_bind].
  rewrite (cons_middle _ pre), (assoc_L (++)), slice_set_app by (rewrite len_app; done).
  by rewrite <- (assoc_L (++)).
Qed.

(** ** Parsing the question *)

Lemma not_pointer l : 0 <= l < 192 → (Z.land l 192 =? 192) = false.
Proof.
  intros Hl. apply Z.eqb_neq. rewrite <- (Z2N.id l) by lia.
  change 192 with (Z.of_N 192). rewrite <- N2Z.inj_land.
  pose proof (N.land_le_l (Z.to_N l) 192). lia.
Qed.

Lemma pointer_byte l : 192 <= l < 256 → (Z.land l 192 =? 192) = true.
Proof.
  intros Hl. replace l with (192 + Z.of_nat (Z.to_nat (l - 192))) by lia.
  assert (Z.to_nat (l - 192) < 64)%nat as Hn by lia. revert Hn.
  generalize (Z.to_nat (l - 192)). intros n Hn.
  do 64 (destruct n as [|n]; [reflexivity|]). lia.
Qed.

(** The loop over the labels reads back a rendered name. *)
Lemma labelsLoop_name labels : ∀ fuel pre post acc,
  Forall label_ok labels → (length labels < fuel)%nat →
  labelsLoop fuel (pre ++ name_bytes labels ++ post) (len pre) acc =
  ret (acc ++ labels, len pre + len (name_bytes labels)).
Proof.
  induction labels as [|l labels IH]; intros fuel pre post acc Hok Hfuel;
    (destruct fuel as [|fuel]; [cbn in Hfuel; lia|]); cbn [labelsLoop];
    pose proof (len_nonneg pre); pose proof (len_nonneg post).
  - replace (len (pre ++ name_bytes [] ++ post) <=? len pre) with false
      by (rewrite len_app; cbn; rewrite len_cons; lia).
    change (name_bytes [] ++ post) with (0 :: post).
    rewrite slice_get_app by done. cbn. by rewrite (right_id_L [] (++)).
  - apply Forall_cons in Hok as [Hl Hok]. unfold label_ok in Hl.
    rewrite name_bytes_cons, <- (assoc_L (++)). cbn [app].
    pose proof (len_nonneg (name_bytes labels ++ post)).
    rewrite !len_app, len_cons, len_app.
    replace (len pre + (len l + len (name_bytes labels ++ post) + 1) <=? len pre) with false by lia.
    rewrite slice_get_app by done. cbn [mbind result_bind].
    replace (len l =? 0) with false by lia. rewrite not_pointer by lia.
    replace (_ <? _) with false by lia.
    rewrite (cons_middle _ pre), (assoc_L (++)).
    rewrite slice_app by (rewrite len_app; unfold len; cbn; lia). cbn [mbind result_bind].
    specialize (IH fuel ((pre ++ [len l]) ++ l) post (acc ++ [l]) Hok ltac:(cbn in Hfuel; lia)).
    rewrite <- (assoc_L (++) (pre ++ [len l])) in IH.
    rewrite !len_app in IH. change (len [len l]) with 1 in IH.
    rewrite IH, <- (assoc_L (++)). unfold ret. cbn [app]. do 3 f_equal.
    change (len l :: l ++ name_bytes labels) with ([len l] ++ l ++ name_bytes labels).
    rewrite !len_app. change (len [len l]) with 1. lia.
Qed.

Lemma question_packet_split id flags an rest labels qtype qclass tail :
  question_packet id flags an rest labels qtype qclass tail =
  (be16 id ++ be16 flags ++ be16 1 ++ be16 an ++ rest) ++
  name_bytes labels ++ be16 qtype ++ be16 qclass ++ tail.
Proof. unfold question_packet. by rewrite <- !(assoc_L (++)). Qed.

Lemma question_packet_len id flags an rest labels qtype qclass tail :
  len (question_packet id flags an rest labels qtype qclass tail) =
  8 + len rest + len (name_bytes labels) + 4 + len tail.
Proof. unfold question_packet. rewrite !len_app. unfold be16, len. cbn. lia. Qed.

Definition u16_ok (v : Z) : Prop := 0 <= v < 65536.

Lemma parseQueryWithEnd_packet id flags an rest labels qtype qclass tail :
  u16_ok id → u16_ok flags → u16_ok an → u16_ok qtype →
  len rest = 4 → Forall label_ok labels →
  parseQueryWithEnd (question_packet id flags an rest labels qtype qclass tail) =
  ret (mkHeader id flags 1 an 0 0, join labels, qtype, 12 + len (name_bytes labels) + 4).
Proof.
  intros Hid Hfl Han Hqt Hrest Hok. unfold parseQueryWithEnd.
  pose proof (len_nonneg (name_bytes labels)). pose proof (len_nonneg tail).
  rewrite question_packet_len, Hrest. replace (_ <? 12) with false by lia.
  rewrite (read_field _ [] id (be16 flags ++ be16 1 ++ be16 an ++ rest ++ name_bytes labels ++
    be16 qtype ++ be16 qclass ++ tail)) by done.
  rewrite (read_field _ (be16 id) flags (be16 1 ++ be16 an ++ rest ++ name_bytes labels ++
    be16 qtype ++ be16 qclass ++ tail)) by done.
  rewrite (read_field _ (be16 id ++ be16 flags) 1 (be16 an ++ rest ++ name_bytes labels ++
    be16 qtype ++ be16 qclass ++ tail)) by done.
  rewrite (read_field _ (be16 id ++ be16 flags ++ be16 1) an (rest ++ name_bytes labels ++
    be16 qtype ++ be16 qclass ++ tail)) by done.
  cbn [negb Z.eqb Pos.eqb]. rewrite question_packet_split.
  replace 12 with (len (be16 id ++ be16 flags ++ be16 1 ++ be16 an ++ rest)) at 1
    by (rewrite !len_app, Hrest; done).
  pose proof (name_bytes_length labels).
  rewrite labelsLoop_name by (done || (rewrite !length_app; lia)). cbn [try_bind ret app].
  replace (len (be16 id ++ be16 flags ++ be16 1 ++ be16 an ++ rest)) with 12
    by (rewrite !len_app, Hrest; done).
  replace (_ <? _) with false by lia.
  rewrite (read_field _ ((be16 id ++ be16 flags ++ be16 1 ++ be16 an ++ rest) ++ name_bytes labels)
    qtype (be16 qclass ++ tail));
    [done|by rewrite <- !(assoc_L (++))|rewrite !len_app, Hrest; unfold be16, len; cbn; lia|done].
Qed.

(** Conversely, what the loop accepts is a rendered name. *)
Lemma labelsLoop_inv fuel : ∀ pkt off acc labels off',
  packet pkt → 0 <= off →
  labelsLoop fuel pkt off acc = ret (labels, off') →
  ∃ new post, labels = acc ++ new ∧ Forall label_ok new ∧
    drop (Z.to_nat off) pkt = name_bytes new ++ post ∧ off' = off + len (name_bytes new).
Proof.
  induction fuel as [|fuel IH]; intros pkt off acc labels off' Hp Hoff; cbn [labelsLoop]; [done|].
  destruct (Z.leb_spec (len pkt) off); [done|].
  destruct (slice_get_returns pkt off ltac:(lia)) as (l & -> & Hl). cbn [mbind result_bind].
  pose proof (packet_get _ _ _ Hp Hl) as Hb. unfold byte_ok in Hb.
  apply drop_S in Hl as Hdrop.
  destruct (Z.eqb_spec l 0) as [->|Hne].
  { injection 1 as <- <-. exists [], (drop (S (Z.to_nat off)) pkt).
    rewrite (right_id_L [] (++)). by rewrite Hdrop. }
  destruct (Z.land l 192 =? 192) eqn:Hptr; [done|].
  destruct (Z.ltb_spec (len pkt) (off + 1 + l)); [done|].
  unfold slice. replace (_ && _) with true by lia. cbn [mbind result_bind].
  intros Hrun. apply IH in Hrun as (new & post & -> & Hnew & Hd & ->); [|done|lia].
  replace (off + 1 + l - (off + 1)) with l in * by lia.
  set (s := take (Z.to_nat l) (drop (Z.to_nat (off + 1)) pkt)) in *.
  assert (len s = l) as Hs.
  { unfold s, len in *. rewrite length_take, length_drop. lia. }
  exists (s :: new), post. rewrite name_bytes_cons, Hs. split_and!.
  - by rewrite <- (assoc_L (++)).
  - constructor; [|done]. unfold label_ok. rewrite Hs. split; [lia|].
    destruct (Z.ltb_spec l 192); [done|].
    by rewrite pointer_byte in Hptr by lia.
  - rewrite Hdrop. cbn. f_equal. rewrite <- (assoc_L (++)), <- Hd.
    rewrite <- (take_drop (Z.to_nat l) (drop (S _) pkt)). unfold s.
    rewrite drop_drop. do 2 f_equal; [f_equal|]; lia.
  - rewrite len_app, len_cons. lia.
Qed.

(** Every packet the parser accepts is a rendered question. *)
Lemma parseQueryWithEnd_inv pkt h name qtype e :
  packet pkt → parseQueryWithEnd pkt = ret (h, name, qtype, e) →
  ∃ an rest labels qclass tail,
    pkt = question_packet (ID h) (Flags h) an rest labels qtype qclass tail ∧
    u16_ok (ID h) ∧ u16_ok (Flags h) ∧ u16_ok an ∧ u16_ok qtype ∧ u16_ok qclass ∧
    len rest = 4 ∧ Forall label_ok labels ∧
    h = mkHeader (ID h) (Flags h) 1 an 0 0 ∧ name = join labels ∧ e = 12 + len (name_bytes labels) + 4.
Proof.
  intros Hp. unfold parseQueryWithEnd.
  destruct (Z.ltb_spec (len pkt) 12) as [|Hlen]; [done|].
  do 12 (destruct pkt as [|? pkt]; [by unfold len in Hlen; cbn in Hlen; lia|]).
  set (q := pkt) in *.
  pose proof Hp as Hb. do 12 (apply Forall_cons in Hb as [? Hb]).
  erewrite (read_bytes _ [] z z0) by done.
  erewrite (read_bytes _ [z; z0] z1 z2) by done.
  erewrite (read_bytes _ [z; z0; z1; z2] z3 z4) by done.
  erewrite (read_bytes _ [z; z0; z1; z2; z3; z4] z5 z6) by done.
  destruct (Z.eqb_spec (256 * z3 + z4) 1) as [Hqd|]; [|done]. cbn [negb].
  match goal with |- context [labelsLoop ?f ?p 12 []] =>
    destruct (labelsLoop f p 12 []) as [[?|[labels off]]| |] eqn:Hloop end; try done.
  apply labelsLoop_inv in Hloop as (new & post & -> & Hnew & Hd & ->); [|done|done].
  change (drop _ _) with q in Hd. cbn [try_bind app].
  pose proof (len_nonneg (name_bytes new)).
  destruct (Z.ltb_spec (len (z :: z0 :: z1 :: z2 :: z3 :: z4 :: z5 :: z6 :: z7 :: z8 :: z9 :: z10 :: q))
    (12 + len (name_bytes new) + 4)) as [|Hlen2]; [done|].
  change (z :: z0 :: z1 :: z2 :: z3 :: z4 :: z5 :: z6 :: z7 :: z8 :: z9 :: z10 :: q) with
    ([z; z0; z1; z2; z3; z4; z5; z6; z7; z8; z9; z10] ++ q) in *.
  rewrite Hd in *. rewrite !len_app in Hlen2. unfold len in Hlen2 at 1. cbn [length] in Hlen2.
  do 4 (destruct post as [|? post]; [by unfold len in Hlen2; cbn in Hlen2; lia|]).
  apply packet_app in Hb as [_ Hb]. do 4 (apply Forall_cons in Hb as [? Hb]).
  erewrite (read_bytes _ ([z; z0; z1; z2; z3; z4; z5; z6; z7; z8; z9; z10] ++ name_bytes new) z11 z12)
    by (done || by rewrite ?len_app, <- ?(assoc_L (++))).
  injection 1 as <- <- <- <-. unfold byte_ok in *.
  exists (256 * z5 + z6), [z7; z8; z9; z10], new, (256 * z13 + z14), post. cbn [ID Flags].
  split_and!; try done; try (unfold u16_ok; lia); [|by rewrite Hqd].
  unfold question_packet. rewrite <- Hqd, !bytes_be16 by done.
  done.
Qed.

(** ** Rendering the answer *)

(** The type and data of the record written for an address. *)
Definition rtype (ip : list Z) : Z := if To4 ip is Some _ then qtypeA else qtypeAAAA.
Definition rdata (ip : list Z) : list Z :=
  match To4 ip with Some v4 => v4 | None => default [] (To16 ip) end.
Definition rr_bytes (ttl : Z) (ip : list Z) : list Z :=
  [192; 12] ++ be16 (rtype ip) ++ be16 1 ++ be32 ttl ++ be16 (u16 (len (rdata ip))) ++ rdata ip.

Definition matching (qtype : Z) (ips : list (list Z)) : list (list Z) :=
  filter (λ ip, matches qtype ip = true) ips.

Definition response_flags (flags n : Z) : Z :=
  let flags := Z.lor (Z.lor (Z.lor flagQR flagRA) (Z.land flags flagRD)) (Z.land flags 30720) in
  if n =? 0 then Z.lor flags 3 else flags.

Lemma record_eq ip ttl : record ip ttl = Ok (rr_bytes ttl ip).
Proof. unfold record, rr_bytes, rtype, rdata. by destruct (To4 ip). Qed.

Lemma records_eq ips ttl resp :
  foldM (λ resp ip, rr ← record ip ttl; Ok (resp ++ rr)) ips resp =
  Ok (resp ++ concat (map (rr_bytes ttl) ips)).
Proof.
  revert resp. induction ips as [|ip ips IH]; intros resp; cbn [foldM map concat].
  - by rewrite (right_id_L [] (++)).
  - rewrite record_eq. cbn [mbind result_bind]. by rewrite IH, <- (assoc_L (++)).
Qed.

(** The response is the question with a new header, followed by the records. *)
Lemma buildResponse_packet id flags an rest labels qtype qclass tail ips ttl :
  u16_ok id → u16_ok flags → u16_ok an → u16_ok qtype →
  len rest = 4 → Forall label_ok labels →
  let kept := matching qtype ips in
  buildResponse (question_packet id flags an rest labels qtype qclass tail) ips ttl =
  ret (question_packet id (response_flags flags (len kept)) (u16 (len kept)) [0; 0; 0; 0]
         labels qtype qclass (concat (map (rr_bytes ttl) kept))).
Proof.
  intros Hid Hfl Han Hqt Hrest Hok kept. unfold buildResponse.
  rewrite parseQueryWithEnd_packet by done. cbn [try_bind ret Flags].
  fold (matching qtype ips). fold kept.
  do 4 (destruct rest as [|? rest]; [by unfold len in Hrest; cbn in Hrest; lia|]).
  assert (rest = []) as -> by (apply len_nil_inv; rewrite !len_cons in Hrest; lia).
  set (question := name_bytes labels ++ be16 qtype ++ be16 qclass).
  assert (question_packet id flags an [z; z0; z1; z2] labels qtype qclass tail =
    (be16 id ++ be16 flags ++ be16 1 ++ be16 an ++ [z; z0; z1; z2]) ++ question ++ tail) as ->.
  { rewrite question_packet_split. unfold question. by rewrite <- !(assoc_L (++)). }
  erewrite (slice_parts _ [] _ (question ++ tail) 0 12) by done. cbn [mbind result_bind be16 app].
  erewrite (PutUint16_app _ [_; _]) by done. cbn [mbind result_bind].
  match goal with |- context [slice ?l 12 _] => change l with
    ((be16 id ++ be16 flags ++ be16 1 ++ be16 an ++ [z; z0; z1; z2]) ++ question ++ tail) end.
  rewrite slice_app;
    [|done|unfold question; rewrite !len_app; unfold len; cbn; lia].
  cbn [mbind result_bind be16 app].
  erewrite (PutUint16_app _ [_; _; _; _; _; _; _; _]) by done. cbn [mbind result_bind be16 app].
  erewrite (PutUint16_app _ [_; _; _; _; _; _; _; _; _; _]) by done. cbn [mbind result_bind be16 app].
  unfold response_flags. destruct (Z.eqb_spec (len kept) 0) as [Hk|Hk].
  - apply len_nil_inv in Hk as ->.
    erewrite (PutUint16_app _ [_; _; _; _; _; _]) by done. cbn.
    unfold question_packet, question. by rewrite <- ?(assoc_L (++)).
  - erewrite (PutUint16_app _ [_; _; _; _; _; _]) by done. cbn [mbind result_bind be16 app].
    rewrite records_eq. cbn [mbind result_bind be16 app].
    unfold question_packet, question. by rewrite <- ?(assoc_L (++)).
Qed.

(** ** Reading the answers *)

Lemma skipQuestion_name labels : ∀ fuel pre post,
  Forall label_ok labels → (length labels < fuel)%nat →
  skipQuestion fuel (pre ++ name_bytes labels ++ post) (len pre) =
  ret (len pre + len (name_bytes labels)).
Proof.
  induction labels as [|l labels IH]; intros fuel pre post Hok Hfuel;
    (destruct fuel as [|fuel]; [cbn in Hfuel; lia|]); cbn [skipQuestion];
    pose proof (len_nonneg pre); pose proof (len_nonneg post).
  - replace (len (pre ++ name_bytes [] ++ post) <=? len pre) with false
      by (rewrite len_app; cbn; rewrite len_cons; lia).
    change (name_bytes [] ++ post) with (0 :: post). by rewrite slice_get_app by done.
  - apply Forall_cons in Hok as [Hl Hok]. unfold label_ok in Hl.
    rewrite name_bytes_cons, <- (assoc_L (++)). cbn [app].
    pose proof (len_nonneg (name_bytes labels ++ post)).
    rewrite !len_app, len_cons, len_app.
    replace (_ <=? len pre) with false by lia.
    rewrite slice_get_app by done. cbn [mbind result_bind].
    replace (len l =? 0) with false by lia. rewrite not_pointer by lia.
    rewrite (cons_middle _ pre), (assoc_L (++)).
    specialize (IH fuel ((pre ++ [len l]) ++ l) post Hok ltac:(cbn in Hfuel; lia)).
    rewrite <- (assoc_L (++) (pre ++ [len l])) in IH.
    rewrite !len_app in IH. change (len [len l]) with 1 in IH. rewrite IH.
    unfold ret. do 2 f_equal. change (len l :: l ++ name_bytes labels) with ([len l] ++ l ++ name_bytes labels).
    rewrite !len_app. change (len [len l]) with 1. lia.
Qed.

(** The data of a kept address has the size its record type calls for. *)
Definition addr_ok (ip : list Z) : Prop :=
  rtype ip = qtypeA ∧ len (rdata ip) = 4 ∨ rtype ip = qtypeAAAA ∧ len (rdata ip) = 16.

Lemma matches_addr_ok qtype ip : matches qtype ip = true → addr_ok ip.
Proof.
  unfold matches, addr_ok, rtype, rdata. destruct (To4 ip) as [v4|] eqn:H4.
  - intros _. left. split; [done|]. by eapply To4_len.
  - rewrite bool_decide_eq_false_2, andb_false_r by naive_solver. cbn [orb].
    unfold To16. unfold To4 in H4. destruct (Z.eqb_spec (len ip) 4); [done|].
    destruct (Z.eqb_spec (len ip) 16); [right; by split|].
    rewrite (bool_decide_eq_false_2 (None ≠ None)), andb_false_r by naive_solver. done.
Qed.

Lemma matching_addr_ok qtype ips : Forall addr_ok (matching qtype ips).
Proof.
  apply Forall_forall. intros ip Hip. apply list_elem_of_filter in Hip as [Hm _].
  by eapply matches_addr_ok.
Qed.

Lemma answersLoop_records ttl ips : ∀ pre acc,
  Forall addr_ok ips →
  answersLoop (length ips) (pre ++ concat (map (rr_bytes ttl) ips)) (len pre) acc =
  Ok (acc ++ map rdata ips).
Proof.
  induction ips as [|ip ips IH]; intros pre acc Hok; cbn [answersLoop length map concat].
  { by rewrite (right_id_L [] (++)). }
  apply Forall_cons in Hok as [Hip Hok].
  set (post := concat (map (rr_bytes ttl) ips)) in *.
  pose proof (len_nonneg pre). pose proof (len_nonneg post).
  assert (len (rdata ip) = 4 ∨ len (rdata ip) = 16) as Hd by (unfold addr_ok in Hip; tauto).
  assert (len (rr_bytes ttl ip) = 12 + len (rdata ip)) as Hrr.
  { unfold rr_bytes. rewrite !len_app. unfold len. cbn. lia. }
  rewrite !len_app, Hrr. replace (_ <=? _) with true at 1 by lia. cbn [negb].
  replace (_ <=? len pre) with false by lia.
  erewrite (slice_get_parts _ pre 192) by done. cbn [mbind result_bind].
  change (Z.land 192 192 =? 192) with true. cbn iota. cbn [mbind result_bind].
  replace (_ <? _) with false by lia.
  erewrite (read_field _ (pre ++ [192; 12]) (rtype ip));
    [|by unfold rr_bytes; rewrite <- !(assoc_L (++))|by rewrite len_app
     |unfold rtype; by destruct (To4 ip)].
  erewrite (read_field _ (pre ++ [192; 12] ++ be16 (rtype ip) ++ be16 1 ++ be32 ttl)
    (u16 (len (rdata ip))));
    [|by unfold rr_bytes; rewrite <- !(assoc_L (++))|rewrite !len_app; unfold len; cbn; lia
     |apply Z.mod_pos_bound; lia].
  replace (u16 (len (rdata ip))) with (len (rdata ip)) by (destruct Hd as [-> | ->]; done).
  replace (_ <? _) with false by lia.
  assert (∀ j, j = len pre + 2 + 10 + len (rdata ip) →
    slice (pre ++ rr_bytes ttl ip ++ post) (len pre + 2 + 10) j = Ok (rdata ip)) as Hslice.
  { intros j ->. erewrite (slice_parts _ (pre ++ [192; 12] ++ be16 (rtype ip) ++ be16 1 ++ be32 ttl ++
      be16 (u16 (len (rdata ip))))); [done|by unfold rr_bytes; rewrite <- !(assoc_L (++))| |];
      rewrite !len_app; unfold len; cbn; lia. }
  specialize (IH (pre ++ rr_bytes ttl ip) (acc ++ [rdata ip]) Hok).
  rewrite <- !(assoc_L (++)), len_app, Hrr in IH. cbn [app] in IH. rewrite <- IH.
  replace (len pre + (12 + len (rdata ip))) with (len pre + 2 + 10 + len (rdata ip)) by lia.
  destruct Hip as [[Ht Hl]|[Ht Hl]]; rewrite Ht, Hl in *; cbn -[slice answersLoop];
    by rewrite Hslice.
Qed.

Lemma skipLabels_labels owner : ∀ fuel pre post,
  Forall label_ok owner →
  let labels := concat (map (λ l, len l :: l) owner) in
  skipLabels (length owner + fuel) (pre ++ labels ++ post) (len pre) =
  skipLabels fuel (pre ++ labels ++ post) (len pre + len labels).
Proof.
  induction owner as [|l owner IH]; intros fuel pre post Hok labels.
  { cbn. by rewrite Z.add_0_r. }
  apply Forall_cons in Hok as [Hl Hok]. unfold label_ok in Hl.
  specialize (IH fuel (pre ++ len l :: l) post Hok). cbn zeta in IH.
  rewrite <- !(assoc_L (++)) in IH. cbn [app] in IH.
  unfold labels. cbn [map concat length Nat.add skipLabels].
  rewrite len_app, len_cons in IH. rewrite !len_app, len_cons.
  pose proof (len_nonneg (concat (map (λ l, len l :: l) owner))).
  pose proof (len_nonneg post). pose proof (len_nonneg pre).
  rewrite <- !(assoc_L (++)). cbn [app].
  replace (len pre <? _) with true by lia.
  erewrite (slice_get_parts _ pre (len l)) by done. cbn [mbind result_bind].
  replace (len l =? 0) with false by lia. rewrite IH. f_equal. lia.
Qed.

(** A partially compressed owner name at [off] ends the loop over the answers. *)
Lemma answersLoop_lost n pre owner ptr tail acc :
  Forall label_ok owner → owner ≠ [] → 192 <= ptr < 256 → len tail <= 192 →
  answersLoop n (pre ++ concat (map (λ l, len l :: l) owner) ++ ptr :: tail) (len pre) acc = Ok acc.
Proof.
  intros Hown Hne Hptr Htail. destruct n as [|n]; [done|]. cbn [answersLoop].
  set (labels := concat (map (λ l, len l :: l) owner)).
  set (pkt := pre ++ labels ++ ptr :: tail).
  destruct (Z.leb_spec (len pre + 10) (len pkt)); [|done]. cbn [negb].
  destruct (Z.leb_spec (len pkt) (len pre)); [done|].
  assert (∃ l rest, pkt = pre ++ len l :: rest ∧ label_ok l) as (l & rest & Hl & Hlok).
  { unfold pkt, labels. destruct owner as [|l owner]; [done|]. apply Forall_cons in Hown as [? _].
    exists l. eexists. split; [|done]. cbn [map concat]. by rewrite <- !(assoc_L (++)). }
  rewrite (slice_get_parts _ _ _ _ _ Hl) by done. cbn [mbind result_bind].
  unfold label_ok in Hlok. rewrite not_pointer by lia.
  assert (length owner < length pkt)%nat as Hfuel.
  { pose proof (name_bytes_length owner) as Hn. unfold name_bytes in Hn. fold labels in Hn.
    unfold pkt. rewrite !length_app in *. cbn in *. lia. }
  replace (length pkt) with (length owner + S (length pkt - length owner - 1))%nat by lia.
  pose proof (skipLabels_labels owner (S (length pkt - length owner - 1)) pre (ptr :: tail) Hown) as Hs.
  cbn zeta in Hs. fold labels in Hs. fold pkt in Hs. rewrite Hs.
  assert (len pkt = len pre + len labels + 1 + len tail) as Hlen.
  { unfold pkt. rewrite !len_app, len_cons. lia. }
  cbn [skipLabels]. pose proof (len_nonneg tail). replace (_ <? _) with true by lia.
  erewrite (slice_get_parts _ (pre ++ labels) ptr);
    [|unfold pkt; by rewrite <- (assoc_L (++))|by rewrite len_app].
  cbn [mbind result_bind]. replace (ptr =? 0) with false by lia.
  assert (∀ fuel off, len pkt <= off → skipLabels fuel pkt off = Ok off) as Hout.
  { intros fuel off Hoff. destruct fuel; cbn [skipLabels]; by replace (off <? len pkt) with false by lia. }
  rewrite Hout by lia. cbn [mbind result_bind]. by replace (_ <? _) with true by lia.
Qed.

(** Reading the answers of a packet that holds a question and records. *)
Lemma parseAnswers_packet id flags rest labels qtype qclass ttl ips :
  len rest = 4 → Forall label_ok labels → Forall addr_ok ips → len ips < 65536 →
  parseAnswers (question_packet id flags (u16 (len ips)) rest labels qtype qclass
    (concat (map (rr_bytes ttl) ips))) =
  if len ips =? 0 then fail "no answers" else ret (map rdata ips).
Proof.
  intros Hrest Hok Hips Hlen. unfold parseAnswers. pose proof (len_nonneg ips).
  pose proof (len_nonneg (name_bytes labels)).
  pose proof (len_nonneg (concat (map (rr_bytes ttl) ips))).
  assert (u16 (len ips) = len ips) as -> by (unfold u16; rewrite Z.mod_small; lia).
  rewrite question_packet_len, Hrest. replace (_ <? 12) with false by lia.
  erewrite (read_field _ (be16 id ++ be16 flags ++ be16 1) (len ips)) by done.
  rewrite question_packet_split. pose proof (name_bytes_length labels).
  set (header := be16 id ++ be16 flags ++ be16 1 ++ be16 (len ips) ++ rest).
  assert (len header = 12) as Hh by (unfold header; rewrite !len_app, Hrest; done).
  rewrite <- Hh at 1. rewrite skipQuestion_name by (done || (rewrite !length_app; lia)).
  cbn [try_bind ret].
  pose proof (answersLoop_records ttl ips (header ++ name_bytes labels ++ be16 qtype ++ be16 qclass) [] Hips)
    as Hloop.
  rewrite <- !(assoc_L (++)) in Hloop.
  replace (Z.to_nat (len ips)) with (length ips) by (unfold len; lia).
  replace (len header + len (name_bytes labels) + 4) with
    (len (header ++ name_bytes labels ++ be16 qtype ++ be16 qclass))
    by (rewrite !len_app; unfold be16, len; cbn; lia).
  rewrite Hloop. cbn [mbind result_bind app].
  replace (len (map rdata ips)) with (len ips) by (unfold len; by rewrite length_map). done.
Qed.

(** ** The flags of a response *)

Lemma response_flags_u16 flags n : u16_ok (response_flags flags n).
Proof.
  assert (∀ m l, 0 <= m < 2 ^ 16 → 16 <= l → Z.testbit m l = false) as Hbit.
  { intros m l Hm. revert l. apply Z.bounded_iff_bits_nonneg; lia. }
  assert (0 <= response_flags flags n) as Hpos.
  { unfold response_flags. case_match; rewrite ?Z.lor_nonneg, ?Z.land_nonneg;
      unfold flagQR, flagRA, flagRD; lia. }
  split; [done|]. change 65536 with (2 ^ 16). apply Z.bounded_iff_bits_nonneg; [lia|done|].
  intros l Hl. unfold response_flags.
  case_match; rewrite ?Z.lor_spec, ?Z.land_spec; rewrite ?(Hbit flagQR), ?(Hbit flagRA),
    ?(Hbit flagRD), ?(Hbit 30720), ?(Hbit 3) by (done || unfold flagQR, flagRA, flagRD; lia);
    by rewrite !andb_false_r.
Qed.

(** Bit [i] of the response is a constant or the query's. *)
Lemma response_flags_bit flags n i :
  Z.testbit (response_flags flags n) i =
  Z.testbit flagQR i || Z.testbit flagRA i || (Z.testbit flags i && Z.testbit flagRD i)
  || (Z.testbit flags i && Z.testbit 30720 i) || ((n =? 0) && Z.testbit 3 i).
Proof.
  unfold response_flags. case_match; rewrite !Z.lor_spec, !Z.land_spec; cbn [andb]; [done|].
  by rewrite orb_false_r.
Qed.

Lemma response_flags_copied flags n i :
  i = 8 ∨ 11 <= i <= 14 → Z.testbit (response_flags flags n) i = Z.testbit flags i.
Proof.
  intros Hi. rewrite response_flags_bit.
  assert (i = 8 ∨ i = 11 ∨ i = 12 ∨ i = 13 ∨ i = 14) as H by lia.
  destruct H as [->|[->|[->|[->| ->]]]]; destruct (Z.testbit flags _); by destruct (n =? 0).
Qed.

(** ** Properties of the codec *)

Lemma buildResponse_returns query ips ttl :
  packet query → returns (buildResponse query ips ttl) (λ _, True).
Proof.
  intros Hq. destruct (parseQueryWithEnd_returns query Hq) as ([e|[[[h name] qtype] e]] & Hrun & _).
  - unfold buildResponse. rewrite Hrun. by apply returns_ok.
  - apply parseQueryWithEnd_inv in Hrun as (an & rest & labels & qclass & tail & -> & ? & ? & ? & ? &
      ? & ? & ? & _); [|done].
    rewrite buildResponse_packet by done. by apply returns_ok.
Qed.

(** C11. Whatever bytes arrive, from the client or from the resolver, the codec
    neither panics nor loops: parsing a query gives an error or a question that
    ends inside the packet, rendering an answer always returns, and reading a
    response gives an error or a non-empty list of 4- and 16-byte addresses. *)
Theorem codec_is_total query ips ttl response :
  packet query → packet response →
  returns (parseQueryWithEnd query) (ok_with (λ '(_, _, qtype, e),
    16 < e <= len query ∧ 0 <= qtype < 65536)) ∧
  returns (buildResponse query ips ttl) (λ _, True) ∧
  returns (parseAnswers response) (ok_with (λ addrs,
    addrs ≠ [] ∧ Forall (λ ip, len ip = 4 ∨ len ip = 16) addrs)).
Proof.
  intros Hq Hr. split_and!; [|by apply buildResponse_returns|by apply parseAnswers_returns].
  apply (returns_mono _ _ _ (parseQueryWithEnd_returns query Hq)).
  intros [e|[[[h name] qtype] e]]; cbn; [done|lia].
Qed.

(** The query parser accepts exactly the packets made of a header that
    announces one question, a name of 1- to 191-byte labels, a type and a class,
    whatever follows; it returns the header's fields, the dotted name, the type,
    and the offset of the first byte after the question. *)
Theorem parser_accepts_rendered_questions pkt h name qtype e :
  packet pkt →
  parseQueryWithEnd pkt = ret (h, name, qtype, e) ↔
  ∃ id flags an rest labels qclass tail,
    pkt = question_packet id flags an rest labels qtype qclass tail ∧
    u16_ok id ∧ u16_ok flags ∧ u16_ok an ∧ u16_ok qtype ∧ u16_ok qclass ∧
    len rest = 4 ∧ Forall label_ok labels ∧
    h = mkHeader id flags 1 an 0 0 ∧ name = join labels ∧
    e = len pkt - len tail.
Proof.
  intros Hp. split.
  - intros Hrun. apply parseQueryWithEnd_inv in Hrun as (an & rest & labels & qclass & tail & Hpkt &
      ? & ? & ? & ? & ? & Hrest & ? & Hh & Hn & ->); [|done].
    exists (ID h), (Flags h), an, rest, labels, qclass, tail. split_and!; try done.
    rewrite Hpkt, question_packet_len, Hrest. lia.
  - intros (id & flags & an & rest & labels & qclass & tail & -> & ? & ? & ? & ? & ? & Hrest & ? &
      -> & -> & ->).
    rewrite parseQueryWithEnd_packet, question_packet_len, Hrest by done.
    do 3 f_equal. lia.
Qed.

(** What is sent back for a query the parser accepts. *)
Lemma query_answered query ips ttl h name qtype e :
  packet query → parseQueryWithEnd query = ret (h, name, qtype, e) →
  len (matching qtype ips) < 65536 →
  ∃ resp h',
    buildResponse query ips ttl = ret resp ∧
    parseAnswers resp =
      (if len (matching qtype ips) =? 0 then fail "no answers" else ret (map rdata (matching qtype ips))) ∧
    parseQueryWithEnd resp = ret (h', name, qtype, e) ∧
    ID h' = ID h ∧ ANCount h' = len (matching qtype ips) ∧
    Z.testbit (Flags h') 15 = true ∧
    (∀ i, i = 8 ∨ 11 <= i <= 14 → Z.testbit (Flags h') i = Z.testbit (Flags h) i) ∧
    (Z.testbit (Flags h') 0 = true ↔ matching qtype ips = []).
Proof.
  intros Hq Hrun Hlen. pose proof (len_nonneg (matching qtype ips)).
  apply parseQueryWithEnd_inv in Hrun as (an & rest & labels & qclass & tail & -> & ? & ? & ? & ? &
    ? & ? & ? & Hh & -> & ->); [|done].
  rewrite buildResponse_packet by done. do 2 eexists. split_and!; [done|..].
  - apply parseAnswers_packet; [done|done|apply matching_addr_ok|done].
  - apply parseQueryWithEnd_packet; try done; [apply response_flags_u16|apply Z.mod_pos_bound; lia].
  - done.
  - cbn. unfold u16. rewrite Z.mod_small; lia.
  - cbn [Flags]. by rewrite response_flags_bit.
  - cbn [Flags]. apply response_flags_copied.
  - cbn [Flags]. rewrite response_flags_bit.
    replace (Z.testbit flagRD 0) with false by done. replace (Z.testbit 30720 0) with false by done.
    rewrite !andb_false_r. cbn. rewrite andb_true_r, Z.eqb_eq. split; [apply len_nil_inv|by intros ->].
Qed.

(** Answering a query and reading the answer back gives the addresses: for
    every query the parser accepts, [parseAnswers] on what [buildResponse]
    renders returns, in order, the addresses of the asked family (or the
    "no answers" error if there is none).  The response carries the same
    question and identifier, is flagged as a response, keeps the opcode and
    recursion-desired bits, and says NXDOMAIN exactly when it carries no address. *)
Theorem response_roundtrip query ips ttl h name qtype e :
  packet query → parseQueryWithEnd query = ret (h, name, qtype, e) →
  len (matching qtype ips) < 65536 →
  ∃ resp h',
    buildResponse query ips ttl = ret resp ∧
    parseAnswers resp =
      (if len (matching qtype ips) =? 0 then fail "no answers" else ret (map rdata (matching qtype ips))) ∧
    parseQueryWithEnd resp = ret (h', name, qtype, e) ∧
    ID h' = ID h ∧ ANCount h' = len (matching qtype ips) ∧
    Z.testbit (Flags h') 15 = true ∧
    (∀ i, i = 8 ∨ 11 <= i <= 14 → Z.testbit (Flags h') i = Z.testbit (Flags h) i) ∧
    (Z.testbit (Flags h') 0 = true ↔ matching qtype ips = []).
Proof. apply query_answered. Qed.

(** An owner name that is compressed after its first labels, as resolvers may
    write (RFC 1035, 4.1.4), is not recognised: the loop over the labels takes
    the pointer byte for a label of at least 192 bytes and, unless the packet
    goes on for that long, every answer from that record on is lost. *)
Theorem compressed_suffix_loses_answers id flags an rest qname qtype qclass owner ptr tail :
  len rest = 4 → Forall label_ok qname → Forall label_ok owner → owner ≠ [] → u16_ok an →
  192 <= ptr < 256 → len tail <= 192 →
  parseAnswers (question_packet id flags an rest qname qtype qclass
    (concat (map (λ l, len l :: l) owner) ++ ptr :: tail)) = fail "no answers".
Proof.
  intros Hrest Hqn Hown Hne Han Hptr Htail. unfold parseAnswers.
  set (answers := concat (map (λ l, len l :: l) owner) ++ ptr :: tail).
  pose proof (len_nonneg (name_bytes qname)). pose proof (len_nonneg answers).
  rewrite question_packet_len, Hrest. replace (_ <? 12) with false by lia.
  erewrite (read_field _ (be16 id ++ be16 flags ++ be16 1) an) by done.
  rewrite question_packet_split. pose proof (name_bytes_length qname).
  set (header := be16 id ++ be16 flags ++ be16 1 ++ be16 an ++ rest).
  assert (len header = 12) as Hh by (unfold header; rewrite !len_app, Hrest; done).
  rewrite <- Hh at 1. rewrite skipQuestion_name by (done || (rewrite !length_app; lia)).
  cbn [try_bind ret].
  replace (len header + len (name_bytes qname) + 4) with
    (len (header ++ name_bytes qname ++ be16 qtype ++ be16 qclass))
    by (rewrite !len_app; unfold be16, len; cbn; lia).
  pose proof (answersLoop_lost (Z.to_nat an) (header ++ name_bytes qname ++ be16 qtype ++ be16 qclass)
    owner ptr tail [] Hown Hne Hptr Htail) as Hlost.
  rewrite <- !(assoc_L (++)) in Hlost. unfold answers. by rewrite Hlost.
Qed.

(** ** Concrete packets *)

Module Demo.

(** A recursive query for the A records of [w.ab], followed by other records. *)
Definition query : list Z :=
  [18; 52; 1; 0; 0; 1; 0; 0; 0; 0; 0; 1; 1; 119; 2; 97; 98; 0; 0; 1; 0; 1; 0; 0; 41; 16; 0].

(** An IPv4 address, an IPv6 one, and an IPv4 one in its 16-byte form. *)
Definition ips : list (list Z) :=
  [[1; 2; 3; 4]; [32; 1; 13; 184; 0; 0; 0; 0; 0; 0; 0; 0; 0; 0; 0; 1]; v4InV6Prefix ++ [8; 8; 4; 4]].

Definition question : dnsHeader * list Z * Z * Z :=
  (mkHeader 4660 256 1 0 0 0, [119; 46; 97; 98], 1, 22).

Lemma query_packet : packet query.
Proof. repeat (constructor; [by split|]). constructor. Qed.

Example query_parses : parseQueryWithEnd query = ret question.
Proof. reflexivity. Qed.

Lemma codec_is_total_witness :
  packet query ∧
  returns (parseAnswers query) (ok_with (λ addrs,
    addrs ≠ [] ∧ Forall (λ ip, len ip = 4 ∨ len ip = 16) addrs)).
Proof.
  split; [apply query_packet|].
  exact (proj2 (proj2 (codec_is_total query ips 60 query query_packet query_packet))).
Defined.

Lemma parser_accepts_rendered_questions_witness :
  packet query ∧
  ∃ id flags an rest labels qclass tail,
    query = question_packet id flags an rest labels 1 qclass tail ∧
    u16_ok id ∧ u16_ok flags ∧ u16_ok an ∧ u16_ok 1 ∧ u16_ok qclass ∧
    len rest = 4 ∧ Forall label_ok labels ∧
    mkHeader 4660 256 1 0 0 0 = mkHeader id flags 1 an 0 0 ∧ [119; 46; 97; 98] = join labels ∧
    22 = len query - len tail.
Proof.
  split; [apply query_packet|].
  exact (proj1 (parser_accepts_rendered_questions query (mkHeader 4660 256 1 0 0 0)
    [119; 46; 97; 98] 1 22 query_packet) eq_refl).
Defined.

Lemma response_roundtrip_witness :
  ∃ resp h',
    buildResponse query ips 60 = ret resp ∧
    parseAnswers resp = ret [[1; 2; 3; 4]; [8; 8; 4; 4]] ∧
    parseQueryWithEnd resp = ret (h', [119; 46; 97; 98], 1, 22) ∧ ANCount h' = 2.
Proof.
  destruct (response_roundtrip query ips 60 (mkHeader 4660 256 1 0 0 0) [119; 46; 97; 98] 1 22
    query_packet eq_refl ltac:(vm_compute; reflexivity))
    as (resp & h' & Hb & Ha & Hq & _ & Hn & _).
  exists resp, h'. split; [exact Hb|]. split; [exact Ha|]. split; [exact Hq|exact Hn].
Defined.

(** The answer's owner is [w] followed by a pointer to offset 12. *)
Lemma compressed_suffix_loses_answers_witness :
  label_ok [119] ∧
  parseAnswers (question_packet 4660 33152 1 [0; 0; 0; 0] [[119]; [97; 98]] 1 1
    (concat (map (λ l, len l :: l) [[119]]) ++
     192 :: [14; 0; 1; 0; 1; 0; 0; 0; 60; 0; 4; 1; 2; 3; 4])) = fail "no answers".
Proof.
  split; [split; reflexivity|].
  apply (compressed_suffix_loses_answers 4660 33152 1 [0; 0; 0; 0] [[119]; [97; 98]] 1 1 [[119]] 192
    [14; 0; 1; 0; 1; 0; 0; 0; 60; 0; 4; 1; 2; 3; 4]);
    [reflexivity|repeat (constructor; [split; reflexivity|]); constructor
    |repeat (constructor; [split; reflexivity|]); constructor|discriminate
    |split; [discriminate|reflexivity]|split; [discriminate|reflexivity]|discriminate].
Defined.

End Demo.
