(* ===== verification/Counting.v ===== *)
(** * Counting the entries of a finite map

    How many tasks are in a given phase: the number of entries of a map whose
    value satisfies a test, and how one entry's change changes it. *)

From stdpp Require Import gmap.
From S2P Require Import Prelude.

Section counting.
Context {A : Type}.
Implicit Types (P : A → bool) (m : gmap nat A).

Definition mcount P m : Z := Z.of_nat (size (filter (λ kv, P kv.2 = true) m)).

Lemma mcount_nonneg P m : 0 <= mcount P m.
Proof. unfold mcount. lia. Qed.

Lemma mcount_empty P : mcount P ∅ = 0.
Proof. unfold mcount. by rewrite map_filter_empty, map_size_empty. Qed.

Lemma mcount_delete P m k x :
  m !! k = Some x → mcount P (delete k m) = mcount P m - Z.b2z (P x).
Proof.
  intros Hk. unfold mcount. rewrite map_filter_delete. destruct (P x) eqn:HP; cbn [Z.b2z].
  - assert (filter (λ kv, P kv.2 = true) m !! k = Some x) as Hf by (by apply map_lookup_filter_Some).
    rewrite map_size_delete, Hf.
    assert (size (filter (λ kv, P kv.2 = true) m) ≠ 0%nat); [|cbn; lia].
    by apply (map_size_ne_0_lookup_2 _ k); rewrite Hf.
  - rewrite delete_id; [lia|]. apply map_lookup_filter_None. right. intros y Hy. cbn. congruence.
Qed.

Lemma mcount_fresh P m k x :
  m !! k = None → mcount P (<[k:=x]> m) = mcount P m + Z.b2z (P x).
Proof.
  intros Hk. unfold mcount. destruct (P x) eqn:HP; cbn [Z.b2z].
  - rewrite map_filter_insert_True by done. rewrite map_size_insert_None; [lia|].
    apply map_lookup_filter_None. by left.
  - rewrite map_filter_insert_False by (cbn; congruence). rewrite delete_id by done. lia.
Qed.

Lemma mcount_update P m k x y :
  m !! k = Some y → mcount P (<[k:=x]> m) = mcount P m - Z.b2z (P y) + Z.b2z (P x).
Proof.
  intros Hk. rewrite <- insert_delete_eq. rewrite mcount_fresh by apply lookup_delete_eq.
  by rewrite (mcount_delete P m k y).
Qed.

(** An entry that satisfies the test is counted. *)
Lemma mcount_pos P m k x : m !! k = Some x → P x = true → 0 < mcount P m.
Proof.
  intros Hk HP. pose proof (mcount_delete P m k x Hk) as Hd. rewrite HP in Hd.
  pose proof (mcount_nonneg P (delete k m)). cbn in Hd. lia.
Qed.

Lemma mcount_le P1 P2 m : (∀ x, P1 x = true → P2 x = true) → mcount P1 m <= mcount P2 m.
Proof.
  intros H. unfold mcount. apply Nat2Z.inj_le, map_subseteq_size.
  apply map_filter_subseteq_ext. intros k x _. apply H.
Qed.

End counting.
