(* ===== verification/CoreMgr.v ===== *)
(** * The core process manager (tui/internal/coremgr/coremgr.go)

    [Start] launches a goroutine that runs the client core and restarts it with
    a growing delay; [Stop] retires it.  The goroutines share the manager under
    its mutex, so the program is a transition system: one event per critical
    section and per action on the process, interleaved in any order. *)

From stdpp Require Import gmap.
From S2P Require Import Prelude.

Module CoreMgr.

(** A context, a goroutine and a command are named by numbers. *)
Abbreviation ctxid := nat.
Abbreviation loopid := nat.
Abbreviation cmdid := nat.

(** An [exec.Cmd]: [Process] is nil, or the process runs, or it has ended. *)
Inductive process := NotStarted | Running | Ended.

#[export] Instance process_eq_dec : EqDecision process.
Proof. solve_decision. Defined.

(** Where a restart goroutine is: at the head of the loop, with its command
    published and [cmd.Run] about to be called, inside [cmd.Run], after it,
    waiting for the delay, or at its deferred function. *)
Inductive loop_pc :=
  | Top
  | Launching (c : cmdid)
  | Waiting (c : cmdid)
  | Exited
  | Sleeping
  | Leaving.

Record loop := mkLoop {
  gen : Z;
  ctx : ctxid;
  backoff : Z;
  pc : loop_pc
}.

(** The manager, the goroutines and processes, and the callers inside [Start]
    (between its two critical sections) or [Stop] (before the kill). *)
Record state := mkState {
  running : bool;
  generation : Z;
  cmd : option cmdid;
  loops : gmap loopid loop;
  processes : gmap cmdid process;
  cancelled : gset ctxid;
  starting : gmap nat ctxid;
  stopping : gmap nat (option cmdid)
}.

#[export] Instance eta_loop : Eta loop := fun l => mkLoop (gen l) (ctx l) (backoff l) (pc l).
#[export] Instance eta_state : Eta state := fun s =>
  mkState (running s) (generation s) (cmd s) (loops s) (processes s) (cancelled s)
    (starting s) (stopping s).

Definition NewManager : state := mkState false 0 None ∅ ∅ ∅ ∅ ∅.

Implicit Types (s : state) (l : loopid) (c : cmdid) (t : nat) (x : ctxid).

Definition set_pc s l (lp : loop) (p : loop_pc) : state :=
  s <| loops := <[l := lp <| pc := p |>]> (loops s) |>.

(** [Start]: the first critical section; the second one, which spawns the
    goroutine; or an error in between (writing the configuration file failed). *)
Definition StartCheck s t x : option state :=
  match starting s !! t with
  | Some _ => None
  | None => Some (if running s then s else s <| starting := <[t := x]> (starting s) |>)
  end.

Definition StartAbort s t : option state :=
  x ← starting s !! t; Some (s <| starting := delete t (starting s) |>).

Definition StartCommit s t l : option state :=
  x ← starting s !! t;
  let s := s <| starting := delete t (starting s) |> in
  if running s then Some s
  else
    match loops s !! l with
    | Some _ => None
    | None =>
        let g := u64 (generation s + 1) in
        Some (s <| generation := g |> <| running := true |>
                <| loops := <[l := mkLoop g x Second Top]> (loops s) |>)
    end.

(** The head of the loop: leave, or publish a new command. *)
Definition LoopTop s l c : option state :=
  lp ← loops s !! l;
  match pc lp with
  | Top =>
      if negb (running s) || negb (generation s =? gen lp) then Some (set_pc s l lp Leaving)
      else
        match processes s !! c with
        | Some _ => None
        | None =>
            let s := s <| cmd := Some c |> <| processes := <[c := NotStarted]> (processes s) |> in
            Some (set_pc s l lp (Launching c))
        end
  | _ => None
  end.

(** [cmd.Run]: a command whose context is done is not started; [ok] says
    whether the executable could be started. *)
Definition LoopRun s l (ok : bool) : option state :=
  lp ← loops s !! l;
  match pc lp with
  | Launching c =>
      if bool_decide (ctx lp ∈ cancelled s) || negb ok
      then Some (set_pc s l lp Exited)
      else
        let s := s <| processes := <[c := Running]> (processes s) |> in
        Some (set_pc s l lp (Waiting c))
  | _ => None
  end.

(** A process ends: by itself, or killed by the watcher of its context. *)
Definition ProcessEnds s c : option state :=
  p ← processes s !! c;
  match p with
  | Running => Some (s <| processes := <[c := Ended]> (processes s) |>)
  | _ => None
  end.

(** [cmd.Run] returns once the process has ended. *)
Definition RunReturns s l : option state :=
  lp ← loops s !! l;
  match pc lp with
  | Waiting c => if decide (processes s !! c = Some Ended) then Some (set_pc s l lp Exited) else None
  | _ => None
  end.

(** The critical section after [cmd.Run] and the decision to restart. *)
Definition LoopAfter s l : option state :=
  lp ← loops s !! l;
  match pc lp with
  | Exited =>
      let s := if generation s =? gen lp then s <| cmd := None |> else s in
      let isStopping := negb (running s) || negb (generation s =? gen lp) in
      if isStopping || bool_decide (ctx lp ∈ cancelled s)
      then Some (set_pc s l lp Leaving) else Some (set_pc s l lp Sleeping)
  | _ => None
  end.

(** The delay is over, or the context is done first. *)
Definition LoopTimer s l : option state :=
  lp ← loops s !! l;
  match pc lp with
  | Sleeping =>
      let lp := if backoff lp <? 30 * Second then lp <| backoff := i64 (backoff lp * 2) |> else lp in
      Some (set_pc s l lp Top)
  | _ => None
  end.

Definition LoopCtxDone s l : option state :=
  lp ← loops s !! l;
  match pc lp with
  | Sleeping => if bool_decide (ctx lp ∈ cancelled s) then Some (set_pc s l lp Leaving) else None
  | _ => None
  end.

(** The deferred function of the goroutine. *)
Definition LoopLeave s l : option state :=
  lp ← loops s !! l;
  match pc lp with
  | Leaving =>
      let s := if generation s =? gen lp then s <| running := false |> <| cmd := None |> else s in
      Some (s <| loops := delete l (loops s) |>)
  | _ => None
  end.

(** [Stop]: the critical section, then the kill. *)
Definition StopLock s t : option state :=
  match stopping s !! t with
  | Some _ => None
  | None =>
      Some (s <| generation := u64 (generation s + 1) |> <| running := false |>
              <| stopping := <[t := cmd s]> (stopping s) |>)
  end.

Definition StopKill s t : option state :=
  target ← stopping s !! t;
  let s := s <| stopping := delete t (stopping s) |> in
  match target with
  | None => Some s
  | Some c =>
      match processes s !! c with
      | Some Running => Some (s <| processes := <[c := Ended]> (processes s) |>)
      | _ => Some s
      end
  end.

(** [cancel()] of a context. *)
Definition Cancel s x : state := s <| cancelled := {[ x ]} ∪ cancelled s |>.

Inductive event :=
  | EStartCheck t x | EStartAbort t | EStartCommit t l
  | ELoopTop l c | ELoopRun l (ok : bool) | EProcessEnds c | ERunReturns l
  | ELoopAfter l | ELoopTimer l | ELoopCtxDone l | ELoopLeave l
  | EStopLock t | EStopKill t | ECancel x.

(** One step; [None] when the event cannot happen in the state. *)
Definition step s (e : event) : option state :=
  match e with
  | EStartCheck t x => StartCheck s t x
  | EStartAbort t => StartAbort s t
  | EStartCommit t l => StartCommit s t l
  | ELoopTop l c => LoopTop s l c
  | ELoopRun l ok => LoopRun s l ok
  | EProcessEnds c => ProcessEnds s c
  | ERunReturns l => RunReturns s l
  | ELoopAfter l => LoopAfter s l
  | ELoopTimer l => LoopTimer s l
  | ELoopCtxDone l => LoopCtxDone s l
  | ELoopLeave l => LoopLeave s l
  | EStopLock t => StopLock s t
  | EStopKill t => StopKill s t
  | ECancel x => Some (Cancel s x)
  end.

Fixpoint run (es : list event) s : option state :=
  match es with
  | [] => Some s
  | e :: es => s' ← step s e; run es s'
  end.

(** ** The log writer

    [Write] splits the output of the process into lines; [emit] is the list of
    lines handed to the log channel. *)

Definition newline : Z := 10.

Definition writeByte (w : list (list Z) * list Z) (b : Z) : list (list Z) * list Z :=
  let '(emitted, buf) := w in
  if b =? newline then (emitted ++ [buf], []) else (emitted, buf ++ [b]).

Definition Write (w : list (list Z) * list Z) (p : list Z) : list (list Z) * list Z :=
  foldl writeByte w p.

End CoreMgr.
