(* ===== verification/CoreMgrSpec.v ===== *)
(** * Theorems about the core process manager

    One supervisor at a time, what [Stop] guarantees, and what it does not. *)

From stdpp Require Import gmap.
From S2P Require Import Prelude CoreMgr.

Import CoreMgr.

Implicit Types (s : state) (lp : loop) (l : loopid) (c : cmdid).

Module Supervisor.

(** The command a goroutine holds. *)
Definition cmd_of (p : loop_pc) : option cmdid :=
  match p with Launching c | Waiting c => Some c | _ => None end.

Definition backoffs : list Z := map (λ k, k * Second) [1; 2; 4; 8; 16; 32].

(** The invariant after [n] steps. *)
Record inv (n : Z) s : Prop := {
  i_bound : 0 <= generation s <= n;
  i_gen l lp : loops s !! l = Some lp → 0 < gen lp <= generation s;
  i_uniq l1 l2 lp1 lp2 :
    loops s !! l1 = Some lp1 → loops s !! l2 = Some lp2 → gen lp1 = gen lp2 → l1 = l2;
  i_run : running s = true ↔ ∃ l lp, loops s !! l = Some lp ∧ gen lp = generation s;
  i_launching l lp c :
    loops s !! l = Some lp → pc lp = Launching c → processes s !! c = Some NotStarted;
  i_waiting l lp c :
    loops s !! l = Some lp → pc lp = Waiting c →
    processes s !! c = Some Running ∨ processes s !! c = Some Ended;
  i_owner l1 l2 lp1 lp2 c :
    loops s !! l1 = Some lp1 → loops s !! l2 = Some lp2 →
    cmd_of (pc lp1) = Some c → cmd_of (pc lp2) = Some c → l1 = l2;
  i_live c : processes s !! c = Some Running → ∃ l lp, loops s !! l = Some lp ∧ pc lp = Waiting c;
  i_backoff l lp : loops s !! l = Some lp → backoff lp ∈ backoffs
}.

(** The invariant does not depend on the other fields. *)
Lemma inv_same n s s' :
  running s' = running s → generation s' = generation s → loops s' = loops s →
  processes s' = processes s → inv n s → inv n s'.
Proof. intros H1 H2 H3 H4 []. split; rewrite ?H1, ?H2, ?H3, ?H4; eauto. Qed.

Lemma inv_mono n m s : n <= m → inv n s → inv m s.
Proof. intros ? []. split; eauto. lia. Qed.

(** A goroutine moves without a command: the process it leaves is not running. *)
Lemma inv_move n s l lp lp' :
  inv n s → loops s !! l = Some lp → gen lp' = gen lp → cmd_of (pc lp') = None →
  backoff lp' ∈ backoffs →
  (∀ c, pc lp = Waiting c → processes s !! c ≠ Some Running) →
  inv n (s <| loops := <[l := lp']> (loops s) |>).
Proof.
  intros [] Hl Hg Hc Hb Hend. split; cbn; eauto.
  - intros l1 lp1 [[<- <-]|[_ ?]]%lookup_insert_Some; [rewrite Hg|]; eauto.
  - intros l1 l2 lp1 lp2 [[<- <-]|[? ?]]%lookup_insert_Some [[<- <-]|[? ?]]%lookup_insert_Some;
      rewrite ?Hg; eauto.
  - rewrite i_run0. split.
    + intros (l1 & lp1 & H1 & H2). destruct (decide (l1 = l)) as [->|].
      * exists l, lp'. rewrite lookup_insert_eq. split; [done|]. congruence.
      * exists l1, lp1. by rewrite lookup_insert_ne.
    + intros (l1 & lp1 & [[<- <-]|[_ H1]]%lookup_insert_Some & H2); [exists l, lp|]; eauto.
      by rewrite <- Hg.
  - intros l1 lp1 c [[<- <-]|[? ?]]%lookup_insert_Some Hp; [by rewrite Hp in Hc|eauto].
  - intros l1 lp1 c [[<- <-]|[? ?]]%lookup_insert_Some Hp; [by rewrite Hp in Hc|eauto].
  - intros l1 l2 lp1 lp2 c [[<- <-]|[? ?]]%lookup_insert_Some [[<- <-]|[? ?]]%lookup_insert_Some
      Hc1 Hc2; try congruence; eauto.
  - intros c Hr. destruct (i_live0 c Hr) as (l1 & lp1 & H1 & H2). destruct (decide (l1 = l)) as [->|].
    + rewrite Hl in H1. injection H1 as <-. by destruct (Hend c H2).
    + exists l1, lp1. by rewrite lookup_insert_ne.
  - intros l1 lp1 [[<- <-]|[? ?]]%lookup_insert_Some; eauto.
Qed.

Lemma inv_set_pc n s l lp p :
  inv n s → loops s !! l = Some lp → cmd_of p = None →
  (∀ c, pc lp = Waiting c → processes s !! c ≠ Some Running) → inv n (set_pc s l lp p).
Proof. intros Hi Hl Hp Hc. apply inv_move with lp; try done. cbn. by eapply i_backoff. Qed.

Lemma inv_new : inv 0 NewManager.
Proof. split; cbn; try done. split; [done|]. intros (l & lp & Hl & _). by rewrite lookup_empty in Hl. Qed.

(** A new command is published. *)
Lemma inv_publish n s l lp c :
  inv n s → loops s !! l = Some lp → pc lp = Top → processes s !! c = None →
  inv n (set_pc (s <| cmd := Some c |> <| processes := <[c := NotStarted]> (processes s) |>) l lp (Launching c)).
Proof.
  intros [] Hl Hpc Hc. split; cbn; eauto.
  - intros l1 lp1 [[<- <-]|[_ ?]]%lookup_insert_Some; cbn; eauto.
  - intros l1 l2 lp1 lp2 [[<- <-]|[? ?]]%lookup_insert_Some [[<- <-]|[? ?]]%lookup_insert_Some; cbn; eauto.
  - rewrite i_run0. split.
    + intros (l1 & lp1 & H1 & H2). destruct (decide (l1 = l)) as [->|].
      * exists l. eexists. rewrite lookup_insert_eq. split; [done|]. cbn. congruence.
      * exists l1, lp1. by rewrite lookup_insert_ne.
    + intros (l1 & lp1 & [[<- <-]|[_ H1]]%lookup_insert_Some & H2); eauto.
  - intros l1 lp1 c1 [[<- <-]|[? ?]]%lookup_insert_Some Hp; cbn in Hp.
    + injection Hp as <-. by rewrite lookup_insert_eq.
    + destruct (decide (c1 = c)) as [->|]; [by rewrite lookup_insert_eq|rewrite lookup_insert_ne; eauto].
  - intros l1 lp1 c1 [[<- <-]|[? ?]]%lookup_insert_Some Hp; cbn in Hp; [done|].
    destruct (decide (c1 = c)) as [->|]; [|rewrite lookup_insert_ne; eauto].
    destruct (i_waiting0 _ _ _ ltac:(eassumption) Hp); congruence.
  - assert (∀ l1 lp1, loops s !! l1 = Some lp1 → cmd_of (pc lp1) ≠ Some c) as Hfresh.
    { intros l1 lp1 H1 Hc1. destruct (pc lp1) eqn:Hp; cbn in Hc1; try done; injection Hc1 as ->.
      - pose proof (i_launching0 _ _ _ H1 Hp). congruence.
      - destruct (i_waiting0 _ _ _ H1 Hp); congruence. }
    intros l1 l2 lp1 lp2 c1 [[<- <-]|[? ?]]%lookup_insert_Some [[<- <-]|[? ?]]%lookup_insert_Some
      Hc1 Hc2; cbn in *; try congruence; [| |by eauto].
    + injection Hc1 as <-. by destruct (Hfresh l2 lp2).
    + injection Hc2 as <-. by destruct (Hfresh l1 lp1).
  - intros c1 Hr. destruct (decide (c1 = c)) as [->|]; [by rewrite lookup_insert_eq in Hr|].
    rewrite lookup_insert_ne in Hr by done. destruct (i_live0 c1 Hr) as (l1 & lp1 & H1 & H2).
    exists l1, lp1. rewrite lookup_insert_ne; [done|]. intros ->. congruence.
  - intros l1 lp1 [[<- <-]|[? ?]]%lookup_insert_Some; cbn; eauto.
Qed.

(** The process of a command starts. *)
Lemma inv_start n s l lp c :
  inv n s → loops s !! l = Some lp → pc lp = Launching c →
  inv n (set_pc (s <| processes := <[c := Running]> (processes s) |>) l lp (Waiting c)).
Proof.
  intros [] Hl Hpc.
  assert (∀ l1 lp1, loops s !! l1 = Some lp1 → l1 ≠ l → cmd_of (pc lp1) ≠ Some c) as Hmine.
  { intros l1 lp1 H1 Hne Hc1. apply Hne. eapply i_owner0; eauto. by rewrite Hpc. }
  split; cbn; eauto.
  - intros l1 lp1 [[<- <-]|[_ ?]]%lookup_insert_Some; cbn; eauto.
  - intros l1 l2 lp1 lp2 [[<- <-]|[? ?]]%lookup_insert_Some [[<- <-]|[? ?]]%lookup_insert_Some; cbn; eauto.
  - rewrite i_run0. split.
    + intros (l1 & lp1 & H1 & H2). destruct (decide (l1 = l)) as [->|].
      * exists l. eexists. rewrite lookup_insert_eq. split; [done|]. cbn. congruence.
      * exists l1, lp1. by rewrite lookup_insert_ne.
    + intros (l1 & lp1 & [[<- <-]|[_ H1]]%lookup_insert_Some & H2); eauto.
  - intros l1 lp1 c1 [[<- <-]|[Hne H1]]%lookup_insert_Some Hp; cbn in Hp; [done|].
    rewrite lookup_insert_ne; [eauto|]. intros <-. by destruct (Hmine _ _ H1 (not_eq_sym Hne)); rewrite Hp.
  - intros l1 lp1 c1 [[<- <-]|[Hne H1]]%lookup_insert_Some Hp; cbn in Hp.
    + injection Hp as <-. left. by rewrite lookup_insert_eq.
    + rewrite lookup_insert_ne; [eauto|]. intros <-. by destruct (Hmine _ _ H1 (not_eq_sym Hne)); rewrite Hp.
  - intros l1 l2 lp1 lp2 c1 [[<- <-]|[? ?]]%lookup_insert_Some [[<- <-]|[? ?]]%lookup_insert_Some
      Hc1 Hc2; cbn in *; try congruence; [| |by eauto].
    + injection Hc1 as <-. by destruct (Hmine l2 lp2).
    + injection Hc2 as <-. by destruct (Hmine l1 lp1).
  - intros c1 Hr. destruct (decide (c1 = c)) as [->|].
    + exists l. eexists. by rewrite lookup_insert_eq.
    + rewrite lookup_insert_ne in Hr by done. destruct (i_live0 c1 Hr) as (l1 & lp1 & H1 & H2).
      exists l1, lp1. rewrite lookup_insert_ne; [done|]. intros ->. congruence.
  - intros l1 lp1 [[<- <-]|[? ?]]%lookup_insert_Some; cbn; eauto.
Qed.

(** A running process ends. *)
Lemma inv_end n s c :
  inv n s → processes s !! c = Some Running →
  inv n (s <| processes := <[c := Ended]> (processes s) |>).
Proof.
  intros [] Hc. split; cbn; eauto.
  - intros l lp c1 Hl Hp. rewrite lookup_insert_ne; [eauto|]. intros <-.
    pose proof (i_launching0 _ _ _ Hl Hp). congruence.
  - intros l lp c1 Hl Hp. destruct (decide (c1 = c)) as [->|];
      [right; by rewrite lookup_insert_eq|rewrite lookup_insert_ne; eauto].
  - intros c1 [[<- ?]|[? ?]]%lookup_insert_Some; [done|eauto].
Qed.

(** A goroutine is spawned, or the manager is stopped. *)
Lemma inv_spawn n s x l :
  inv n s → running s = false → loops s !! l = None → n + 1 < 18446744073709551616 →
  let g := u64 (generation s + 1) in
  inv (n + 1) (s <| generation := g |> <| running := true |>
                 <| loops := <[l := mkLoop g x Second Top]> (loops s) |>).
Proof.
  intros [] Hr Hl Hn. assert (u64 (generation s + 1) = generation s + 1) as -> by (apply u64_id; mach).
  assert (∀ l1 lp1, loops s !! l1 = Some lp1 → gen lp1 ≠ generation s + 1) as Hnew.
  { intros l1 lp1 H1. specialize (i_gen0 _ _ H1). lia. }
  split; cbn; eauto.
  - lia.
  - intros l1 lp1 [[<- <-]|[_ H1]]%lookup_insert_Some; cbn; [lia|]. specialize (i_gen0 _ _ H1). lia.
  - intros l1 l2 lp1 lp2 [[<- <-]|[? ?]]%lookup_insert_Some [[<- <-]|[? ?]]%lookup_insert_Some;
      cbn; [done| | |by eauto]; intros Heq; exfalso; by eapply Hnew; eauto using eq_sym.
  - split; [|done]. intros _. exists l. eexists. by rewrite lookup_insert_eq.
  - intros l1 lp1 c [[<- <-]|[? ?]]%lookup_insert_Some; [done|eauto].
  - intros l1 lp1 c [[<- <-]|[? ?]]%lookup_insert_Some; [done|eauto].
  - intros l1 l2 lp1 lp2 c [[<- <-]|[? ?]]%lookup_insert_Some [[<- <-]|[? ?]]%lookup_insert_Some;
      cbn; try done; eauto.
  - intros c Hc. destruct (i_live0 c Hc) as (l1 & lp1 & H1 & H2). exists l1, lp1.
    rewrite lookup_insert_ne; [done|]. intros ->. congruence.
  - intros l1 lp1 [[<- <-]|[? ?]]%lookup_insert_Some; [by left|eauto].
Qed.

Lemma inv_stop n s t target :
  inv n s → n + 1 < 18446744073709551616 →
  inv (n + 1) (s <| generation := u64 (generation s + 1) |> <| running := false |>
                 <| stopping := <[t := target]> (stopping s) |>).
Proof.
  intros [] Hn. assert (u64 (generation s + 1) = generation s + 1) as -> by (apply u64_id; mach).
  split; cbn; eauto.
  - lia.
  - intros l lp H1. specialize (i_gen0 _ _ H1). lia.
  - split; [done|]. intros (l & lp & H1 & H2). specialize (i_gen0 _ _ H1). lia.
Qed.

(** A goroutine ends. *)
Lemma inv_leave n s l lp :
  inv n s → loops s !! l = Some lp → pc lp = Leaving →
  let s' := if generation s =? gen lp then s <| running := false |> <| cmd := None |> else s in
  inv n (s' <| loops := delete l (loops s') |>).
Proof.
  intros [] Hl Hpc. cbn zeta.
  assert (∀ b : bool, b = (running s && negb (generation s =? gen lp)) →
    inv n (s <| running := b |> <| loops := delete l (loops s) |>)) as Hgen.
  { intros b Hb. split; cbn; eauto.
    - intros l1 lp1 [_ ?]%lookup_delete_Some; eauto.
    - intros l1 l2 lp1 lp2 [_ ?]%lookup_delete_Some [_ ?]%lookup_delete_Some; eauto.
    - rewrite Hb, andb_true_iff, i_run0, negb_true_iff, Z.eqb_neq. split.
      + intros ((l1 & lp1 & H1 & H2) & Hne). exists l1, lp1. split; [|done].
        rewrite lookup_delete_ne; [done|]. intros <-. congruence.
      + intros (l1 & lp1 & [Hne H1]%lookup_delete_Some & H2). split; [eauto|].
        intros Heq. apply Hne. symmetry. eapply i_uniq0; eauto. congruence.
    - intros l1 lp1 c [_ ?]%lookup_delete_Some; eauto.
    - intros l1 lp1 c [_ ?]%lookup_delete_Some; eauto.
    - intros l1 l2 lp1 lp2 c [_ ?]%lookup_delete_Some [_ ?]%lookup_delete_Some; eauto.
    - intros c Hc. destruct (i_live0 c Hc) as (l1 & lp1 & H1 & H2). exists l1, lp1.
      rewrite lookup_delete_ne; [done|]. intros <-. congruence.
    - intros l1 lp1 [_ ?]%lookup_delete_Some; eauto. }
  destruct (Z.eqb_spec (generation s) (gen lp)).
  - eapply inv_same; [..|apply (Hgen false)]; try done. by rewrite andb_false_r.
  - eapply inv_same; [..|apply (Hgen (running s))]; try done. by rewrite andb_true_r.
Qed.

Lemma backoff_doubles k : k ∈ backoffs → (if k <? 30 * Second then i64 (k * 2) else k) ∈ backoffs.
Proof.
  unfold backoffs. cbn [map]. intros Hk. repeat (apply elem_of_cons in Hk as [->|Hk]);
    [by repeat (first [left; reflexivity|right])..|by apply elem_of_nil in Hk].
Qed.

Ltac inv_option H :=
  repeat match type of H with
  | Some _ = Some _ => injection H as <-
  | None = Some _ => discriminate H
  | (_ ≫= _) = Some _ => apply bind_Some in H as (? & ? & H)
  | (match ?x with _ => _ end) = Some _ => destruct x eqn:?
  end.

(** Every step keeps the invariant. *)
Lemma step_inv n s e s' :
  inv n s → n + 1 < 18446744073709551616 → step s e = Some s' → inv (n + 1) s'.
Proof.
  intros Hi Hn Hstep.
  assert (inv (n + 1) s) as Hi1 by (eapply inv_mono; [|done]; lia).
  destruct e; cbn [step] in Hstep;
    unfold StartCheck, StartAbort, StartCommit, LoopTop, LoopRun, ProcessEnds, RunReturns, LoopAfter,
      LoopTimer, LoopCtxDone, LoopLeave, StopLock, StopKill, Cancel in Hstep;
    inv_option Hstep; try done; try (by eapply inv_same; [..|exact Hi1]);
    try (apply inv_set_pc; [done..|congruence]).
  - destruct (running s); [done|by eapply inv_same; [..|exact Hi1]].
  - by eapply inv_same; [..|apply (inv_spawn n s x l)].
  - by apply inv_publish.
  - by apply inv_start.
  - by apply inv_end.
  - apply inv_set_pc; [|by destruct (generation s =? gen x)|done|congruence].
    destruct (generation s =? gen x); [by eapply inv_same; [..|exact Hi1]|done].
  - apply inv_set_pc; [|by destruct (generation s =? gen x)|done|congruence].
    destruct (generation s =? gen x); [by eapply inv_same; [..|exact Hi1]|done].
  - apply inv_move with x; [done|done|by destruct (_ <? _)|done| |congruence].
    pose proof (backoff_doubles _ (i_backoff _ _ Hi1 _ _ ltac:(eassumption))) as Hb.
    by destruct (backoff x <? 30 * Second).
  - apply (inv_leave (n + 1) s l x); done.
  - by apply inv_stop.
  - by eapply inv_same; [..|apply (inv_end (n + 1) s n0)].
Qed.

Lemma run_app es1 es2 s : run (es1 ++ es2) s = (s' ← run es1 s; run es2 s').
Proof.
  revert s. induction es1 as [|e es1 IH]; intros s; cbn; [done|].
  destruct (step s e); cbn; [apply IH|done].
Qed.

Lemma run_inv es : ∀ n s s',
  inv n s → n + len es < 18446744073709551616 → run es s = Some s' → inv (n + len es) s'.
Proof.
  induction es as [|e es IH]; intros n s s' Hi Hn Hrun; cbn in Hrun.
  - injection Hrun as <-. unfold len. cbn. by rewrite Z.add_0_r.
  - apply bind_Some in Hrun as (s1 & Hstep & Hrun). rewrite len_cons in *.
    pose proof (len_nonneg es).
    replace (n + (len es + 1)) with (n + 1 + len es) by lia. apply (IH _ s1); [|lia|done].
    apply (step_inv n s e); [done|lia|done].
Qed.

End Supervisor.

Module Retirement.
Import Supervisor.

(** What the goroutines of generation [g] and before, as they were in [s1], can
    still be doing in [s2]: they hold no command they had not published, and a
    process they run was running or was about to be started. *)
Definition retired (g : Z) s1 s2 : Prop :=
  ∀ l lp2, loops s2 !! l = Some lp2 → gen lp2 <= g →
  ∃ lp1, loops s1 !! l = Some lp1 ∧ gen lp1 = gen lp2 ∧ ctx lp1 = ctx lp2 ∧
    ∀ c, (pc lp2 = Launching c → pc lp1 = Launching c) ∧
         (pc lp2 = Waiting c → pc lp1 = Waiting c ∨ pc lp1 = Launching c ∧ ctx lp1 ∉ cancelled s1).

Record past (g : Z) s1 s2 : Prop := {
  p_gen : g < generation s2;
  p_cancelled : cancelled s1 ⊆ cancelled s2;
  p_retired : retired g s1 s2
}.

Lemma past_refl g s : g < generation s → past g s s.
Proof. intros Hg. split; [done..|]. intros l lp Hl _. exists lp. naive_solver. Qed.

(** The parts of the state that matter. *)
Lemma past_same g s1 s2 s3 :
  generation s3 = generation s2 → cancelled s2 ⊆ cancelled s3 → loops s3 = loops s2 →
  past g s1 s2 → past g s1 s3.
Proof. intros H1 H2 H3 []. split; [lia|set_solver|]. unfold retired in *. by rewrite H3. Qed.

(** A goroutine moves. *)
Lemma past_move g s1 s2 l lp lp' :
  past g s1 s2 → loops s2 !! l = Some lp → gen lp' = gen lp → ctx lp' = ctx lp →
  (gen lp <= g → ∀ c, cmd_of (pc lp') = Some c →
    pc lp = Launching c ∧ pc lp' = Waiting c ∧ ctx lp ∉ cancelled s2) →
  past g s1 (s2 <| loops := <[l := lp']> (loops s2) |>).
Proof.
  intros [Hg Hc Hr] Hl Hgen Hctx Hcmd. split; [done..|].
  unfold retired. cbn. intros l2 lp2 [[<- <-]|[_ H2]]%lookup_insert_Some Hle; [|by apply Hr].
  cbn in *. rewrite Hgen in Hle. destruct (Hr l lp Hl Hle) as (lp1 & H1 & Hg1 & Hc1 & Hpc).
  exists lp1. split_and!; [done|congruence..|]. intros c. split; intros Hp.
  - destruct (Hcmd Hle c) as (_ & Hw & _); [by rewrite Hp|congruence].
  - destruct (Hcmd Hle c) as (Hlp & _ & Hn); [by rewrite Hp|]. right.
    split; [by apply Hpc|]. rewrite Hc1. set_solver.
Qed.

Lemma past_set_pc g s1 s2 l lp p :
  past g s1 s2 → loops s2 !! l = Some lp → cmd_of p = None → past g s1 (set_pc s2 l lp p).
Proof. intros Hp Hl Hc. apply past_move with lp; try done. cbn. by rewrite Hc. Qed.

Lemma past_spawn g s1 s2 t x l :
  past g s1 s2 →
  past g s1 (s2 <| starting := delete t (starting s2) |> <| generation := generation s2 + 1 |>
               <| running := true |>
               <| loops := <[l := mkLoop (generation s2 + 1) x Second Top]> (loops s2) |>).
Proof.
  intros [Hg Hc Hr]. split; cbn; [lia|done|].
  intros l2 lp2. cbn. intros [[<- <-]|[_ H2]]%lookup_insert_Some Hle; [cbn in Hle; lia|by apply Hr].
Qed.

Lemma past_delete g s1 s2 l :
  past g s1 s2 → past g s1 (s2 <| loops := delete l (loops s2) |>).
Proof.
  intros [Hg Hc Hr]. split; [done..|]. intros l2 lp2. cbn.
  intros [_ H2]%lookup_delete_Some. by apply Hr.
Qed.

Lemma step_past g n s1 s2 e s3 :
  inv n s2 → n + 1 < 18446744073709551616 → past g s1 s2 → step s2 e = Some s3 → past g s1 s3.
Proof.
  intros Hi Hn Hp Hstep. pose proof (i_bound _ _ Hi) as Hb. pose proof (p_gen _ _ _ Hp) as Hg.
  assert (u64 (generation s2 + 1) = generation s2 + 1) as Hu by (apply u64_id; mach).
  destruct e; cbn [step] in Hstep;
    unfold StartCheck, StartAbort, StartCommit, LoopTop, LoopRun, ProcessEnds, RunReturns, LoopAfter,
      LoopTimer, LoopCtxDone, LoopLeave, StopLock, StopKill, Cancel in Hstep;
    inv_option Hstep; try done; try (by eapply past_same; [..|exact Hp]);
    try (by apply past_set_pc).
  - destruct (running s2); [done|by eapply past_same; [..|exact Hp]].
  - rewrite Hu. by apply past_spawn.
  - apply past_move with x; cbn; [by eapply past_same; [..|exact Hp]|done..|].
    match goal with H : _ || _ = false |- _ => apply orb_false_iff in H as [_ Hgen] end.
    apply negb_false_iff, Z.eqb_eq in Hgen. lia.
  - apply past_move with x; cbn; [by eapply past_same; [..|exact Hp]|done..|].
    match goal with H : _ || _ = false |- _ => apply orb_false_iff in H as [Hctx _] end.
    apply bool_decide_eq_false in Hctx. intros _ c' [= <-]. by split_and!.
  - apply past_set_pc; [|by destruct (generation s2 =? gen x)|done].
    destruct (generation s2 =? gen x); [by eapply past_same; [..|exact Hp]|done].
  - apply past_set_pc; [|by destruct (generation s2 =? gen x)|done].
    destruct (generation s2 =? gen x); [by eapply past_same; [..|exact Hp]|done].
  - apply past_move with x; try done; by destruct (backoff x <? 30 * Second).
  - apply past_delete. by destruct (generation s2 =? gen x); [eapply past_same; [..|exact Hp]|].
  - rewrite Hu. split; cbn; [lia|apply Hp|apply Hp].
  - split; cbn; [apply Hp| |apply Hp]. pose proof (p_cancelled _ _ _ Hp). set_solver.
Qed.

Lemma run_past g es : ∀ n s1 s2 s3,
  inv n s2 → n + len es < 18446744073709551616 → past g s1 s2 → run es s2 = Some s3 → past g s1 s3.
Proof.
  induction es as [|e es IH]; intros n s1 s2 s3 Hi Hn Hp Hrun; cbn in Hrun.
  - by injection Hrun as <-.
  - apply bind_Some in Hrun as (s2' & Hstep & Hrun). rewrite len_cons in Hn. pose proof (len_nonneg es).
    apply (IH (n + 1) s1 s2'); [|lia| |done].
    + apply (step_inv n s2 e); [done|lia|done].
    + apply (step_past g n s1 s2 e); [done|lia|done..].
Qed.

End Retirement.

Import Supervisor Retirement.

(** A trace short enough for the 64-bit generation counter not to wrap. *)
Definition short (es : list event) : Prop := len es < 18446744073709551615.

(** C12. One supervisor, one core: however [Start], [Stop], the restart goroutines,
    the processes and cancellations interleave, [running] is true exactly when a
    goroutine of the current generation exists, no generation has two goroutines,
    every running process belongs to exactly one goroutine (waiting for it in
    [cmd.Run]), so a generation never runs two cores, and the restart delay stays
    one of 1, 2, 4, 8, 16 and 32 seconds. *)
Theorem one_supervisor es s :
  run es NewManager = Some s → short es →
  (running s = true ↔ ∃ l lp, loops s !! l = Some lp ∧ gen lp = generation s) ∧
  (∀ l1 l2 lp1 lp2, loops s !! l1 = Some lp1 → loops s !! l2 = Some lp2 →
    gen lp1 = gen lp2 → l1 = l2) ∧
  (∀ c, processes s !! c = Some Running →
    ∃ l lp, loops s !! l = Some lp ∧ pc lp = Waiting c ∧
      ∀ l' lp', loops s !! l' = Some lp' → cmd_of (pc lp') = Some c → l' = l) ∧
  (∀ l lp, loops s !! l = Some lp → backoff lp ∈ backoffs).
Proof.
  unfold short. intros Hrun Hs.
  pose proof (run_inv es 0 NewManager s inv_new ltac:(lia) Hrun) as Hi. split_and!.
  - apply (i_run _ _ Hi).
  - apply (i_uniq _ _ Hi).
  - intros c Hc. destruct (i_live _ _ Hi c Hc) as (l & lp & Hl & Hp). exists l, lp.
    split_and!; [done..|]. intros l' lp' Hl' Hp'.
    apply (i_owner _ _ Hi l' l lp' lp c Hl' Hl Hp'). by rewrite Hp.
  - apply (i_backoff _ _ Hi).
Qed.

(** C13. What [Stop] guarantees: from the moment its critical section is over, no
    goroutine started before it publishes a new command, whatever happens next;
    the only process such a goroutine can still be running is one that was
    running at that moment, or the one it was about to start, and the latter only
    if its context had not been cancelled.  So cancelling the context before
    calling [Stop], as the interface does on disconnect, starts no core at all. *)
Theorem stop_retires_goroutines es t s1 es' s2 :
  run (es ++ [EStopLock t]) NewManager = Some s1 → run es' s1 = Some s2 →
  short (es ++ es') →
  running s1 = false ∧
  ∀ l lp2, loops s2 !! l = Some lp2 → gen lp2 < generation s1 →
  ∃ lp1, loops s1 !! l = Some lp1 ∧ gen lp1 = gen lp2 ∧ ctx lp1 = ctx lp2 ∧
    ∀ c, (pc lp2 = Launching c → pc lp1 = Launching c) ∧
         (pc lp2 = Waiting c →
            pc lp1 = Waiting c ∨ pc lp1 = Launching c ∧ ctx lp1 ∉ cancelled s1).
Proof.
  unfold short. intros H1 H2 Hlen. rewrite len_app in Hlen. pose proof (len_nonneg es').
  pose proof (len_nonneg es).
  assert (inv (len es + 1) s1) as Hi.
  { pose proof (run_inv (es ++ [EStopLock t]) 0 NewManager s1 inv_new ltac:(rewrite len_app; change (len [EStopLock t]) with 1; lia) H1) as Hi.
    rewrite len_app in Hi. exact Hi. }
  assert (running s1 = false) as Hr.
  { rewrite run_app in H1. apply bind_Some in H1 as (s & _ & H1). cbn in H1. unfold StopLock in H1.
    destruct (stopping s !! t); [done|]. by injection H1 as <-. }
  split; [done|]. intros l lp2 Hl Hg.
  apply (p_retired (generation s1 - 1) s1 s2); [|done|lia].
  apply (run_past _ es' (len es + 1) s1 s1); [done|lia|apply past_refl; lia|done].
Qed.

(** The kill of [Stop] does nothing to a command whose process has not started. *)
Lemma StopKill_spares s t c target :
  stopping s !! t = Some target → processes s !! c = Some NotStarted →
  ∃ s', StopKill s t = Some s' ∧ running s' = running s ∧ stopping s' = delete t (stopping s) ∧
    loops s' = loops s ∧ cancelled s' = cancelled s ∧ processes s' !! c = Some NotStarted.
Proof.
  intros Ht Hc. unfold StopKill. rewrite Ht. cbn [mbind option_bind].
  destruct target as [c'|]; [|by eexists]. 
  change (processes (s <| stopping := delete t (stopping s) |>)) with (processes s).
  destruct (processes s !! c') as [[]|] eqn:Hc'; [by eexists| |by eexists..].
  eexists. split_and!; try done. cbn. rewrite lookup_insert_ne; [done|congruence].
Qed.

(** What [Stop] does not guarantee: if it comes between the publication of a
    command and the start of its process, there is no process to kill yet, and
    unless the context was cancelled too the core is started after [Stop] has
    returned, with nobody left to stop it. *)
Theorem stop_misses_a_launching_core es s t l lp c :
  run es NewManager = Some s → short es →
  loops s !! l = Some lp → pc lp = Launching c → ctx lp ∉ cancelled s → stopping s !! t = None →
  ∃ s', run [EStopLock t; EStopKill t; ELoopRun l true] s = Some s' ∧
    running s' = false ∧ stopping s' !! t = None ∧ processes s' !! c = Some Running.
Proof.
  unfold short. intros Hrun Hs Hl Hpc Hctx Ht.
  pose proof (run_inv es 0 NewManager s inv_new ltac:(lia) Hrun) as Hi.
  pose proof (i_launching _ _ Hi _ _ _ Hl Hpc) as Hc.
  set (s1 := s <| generation := u64 (generation s + 1) |> <| running := false |>
               <| stopping := <[t := cmd s]> (stopping s) |>).
  destruct (StopKill_spares s1 t c (cmd s)) as (s2 & Hkill & Hr & Hst & Hl2 & Hca & Hp);
    [by apply lookup_insert_eq|done|].
  cbn [run step]. unfold StopLock. rewrite Ht. fold s1. cbn [mbind option_bind].
  rewrite Hkill. cbn [mbind option_bind]. unfold LoopRun. rewrite Hl2. change (loops s1) with (loops s).
  rewrite Hl. cbn [mbind option_bind]. rewrite Hpc, Hca. change (cancelled s1) with (cancelled s).
  rewrite bool_decide_eq_false_2 by done. cbn [orb negb]. eexists. split; [done|]. cbn.
  rewrite Hr, Hst, lookup_delete_eq, lookup_insert_eq. by split_and!.
Qed.

(** ** The log writer *)

(** The bytes a writer has been given: the emitted lines, each with its newline,
    then the unfinished line. *)
Definition written (w : list (list Z) * list Z) : list Z :=
  concat (map (λ line, line ++ [newline]) (fst w)) ++ snd w.

(** Whatever the chunks the process writes, no byte is lost or reordered and the
    emitted lines are its lines. *)
Lemma Write_written p : ∀ w,
  written (Write w p) = written w ++ p ∧
  (Forall (λ line, newline ∉ line) (snd w :: fst w) →
   Forall (λ line, newline ∉ line) (snd (Write w p) :: fst (Write w p))).
Proof.
  induction p as [|b p IH]; intros [ls buf]; [by rewrite (right_id_L [] (++))|].
  destruct (IH (writeByte (ls, buf) b)) as [Hw Hn].
  change (Write (ls, buf) (b :: p)) with (Write (writeByte (ls, buf) b) p). rewrite Hw.
  unfold writeByte, written in *. destruct (Z.eqb_spec b newline) as [->|Hne]; cbn in *.
  - split; [rewrite map_app, concat_app; cbn; by rewrite ?app_nil_r, <- ?app_assoc|].
    intros [Hb Hl]%Forall_cons. apply Hn, Forall_cons. split; [set_solver|].
    apply Forall_app. by split; [|apply Forall_singleton].
  - split; [by rewrite <- ?app_assoc|].
    intros [Hb Hl]%Forall_cons. apply Hn, Forall_cons. split; [|done]. set_solver.
Qed.

Module Demo.

(** A core is started, published and running; another one is only published. *)
Definition launched : list event := [EStartCheck 0 7; EStartCommit 0 1; ELoopTop 1 0].
Definition started : list event := launched ++ [ELoopRun 1 true].

Lemma one_supervisor_witness :
  ∃ s, run started NewManager = Some s ∧
    (running s = true ↔ ∃ l lp, loops s !! l = Some lp ∧ gen lp = generation s) ∧
    processes s !! 0%nat = Some Running.
Proof.
  destruct (run started NewManager) as [s|] eqn:Hrun; [|vm_compute in Hrun; discriminate].
  exists s. split; [reflexivity|]. split.
  - apply (one_supervisor started s Hrun). reflexivity.
  - assert ((s ← run started NewManager; processes s !! 0%nat) = Some Running) as H by (vm_compute; reflexivity).
    rewrite Hrun in H. exact H.
Defined.

(** The core is stopped while it runs; its process ends and its goroutine leaves. *)
Definition after_stop : list event := [EStopKill 5; ERunReturns 1; ELoopAfter 1].

Lemma stop_retires_goroutines_witness :
  ∃ s1 s2, run (started ++ [EStopLock 5]) NewManager = Some s1 ∧ run after_stop s1 = Some s2 ∧
    running s1 = false.
Proof.
  destruct (run (started ++ [EStopLock 5]) NewManager) as [s1|] eqn:H1; [|vm_compute in H1; discriminate].
  destruct (run after_stop s1) as [s2|] eqn:H2.
  - exists s1, s2. split; [reflexivity|]. split; [exact H2|].
    exact (proj1 (stop_retires_goroutines started 5 s1 after_stop s2 H1 H2 ltac:(reflexivity))).
  - exfalso. assert ((s1 ← run (started ++ [EStopLock 5]) NewManager; run after_stop s1) ≠ None) as H
      by (vm_compute; discriminate). rewrite H1 in H. exact (H H2).
Defined.

Lemma stop_misses_a_launching_core_witness :
  ∃ s s', run launched NewManager = Some s ∧
    run [EStopLock 5; EStopKill 5; ELoopRun 1 true] s = Some s' ∧
    running s' = false ∧ stopping s' !! 5%nat = None ∧ processes s' !! 0%nat = Some Running.
Proof.
  destruct (run launched NewManager) as [s|] eqn:Hrun; [|vm_compute in Hrun; discriminate].
  exists s.
  assert ((s ← run launched NewManager; lp ← loops s !! 1%nat;
    Some (lp, bool_decide (ctx lp ∈ cancelled s), stopping s !! 5%nat)) =
    Some (mkLoop 1 7 Second (Launching 0), false, None)) as H by (vm_compute; reflexivity).
  rewrite Hrun in H. cbn [mbind option_bind] in H.
  destruct (loops s !! 1%nat) as [lp|] eqn:Hl; [|discriminate]. cbn [mbind option_bind] in H.
  injection H as -> Hc Hst.
  destruct (stop_misses_a_launching_core launched s 5 1 (mkLoop 1 7 Second (Launching 0)) 0 Hrun
    ltac:(reflexivity) Hl eq_refl) as (s' & H');
    [by apply bool_decide_eq_false in Hc|exact Hst|]. exists s'. by split.
Defined.

(** After that, a second [Start] runs a second core beside the first. *)
Example two_cores :
  (s ← run (launched ++ [EStopLock 5; EStopKill 5; ELoopRun 1 true] ++
            [EStartCheck 0 8; EStartCommit 0 2; ELoopTop 2 1; ELoopRun 2 true]) NewManager;
   Some (processes s !! 0%nat, processes s !! 1%nat)) = Some (Some Running, Some Running).
Proof. vm_compute. reflexivity. Qed.

End Demo.
