(* ===== verification/Frontend.v ===== *)
(** * Admission control of the REALITY frontend (frontend/main.go, frontend/status.go)

    The accept loop, the goroutine of each connection, the relay dials and the
    shared counters, as a transition system: each atomic operation is one event
    and the events of the tasks interleave freely. *)

From stdpp Require Import gmap.
From S2P Require Import Prelude.

Module Frontend.

(** [cfg.Inbound.Mode], after validation. *)
Inductive inbound_mode := Reality | Tls.

#[export] Instance inbound_mode_eq_dec : EqDecision inbound_mode.
Proof. solve_decision. Defined.

(** The settings the server reads. *)
Record config := mkConfig {
  Mode : inbound_mode;
  RelayEnabled : option bool;
  MaxConnections : Z;
  MaxRelays : Z
}.

(** The counters, all [atomic.Int64]. *)
Record Stats := mkStats {
  totalConns : Z;
  authed : Z;
  relays : Z;
  tunnels : Z;
  active : Z
}.

#[export] Instance eta_Stats : Eta Stats := fun s =>
  mkStats (totalConns s) (authed s) (relays s) (tunnels s) (active s).

Definition IncTotalConns (s : Stats) : Stats := s <| totalConns := i64 (totalConns s + 1) |>.
Definition IncAuthed (s : Stats) : Stats := s <| authed := i64 (authed s + 1) |>.
Definition IncRelays (s : Stats) : Stats := s <| relays := i64 (relays s + 1) |>.
Definition IncTunnels (s : Stats) : Stats := s <| tunnels := i64 (tunnels s + 1) |>.
Definition AddActive (s : Stats) (n : Z) : Stats := s <| active := i64 (active s + n) |>.
Definition Active (s : Stats) : Z := active s.

(** Where the accept loop is: in [Accept], past the limit check with a
    connection, past [AddActive(1)], or returned. *)
Inductive accept_pc := Accepting | Accepted (c : nat) | Counted (c : nat) | Returned.

(** Where the goroutine of a connection is: about to call [handleConn], in the
    handshake, serving, or with only its deferred [AddActive(-1)] left. *)
Inductive conn_pc := Spawned | Handshaking | Serving | Finishing.

#[export] Instance conn_pc_eq_dec : EqDecision conn_pc.
Proof. solve_decision. Defined.

(** A relay connection: its slot taken and the target being dialed, open, or
    closed (the slot is given back once). *)
Inductive relay_pc := Dialing | Open | Closed.

#[export] Instance relay_pc_eq_dec : EqDecision relay_pc.
Proof. solve_decision. Defined.

(** [relaySlots] is the number of tokens in the channel. *)
Record tunnelServer := mkServer {
  stats : Stats;
  relaySlots : Z;
  accept : accept_pc;
  conns : gmap nat conn_pc;
  relayConns : gmap nat relay_pc;
  ctxDone : bool
}.

#[export] Instance eta_server : Eta tunnelServer := fun s =>
  mkServer (stats s) (relaySlots s) (accept s) (conns s) (relayConns s) (ctxDone s).

Definition NewTunnelServer : tunnelServer := mkServer (mkStats 0 0 0 0 0) 0 Accepting ∅ ∅ false.

Section server.
Context (cfg : config).
Implicit Types (s : tunnelServer) (c d : nat).

Definition with_stats s (f : Stats → Stats) : tunnelServer := s <| stats := f (stats s) |>.
Definition set_conn s c (p : conn_pc) : tunnelServer := s <| conns := <[c := p]> (conns s) |>.
Definition set_relay s d (p : relay_pc) : tunnelServer :=
  s <| relayConns := <[d := p]> (relayConns s) |>.

(** ** The accept loop *)

(** [ln.Accept] returns connection [c]: over the limit it is closed. *)
Definition Accept s c : option tunnelServer :=
  match accept s with
  | Accepting =>
      match conns s !! c with
      | Some _ => None
      | None =>
          if MaxConnections cfg <=? Active (stats s) then Some s
          else Some (s <| accept := Accepted c |>)
      end
  | _ => None
  end.

(** [ln.Accept] fails: the loop ends if the context is done, else goes on. *)
Definition AcceptError s : option tunnelServer :=
  match accept s with
  | Accepting => Some (if ctxDone s then s <| accept := Returned |> else s)
  | _ => None
  end.

Definition Count s : option tunnelServer :=
  match accept s with
  | Accepted c => Some (with_stats (s <| accept := Counted c |>) (λ st, AddActive st 1))
  | _ => None
  end.

Definition Spawn s : option tunnelServer :=
  match accept s with
  | Counted c =>
      match conns s !! c with
      | Some _ => None
      | None => Some (set_conn (s <| accept := Accepting |>) c Spawned)
      end
  | _ => None
  end.

(** ** The goroutine of a connection *)

Definition ConnStart s c : option tunnelServer :=
  if decide (conns s !! c = Some Spawned)
  then Some (set_conn (with_stats s IncTotalConns) c Handshaking) else None.

(** The handshake succeeds, or fails: in REALITY mode a failure has been relayed. *)
Definition HandshakeOk s c : option tunnelServer :=
  if decide (conns s !! c = Some Handshaking)
  then Some (set_conn (with_stats s IncAuthed) c Serving) else None.

Definition HandshakeFails s c : option tunnelServer :=
  if decide (conns s !! c = Some Handshaking) then
    let s := match Mode cfg with Reality => with_stats s IncRelays | Tls => s end in
    Some (set_conn s c Finishing)
  else None.

(** A CONNECT request of the connection got a 2xx answer from the upstream. *)
Definition Tunnel s c : option tunnelServer :=
  if decide (conns s !! c = Some Serving) then Some (with_stats s IncTunnels) else None.

Definition ServeReturns s c : option tunnelServer :=
  if decide (conns s !! c = Some Serving) then Some (set_conn s c Finishing) else None.

(** The deferred [AddActive(-1)]. *)
Definition ConnEnds s c : option tunnelServer :=
  if decide (conns s !! c = Some Finishing) then
    Some (with_stats (s <| conns := delete c (conns s) |>) (λ st, AddActive st (-1)))
  else None.

(** ** Relay connections *)

Inductive dial_result := RelayDisabled | RelayLimitReached | ContextDone | SlotTaken.

(** The [select] of [dialContext]; [done] says whether the dial's context is
    done, [pick] is Go's choice when both cases are ready. *)
Definition select_slot s (done pick : bool) : dial_result :=
  if negb (default true (RelayEnabled cfg)) then RelayDisabled
  else
    let free := relaySlots s <? MaxRelays cfg in
    if free && (pick || negb done) then SlotTaken
    else if done then ContextDone
    else RelayLimitReached.

Definition Dial s d (done pick : bool) : option tunnelServer :=
  match Mode cfg, relayConns s !! d with
  | Reality, None =>
      match select_slot s done pick with
      | SlotTaken => Some (set_relay (s <| relaySlots := relaySlots s + 1 |>) d Dialing)
      | _ => Some s
      end
  | _, _ => None
  end.

(** [release()] receives from the channel: it waits while it is empty. *)
Definition release s : option tunnelServer :=
  if 0 <? relaySlots s then Some (s <| relaySlots := relaySlots s - 1 |>) else None.

Definition DialFails s d : option tunnelServer :=
  if decide (relayConns s !! d = Some Dialing)
  then s ← release s; Some (set_relay s d Closed) else None.

Definition DialOk s d : option tunnelServer :=
  if decide (relayConns s !! d = Some Dialing) then Some (set_relay s d Open) else None.

(** [relayConn.Close]: the slot is released by the first call only. *)
Definition Close s d : option tunnelServer :=
  match relayConns s !! d with
  | Some Open => s ← release s; Some (set_relay s d Closed)
  | Some Closed => Some s
  | _ => None
  end.

(** ** Steps *)

Inductive event :=
  | EAccept c | EAcceptError | ECount | ESpawn
  | EConnStart c | EHandshakeOk c | EHandshakeFails c | ETunnel c | EServeReturns c | EConnEnds c
  | EDial d (done pick : bool) | EDialFails d | EDialOk d | EClose d
  | ECancel.

Definition step s (e : event) : option tunnelServer :=
  match e with
  | EAccept c => Accept s c
  | EAcceptError => AcceptError s
  | ECount => Count s
  | ESpawn => Spawn s
  | EConnStart c => ConnStart s c
  | EHandshakeOk c => HandshakeOk s c
  | EHandshakeFails c => HandshakeFails s c
  | ETunnel c => Tunnel s c
  | EServeReturns c => ServeReturns s c
  | EConnEnds c => ConnEnds s c
  | EDial d done pick => Dial s d done pick
  | EDialFails d => DialFails s d
  | EDialOk d => DialOk s d
  | EClose d => Close s d
  | ECancel => Some (s <| ctxDone := true |>)
  end.

Fixpoint run (es : list event) s : option tunnelServer :=
  match es with
  | [] => Some s
  | e :: es => s' ← step s e; run es s'
  end.

End server.
End Frontend.
