(* ===== verification/FrontendSpec.v ===== *)
(** * Theorems about the admission control of the REALITY frontend

    The connection limit, the relay slots, and the counters of the status page. *)

From stdpp Require Import gmap.
From S2P Require Import Prelude Counting Frontend.

Import Frontend.

Section frontend.
Context (cfg : config).
Implicit Types (s : tunnelServer) (c d : nat).

(** Accepted connections the accept loop still holds. *)
Definition in_hand s : Z := match accept s with Counted _ => 1 | _ => 0 end.
Definition pending s : Z := match accept s with Accepted _ => 1 | _ => 0 end.

Definition handlers s : Z := mcount (λ _, true) (conns s).
Definition started s : Z := mcount (λ p, negb (bool_decide (p = Spawned))) (conns s).
Definition handshakes s : Z := mcount (λ p, bool_decide (p = Handshaking)) (conns s).
Definition live_relays s : Z := mcount (λ p, negb (bool_decide (p = Closed))) (relayConns s).

(** The invariant after [n] steps. *)
Record inv (n : Z) s : Prop := {
  i_active : active (stats s) = handlers s + in_hand s;
  i_limit : handlers s + in_hand s + pending s <= MaxConnections cfg;
  i_slots : relaySlots s = live_relays s;
  i_cap : live_relays s <= MaxRelays cfg;
  i_counters : 0 <= authed (stats s) ∧ 0 <= relays (stats s) ∧ 0 <= tunnels (stats s) ∧
    authed (stats s) + relays (stats s) + handshakes s <= totalConns (stats s) ∧
    (Mode cfg = Reality →
      authed (stats s) + relays (stats s) + handshakes s = totalConns (stats s));
  i_steps : totalConns (stats s) <= n ∧ tunnels (stats s) <= n
}.

Lemma server_inv_mono n m s : n <= m → inv n s → inv m s.
Proof. intros ? []. split; try done; lia. Qed.

Ltac unfold_counts :=
  unfold handlers, started, handshakes, live_relays, in_hand, pending, with_stats, set_conn, set_relay,
    IncTotalConns, IncAuthed, IncRelays, IncTunnels, AddActive in *; cbn -[mcount] in *.

(** What each map operation does to the counts. *)
Lemma handlers_pos m c p : m !! c = Some p → 0 < mcount (λ _ : conn_pc, true) m.
Proof. intros. by eapply mcount_pos. Qed.

Ltac case_step H :=
  repeat match type of H with
  | Some _ = Some _ => injection H as <-
  | None = Some _ => discriminate H
  | (_ ≫= _) = Some _ => apply bind_Some in H as (? & ? & H)
  | (match ?x with _ => _ end) = Some _ => destruct x eqn:?
  end.

(** Recompute the counts after the change of one entry. *)
Ltac recount :=
  unfold_counts;
  repeat match goal with
  | H : ?m !! ?k = Some ?y |- context [mcount ?P (<[?k:=?x]> ?m)] =>
      rewrite (mcount_update P m k x y H)
  | H : ?m !! ?k = None |- context [mcount ?P (<[?k:=?x]> ?m)] =>
      rewrite (mcount_fresh P m k x H)
  | H : ?m !! ?k = Some ?y |- context [mcount ?P (delete ?k ?m)] =>
      rewrite (mcount_delete P m k y H)
  end;
  repeat match goal with
  | |- context [bool_decide (?x = ?y)] =>
      first [rewrite (bool_decide_eq_true_2 (x = y)) by reflexivity
            |rewrite (bool_decide_eq_false_2 (x = y)) by discriminate]
  end; cbn [negb Z.b2z].

(** Use what is known of the accept loop. *)
Ltac settle_accept :=
  unfold in_hand, pending in *;
  repeat match goal with
  | H : accept ?s = _ |- _ => rewrite H in *; clear H
  | |- context [ctxDone ?s] => destruct (ctxDone s)
  | |- context [match Mode ?c with _ => _ end] => destruct (Mode c) eqn:?
  end.

Lemma select_slot_taken s done pick :
  select_slot cfg s done pick = SlotTaken → relaySlots s < MaxRelays cfg.
Proof.
  unfold select_slot. destruct (default true (RelayEnabled cfg)); [|done]. cbn [negb].
  destruct (Z.ltb_spec (relaySlots s) (MaxRelays cfg)); [done|]. by destruct done.
Qed.

Lemma server_step_inv n s e s' :
  0 <= MaxConnections cfg < 9223372036854775808 → 0 <= n → n + 1 < 9223372036854775808 →
  inv n s → step cfg s e = Some s' → inv (n + 1) s'.
Proof.
  intros Hmax Hn Hn1 Hi Hstep. apply (server_inv_mono n (n + 1)) in Hi as Hi1; [|lia].
  pose proof (mcount_nonneg (λ _ : conn_pc, true) (conns s)).
  pose proof (mcount_nonneg (λ p, bool_decide (p = Handshaking)) (conns s)).
  destruct Hi as [H1 H2 H3 H4 (H5 & H6 & H7 & H8 & H9) [H10 H11]].
  destruct e; cbn [step] in Hstep;
    unfold Accept, AcceptError, Count, Spawn, ConnStart, HandshakeOk, HandshakeFails, Tunnel,
      ServeReturns, ConnEnds, Dial, DialFails, DialOk, Close, release in Hstep;
    case_step Hstep; try done.
  all: repeat match goal with
    | H : (if ?b then Some _ else None) = Some _ |- _ => destruct b eqn:?; [injection H as <-|discriminate H]
    | H : select_slot _ _ _ _ = SlotTaken |- _ => apply select_slot_taken in H
    | H : _ !! _ = Some _ |- _ =>
        lazymatch goal with
        | _ : 0 < mcount (λ _ : conn_pc, true) _ |- _ => fail
        | _ => pose proof (handlers_pos _ _ _ H)
        end
    end.
  all: settle_accept; try done.
  all: split; recount; unfold Active in *; rewrite ?i64_id by mach; try done; split_and?; intros;
    try (specialize (H9 ltac:(first [assumption|reflexivity]))); try congruence; try lia.
  destruct (accept s); rewrite i64_id by mach; lia.
Qed.

Lemma server_run_inv es : ∀ n s s',
  0 <= MaxConnections cfg < 9223372036854775808 → 0 <= n → n + len es < 9223372036854775808 →
  inv n s → run cfg es s = Some s' → inv (n + len es) s'.
Proof.
  induction es as [|e es IH]; intros n s s' Hmax Hn Hlen Hi Hrun; cbn in Hrun.
  - injection Hrun as <-. unfold len. cbn. by rewrite Z.add_0_r.
  - apply bind_Some in Hrun as (s1 & Hstep & Hrun). rewrite len_cons in *. pose proof (len_nonneg es).
    replace (n + (len es + 1)) with (n + 1 + len es) by lia. apply (IH (n + 1) s1); try done; try lia.
    by apply (server_step_inv n s e); try lia.
Qed.

Lemma new_inv : 0 <= MaxConnections cfg → 0 <= MaxRelays cfg → inv 0 NewTunnelServer.
Proof.
  intros Hc Hr. split; unfold handlers, live_relays, handshakes, in_hand, pending; cbn -[mcount];
    rewrite ?mcount_empty; try done; try lia.
Qed.

(** What validation guarantees of the limits, and a trace too short for the
    64-bit counters to wrap. *)
Definition valid_limits : Prop :=
  0 <= MaxConnections cfg < 9223372036854775808 ∧ 0 <= MaxRelays cfg.
Definition short (es : list event) : Prop := len es < 9223372036854775807.

Lemma reachable_inv es s :
  valid_limits → short es → run cfg es NewTunnelServer = Some s → inv (len es) s.
Proof.
  intros [Hc Hr] Hs Hrun. unfold short in Hs.
  apply (server_run_inv es 0 NewTunnelServer s); [done|done|lia|apply new_inv; lia|done].
Qed.

(** C16. The connection limit is exact: however accepts, handshakes, tunnels and
    ends interleave, the active counter is the number of connections being
    handled (plus the one the accept loop is about to hand over) and never
    exceeds [MaxConnections]; a connection is turned away only when exactly
    [MaxConnections] are being handled, and admitted whenever fewer are. *)
Theorem connection_limit_is_exact es s c :
  valid_limits → short es → run cfg es NewTunnelServer = Some s →
  0 <= active (stats s) <= MaxConnections cfg ∧
  active (stats s) = handlers s + in_hand s ∧
  (accept s = Accepting → conns s !! c = None →
    Accept cfg s c = Some s ∧ handlers s = MaxConnections cfg ∨
    Accept cfg s c = Some (s <| accept := Accepted c |>) ∧ handlers s < MaxConnections cfg).
Proof.
  intros Hv Hs Hrun. destruct (reachable_inv es s Hv Hs Hrun) as [H1 H2 _ _ _ _].
  pose proof (mcount_nonneg (λ _ : conn_pc, true) (conns s)).
  unfold handlers, in_hand, pending in *. split_and!; [destruct (accept s); lia..|done|].
  intros Ha Hc. rewrite Ha in *. unfold Accept. rewrite Ha, Hc. unfold Active.
  destruct (Z.leb_spec (MaxConnections cfg) (active (stats s))); [left|right]; (split; [done|lia]).
Qed.

(** C17. Relay slots are neither leaked nor released twice: the tokens in the
    channel are the relay connections being dialed or open, at most [MaxRelays];
    giving a slot back never blocks and frees exactly one, closing a relay
    connection again changes nothing, and a dial is refused for the limit exactly
    when [MaxRelays] are live. *)
Theorem relay_slots_balance es s d :
  valid_limits → short es → run cfg es NewTunnelServer = Some s →
  relaySlots s = live_relays s ∧ live_relays s <= MaxRelays cfg ∧
  (relayConns s !! d = Some Dialing → ∃ s', DialFails s d = Some s' ∧ relaySlots s' = relaySlots s - 1) ∧
  (relayConns s !! d = Some Open → ∃ s', Close s d = Some s' ∧ relaySlots s' = relaySlots s - 1 ∧
    Close s' d = Some s') ∧
  (default true (RelayEnabled cfg) = true → ∀ pick,
    select_slot cfg s false pick = RelayLimitReached ↔ live_relays s = MaxRelays cfg).
Proof.
  intros Hv Hs Hrun. destruct (reachable_inv es s Hv Hs Hrun) as [_ _ H3 H4 _ _].
  assert (∀ p, relayConns s !! d = Some p → p ≠ Closed → 0 < relaySlots s) as Hpos.
  { intros p Hp Hne. rewrite H3. apply (mcount_pos _ _ d p Hp).
    by rewrite bool_decide_eq_false_2. }
  split_and!; [done|done| | |].
  - intros Hd. specialize (Hpos _ Hd ltac:(done)). unfold DialFails, release.
    rewrite decide_True by done. replace (0 <? relaySlots s) with true by lia.
    by eexists.
  - intros Hd. specialize (Hpos _ Hd ltac:(done)). unfold Close at 1, release. rewrite Hd.
    replace (0 <? relaySlots s) with true by lia. eexists. split_and!; [done..|].
    unfold Close. cbn. by rewrite lookup_insert_eq.
  - intros He pick. unfold select_slot. rewrite He. cbn [negb]. rewrite orb_true_r, andb_true_r.
    destruct (Z.ltb_spec (relaySlots s) (MaxRelays cfg)); split; try done; lia.
Qed.

(** The status counters add up: every connection that was started is counted
    once and, once its handshake is over, once more as authenticated or (in REALITY
    mode) as relayed, never both; so authenticated plus relayed plus the
    handshakes in progress is at most the total, and exactly the total in REALITY
    mode, and no counter is negative. *)
Theorem status_counters_add_up es s :
  valid_limits → short es → run cfg es NewTunnelServer = Some s →
  0 <= authed (stats s) ∧ 0 <= relays (stats s) ∧ 0 <= tunnels (stats s) ∧
  authed (stats s) + relays (stats s) + handshakes s <= totalConns (stats s) ∧
  (Mode cfg = Reality →
    authed (stats s) + relays (stats s) + handshakes s = totalConns (stats s)).
Proof. intros Hv Hs Hrun. apply (i_counters _ _ (reachable_inv es s Hv Hs Hrun)). Qed.

End frontend.

Module Demo.

(** One connection at a time, one relay. *)
Definition cfg : config := mkConfig Reality None 1 1.

(** A connection is handled while a second is offered; its handshake relays. *)
Definition trace : list event :=
  [EAccept 0; ECount; ESpawn; EConnStart 0; EDial 0 false true; EDialOk 0].

Lemma server_run_fact {A} es (f : tunnelServer → A) a :
  (s ← run cfg es NewTunnelServer; Some (f s)) = Some a →
  ∃ s, run cfg es NewTunnelServer = Some s ∧ f s = a.
Proof. destruct (run cfg es NewTunnelServer) as [s|]; [|done]. cbn. intros [= <-]. by exists s. Qed.

Definition conn_probe (s : tunnelServer) : Z * option conn_pc * accept_pc :=
  (active (stats s), conns s !! 1%nat, accept s).
Definition relay_probe (s : tunnelServer) : Z * option relay_pc :=
  (relaySlots s, relayConns s !! 0%nat).

Lemma cfg_valid : valid_limits cfg.
Proof. by split. Qed.

Lemma connection_limit_is_exact_witness :
  ∃ s, run cfg trace NewTunnelServer = Some s ∧ active (stats s) = 1 ∧
    active (stats s) <= MaxConnections cfg ∧ Accept cfg s 1 = Some s.
Proof.
  destruct (server_run_fact trace conn_probe (1, None, Accepting)
    ltac:(vm_compute; reflexivity)) as (s & Hrun & Hf). injection Hf as Hact Hc Ha.
  destruct (connection_limit_is_exact cfg trace s 1 cfg_valid ltac:(reflexivity) Hrun)
    as ([_ Hle] & Heq & Hoff). exists s. split; [exact Hrun|]. split; [exact Hact|]. split; [exact Hle|].
  destruct (Hoff Ha Hc) as [[H _]|[_ H]]; [exact H|]. unfold in_hand in Heq. rewrite Ha, Hact in Heq.
  cbn in H. lia.
Defined.

Lemma relay_slots_balance_witness :
  ∃ s, run cfg trace NewTunnelServer = Some s ∧ relaySlots s = 1 ∧
    (∃ s', Close s 0 = Some s' ∧ relaySlots s' = relaySlots s - 1 ∧ Close s' 0 = Some s').
Proof.
  destruct (server_run_fact trace relay_probe (1, Some Open)
    ltac:(vm_compute; reflexivity)) as (s & Hrun & Hf). injection Hf as Hslots Hopen.
  exists s. split; [exact Hrun|]. split; [exact Hslots|].
  apply (relay_slots_balance cfg trace s 0 cfg_valid ltac:(reflexivity) Hrun). exact Hopen.
Defined.

Lemma status_counters_add_up_witness :
  ∃ s, run cfg (trace ++ [EHandshakeFails 0]) NewTunnelServer = Some s ∧
    authed (stats s) + relays (stats s) + handshakes s = totalConns (stats s) ∧ relays (stats s) = 1.
Proof.
  destruct (server_run_fact (trace ++ [EHandshakeFails 0]) (λ s, relays (stats s)) 1
    ltac:(vm_compute; reflexivity)) as (s & Hrun & Hr). exists s. split; [exact Hrun|]. split; [|exact Hr].
  apply (status_counters_add_up cfg (trace ++ [EHandshakeFails 0]) s cfg_valid ltac:(reflexivity) Hrun).
  reflexivity.
Defined.

End Demo.
