(* ===== verification/GoText.v ===== *)
(** * Text functions of the Go library

    A Go string is its list of bytes.  The functions of the standard library
    that the configuration code calls, written out: [strings.TrimSpace],
    [net.SplitHostPort], [hex.DecodeString] and [base64.RawURLEncoding]. *)

From Stdlib Require Export Ascii.
From S2P Require Import Prelude.

Abbreviation text := (list ascii).

Definition bytes (s : string) : text := String.list_ascii_of_string s.
Definition of_bytes (l : text) : string := String.string_of_list_ascii l.

Lemma of_bytes_bytes s : of_bytes (bytes s) = s.
Proof. apply String.string_of_list_ascii_of_string. Qed.

Lemma bytes_of_bytes l : bytes (of_bytes l) = l.
Proof. apply String.list_ascii_of_string_of_list_ascii. Qed.

Lemma bytes_app s t : bytes (s +:+ t) = bytes s ++ bytes t.
Proof.
  induction s as [|c s IH]; [done|].
  change (c :: bytes (s +:+ t) = c :: (bytes s ++ bytes t)). by rewrite IH.
Qed.

Lemma bytes_inj s t : bytes s = bytes t → s = t.
Proof. intros H. by rewrite <- (of_bytes_bytes s), <- (of_bytes_bytes t), H. Qed.

Definition code (c : ascii) : Z := Z.of_nat (nat_of_ascii c).
Definition byte (z : Z) : ascii := ascii_of_nat (Z.to_nat z).

(** Position of the first and of the last occurrence of a byte. *)
Fixpoint IndexByte (l : text) (c : ascii) : Z :=
  match l with
  | [] => -1
  | x :: l => if bool_decide (x = c) then 0
              else let i := IndexByte l c in if i <? 0 then -1 else i + 1
  end.

Fixpoint LastIndexByte (l : text) (c : ascii) : Z :=
  match l with
  | [] => -1
  | x :: l => let i := LastIndexByte l c in
              if 0 <=? i then i + 1 else if bool_decide (x = c) then 0 else -1
  end.

(** ** strings.TrimSpace *)

(** The UTF-8 encodings of the characters [unicode.IsSpace] accepts. *)
Definition space_encodings : list text :=
  map (map byte)
    ([[9]; [10]; [11]; [12]; [13]; [32]; [194; 133]; [194; 160]; [225; 154; 128]] ++
     map (λ k, [226; 128; 128 + k]) [0; 1; 2; 3; 4; 5; 6; 7; 8; 9; 10; 40; 41; 47] ++
     [[226; 129; 159]; [227; 128; 128]]).

(** The rest of [l] after the prefix [p]. *)
Fixpoint after_prefix (p l : text) : option text :=
  match p, l with
  | [], _ => Some l
  | x :: p, y :: l => if bool_decide (x = y) then after_prefix p l else None
  | _ :: _, [] => None
  end.

Lemma after_prefix_Some p l l' : after_prefix p l = Some l' ↔ l = p ++ l'.
Proof.
  revert l. induction p as [|x p IH]; intros l; cbn; [naive_solver|].
  destruct l as [|y l]; [done|]. case_bool_decide; [rewrite IH|]; naive_solver.
Qed.

Lemma after_prefix_app p l : after_prefix p (p ++ l) = Some l.
Proof. by apply after_prefix_Some. Qed.

(** Drop one of the encodings from the front, if one is there. *)
Fixpoint drop_one (encs : list text) (l : text) : option text :=
  match encs with
  | [] => None
  | e :: encs => match after_prefix e l with Some l' => Some l' | None => drop_one encs l end
  end.

Fixpoint trim_front (fuel : nat) (encs : list text) (l : text) : text :=
  match fuel with
  | O => l
  | S fuel => match drop_one encs l with Some l' => trim_front fuel encs l' | None => l end
  end.

Definition trim_left (l : text) : text := trim_front (length l) space_encodings l.
Definition trim_right (l : text) : text :=
  reverse (trim_front (length l) (map reverse space_encodings) (reverse l)).

Definition TrimSpace (s : string) : string := of_bytes (trim_right (trim_left (bytes s))).

(** ** net.SplitHostPort *)

Definition SplitHostPort (hostport : string) : fallible (string * string) :=
  let l := bytes hostport in
  let i := LastIndexByte l ":"%char in
  if i <? 0 then fail "missing port in address"
  else
    first ← slice_get l 0;
    '(host, j, k) ←?
      (if bool_decide (first = "["%char) then
         let stop := IndexByte l "]"%char in
         if stop <? 0 then fail "missing ']' in address"
         else if stop + 1 =? len l then fail "missing port in address"
         else if stop + 1 =? i then
           h ← slice_to l stop; host ← slice_from h 1; ret (host, 1, stop + 1)
         else
           c ← slice_get l (stop + 1);
           if bool_decide (c = ":"%char) then fail "too many colons in address"
           else fail "missing port in address"
       else
         host ← slice_to l i;
         if 0 <=? IndexByte host ":"%char then fail "too many colons in address"
         else ret (host, 0, 0));
    tj ← slice_from l j;
    if 0 <=? IndexByte tj "["%char then fail "unexpected '[' in address"
    else
      tk ← slice_from l k;
      if 0 <=? IndexByte tk "]"%char then fail "unexpected ']' in address"
      else
        port ← slice_from l (i + 1);
        ret (of_bytes host, of_bytes port).

(** ** Hexadecimal and base64 *)

Definition fromHexChar (c : ascii) : option Z :=
  let n := code c in
  if (48 <=? n) && (n <=? 57) then Some (n - 48)
  else if (97 <=? n) && (n <=? 102) then Some (n - 87)
  else if (65 <=? n) && (n <=? 70) then Some (n - 55)
  else None.

(** [hex.DecodeString]: [None] is an error. *)
Fixpoint hexDecode (l : text) : option (list Z) :=
  match l with
  | [] => Some []
  | a :: b :: l =>
      match fromHexChar a, fromHexChar b with
      | Some x, Some y => rest ← hexDecode l; Some (16 * x + y :: rest)
      | _, _ => None
      end
  | [_] => None
  end.

(** The value of a character of the URL alphabet. *)
Definition base64Value (c : ascii) : option Z :=
  let n := code c in
  if (65 <=? n) && (n <=? 90) then Some (n - 65)
  else if (97 <=? n) && (n <=? 122) then Some (n - 71)
  else if (48 <=? n) && (n <=? 57) then Some (n + 4)
  else if n =? 45 then Some 62
  else if n =? 95 then Some 63
  else None.

(** Groups of four characters give three bytes; a last group of two or three
    gives one or two, its leftover bits being ignored. *)
Fixpoint base64Groups (l : list Z) : option (list Z) :=
  match l with
  | [] => Some []
  | [a; b] => Some [4 * a + Z.shiftr b 4]
  | [a; b; c] => Some [4 * a + Z.shiftr b 4; u8 (Z.shiftl b 4) + Z.shiftr c 2]
  | a :: b :: c :: d :: l =>
      rest ← base64Groups l;
      Some (4 * a + Z.shiftr b 4 :: u8 (Z.shiftl b 4) + Z.shiftr c 2 :: u8 (Z.shiftl c 6) + d :: rest)
  | [_] => None
  end.

(** [base64.RawURLEncoding.DecodeString]: line breaks are skipped. *)
Definition base64Decode (l : text) : option (list Z) :=
  vs ← mapM base64Value
    (filter (λ c, code c ≠ 10 ∧ code c ≠ 13) l);
  base64Groups vs.

Example split_plain : SplitHostPort "example.com:443" = ret ("example.com", "443").
Proof. vm_compute. reflexivity. Qed.

Example split_v6 : SplitHostPort "[2001:db8::1]:53" = ret ("2001:db8::1", "53").
Proof. vm_compute. reflexivity. Qed.

Example split_bare_v6 : SplitHostPort "2001:db8::1" = fail "too many colons in address".
Proof. vm_compute. reflexivity. Qed.

Example trim_example : TrimSpace "  a b	 " = "a b".
Proof. vm_compute. reflexivity. Qed.

Example base64_example : base64Decode (bytes "aGVsbG8_") = Some [104; 101; 108; 108; 111; 63].
Proof. vm_compute. reflexivity. Qed.

(** ** Facts *)

Lemma IndexByte_range l c : -1 <= IndexByte l c < len l.
Proof.
  induction l as [|x l IH]; [cbn; unfold len; cbn; lia|]. cbn [IndexByte]. rewrite len_cons.
  pose proof (len_nonneg l). case_bool_decide; [lia|]. cbn zeta.
  destruct (Z.ltb_spec (IndexByte l c) 0); lia.
Qed.

Lemma LastIndexByte_range l c : -1 <= LastIndexByte l c < len l.
Proof.
  induction l as [|x l IH]; [cbn; unfold len; cbn; lia|]. cbn [LastIndexByte]. rewrite len_cons.
  pose proof (len_nonneg l). cbn zeta. destruct (Z.leb_spec 0 (LastIndexByte l c)); [lia|].
  case_bool_decide; lia.
Qed.

Lemma IndexByte_head l c : IndexByte l c = 0 → l !! 0%nat = Some c.
Proof.
  destruct l as [|x l]; cbn [IndexByte]; [lia|]. case_bool_decide; [by subst|]. cbn zeta.
  destruct (Z.ltb_spec (IndexByte l c) 0); lia.
Qed.

(** [SplitHostPort] never indexes out of range. *)
Section SplitHostPort_returns.
Context (l : text) (i : Z) (Hi : 0 <= i < len l).

(** The host part: where it ends and the tails that are searched stay in range. *)
Lemma split_host_returns first :
  l !! 0%nat = Some first →
  returns (if bool_decide (first = "["%char) then
         let stop := IndexByte l "]"%char in
         if stop <? 0 then fail "missing ']' in address"
         else if stop + 1 =? len l then fail "missing port in address"
         else if stop + 1 =? i then
           h ← slice_to l stop; host ← slice_from h 1; ret (host, 1, stop + 1)
         else
           c ← slice_get l (stop + 1);
           if bool_decide (c = ":"%char) then fail "too many colons in address"
           else fail "missing port in address"
       else
         host ← slice_to l i;
         if 0 <=? IndexByte host ":"%char then fail "too many colons in address"
         else ret (host, 0, 0))
    (ok_with (λ r : text * Z * Z, 0 <= r.1.2 <= len l ∧ 0 <= r.2 <= len l)).
Proof using Hi.
  intros Hf. pose proof (IndexByte_range l "]"%char) as Hs. case_bool_decide as Hb.
  - subst first. cbn zeta. destruct (Z.ltb_spec (IndexByte l "]"%char) 0); [by apply returns_ok|].
    destruct (Z.eqb_spec (IndexByte l "]"%char + 1) (len l)); [by apply returns_ok|].
    destruct (Z.eqb_spec (IndexByte l "]"%char + 1) i).
    + rewrite slice_to_ok by lia. cbn [mbind result_bind].
      assert (IndexByte l "]"%char ≠ 0) by (intros ?%IndexByte_head; congruence).
      rewrite slice_from_ok by (unfold len in *; rewrite length_take; lia).
      apply returns_ok. cbn. lia.
    + eapply returns_bind; [apply slice_get_returns; lia|]. intros c _.
      case_bool_decide; by apply returns_ok.
  - rewrite slice_to_ok by lia. cbn [mbind result_bind].
    destruct (0 <=? _); [by apply returns_ok|]. apply returns_ok. cbn. lia.
Qed.

End SplitHostPort_returns.

Lemma SplitHostPort_returns s : returns (SplitHostPort s) (ok_with (λ _, True)).
Proof.
  unfold SplitHostPort. set (l := bytes s). cbn zeta.
  pose proof (LastIndexByte_range l ":"%char) as Hi.
  destruct (Z.ltb_spec (LastIndexByte l ":"%char) 0); [by apply returns_ok|].
  eapply returns_bind; [apply (slice_get_returns l 0); lia|]. intros first Hf.
  eapply try_returns; [apply split_host_returns; [lia|done]|].
  intros [[host j] k] [Hj Hk]. cbn in Hj, Hk.
  assert (∀ (b : bool) e m, returns m (ok_with (λ _, True)) →
    returns (if b then fail (A:=string * string) e else m) (ok_with (λ _, True))) as Hif.
  { intros [] ? ? ?; [by apply returns_ok|done]. }
  rewrite (slice_from_ok l j) by lia. cbn [mbind result_bind]. apply Hif.
  rewrite (slice_from_ok l k) by lia. cbn [mbind result_bind]. apply Hif.
  rewrite slice_from_ok by lia. by apply returns_ok.
Qed.
