(* ===== verification/FrontendConfig.v ===== *)
(** * Configuration of the REALITY frontend (frontend/config.go, frontend/reality.go)

    Defaults, validation, and the settings handed to the REALITY library.  The
    file system is a parameter; an error carries the fixed part of its message. *)

From stdpp Require Import gmap.
From S2P Require Import Prelude GoText.

Module FrontendConfig.

Record RealityConfig := mkReality {
  PrivateKey : string;
  ShortIDs : list string;
  ServerNames : list string;
  Target : string;
  RelayEnabled : option bool;
  MaxTimeDiff : Z
}.

Record TLSConfig := mkTLS { Cert : string; Key : string }.

Record InboundConfig := mkInbound {
  Listen : string;
  Mode : string;
  Reality : RealityConfig;
  TLS : TLSConfig
}.

(** Durations are in nanoseconds. *)
Record LimitsConfig := mkLimits {
  MaxConnections : Z;
  MaxRelays : Z;
  HandshakeTimeout : Z;
  IdleTimeout : Z
}.

Record StatusConfig := mkStatus { HTTP : string; Token : string }.

(** [Upstream.Addr] is flattened into [UpstreamAddr]. *)
Record Config := mkConfig {
  LogLevel : string;
  Inbound : InboundConfig;
  UpstreamAddr : string;
  Limits : LimitsConfig;
  Status : StatusConfig
}.

#[export] Instance eta_Reality : Eta RealityConfig := fun r =>
  mkReality (PrivateKey r) (ShortIDs r) (ServerNames r) (Target r) (RelayEnabled r) (MaxTimeDiff r).
#[export] Instance eta_Inbound : Eta InboundConfig := fun i =>
  mkInbound (Listen i) (Mode i) (Reality i) (TLS i).
#[export] Instance eta_Config : Eta Config := fun c =>
  mkConfig (LogLevel c) (Inbound c) (UpstreamAddr c) (Limits c) (Status c).

(** [if s == "" { s = def }] and [if n == 0 { n = def }] *)
Definition or_default (s def : string) : string := if bool_decide (s = "") then def else s.
Definition or_default_int (n def : Z) : Z := if n =? 0 then def else n.

Definition check (ok : bool) (e : string) : fallible unit := if ok then ret () else fail e.
Definition one_of (s : string) (l : list string) : bool := bool_decide (s ∈ l).

(** [if _, _, err := net.SplitHostPort(s); err != nil { return ... }] *)
Definition check_address (s e : string) : fallible unit :=
  r ← SplitHostPort s;
  match r with inl _ => fail e | inr _ => ret () end.

(** ** Keys and identifiers *)

(** The base64url-encoded 32-byte X25519 private key. *)
Definition parseRealityPrivateKey (s : string) : fallible (list Z) :=
  match base64Decode (bytes (TrimSpace s)) with
  | None => fail "inbound.reality.private_key: expect base64url"
  | Some b => if negb (len b =? 32) then fail "inbound.reality.private_key: want 32 bytes" else ret b
  end.

(** One short ID: at most 16 hexadecimal digits, right-padded to 8 bytes. *)
Definition parseShortID (s : string) : fallible (list Z) :=
  let id := replicate 8 0 in
  if bool_decide (s = "") then ret id
  else
    match hexDecode (bytes (TrimSpace s)) with
    | None => fail "inbound.reality.short_ids"
    | Some b => if 8 <? len b then fail "inbound.reality.short_ids" else ret (go_copy id b)
    end.

Fixpoint parseShortIDs_from (m : gset (list Z)) (l : list string) : fallible (gset (list Z)) :=
  match l with
  | [] => ret m
  | s :: l => id ←? parseShortID s; parseShortIDs_from ({[ id ]} ∪ m) l
  end.

Definition parseShortIDs (l : list string) : fallible (gset (list Z)) := parseShortIDs_from ∅ l.

(** The loop over [ServerNames]. *)
Fixpoint trimServerNames (names : list string) : fallible (list string) :=
  match names with
  | [] => ret []
  | name :: names =>
      let name := TrimSpace name in
      if bool_decide (name = "") then fail "inbound.reality.server_names must not be empty"
      else names ←? trimServerNames names; ret (name :: names)
  end.

(** ** Validation *)

Section validation.
(** Whether [os.Stat] succeeds on a path. *)
Context (Stat : string → bool).

(** The REALITY settings. *)
Definition validateReality (r : RealityConfig) : fallible RealityConfig :=
  _ ←? check (negb (bool_decide (PrivateKey r = ""))) "inbound.reality.private_key is required in reality mode";
  _ ←? check (negb (len (ServerNames r) =? 0)) "inbound.reality.server_names must contain at least one SNI";
  names ←? trimServerNames (ServerNames r);
  let r := r <| ServerNames := names |> in
  _ ←? parseRealityPrivateKey (PrivateKey r);
  _ ←? check (negb (len (ShortIDs r) =? 0)) "inbound.reality.short_ids must contain at least one ID";
  _ ←? parseShortIDs (ShortIDs r);
  _ ←? check (negb (MaxTimeDiff r <? 0)) "inbound.reality.max_time_diff must not be negative";
  first ← slice_get (ServerNames r) 0;
  let r := if bool_decide (Target r = "") then r <| Target := first +:+ ":443" |> else r in
  _ ←? check_address (Target r) "inbound.reality.target";
  ret r.

(** The certificate files. *)
Definition validateTLS (t : TLSConfig) : fallible unit :=
  _ ←? check (negb (bool_decide (Cert t = "")) && negb (bool_decide (Key t = "")))
         "inbound.tls.cert and inbound.tls.key are required in tls mode";
  _ ←? check (Stat (Cert t)) "inbound.tls.cert";
  check (Stat (Key t)) "inbound.tls.key".

(** The limits. *)
Definition validateLimits (l : LimitsConfig) : fallible LimitsConfig :=
  _ ←? check (negb (MaxConnections l <? 0)) "limits.max_connections must not be negative";
  _ ←? check (negb (MaxRelays l <? 0)) "limits.max_relays must not be negative";
  _ ←? check (negb (HandshakeTimeout l <? 0)) "limits.handshake_timeout must not be negative";
  _ ←? check (negb (IdleTimeout l <? 0)) "limits.idle_timeout must not be negative";
  ret (mkLimits (or_default_int (MaxConnections l) 1024) (or_default_int (MaxRelays l) 64)
         (or_default_int (HandshakeTimeout l) (10 * Second))
         (or_default_int (IdleTimeout l) (300 * Second))).

Definition validateStatus (s : StatusConfig) : fallible unit :=
  if bool_decide (HTTP s = "") then ret ()
  else
    _ ←? check_address (HTTP s) "status.http";
    check (negb (bool_decide (TrimSpace (Token s) = "")))
      "status.token is required when status.http is enabled".

Definition validateInbound (i : InboundConfig) : fallible InboundConfig :=
  let i := i <| Mode := or_default (Mode i) "reality" |> in
  _ ←? check (one_of (Mode i) ["reality"; "tls"]) "inbound.mode";
  if bool_decide (Mode i = "reality")
  then r ←? validateReality (Reality i); ret (i <| Reality := r |>)
  else _ ←? validateTLS (TLS i); ret i.

Definition applyDefaultsAndValidate (c : Config) : fallible Config :=
  let c := c <| LogLevel := or_default (LogLevel c) "info" |> in
  _ ←? check (one_of (LogLevel c) ["debug"; "info"; "warn"; "error"]) "log_level";
  let c := c <| Inbound := (Inbound c) <| Listen := or_default (Listen (Inbound c)) "0.0.0.0:443" |> |> in
  _ ←? check_address (Listen (Inbound c)) "inbound.listen";
  let c := c <| UpstreamAddr := or_default (UpstreamAddr c) "127.0.0.1:8080" |> in
  _ ←? check_address (UpstreamAddr c) "upstream.addr";
  i ←? validateInbound (Inbound c);
  l ←? validateLimits (Limits c);
  _ ←? validateStatus (Status c);
  ret (c <| Inbound := i |> <| Limits := l |>).

End validation.

(** ** The settings of the REALITY library (frontend/reality.go) *)

Record reality_Config := mkRealityConfig {
  rc_ServerNames : gset string;
  rc_PrivateKey : list Z;
  rc_ShortIds : gset (list Z);
  rc_MaxTimeDiff : Z;
  rc_Dest : string
}.

(** [ecdh.X25519().NewPrivateKey] rejects a key that is not 32 bytes long. *)
Definition NewPrivateKey (b : list Z) : fallible unit :=
  check (len b =? 32) "crypto/ecdh: invalid private key size".

Definition buildRealityConfig (c : Config) : fallible reality_Config :=
  let r := Reality (Inbound c) in
  priv ←? parseRealityPrivateKey (PrivateKey r);
  _ ←? NewPrivateKey priv;
  ids ←? parseShortIDs (ShortIDs r);
  ret (mkRealityConfig (list_to_set (ServerNames r)) priv ids
         (i64 (MaxTimeDiff r * Millisecond)) (Target r)).

End FrontendConfig.
