(* ===== verification/FrontendConfigSpec.v ===== *)
(** * Theorems about the configuration of the REALITY frontend

    Validation is idempotent, and what it accepts can be served. *)

From stdpp Require Import gmap.
From S2P Require Import Prelude GoText FrontendConfig.
From S2P Require Frontend FrontendSpec.

Import FrontendConfig.

(** ** Running code that may return an error *)

Lemma try_ret_inv {A B} (m : fallible A) (f : A → fallible B) y :
  try_bind m f = ret y → ∃ a, m = ret a ∧ f a = ret y.
Proof. destruct m as [[e|a]|p|]; cbn; try done. intros H. by exists a. Qed.

Lemma ret_inj {A} (a b : A) : ret a = ret b → a = b.
Proof. by injection 1. Qed.

Lemma check_inv ok e u : check ok e = ret u → ok = true.
Proof. by destruct ok. Qed.

Lemma check_ok ok e : ok = true → check ok e = ret ().
Proof. by intros ->. Qed.

(** Take a successful run of a validation function apart. *)
Ltac inv_try H :=
  repeat lazymatch type of H with
  | try_bind _ _ = ret _ =>
      let a := fresh "v" in let E := fresh "E" in apply try_ret_inv in H as (a & E & H)
  | (if ?b then _ else _) = ret _ => destruct b eqn:?
  end.

Lemma or_default_idem s def : or_default (or_default s def) def = or_default s def.
Proof. unfold or_default. repeat case_bool_decide; done. Qed.

Lemma or_default_int_idem n def : or_default_int (or_default_int n def) def = or_default_int n def.
Proof.
  unfold or_default_int. destruct (n =? 0) eqn:Hn; [by destruct (def =? 0)|by rewrite Hn].
Qed.

(** ** TrimSpace *)

Section trim.
Implicit Types (encs : list text) (l : text).

Lemma drop_one_Some encs l l' :
  drop_one encs l = Some l' → ∃ e, e ∈ encs ∧ l = e ++ l'.
Proof.
  induction encs as [|e encs IH]; cbn; [done|]. destruct (after_prefix e l) eqn:He.
  - injection 1 as ->. apply after_prefix_Some in He. exists e. split; [by left|done].
  - intros Hd. destruct (IH Hd) as (e' & Hin & ->). exists e'. split; [by right|done].
Qed.

Lemma drop_one_None encs l e l' : drop_one encs l = None → e ∈ encs → l ≠ e ++ l'.
Proof.
  induction encs as [|e' encs IH]; cbn; [by intros _ ?%elem_of_nil|].
  destruct (after_prefix e' l) eqn:He; [done|]. intros Hd [->|Hin]%elem_of_cons; [|by apply IH].
  intros Heq. apply after_prefix_Some in Heq. congruence.
Qed.

(** Every encoding is non-empty. *)
Definition nonempty encs : Prop := Forall (λ e, e ≠ []) encs.

Lemma trim_front_done encs : nonempty encs → ∀ fuel l,
  (length l <= fuel)%nat → drop_one encs (trim_front fuel encs l) = None.
Proof.
  intros Hne. induction fuel as [|fuel IH]; intros l Hl; cbn.
  - destruct l; [|cbn in Hl; lia]. destruct (drop_one encs []) eqn:Hd; [|done].
    apply drop_one_Some in Hd as (e & Hin & Heq). unfold nonempty in Hne.
    rewrite Forall_forall in Hne. specialize (Hne e Hin). by destruct e.
  - destruct (drop_one encs l) as [l'|] eqn:Hd; [|done]. apply IH.
    apply drop_one_Some in Hd as (e & Hin & ->). unfold nonempty in Hne.
    rewrite Forall_forall in Hne. specialize (Hne e Hin). rewrite length_app in Hl.
    destruct e; [done|cbn in Hl; lia].
Qed.

Lemma trim_front_fixed encs fuel l : drop_one encs l = None → trim_front fuel encs l = l.
Proof. destruct fuel; cbn; [done|]. by intros ->. Qed.

Lemma trim_front_suffix encs fuel l : ∃ pre, l = pre ++ trim_front fuel encs l.
Proof.
  revert l. induction fuel as [|fuel IH]; intros l; cbn; [by exists []|].
  destruct (drop_one encs l) as [l'|] eqn:Hd; [|by exists []].
  apply drop_one_Some in Hd as (e & _ & ->). destruct (IH l') as [pre Hpre].
  exists (e ++ pre). by rewrite <- (assoc_L (++)), <- Hpre.
Qed.

Lemma space_encodings_nonempty : nonempty space_encodings ∧ nonempty (map reverse space_encodings).
Proof. split; vm_compute; repeat constructor; done. Qed.

(** Trimming twice is trimming once. *)
Lemma trim_idem l : trim_right (trim_left (trim_right (trim_left l))) = trim_right (trim_left l).
Proof.
  destruct space_encodings_nonempty as [Hne Hner]. set (t := trim_right (trim_left l)).
  assert (drop_one space_encodings (trim_left l) = None) as Hleft by (by apply trim_front_done).
  assert (drop_one (map reverse space_encodings) (reverse t) = None) as Hright.
  { unfold t, trim_right. rewrite reverse_involutive. apply trim_front_done; [done|].
    by rewrite length_reverse. }
  assert (∃ post, trim_left l = t ++ post) as [post Hpost].
  { destruct (trim_front_suffix (map reverse space_encodings) (length (trim_left l)) (reverse (trim_left l)))
      as [pre Hpre]. exists (reverse pre).
    rewrite <- (reverse_involutive (trim_left l)), Hpre at 1. by rewrite reverse_app. }
  assert (trim_left t = t) as ->.
  { apply trim_front_fixed. destruct (drop_one space_encodings t) as [l'|] eqn:Hd; [|done].
    apply drop_one_Some in Hd as (e & Hin & Ht). exfalso.
    apply (drop_one_None _ _ e (l' ++ post) Hleft Hin). by rewrite Hpost, Ht, <- (assoc_L (++)). }
  unfold trim_right. rewrite trim_front_fixed by done. apply reverse_involutive.
Qed.

Lemma TrimSpace_idem s : TrimSpace (TrimSpace s) = TrimSpace s.
Proof. unfold TrimSpace. by rewrite bytes_of_bytes, trim_idem. Qed.

End trim.

(** ** Idempotence, part by part *)

Lemma trimServerNames_idem l : ∀ l',
  trimServerNames l = ret l' →
  trimServerNames l' = ret l' ∧ length l' = length l ∧ Forall (λ n, n ≠ "") l'.
Proof.
  induction l as [|n l IH]; intros l' Hrun; cbn [trimServerNames] in Hrun.
  - by apply ret_inj in Hrun as <-.
  - inv_try Hrun; [done|]. apply ret_inj in Hrun as <-. destruct (IH _ E) as (Hid & Hlen & Hall).
    cbn [trimServerNames]. rewrite TrimSpace_idem.
    match goal with H : bool_decide _ = false |- _ => rewrite H; apply bool_decide_eq_false in H end.
    rewrite Hid. cbn. split_and!; [done|by rewrite Hlen|by constructor].
Qed.

#[local] Arguments parseShortIDs : simpl never.
#[local] Arguments parseRealityPrivateKey : simpl never.
#[local] Arguments check_address : simpl never.
#[local] Arguments slice_get : simpl never.

(** What an accepted REALITY section consists of. *)
Definition reality_accepted (r r' : RealityConfig) : Prop :=
  ∃ names first key ids target,
    trimServerNames (ServerNames r) = ret names ∧ names !! 0%nat = Some first ∧
    parseRealityPrivateKey (PrivateKey r) = ret key ∧ parseShortIDs (ShortIDs r) = ret ids ∧
    ShortIDs r ≠ [] ∧ PrivateKey r ≠ "" ∧ 0 <= MaxTimeDiff r ∧
    target = or_default (Target r) (first +:+ ":443") ∧
    check_address target "inbound.reality.target" = ret () ∧
    r' = r <| ServerNames := names |> <| Target := target |>.

Lemma check_nonempty {A} (l : list A) e u : check (negb (len l =? 0)) e = ret u → l ≠ [].
Proof. intros H%check_inv ->. done. Qed.

Lemma validateReality_accepted r r' : validateReality r = ret r' ↔ reality_accepted r r'.
Proof.
  split.
  - unfold validateReality. intros Hrun. inv_try Hrun.
    cbn [mbind result_bind] in Hrun. inv_bind Hrun. change (Ok (inr r')) with (ret r') in Hrun.
    inv_try Hrun. apply ret_inj in Hrun. apply check_nonempty in E0, E3. apply check_inv in E, E5.
    rename v1 into names, v6 into first.
    assert (names !! 0%nat = Some first) as Hfirst.
    { by apply slice_get_inv in E6 as [_ ?]. }
    exists names, first, v2, v4, (or_default (Target r) (first +:+ ":443")).
    apply negb_true_iff, bool_decide_eq_false in E. cbn in E3, E5, E7, Hrun.
    unfold or_default. split_and!; try done; [lia|..].
    + destruct v7. by case_bool_decide.
    + rewrite <- Hrun. case_bool_decide; [done|]. by destruct r.
  - intros (names & first & key & ids & target & Hn & Hf & Hk & Hi & Hs & Hp & Hd & Ht & Hc & ->).
    unfold validateReality. rewrite bool_decide_eq_false_2 by done. cbn [negb check try_bind].
    assert (len (ServerNames r) ≠ 0) as Hlen.
    { intros H0%len_nil_inv. rewrite H0 in Hn. apply ret_inj in Hn as <-. done. }
    rewrite (proj2 (Z.eqb_neq _ _) Hlen). cbn [negb check try_bind ret]. rewrite Hn. cbn.
    rewrite Hk. cbn.
    replace (len (ShortIDs r) =? 0) with false
      by (symmetry; apply Z.eqb_neq; intros H0%len_nil_inv; done).
    cbn. rewrite Hi. cbn.
    replace (MaxTimeDiff r <? 0) with false by lia. cbn.
    rewrite (slice_get_ok _ 0 first) by done. cbn.
    assert ((if bool_decide (Target r = "") then r <| ServerNames := names |> <| Target := first +:+ ":443" |>
      else r <| ServerNames := names |>) = r <| ServerNames := names |> <| Target := target |>) as ->.
    { rewrite Ht. unfold or_default. case_bool_decide; [done|]. by destruct r. }
    cbn. by rewrite Hc.
Qed.

Lemma reality_accepted_idem r r' : reality_accepted r r' → reality_accepted r' r'.
Proof.
  intros (names & first & key & ids & target & Hn & Hf & Hk & Hi & Hs & Hp & Hd & Ht & Hc & ->).
  apply trimServerNames_idem in Hn as (Hn & _ & _).
  exists names, first, key, ids, target. split_and!; try done. cbn. by rewrite Ht, or_default_idem.
Qed.

Lemma validateLimits_inv l l' :
  validateLimits l = ret l' →
  0 <= MaxConnections l ∧ 0 <= MaxRelays l ∧ 0 <= HandshakeTimeout l ∧ 0 <= IdleTimeout l ∧
  l' = mkLimits (or_default_int (MaxConnections l) 1024) (or_default_int (MaxRelays l) 64)
         (or_default_int (HandshakeTimeout l) (10 * Second))
         (or_default_int (IdleTimeout l) (300 * Second)).
Proof.
  unfold validateLimits. intros Hrun. inv_try Hrun. apply ret_inj in Hrun as <-.
  apply check_inv in E, E0, E1, E2. split_and!; [lia..|done].
Qed.

Lemma or_default_int_pos n def : 0 <= n → 0 < def → 0 < or_default_int n def.
Proof. unfold or_default_int. destruct (Z.eqb_spec n 0); lia. Qed.

(** The limits of an accepted configuration are positive. *)
Definition positive_limits (l : LimitsConfig) : Prop :=
  0 < MaxConnections l ∧ 0 < MaxRelays l ∧ 0 < HandshakeTimeout l ∧ 0 < IdleTimeout l.

Lemma validateLimits_positive l l' : validateLimits l = ret l' → positive_limits l'.
Proof.
  intros (? & ? & ? & ? & ->)%validateLimits_inv.
  split_and!; cbn; apply or_default_int_pos; done.
Qed.

Lemma validateLimits_fixed l : positive_limits l → validateLimits l = ret l.
Proof.
  intros (? & ? & ? & ?). unfold validateLimits, or_default_int.
  repeat match goal with |- context [?x <? 0] => replace (x <? 0) with false by lia end. cbn.
  repeat match goal with |- context [?x =? 0] => replace (x =? 0) with false by lia end.
  by destruct l.
Qed.

Section validation.
Context (Stat : string → bool).
Implicit Types (c : Config) (i : InboundConfig).

Lemma validateInbound_inv i i' :
  validateInbound Stat i = ret i' →
  (Mode i' = "reality" ∧ reality_accepted (Reality i) (Reality i') ∨
   Mode i' = "tls" ∧ validateTLS Stat (TLS i') = ret () ∧ Reality i' = Reality i) ∧
  Listen i' = Listen i ∧ TLS i' = TLS i ∧ Mode i' = or_default (Mode i) "reality".
Proof.
  unfold validateInbound. intros Hrun. inv_try Hrun; apply check_inv in E.
  - apply ret_inj in Hrun as <-. apply bool_decide_eq_true in Heqb.
    apply validateReality_accepted in E0. cbn in *. by split_and!; [left|..].
  - apply ret_inj in Hrun as <-. apply bool_decide_eq_false in Heqb. cbn in *.
    unfold one_of in E. apply bool_decide_eq_true in E.
    split_and!; [right|done..]. split_and!; [set_solver|by destruct v0|done].
Qed.

Lemma validateInbound_idem i i' :
  validateInbound Stat i = ret i' → validateInbound Stat i' = ret i'.
Proof.
  intros Hrun. apply validateInbound_inv in Hrun as ([[Hm Hr]|(Hm & Ht & _)] & _ & _ & _).
  - unfold validateInbound. unfold or_default. rewrite Hm. cbn.
    apply reality_accepted_idem, validateReality_accepted in Hr. rewrite Hr. cbn.
    destruct i' as [? m ? ?]. cbn in Hm. by subst m.
  - unfold validateInbound. unfold or_default. rewrite Hm. cbn. rewrite Ht. cbn.
    destruct i' as [? m ? ?]. cbn in Hm. by subst m.
Qed.

(** The parts of an accepted configuration. *)
Lemma accepted_inv c c' :
  applyDefaultsAndValidate Stat c = ret c' →
  LogLevel c' = or_default (LogLevel c) "info" ∧
  one_of (LogLevel c') ["debug"; "info"; "warn"; "error"] = true ∧
  check_address (Listen (Inbound c')) "inbound.listen" = ret () ∧
  Listen (Inbound c') = or_default (Listen (Inbound c)) "0.0.0.0:443" ∧
  UpstreamAddr c' = or_default (UpstreamAddr c) "127.0.0.1:8080" ∧
  check_address (UpstreamAddr c') "upstream.addr" = ret () ∧
  validateInbound Stat ((Inbound c) <| Listen := Listen (Inbound c') |>) = ret (Inbound c') ∧
  validateLimits (Limits c) = ret (Limits c') ∧
  validateStatus (Status c') = ret () ∧ Status c' = Status c.
Proof.
  unfold applyDefaultsAndValidate. intros Hrun. inv_try Hrun. apply ret_inj in Hrun as <-.
  apply check_inv in E. cbn in *. apply validateInbound_inv in E2 as Hi.
  destruct Hi as (_ & Hl & _ & _). cbn in Hl.
  destruct v, v0, v1, v4. rewrite Hl. by split_and!.
Qed.

End validation.

(** ** Validation always returns *)

Lemma check_returns ok e : returns (check ok e) (ok_with (λ _, True)).
Proof. destruct ok; by apply returns_ok. Qed.

Lemma check_address_returns s e : returns (check_address s e) (ok_with (λ _, True)).
Proof.
  unfold check_address. eapply returns_bind; [apply SplitHostPort_returns|].
  intros [err|a] _; by apply returns_ok.
Qed.

Lemma parseRealityPrivateKey_returns s :
  returns (parseRealityPrivateKey s) (ok_with (λ key, len key = 32)).
Proof.
  unfold parseRealityPrivateKey. destruct (base64Decode _) as [b|]; [|by apply returns_ok].
  destruct (Z.eqb_spec (len b) 32); by apply returns_ok.
Qed.

Lemma parseShortID_returns s : returns (parseShortID s) (ok_with (λ id, len id = 8)).
Proof.
  unfold parseShortID. case_bool_decide; [by apply returns_ok|].
  destruct (hexDecode _) as [b|]; [|by apply returns_ok].
  destruct (Z.ltb_spec 8 (len b)); [by apply returns_ok|]. apply returns_ok. cbn [ok_with].
  rewrite go_copy_fits by (unfold len in *; rewrite length_replicate; lia).
  unfold len in *. rewrite length_app, length_drop, length_replicate. lia.
Qed.

Lemma parseShortIDs_from_returns l : ∀ m,
  set_Forall (λ id, len id = 8) m →
  returns (parseShortIDs_from m l)
    (ok_with (λ ids, set_Forall (λ id, len id = 8) ids ∧ m ⊆ ids ∧ (l ≠ [] → ids ≠ ∅))).
Proof.
  induction l as [|s l IH]; intros m Hm; cbn [parseShortIDs_from]; [by apply returns_ok|].
  eapply try_returns; [apply parseShortID_returns|]. intros id Hid.
  eapply returns_mono; [apply (IH ({[ id ]} ∪ m))|].
  - intros x [->%elem_of_singleton|Hx]%elem_of_union; [done|by apply Hm].
  - intros [e|ids]; [done|]. cbn. intros (? & Hsub & _). split_and!; set_solver.
Qed.

Lemma parseShortIDs_returns l :
  returns (parseShortIDs l) (ok_with (λ ids, set_Forall (λ id, len id = 8) ids ∧ (l ≠ [] → ids ≠ ∅))).
Proof.
  eapply returns_mono; [apply (parseShortIDs_from_returns l ∅); by intros ? ?%elem_of_empty|].
  intros [e|ids]; [done|]. cbn. intuition.
Qed.

Lemma trimServerNames_returns l :
  returns (trimServerNames l) (ok_with (λ l', length l' = length l)).
Proof.
  induction l as [|n l IH]; cbn [trimServerNames]; [by apply returns_ok|].
  case_bool_decide; [by apply returns_ok|]. eapply try_returns; [exact IH|].
  intros l' Hl. apply returns_ok. cbn. by rewrite Hl.
Qed.

(** Sequence a call known to return. *)
Ltac try_step L := eapply try_returns; [apply L|]; intros.

Lemma validateReality_returns r : returns (validateReality r) (ok_with (λ _, True)).
Proof.
  unfold validateReality. try_step check_returns.
  eapply (try_returns _ _ (λ _, len (ServerNames r) ≠ 0)).
  { destruct (Z.eqb_spec (len (ServerNames r)) 0); by apply returns_ok. }
  intros _ Hlen. eapply try_returns; [apply trimServerNames_returns|]. intros names Hn.
  try_step parseRealityPrivateKey_returns. try_step check_returns.
  try_step parseShortIDs_returns. try_step check_returns.
  destruct names as [|first names]; [unfold len in Hlen; cbn in Hn; lia|].
  rewrite (slice_get_ok _ 0 first) by done. cbn [mbind result_bind].
  try_step check_address_returns. by apply returns_ok.
Qed.

Lemma validateLimits_returns l : returns (validateLimits l) (ok_with (λ _, True)).
Proof. unfold validateLimits. do 4 try_step check_returns. by apply returns_ok. Qed.

Lemma applyDefaultsAndValidate_returns Stat c :
  returns (applyDefaultsAndValidate Stat c) (ok_with (λ _, True)).
Proof.
  unfold applyDefaultsAndValidate, validateInbound, validateStatus, validateTLS.
  try_step check_returns. do 2 try_step check_address_returns.
  eapply (try_returns _ _ (λ _, True)).
  { try_step check_returns. case_bool_decide.
    - try_step validateReality_returns. by apply returns_ok.
    - eapply (try_returns _ _ (λ _, True)); [|intros; by apply returns_ok].
      do 2 try_step check_returns. apply check_returns. }
  intros i _. try_step validateLimits_returns. eapply (try_returns _ _ (λ _, True)).
  { case_bool_decide; [by apply returns_ok|]. try_step check_address_returns. apply check_returns. }
  intros. by apply returns_ok.
Qed.

(** Validation of the frontend's configuration is total and idempotent:
    on every configuration it returns, with an error or with the completed
    configuration, and never panics; validating a configuration it returned
    accepts it and changes nothing more. *)
Theorem validation_total_and_idempotent Stat c :
  (∃ r, applyDefaultsAndValidate Stat c = Ok r) ∧
  (∀ c', applyDefaultsAndValidate Stat c = ret c' → applyDefaultsAndValidate Stat c' = ret c').
Proof.
  split; [destruct (applyDefaultsAndValidate_returns Stat c) as (r & Hr & _); by exists r|].
  intros c' (Hll & Hlv & Hla & Hl & Hu & Hua & Hi & Hlim & Hst & Hs)%accepted_inv.
  apply validateInbound_idem in Hi. apply validateLimits_positive, validateLimits_fixed in Hlim.
  assert (or_default (LogLevel c') "info" = LogLevel c') as Ell by (rewrite Hll; apply or_default_idem).
  assert (or_default (Listen (Inbound c')) "0.0.0.0:443" = Listen (Inbound c')) as El
    by (rewrite Hl; apply or_default_idem).
  assert (or_default (UpstreamAddr c') "127.0.0.1:8080" = UpstreamAddr c') as Eu
    by (rewrite Hu; apply or_default_idem).
  unfold applyDefaultsAndValidate, set_field. cbn -[validateInbound validateLimits validateStatus check].
  rewrite Ell, Hlv. cbn [check try_bind]. rewrite El, Hla. cbn [try_bind ret]. rewrite Eu, Hua.
  cbn [try_bind ret].
  replace (mkInbound (Listen (Inbound c')) (Mode (Inbound c')) (Reality (Inbound c')) (TLS (Inbound c')))
    with (Inbound c') by (by destruct (Inbound c')).
  rewrite Hi. cbn [try_bind ret]. rewrite Hlim. cbn [try_bind ret]. rewrite Hst. cbn [try_bind ret].
  by destruct c'.
Qed.

(** Another REALITY section that is accepted can take the place of the one in an
    accepted configuration. *)
Lemma replace_reality Stat c c' r r' :
  applyDefaultsAndValidate Stat c = ret c' → Mode (Inbound c') = "reality" → reality_accepted r r' →
  applyDefaultsAndValidate Stat (c <| Inbound := (Inbound c) <| Reality := r |> |>) =
  ret (c' <| Inbound := (Inbound c') <| Reality := r' |> |>).
Proof.
  intros Hrun Hm Hr. unfold applyDefaultsAndValidate in *. inv_try Hrun. apply ret_inj in Hrun as <-.
  cbn in *. rewrite E, E0, E1, E3, E4. cbn [try_bind ret].
  destruct (validateInbound_inv _ _ _ E2) as (_ & Hl & Ht & Hmode). rewrite Hm in Hmode. cbn in Hmode, Hl, Ht.
  unfold validateInbound. cbn. rewrite <- Hmode. cbn. apply validateReality_accepted in Hr. rewrite Hr. cbn.
  f_equal. f_equal. destruct v2. cbn in *. by subst.
Qed.

(** The admission settings the server takes from a configuration. *)
Definition frontend_config (c : Config) : Frontend.Frontend.config :=
  Frontend.Frontend.mkConfig
    (if bool_decide (Mode (Inbound c) = "reality") then Frontend.Frontend.Reality else Frontend.Frontend.Tls)
    (RelayEnabled (Reality (Inbound c))) (MaxConnections (Limits c)) (MaxRelays (Limits c)).

(** Settings the REALITY library can serve. *)
Record servable (rc : reality_Config) (r : RealityConfig) : Prop := {
  s_key : len (rc_PrivateKey rc) = 32;
  s_ids : rc_ShortIds rc ≠ ∅ ∧ set_Forall (λ id, len id = 8) (rc_ShortIds rc);
  s_names : rc_ServerNames rc ≠ ∅ ∧ "" ∉ rc_ServerNames rc;
  s_dest : rc_Dest rc = Target r ∧ ∃ hp, SplitHostPort (rc_Dest rc) = ret hp;
  s_skew : MaxTimeDiff r < 9223372036855 →
    0 <= rc_MaxTimeDiff rc ∧ rc_MaxTimeDiff rc = MaxTimeDiff r * Millisecond
}.

Lemma check_address_inv s e : check_address s e = ret () → ∃ hp, SplitHostPort s = ret hp.
Proof.
  unfold check_address. destruct (SplitHostPort s) as [[?|hp]|?|]; cbn; try done. intros _. by exists hp.
Qed.

Lemma returns_ret {A} (m : fallible A) P a : returns m (ok_with P) → m = ret a → P a.
Proof. intros (r & Hr & HP) Hm. rewrite Hm in Hr. by injection Hr as <-. Qed.

Lemma buildRealityConfig_servable c r0 :
  reality_accepted r0 (Reality (Inbound c)) →
  ∃ rc, buildRealityConfig c = ret rc ∧ servable rc (Reality (Inbound c)).
Proof.
  intros (names & first & key & ids & target & Hn & Hf & Hk & Hi & Hs & Hp & Hd & Ht & Hc & Hr).
  pose proof (returns_ret _ _ _ (parseRealityPrivateKey_returns _) Hk) as Hkey.
  destruct (returns_ret _ _ _ (parseShortIDs_returns _) Hi) as [Hids Hne].
  apply trimServerNames_idem in Hn as (_ & _ & Hnames).
  exists (mkRealityConfig (list_to_set names) key ids (i64 (MaxTimeDiff r0 * Millisecond)) target).
  unfold buildRealityConfig. rewrite Hr. cbn. rewrite Hk. cbn [try_bind ret].
  unfold NewPrivateKey. rewrite (proj2 (Z.eqb_eq _ _) Hkey). cbn [check try_bind ret].
  rewrite Hi. split; [done|]. split; cbn; [done|by split; [apply Hne|]|..].
  - rewrite Forall_forall in Hnames. split.
    + apply list_elem_of_lookup_2 in Hf. set_solver.
    + intros H%elem_of_list_to_set. by apply (Hnames "" H).
  - split; [done|]. by eapply check_address_inv.
  - intros Hb. rewrite i64_id by (unfold Millisecond, in_i64; lia). unfold Millisecond. lia.
Qed.

(** C18. An accepted configuration can be served: its limits and timeouts are
    positive, so the admission control's assumptions hold; the listen and
    upstream addresses split into host and port; the mode is "reality" or
    "tls"; and in REALITY mode building the library's settings succeeds, with
    a 32-byte key, a non-empty set of 8-byte short IDs, a non-empty set of
    non-empty server names, a target that splits, and, below the bound, a time
    difference that did not overflow. *)
Theorem accepted_config_can_be_served Stat c c' :
  applyDefaultsAndValidate Stat c = ret c' →
  in_i64 (MaxConnections (Limits c')) →
  positive_limits (Limits c') ∧ FrontendSpec.valid_limits (frontend_config c') ∧
  (∃ hp, SplitHostPort (Listen (Inbound c')) = ret hp) ∧
  (∃ hp, SplitHostPort (UpstreamAddr c') = ret hp) ∧
  (Mode (Inbound c') = "reality" ∧
     (∃ rc, buildRealityConfig c' = ret rc ∧ servable rc (Reality (Inbound c'))) ∨
   Mode (Inbound c') = "tls" ∧ Stat (Cert (TLS (Inbound c'))) = true ∧
     Stat (Key (TLS (Inbound c'))) = true).
Proof.
  intros (_ & _ & Hla & _ & _ & Hua & Hi & Hlim & _ & _)%accepted_inv Hmax.
  apply validateLimits_positive in Hlim. split_and!; [done|..].
  - destruct Hlim as (? & ? & _). unfold FrontendSpec.valid_limits. cbn. mach.
  - by eapply check_address_inv.
  - by eapply check_address_inv.
  - apply validateInbound_inv in Hi as ([[Hm Hr]|(Hm & Ht & _)] & _ & _ & _).
    + left. split; [done|]. by eapply buildRealityConfig_servable.
    + right. split; [done|]. unfold validateTLS in Ht. inv_try Ht.
      apply check_inv in E0, Ht. done.
Qed.

(** ** Witnesses *)

Module Demo.

(** A minimal REALITY configuration: everything else is defaulted. *)
Definition minimal : Config :=
  mkConfig "" (mkInbound "" "" (mkReality "AAECAwQFBgcICQoLDA0ODxAREhMUFRYXGBkaGxwdHh8" ["0123abcd"; ""]
    [" example.com "] "" None 60000) (mkTLS "" "")) "" (mkLimits 0 0 0 0) (mkStatus "" "").

Definition completed : Config :=
  mkConfig "info" (mkInbound "0.0.0.0:443" "reality"
    (mkReality "AAECAwQFBgcICQoLDA0ODxAREhMUFRYXGBkaGxwdHh8" ["0123abcd"; ""]
    ["example.com"] "example.com:443" None 60000) (mkTLS "" "")) "127.0.0.1:8080"
    (mkLimits 1024 64 10000000000 300000000000) (mkStatus "" "").

Lemma minimal_accepted Stat : applyDefaultsAndValidate Stat minimal = ret completed.
Proof. vm_compute. reflexivity. Qed.

Lemma validation_total_and_idempotent_witness :
  applyDefaultsAndValidate (λ _, false) completed = ret completed.
Proof.
  apply (proj2 (validation_total_and_idempotent (λ _, false) minimal)). apply minimal_accepted.
Defined.

Lemma accepted_config_can_be_served_witness :
  ∃ rc, buildRealityConfig completed = ret rc ∧ servable rc (Reality (Inbound completed)).
Proof.
  destruct (accepted_config_can_be_served (λ _, false) minimal completed)
    as (_ & _ & _ & _ & [[_ H]|[H _]]); [apply minimal_accepted|vm_compute; split; congruence|exact H|].
  discriminate H.
Defined.

End Demo.
