(* ===== verification/Splice.v ===== *)
(** * Tunnels: two copying goroutines and a waiting one

    [splice] (tui/internal/entry/entry.go) and the tunnels of the frontends
    (frontend/relay.go, h3frontend/relay.go) run the same kind of program: two
    goroutines copy a direction each and then send on the channel [done], whose
    capacity is 2; the handler receives, closes, and waits again.  Each is written
    below as the statements of its three threads, run by one interpreter. *)

From S2P Require Import Prelude.

Module Splice.

Inductive side := Client | Upstream.

#[export] Instance side_eq_dec : EqDecision side.
Proof. solve_decision. Defined.

(** A connection: what the peer has sent and how much of it was read, whether
    the peer has closed its side, what was written to it, whether its write
    side was shut and whether it was closed. *)
Record conn := mkConn {
  sent : list Z;
  nread : nat;
  eof : bool;
  wrote : list Z;
  shut : bool;
  closed : bool
}.

#[export] Instance eta_conn : Eta conn := fun c =>
  mkConn (sent c) (nread c) (eof c) (wrote c) (shut c) (closed c).

Definition inbox (c : conn) : list Z := drop (nread c) (sent c).

(** The peer reads the end of the stream after the bytes written. *)
Definition told (c : conn) : bool := shut c || closed c.

(** [Copy dst src] is [io.Copy(dst, src)]; [CloseWrite] sends the end of the
    stream; [Send] and [Recv] use the channel; [RecvOrTimeout] is the [select]
    between the channel and [time.After(5 * time.Second)]. *)
Inductive stmt :=
  | Copy (dst src : side)
  | CloseWrite (c : side)
  | Close (c : side)
  | Send
  | Recv
  | RecvOrTimeout.

#[export] Instance stmt_eq_dec : EqDecision stmt.
Proof. solve_decision. Defined.

Inductive thread := Up | Down | Main.

#[export] Instance thread_eq_dec : EqDecision thread.
Proof. solve_decision. Defined.

Record program := mkProgram {
  up_body : list stmt;
  down_body : list stmt;
  main_body : list stmt
}.

(** [splice(a, b)]: [a] is the client, [b] the connection through the core. *)
Definition splice : program :=
  mkProgram [Copy Upstream Client; Send] [Copy Client Upstream; Send]
    [Recv; Close Upstream; Recv].

(** The HTTP/1.1 and HTTP/2 tunnels of the REALITY frontend. *)
Definition serveH1Connect_tunnel : program :=
  mkProgram [Copy Upstream Client; CloseWrite Upstream; Send] [Copy Client Upstream; Send]
    [Recv; Close Upstream; RecvOrTimeout].

Definition handleRequest_tunnel : program :=
  mkProgram [Copy Upstream Client; CloseWrite Upstream; Send] [Copy Client Upstream; Send]
    [Recv; Close Upstream; RecvOrTimeout].

(** The HTTP/3 tunnel: closing the stream shuts its write side. *)
Definition relayHandler_tunnel : program :=
  mkProgram [Copy Upstream Client; CloseWrite Upstream; Send]
    [Copy Client Upstream; CloseWrite Client; Send]
    [Recv; Close Upstream; CloseWrite Client; RecvOrTimeout].

(** The two connections, the messages in [done], and what each thread has left
    to do. *)
Record state := mkState {
  client : conn;
  upstream : conn;
  done_len : Z;
  up : list stmt;
  down : list stmt;
  main : list stmt
}.

#[export] Instance eta_state : Eta state := fun s =>
  mkState (client s) (upstream s) (done_len s) (up s) (down s) (main s).

Definition fresh_conn : conn := mkConn [] 0 false [] false false.
Definition start (p : program) : state :=
  mkState fresh_conn fresh_conn 0 (up_body p) (down_body p) (main_body p).

Definition get (s : state) (x : side) : conn :=
  match x with Client => client s | Upstream => upstream s end.
Definition set (s : state) (x : side) (c : conn) : state :=
  match x with Client => s <| client := c |> | Upstream => s <| upstream := c |> end.

Definition left (s : state) (t : thread) : list stmt :=
  match t with Up => up s | Down => down s | Main => main s end.
Definition set_left (s : state) (t : thread) (l : list stmt) : state :=
  match t with Up => s <| up := l |> | Down => s <| down := l |> | Main => s <| main := l |> end.

(** What one iteration of [io.Copy] does: block, go on, or return. *)
Inductive copied := Blocked | Continues (s : state) | Returns (s : state).

(** A closed source or an end of stream ends the copy; a chunk of at most
    [n + 1] bytes is read and written, and ends it too if it cannot be. *)
Definition copy_step (s : state) (dst src : side) (n : nat) : copied :=
  let c := get s src in
  if closed c then Returns s
  else
    match inbox c with
    | [] => if eof c then Returns s else Blocked
    | l =>
        let chunk := take (S n) l in
        let s := set s src (c <| nread := (nread c + length chunk)%nat |>) in
        let d := get s dst in
        if told d then Returns s
        else Continues (set s dst (d <| wrote := wrote d ++ chunk |>))
    end.

(** [n] is the size of the chunk that is read, if any. *)
Definition exec_stmt (s : state) (t : thread) (n : nat) : option state :=
  match left s t with
  | [] => None
  | i :: rest =>
      let next s := set_left s t rest in
      match i with
      | Copy dst src =>
          match copy_step s dst src n with
          | Blocked => None
          | Continues s => Some s
          | Returns s => Some (next s)
          end
      | CloseWrite x => Some (next (set s x ((get s x) <| shut := true |>)))
      | Close x => Some (next (set s x ((get s x) <| closed := true |>)))
      | Send => if done_len s <? 2 then Some (next (s <| done_len := done_len s + 1 |>)) else None
      | Recv | RecvOrTimeout =>
          if 0 <? done_len s then Some (next (s <| done_len := done_len s - 1 |>)) else None
      end
  end.

(** The timer fires; or a copy fails on a network error. *)
Definition timeout (s : state) : option state :=
  match main s with
  | RecvOrTimeout :: rest => Some (s <| main := rest |>)
  | _ => None
  end.

Definition copy_fails (s : state) (t : thread) : option state :=
  match left s t with
  | Copy _ _ :: rest => Some (set_left s t rest)
  | _ => None
  end.

(** A peer sends, or closes its side. *)
Definition peer_sends (s : state) (x : side) (l : list Z) : option state :=
  let c := get s x in
  if eof c then None else Some (set s x (c <| sent := sent c ++ l |>)).

Definition peer_closes (s : state) (x : side) : state := set s x ((get s x) <| eof := true |>).

Inductive event :=
  | Exec (t : thread) (n : nat)
  | Timeout
  | CopyFails (t : thread)
  | PeerSends (x : side) (l : list Z)
  | PeerCloses (x : side).

Definition step (s : state) (e : event) : option state :=
  match e with
  | Exec t n => exec_stmt s t n
  | Timeout => timeout s
  | CopyFails t => copy_fails s t
  | PeerSends x l => peer_sends s x l
  | PeerCloses x => Some (peer_closes s x)
  end.

Fixpoint run (es : list event) (s : state) : option state :=
  match es with
  | [] => Some s
  | e :: es => s' ← step s e; run es s'
  end.

(** The handler has returned. *)
Definition returned (s : state) : Prop := main s = [].

End Splice.
