(* ===== verification/SpliceSpec.v ===== *)
(** * Theorems about the tunnels

    What is forwarded is what was received, in order; the channel never blocks a
    copying goroutine; when the handlers return, and when one does not. *)

From S2P Require Import Prelude Splice.

Import Splice.

Definition other (x : side) : side := match x with Client => Upstream | Upstream => Client end.

(** The thread that reads from a side. *)
Definition reader (x : side) : thread := match x with Client => Up | Upstream => Down end.

Definition tunnels : list program :=
  [splice; serveH1Connect_tunnel; handleRequest_tunnel; relayHandler_tunnel].

(** ** Statements left to run *)

Definition is_copy (i : stmt) : bool := match i with Copy _ _ => true | _ => false end.
Definition is_recv (i : stmt) : bool := match i with Recv | RecvOrTimeout => true | _ => false end.
Definition sends (l : list stmt) : Z := len (filter (λ i, i = Send) l).
Definition no_copy (l : list stmt) : Prop := Forall (λ i, is_copy i = false) l.
Definition pump_rest (l : list stmt) : Prop := Forall (λ i, is_copy i = false ∧ is_recv i = false) l.

(** A copying thread: it copies its direction first, or no more. *)
Definition pump_ok (x : side) (l : list stmt) : Prop :=
  ∃ rest, pump_rest rest ∧ (l = Copy (other x) x :: rest ∨ l = rest).

Definition still_copying (x : side) (s : state) : Prop :=
  ∃ rest, left s (reader x) = Copy (other x) x :: rest.

(** What was written to the other side of [x] is what was read from [x]. *)
Record direction_ok (x : side) (s : state) : Prop := {
  d_pump : pump_ok x (left s (reader x));
  d_read : (nread (get s x) <= length (sent (get s x)))%nat;
  d_prefix : wrote (get s (other x)) `prefix_of` sent (get s x);
  d_exact : still_copying x s → wrote (get s (other x)) = take (nread (get s x)) (sent (get s x))
}.

(** The messages sent and received balance: before the first receive two are
    accounted for, afterwards at most one. *)
Definition balanced (p : program) (s : state) : Prop :=
  0 <= done_len s ∧ no_copy (main s) ∧ Forall (λ i, i ≠ Send) (main s) ∧
  (main s = main_body p ∧ done_len s + sends (up s) + sends (down s) = 2 ∨
   (∃ pre, pre ≠ [] ∧ main_body p = pre ++ main s) ∧
   done_len s + sends (up s) + sends (down s) <= 1).

Record inv (p : program) (s : state) : Prop := {
  v_dir : ∀ x, direction_ok x s;
  v_bal : balanced p s
}.

Definition wf_program (p : program) : Prop :=
  (∃ u, up_body p = Copy Upstream Client :: u ∧ pump_rest u) ∧
  (∃ d, down_body p = Copy Client Upstream :: d ∧ pump_rest d) ∧
  sends (up_body p) + sends (down_body p) = 2 ∧
  (∃ m, main_body p = Recv :: m ∧ no_copy m ∧ Forall (λ i, i ≠ Send) m).

Lemma tunnels_wf p : p ∈ tunnels → wf_program p.
Proof.
  unfold tunnels. rewrite !elem_of_cons, elem_of_nil.
  intros [->|[->|[->|[->|[]]]]];
    (split_and!; [eexists; split; [done|]|eexists; split; [done|]|done|eexists; split_and!; [done|..]];
     repeat constructor; done).
Qed.

Lemma start_inv p : wf_program p → inv p (start p).
Proof.
  intros ((u & Hu & Huc) & (d & Hd & Hdc) & Hs & (m & Hm & Hmc & Hms)). split.
  - intros []; (split; cbn; [|lia|done|done]).
    + exists u. split; [done|by left].
    + exists d. split; [done|by left].
  - split_and!; cbn; [done|rewrite Hm; by constructor|rewrite Hm; by constructor|left; split; [done|lia]].
Qed.

(** ** Every step keeps the invariant *)

Lemma get_set_same s x c : get (set s x c) x = c.
Proof. by destruct x. Qed.
Lemma get_set_other s x y c : x ≠ y → get (set s x c) y = get s y.
Proof. by destruct x, y. Qed.
Lemma left_set s x c t : left (set s x c) t = left s t.
Proof. by destruct x, t. Qed.
Lemma get_set_left s t l x : get (set_left s t l) x = get s x.
Proof. by destruct x, t. Qed.
Lemma left_set_left s t l : left (set_left s t l) t = l.
Proof. by destruct t. Qed.
Lemma left_set_left_ne s t u l : t ≠ u → left (set_left s t l) u = left s u.
Proof. by destruct t, u. Qed.
Lemma other_ne x : x ≠ other x.
Proof. by destruct x. Qed.
Lemma other_other x : other (other x) = x.
Proof. by destruct x. Qed.

Lemma pump_ok_tail x i l : pump_ok x (i :: l) → pump_ok x l ∧ pump_rest l.
Proof.
  intros (rest & Hr & [Heq|Heq]).
  - injection Heq as _ ->. split; [|done]. exists rest. split; [done|by right].
  - subst rest. apply Forall_cons in Hr as [_ Hr]. split; [|done]. exists l. split; [done|by right].
Qed.

Lemma pump_rest_head x s rest :
  pump_rest rest → left s (reader x) = rest → ¬ still_copying x s.
Proof. intros Hn Hl [r Hr]. rewrite Hl in Hr. rewrite Hr in Hn. by apply Forall_cons in Hn as [[? _] _]. Qed.

(** A direction whose connections and thread are unchanged. *)
Lemma direction_same x s s' :
  direction_ok x s →
  left s' (reader x) = left s (reader x) →
  sent (get s' x) = sent (get s x) → nread (get s' x) = nread (get s x) →
  wrote (get s' (other x)) = wrote (get s (other x)) → direction_ok x s'.
Proof.
  intros [? ? ? Hex] Hl Hs Hn Hw. split; rewrite ?Hl, ?Hs, ?Hn, ?Hw; try done.
  intros [r Hr]. apply Hex. exists r. by rewrite <- Hl.
Qed.

(** The copying thread of [x] is past its copy: only the prefix matters. *)
Lemma direction_past x s s' rest :
  direction_ok x s → pump_rest rest →
  left s' (reader x) = rest →
  sent (get s' x) = sent (get s x) → (nread (get s' x) <= length (sent (get s x)))%nat →
  wrote (get s' (other x)) = wrote (get s (other x)) → direction_ok x s'.
Proof.
  intros [? ? Hp ?] Hn Hl Hs Hr Hw. split.
  - exists rest. split; [done|by right].
  - by rewrite Hs.
  - by rewrite Hs, Hw.
  - intros Hc. by apply (pump_rest_head x s' rest) in Hc.
Qed.

(** Reading a chunk after the first [r] bytes. *)
Lemma take_chunk {A} (l : list A) r k :
  (r <= length l)%nat →
  take r l ++ take k (drop r l) = take (r + length (take k (drop r l))) l ∧
  (r + length (take k (drop r l)) <= length l)%nat.
Proof.
  intros Hr. rewrite take_take_drop, length_take, length_drop. split; [|lia].
  destruct (decide (k <= length l - r)%nat); [by rewrite Nat.min_l by lia|].
  rewrite Nat.min_r by lia. rewrite !take_ge by lia. done.
Qed.

(** One iteration of the copy of direction [x]. *)
Lemma copy_step_spec s x n rest :
  direction_ok x s → direction_ok (other x) s → left s (reader x) = Copy (other x) x :: rest →
  match copy_step s (other x) x n with
  | Blocked => True
  | Continues s' =>
      direction_ok x s' ∧ direction_ok (other x) s' ∧
      done_len s' = done_len s ∧ up s' = up s ∧ down s' = down s ∧ main s' = main s
  | Returns s' =>
      direction_ok x (set_left s' (reader x) rest) ∧ direction_ok (other x) (set_left s' (reader x) rest) ∧
      done_len s' = done_len s ∧ up s' = up s ∧ down s' = down s ∧ main s' = main s
  end.
Proof.
  intros Hx Ho Hl. destruct (d_pump _ _ Hx) as (r & Hr & Hpump).
  assert (pump_rest rest) as Hrest.
  { rewrite Hl in Hpump. by apply (pump_ok_tail x (Copy (other x) x)); exists r. }
  assert (wrote (get s (other x)) = take (nread (get s x)) (sent (get s x))) as Hex.
  { apply (d_exact _ _ Hx). by exists rest. }
  pose proof (d_read _ _ Hx) as Hn.
  assert (∀ s', (∀ y, sent (get s' y) = sent (get s y)) → (∀ y, wrote (get s' y) = wrote (get s y)) →
    (nread (get s' x) <= length (sent (get s x)))%nat → nread (get s' (other x)) = nread (get s (other x)) →
    left s' (reader (other x)) = left s (reader (other x)) →
    direction_ok x (set_left s' (reader x) rest) ∧ direction_ok (other x) (set_left s' (reader x) rest)) as Hret.
  { intros s' Hs Hw Hn' Hno Hlo. split.
    - eapply direction_past; [exact Hx|exact Hrest|..];
        rewrite ?left_set_left, ?get_set_left; [done|apply Hs|exact Hn'|apply Hw].
    - eapply direction_same; [exact Ho|..]; rewrite ?get_set_left, ?other_other; [|apply Hs|done|apply Hw].
      by destruct x. }
  unfold copy_step. destruct (closed (get s x)); [by split_and!; try apply Hret|].
  destruct (inbox (get s x)) as [|b l] eqn:Hin;
    [destruct (eof (get s x)); [by split_and!; try apply Hret|done]|].
  pose proof (take_chunk (sent (get s x)) (nread (get s x)) (S n) Hn) as [Hchunk Hlen].
  unfold inbox in Hin. rewrite <- Hin. generalize dependent (take (S n) (drop (nread (get s x)) (sent (get s x)))).
  clear Hin. intros chunk Hchunk Hlen. set (s1 := set s x _).
  destruct (told (get s1 (other x))).
  - assert (∀ P : Prop, P → P ∧ done_len s1 = done_len s ∧ up s1 = up s ∧ down s1 = down s ∧ main s1 = main s)
      as Hfix by (intros P HP; split; [exact HP|by destruct x]).
    rewrite (and_assoc (direction_ok x _)). apply Hfix. unfold s1.
    apply Hret; destruct x; cbn; try done; try (intros []; done); lia.
  - split_and!; [..|by destruct x|by destruct x|by destruct x|by destruct x].
    + assert (wrote (get s1 (other x)) ++ chunk = take (nread (get s1 x)) (sent (get s1 x))) as Hw
        by (unfold s1; rewrite get_set_same, get_set_other, Hex by apply other_ne; exact Hchunk).
      set (s2 := set s1 (other x) _).
      assert (get s2 x = get s1 x) as Hg by (apply get_set_other, not_eq_sym, other_ne).
      assert (wrote (get s2 (other x)) = take (nread (get s1 x)) (sent (get s1 x))) as Hw2
        by (unfold s2; by rewrite get_set_same).
      split; rewrite ?Hg, ?Hw2; [|unfold s1; rewrite get_set_same; exact Hlen|apply prefix_take|done].
      replace (left s2 (reader x)) with (left s (reader x)) by (by destruct x). apply Hx.
    + eapply direction_same; [exact Ho|..]; unfold s1; destruct x; done.
Qed.

Lemma sends_cons i l : sends (i :: l) = (if decide (i = Send) then 1 else 0) + sends l.
Proof. unfold sends. rewrite filter_cons. case_decide; [rewrite len_cons; lia|lia]. Qed.

Lemma sends_nonneg l : 0 <= sends l.
Proof. apply len_nonneg. Qed.

Lemma direction_next x s t i rest :
  direction_ok x s → left s t = i :: rest → is_copy i = false → direction_ok x (set_left s t rest).
Proof.
  intros Hx Hl Hi. destruct (decide (reader x = t)) as [<-|Hne].
  - pose proof (d_pump _ _ Hx) as Hp. rewrite Hl in Hp. apply pump_ok_tail in Hp as [_ Hp].
    eapply direction_past; [exact Hx|exact Hp|..]; rewrite ?left_set_left, ?get_set_left; [done..|apply Hx|done].
  - apply (direction_same x s); rewrite ?get_set_left; [done|by apply left_set_left_ne|done..].
Qed.

(** A statement that touches neither what was received nor what was written. *)
Lemma direction_conn x s s' :
  direction_ok x s → (∀ t, left s' t = left s t) →
  (∀ y, sent (get s' y) = sent (get s y) ∧ nread (get s' y) = nread (get s y) ∧
    wrote (get s' y) = wrote (get s y)) → direction_ok x s'.
Proof. intros Hx Hl Hs. apply (direction_same x s); [done|apply Hl|apply Hs|apply Hs|apply Hs]. Qed.

(** The messages that are waiting or will still be sent. *)
Definition pending (s : state) : Z := done_len s + sends (up s) + sends (down s).

(** A step of a copying thread or of a peer: what it leaves of the rest. *)
Record pumped (s s' : state) : Prop := {
  p_dirs : ∀ x, direction_ok x s';
  p_main : main s' = main s;
  p_pending : pending s' = pending s;
  p_done : done_len s <= done_len s'
}.

Lemma balanced_pumped p s s' : balanced p s → pumped s s' → balanced p s'.
Proof.
  intros (H0 & Hc & Hs & Hb) [_ Hm Hp Hd]. unfold balanced, pending in *. rewrite Hm.
  split_and!; [lia|done|done|]. destruct Hb as [[? ?]|[? ?]]; [left|right]; (split; [done|lia]).
Qed.

(** The handler moves past its head statement [i]. *)
Lemma balanced_main p s s' i rest d :
  wf_program p → balanced p s → main s = i :: rest → main s' = rest →
  up s' = up s → down s' = down s → done_len s' = done_len s - d → 0 <= d <= done_len s →
  (i = Recv → d = 1) → balanced p s'.
Proof.
  intros (_ & _ & _ & (m & Hm & _)) (H0 & Hc & Hs & Hb) Hl Hl' Hu Hd Hdone Hdr Hi.
  rewrite Hl in *. apply Forall_cons in Hc as [_ Hc], Hs as [_ Hs].
  unfold balanced. rewrite Hl', Hu, Hd, Hdone. split_and!; [lia|done|done|]. right. split.
  - destruct Hb as [[<- _]|[(pre & _ & Hpre) _]]; [by exists [i]|].
    exists (pre ++ [i]). split; [by destruct pre|]. by rewrite Hpre, <- (assoc_L (++)).
  - destruct Hb as [[Hb ?]|[_ ?]]; [|lia]. rewrite Hm in Hb. injection Hb as Hb _. rewrite (Hi Hb). lia.
Qed.

(** A copying thread moves past a statement. *)
Lemma pending_pump s s' x i rest :
  left s (reader x) = i :: rest → left s' (reader x) = rest →
  left s' (reader (other x)) = left s (reader (other x)) →
  done_len s' = done_len s + (if decide (i = Send) then 1 else 0) → pending s' = pending s ∧ done_len s <= done_len s'.
Proof.
  intros Hl Hl' Ho Hd. unfold pending.
  assert (sends (up s) + sends (down s) =
    (if decide (i = Send) then 1 else 0) + sends (up s') + sends (down s')) as Hsum.
  { destruct x; cbn in *; rewrite Hl, Hl', Ho, sends_cons; lia. }
  case_decide; lia.
Qed.

Lemma pump_copy s x dst src rest :
  direction_ok x s → left s (reader x) = Copy dst src :: rest → dst = other x ∧ src = x.
Proof.
  intros Hx Hl. destruct (d_pump _ _ Hx) as (r & Hr & [Heq|Heq]); rewrite Hl in Heq.
  - by injection Heq as -> -> _.
  - subst r. by apply Forall_cons in Hr as [[? _] _].
Qed.

(** The kinds of thread. *)
Lemma thread_cases t : t = Main ∨ ∃ x, t = reader x.
Proof. destruct t; [right; by exists Client|right; by exists Upstream|by left]. Qed.

(** A copying thread runs its head statement. *)
Lemma exec_pump s x n s' :
  (∀ y, direction_ok y s) → exec_stmt s (reader x) n = Some s' → pumped s s'.
Proof.
  unfold exec_stmt. destruct (left s (reader x)) as [|i rest] eqn:Hl; [done|].
  intros Hv Hrun. destruct (is_copy i) eqn:Hcopy.
  - destruct i as [dst src| | | | |]; try done. destruct (pump_copy _ _ _ _ _ (Hv x) Hl) as [-> ->].
    pose proof (copy_step_spec s x n rest (Hv x) (Hv (other x)) Hl) as Hspec.
    destruct (copy_step s (other x) x n) as [|s1|s1]; [done|..]; injection Hrun as <-;
      destruct Hspec as (? & ? & Hd & Hu & Hw & Hm).
    + split; [intros y; by destruct (decide (y = x)) as [->|]; [|replace y with (other x) by (by destruct x, y)]|done|..];
        [by unfold pending; rewrite Hd, Hu, Hw|lia].
    + destruct (pending_pump s (set_left s1 (reader x) rest) x (Copy (other x) x) rest) as [Hp Hle];
        [done|apply left_set_left|destruct x; cbn; done|rewrite decide_False by done; destruct x; cbn; lia|].
      split; [intros y; by destruct (decide (y = x)) as [->|]; [|replace y with (other x) by (by destruct x, y)]| |done|done].
      destruct x; exact Hm.
  - assert (∀ s1, (∀ t, left s1 t = left s t) → (∀ y, sent (get s1 y) = sent (get s y) ∧
      nread (get s1 y) = nread (get s y) ∧ wrote (get s1 y) = wrote (get s y)) →
      done_len s1 = done_len s + (if decide (i = Send) then 1 else 0) →
      pumped s (set_left s1 (reader x) rest)) as Hnext.
    { intros s1 Hl1 Hc1 Hd1.
      destruct (pending_pump s (set_left s1 (reader x) rest) x i rest) as [Hp Hle];
        [done|apply left_set_left| |destruct x; exact Hd1|].
      { specialize (Hl1 (reader (other x))). destruct x; exact Hl1. }
      split; [|specialize (Hl1 Main); destruct x; exact Hl1|done|done].
      intros y. apply (direction_next y s1 (reader x) i); [|by rewrite Hl1|done].
      by apply (direction_conn y s); [apply Hv|..]. }
    assert (is_recv i = false) as Hi.
    { destruct (d_pump _ _ (Hv x)) as (r & Hr & [Heq|Heq]); rewrite Hl in Heq.
      - by injection Heq as -> _.
      - subst r. by apply Forall_cons in Hr as [[_ ?] _]. }
    destruct i as [| y | y | | |]; try done.
    + injection Hrun as <-. apply Hnext; [by intros []; destruct y|by intros []; destruct y|rewrite decide_False by done; destruct y; cbn; lia].
    + injection Hrun as <-. apply Hnext; [by intros []; destruct y|by intros []; destruct y|rewrite decide_False by done; destruct y; cbn; lia].
    + destruct (Z.ltb_spec (done_len s) 2); [|done]. injection Hrun as <-.
      apply Hnext; [by intros []|by intros []|done].
Qed.

Lemma pumped_inv p s s' : inv p s → pumped s s' → inv p s'.
Proof. intros [_ Hb] Hp. split; [apply Hp|by eapply balanced_pumped]. Qed.

Lemma exec_inv p s t n s' :
  wf_program p → inv p s → exec_stmt s t n = Some s' → inv p s'.
Proof.
  intros Hwf Hv. destruct (thread_cases t) as [->|[x ->]]; [|intros He; eapply pumped_inv; [done|by eapply exec_pump; [apply Hv|]]].
  - unfold exec_stmt. destruct (left s Main) as [|i rest] eqn:Hl; [done|]. destruct (v_bal _ _ Hv) as (H0 & Hc & _). change (main s = i :: rest) in Hl.
    rewrite Hl in Hc. apply Forall_cons in Hc as [Hi _].
    assert (∀ s1 d, (∀ t, left s1 t = left s t) → (∀ y, sent (get s1 y) = sent (get s y) ∧
      nread (get s1 y) = nread (get s y) ∧ wrote (get s1 y) = wrote (get s y)) →
      done_len s1 = done_len s - d → 0 <= d <= done_len s → (i = Recv → d = 1) →
      inv p (set_left s1 Main rest)) as Hmain.
    { intros s1 d Hl1 Hc1 Hd1 Hdr Hi1. split.
      - intros y. apply (direction_next y s1 Main i); [|by rewrite Hl1|done].
        by apply (direction_conn y s); [apply Hv|..].
      - pose proof (Hl1 Up) as Hu1. pose proof (Hl1 Down) as Hw1. cbn in Hu1, Hw1.
        eapply (balanced_main p s); [done|apply Hv|exact Hl|done|done|done|exact Hd1|done|done]. }
    assert (∀ s1, (∀ t, left s1 t = left s t) → (∀ y, sent (get s1 y) = sent (get s y) ∧
      nread (get s1 y) = nread (get s y) ∧ wrote (get s1 y) = wrote (get s y)) →
      done_len s1 = done_len s - 0 → i ≠ Recv → inv p (set_left s1 Main rest)) as Hmain0.
    { intros s1 ? ? ? ?. apply (Hmain s1 0); done || lia. }
    destruct i; try done.
    + intros [= <-]. apply Hmain0; [by intros []; destruct c|by intros []; destruct c|destruct c; cbn; lia|done].
    + intros [= <-]. apply Hmain0; [by intros []; destruct c|by intros []; destruct c|destruct c; cbn; lia|done].
    + destruct (v_bal _ _ Hv) as (_ & _ & Hs & _). rewrite Hl in Hs. by apply Forall_cons in Hs as [? _].
    + destruct (Z.ltb_spec 0 (done_len s)); [|done]. intros [= <-].
      apply (Hmain (s <| done_len := done_len s - 1 |>) 1); [by intros []|by intros []|done|lia|done].
    + destruct (Z.ltb_spec 0 (done_len s)); [|done]. intros [= <-].
      apply (Hmain (s <| done_len := done_len s - 1 |>) 1); [by intros []|by intros []|done|lia|done].
Qed.

Lemma copy_fails_pumped s x s' : (∀ y, direction_ok y s) → copy_fails s (reader x) = Some s' → pumped s s'.
Proof.
  intros Hv. unfold copy_fails. destruct (left s (reader x)) as [|[dst src| | | | |] rest] eqn:Hl; try done.
  intros [= <-]. destruct (pump_copy _ _ _ _ _ (Hv x) Hl) as [-> ->].
  destruct (pending_pump s (set_left s (reader x) rest) x (Copy (other x) x) rest) as [Hp Hle];
    [done|apply left_set_left|by destruct x|rewrite decide_False by done; destruct x; cbn; lia|].
  split; [|by destruct x|done|done].
  assert (pump_rest rest) as Hr.
  { pose proof (d_pump _ _ (Hv x)) as Hpx. rewrite Hl in Hpx. by apply pump_ok_tail in Hpx as []. }
  intros y. destruct (decide (y = x)) as [->|Hne].
  - eapply direction_past; [apply (Hv x)|exact Hr|..];
      rewrite ?left_set_left, ?get_set_left; [done..|apply Hv|done].
  - apply (direction_same y s); rewrite ?get_set_left; [apply Hv| |done..].
    apply left_set_left_ne. by destruct x, y.
Qed.

Lemma copy_fails_inv p s t s' : inv p s → copy_fails s t = Some s' → inv p s'.
Proof.
  intros Hv. destruct (thread_cases t) as [->|[x ->]].
  - unfold copy_fails. destruct (left s Main) as [|[dst src| | | | |] rest] eqn:Hl; try done.
    destruct (v_bal _ _ Hv) as (_ & Hc & _). change (main s = Copy dst src :: rest) in Hl.
    rewrite Hl in Hc. by apply Forall_cons in Hc as [? _].
  - intros Hs. eapply pumped_inv; [done|by eapply copy_fails_pumped; [apply Hv|]].
Qed.

Lemma peer_pumped s x c' :
  (∀ y, direction_ok y s) → sent (get s x) `prefix_of` sent c' → nread c' = nread (get s x) →
  wrote c' = wrote (get s x) → pumped s (set s x c').
Proof.
  intros Hv Hs Hn Hw. assert (∀ y, left (set s x c') (reader y) = left s (reader y)) as Hl
    by (intros; apply left_set).
  split; [|by destruct x|by destruct x|by destruct x].
  intros y. destruct (Hv y) as [Hp Hr Hpre Hex].
  assert (wrote (get (set s x c') (other y)) = wrote (get s (other y))) as Ew.
  { destruct (decide (x = other y)) as [->|Hne]; [by rewrite get_set_same|by rewrite get_set_other]. }
  destruct (decide (x = y)) as [->|Hne].
  - rewrite <- (get_set_same s y c') in Hs, Hn. destruct Hs as [k Hk].
    split; rewrite ?Hl, ?Ew, ?Hn, ?Hk; [done|rewrite length_app; lia|by apply prefix_app_r|].
    intros Hc. rewrite take_app_le by done. apply Hex. destruct Hc as [r Hc]. exists r. by rewrite <- Hl.
  - apply (direction_same y s); [apply Hv|apply Hl|by rewrite get_set_other..|exact Ew].
Qed.

Lemma peer_sends_pumped s x l s' : (∀ y, direction_ok y s) → peer_sends s x l = Some s' → pumped s s'.
Proof.
  intros Hv. unfold peer_sends. destruct (eof (get s x)); [done|]. intros [= <-].
  apply peer_pumped; [done|by apply prefix_app_r|done|done].
Qed.

Lemma peer_closes_pumped s x : (∀ y, direction_ok y s) → pumped s (peer_closes s x).
Proof. intros Hv. by apply peer_pumped. Qed.

Lemma tunnel_step_inv p s e s' : wf_program p → inv p s → step s e = Some s' → inv p s'.
Proof.
  intros Hwf Hv. destruct e as [t n| |t|x l|x]; cbn [step].
  - by apply exec_inv.
  - unfold timeout. destruct (main s) as [|[| | | | |] rest] eqn:Hm; try done. intros [= <-]. split.
    + intros y. by apply (direction_next y s Main RecvOrTimeout); [apply Hv| |].
    + eapply (balanced_main p s _ RecvOrTimeout rest 0); try done; [apply Hv|cbn; lia|].
      destruct (v_bal _ _ Hv) as (? & _). lia.
  - by apply copy_fails_inv.
  - intros Hs. eapply pumped_inv; [done|by eapply peer_sends_pumped; [apply Hv|]].
  - intros [= <-]. eapply pumped_inv; [done|apply peer_closes_pumped, Hv].
Qed.

Lemma tunnel_run_inv p es s s' : wf_program p → inv p s → run es s = Some s' → inv p s'.
Proof.
  intros Hwf. revert s. induction es as [|e es IH]; intros s Hv; cbn [run]; [by intros [= <-]|].
  intros (s1 & H1 & Hrun)%bind_Some. apply (IH s1); [|done]. by eapply tunnel_step_inv.
Qed.

Lemma tunnel_reachable_inv p es s : p ∈ tunnels → run es (start p) = Some s → inv p s.
Proof. intros Hp%tunnels_wf. by apply tunnel_run_inv; [|apply start_inv]. Qed.

(** ** What is forwarded *)

Lemma copy_returns s x n s' :
  copy_step s (other x) x n = Returns s' →
  closed (get s x) = true ∨ told (get s (other x)) = true ∨
  (eof (get s x) = true ∧ inbox (get s x) = [] ∧ s' = s).
Proof.
  unfold copy_step. destruct (closed (get s x)); [by left|].
  destruct (inbox (get s x)); [destruct (eof (get s x)); [|done]|].
  - intros [= <-]. right. right. done.
  - rewrite get_set_other by apply other_ne. destruct (told (get s (other x))); [|done]. by right; left.
Qed.

(** The channel has room for a goroutine about to send. *)
Lemma send_room p s t rest : inv p s → left s t = Send :: rest → done_len s < 2.
Proof.
  intros Hv Hl. destruct (v_bal _ _ Hv) as (H0 & _ & Hs & Hb).
  destruct (thread_cases t) as [->|[x ->]].
  { change (main s = Send :: rest) in Hl. rewrite Hl in Hs. by apply Forall_cons in Hs as [? _]. }
  assert (1 + sends rest <= sends (up s) + sends (down s)) as Hge.
  { pose proof (sends_nonneg (up s)). pose proof (sends_nonneg (down s)).
    destruct x; cbn in Hl; rewrite Hl in *; rewrite sends_cons, decide_True by done; lia. }
  pose proof (sends_nonneg rest). destruct Hb as [[_ ?]|[_ ?]]; lia.
Qed.

(** C21. A tunnel forwards what it receives.  In each of the four tunnels,
    whatever the interleaving, the bytes written to a side are a prefix of those
    received from the other; a copy that is not cut off by a failure, by a source
    the handler closed or by a destination it shut ends only after an end of
    stream, with everything forwarded; and a goroutine that sends on [done] never
    blocks. *)
Theorem tunnel_forwards_exactly p es s :
  p ∈ tunnels → run es (start p) = Some s →
  (∀ x, wrote (get s (other x)) `prefix_of` sent (get s x)) ∧
  (∀ t n s' dst src rest,
     left s t = Copy dst src :: rest → exec_stmt s t n = Some s' → left s' t = rest →
     closed (get s src) = true ∨ told (get s dst) = true ∨
     (eof (get s src) = true ∧ wrote (get s' dst) = sent (get s' src))) ∧
  (∀ t n rest, left s t = Send :: rest → ∃ s', exec_stmt s t n = Some s').
Proof.
  intros Hp Hrun. pose proof (tunnel_reachable_inv p es s Hp Hrun) as Hv. split_and!.
  - intros x. apply (v_dir _ _ Hv x).
  - intros t n s' dst src rest Hl Hex Hl'. destruct (thread_cases t) as [->|[x ->]].
    { destruct (v_bal _ _ Hv) as (_ & Hc & _). change (main s = Copy dst src :: rest) in Hl.
      rewrite Hl in Hc. by apply Forall_cons in Hc as [? _]. }
    destruct (pump_copy _ _ _ _ _ (v_dir _ _ Hv x) Hl) as [-> ->].
    unfold exec_stmt in Hex. rewrite Hl in Hex.
    pose proof (v_dir _ _ Hv x) as Hx. pose proof (v_dir _ _ Hv (other x)) as Ho.
    pose proof (copy_step_spec s x n rest Hx Ho Hl) as Hspec.
    destruct (copy_step s (other x) x n) as [|s1|s1] eqn:Hstep; [done|..]; injection Hex as <-.
    + destruct Hspec as (_ & _ & _ & Hu & Hd & _). exfalso.
      assert (left s1 (reader x) = left s (reader x)) as Heq by (destruct x; [exact Hu|exact Hd]).
      rewrite Heq, Hl in Hl'. by apply (f_equal length) in Hl'; cbn in Hl'; lia.
    + apply copy_returns in Hstep as [?|[?|(He & Hi & ->)]]; [by left|by right; left|].
      right. right. split; [done|]. rewrite !get_set_left.
      rewrite (d_exact _ _ Hx) by (by exists rest). apply take_ge.
      apply (f_equal length) in Hi. unfold inbox in Hi. rewrite length_drop in Hi. cbn in Hi. lia.
  - intros t n rest Hl. pose proof (send_room p s t rest Hv Hl) as Hlt.
    unfold exec_stmt. rewrite Hl, (proj2 (Z.ltb_lt _ _) Hlt). by eexists.
Qed.

(** Nothing reaches the client once the upstream connection is closed. *)
Definition upstream_closed (s : state) : Prop := closed (upstream s) = true.

Lemma side_closed_stays s e s' y : step s e = Some s' → closed (get s y) = true → closed (get s' y) = true.
Proof.
  assert (∀ s x c, (closed (get s x) = true → closed c = true) → closed (get s y) = true →
    closed (get (set s x c) y) = true) as Hset.
  { intros s0 x c Hc Hy. destruct (decide (x = y)) as [<-|Hne]; [rewrite get_set_same; auto|by rewrite get_set_other]. }
  destruct e as [t n| |t|x l|x]; cbn [step].
  - unfold exec_stmt. destruct (left s t) as [|i rest]; [done|].
    destruct i as [dst src|x|x| | |].
    + unfold copy_step. destruct (closed (get s src)); [by intros [= <-]; rewrite get_set_left|].
      destruct (inbox (get s src)); [destruct (eof _); [|done]; by intros [= <-]; rewrite get_set_left|].
      destruct (told _); intros [= <-] Hy; rewrite ?get_set_left; repeat (apply Hset; [done|]); done.
    + intros [= <-] Hy. rewrite get_set_left. by apply Hset.
    + intros [= <-] Hy. rewrite get_set_left. by apply Hset.
    + destruct (_ <? _); [|done]. intros [= <-]. rewrite get_set_left. by destruct y.
    + destruct (_ <? _); [|done]. intros [= <-]. rewrite get_set_left. by destruct y.
    + destruct (_ <? _); [|done]. intros [= <-]. rewrite get_set_left. by destruct y.
  - unfold timeout. destruct (main s) as [|[]]; try done. intros [= <-]. by destruct y.
  - unfold copy_fails. destruct (left s t) as [|[]]; try done. intros [= <-]. by rewrite get_set_left.
  - unfold peer_sends. destruct (eof _); [done|]. intros [= <-] Hy. by apply Hset.
  - intros [= <-] Hy. by apply Hset.
Qed.

Lemma closed_stays s e s' : step s e = Some s' → upstream_closed s → upstream_closed s'.
Proof. apply (side_closed_stays s e s' Upstream). Qed.

(** ** How far the threads are *)

Lemma left_suffix s e s' t : step s e = Some s' → left s' t `suffix_of` left s t.
Proof.
  assert (∀ s1 u l, left s u `suffix_of` left s u → l `suffix_of` left s u →
    (∀ v, left s1 v = left s v) → left (set_left s1 u l) t `suffix_of` left s t) as Hset.
  { intros s1 u l _ Hl Hs1. destruct (decide (u = t)) as [->|Hne]; [by rewrite left_set_left|].
    rewrite left_set_left_ne by done. by rewrite Hs1. }
  destruct e as [u n| |u|x l|x]; cbn [step].
  - unfold exec_stmt. destruct (left s u) as [|i rest] eqn:Hl; [done|].
    assert (∀ s1, (∀ v, left s1 v = left s v) → left (set_left s1 u rest) t `suffix_of` left s t) as Hnext.
    { intros s1 Hs1. apply Hset; [done| |done]. rewrite Hl. by exists [i]. }
    destruct i as [dst src|x|x| | |].
    + unfold copy_step. destruct (closed (get s src)); [intros [= <-]; by apply Hnext|].
      destruct (inbox (get s src)); [destruct (eof _); [|done]; intros [= <-]; by apply Hnext|].
      destruct (told _); intros [= <-]; [apply Hnext; by intros []; destruct src|].
      by rewrite !left_set.
    + intros [= <-]. apply Hnext. by intros []; destruct x.
    + intros [= <-]. apply Hnext. by intros []; destruct x.
    + destruct (_ <? _); [|done]. intros [= <-]. apply Hnext. by intros [].
    + destruct (_ <? _); [|done]. intros [= <-]. apply Hnext. by intros [].
    + destruct (_ <? _); [|done]. intros [= <-]. apply Hnext. by intros [].
  - unfold timeout. destruct (main s) as [|[] rest] eqn:Hm; try done. intros [= <-].
    destruct t; [done|done|]. cbn. rewrite Hm. by exists [RecvOrTimeout].
  - unfold copy_fails. destruct (left s u) as [|[] rest] eqn:Hl; try done. intros [= <-].
    apply Hset; [done| |done]. rewrite Hl. by eexists [_].
  - unfold peer_sends. destruct (eof _); [done|]. intros [= <-]. by rewrite left_set.
  - intros [= <-]. unfold peer_closes. by rewrite left_set.
Qed.

(** The handler's close of the upstream is ahead or done. *)
Definition closes_upstream (s : state) : Prop := Close Upstream ∈ main s ∨ upstream_closed s.

Lemma main_step s e s' :
  step s e = Some s' →
  main s' = main s ∨ ∃ i, main s = i :: main s' ∧ (i = Close Upstream → upstream_closed s').
Proof.
  destruct e as [t n| |t|x l|x]; cbn [step].
  - unfold exec_stmt. destruct (left s t) as [|i rest] eqn:Hl; [done|].
    assert (∀ s1, main s1 = main s → (i = Close Upstream → upstream_closed s1) →
      main (set_left s1 t rest) = main s ∨
      ∃ i, main s = i :: main (set_left s1 t rest) ∧ (i = Close Upstream → upstream_closed (set_left s1 t rest)))
      as Hnext by (intros s1 Hs1 Hi; destruct t; [by left|by left|right; exists i; by split]).
    destruct i as [dst src|x|x| | |].
    + unfold copy_step. destruct (closed (get s src)); [intros [= <-]; by apply Hnext|].
      destruct (inbox (get s src)); [destruct (eof _); [|done]; intros [= <-]; by apply Hnext|].
      destruct (told _); intros [= <-]; [by apply Hnext; destruct src|left; by destruct src, dst].
    + intros [= <-]. by apply Hnext; destruct x.
    + intros [= <-]. by apply Hnext; destruct x.
    + destruct (_ <? _); [|done]. intros [= <-]. by apply Hnext.
    + destruct (_ <? _); [|done]. intros [= <-]. by apply Hnext.
    + destruct (_ <? _); [|done]. intros [= <-]. by apply Hnext.
  - unfold timeout. destruct (main s) as [|[] rest] eqn:Hm; try done. intros [= <-]. right. by eexists.
  - unfold copy_fails. destruct (left s t) as [|[] rest] eqn:Hl; try done. intros [= <-].
    destruct t; [by left|by left|right; by eexists].
  - unfold peer_sends. destruct (eof _); [done|]. intros [= <-]. left. by destruct x.
  - intros [= <-]. left. by destruct x.
Qed.

Lemma closes_step s e s' : step s e = Some s' → closes_upstream s → closes_upstream s'.
Proof.
  intros Hstep [Hin|Hc]; [|right; by eapply closed_stays].
  destruct (main_step s e s' Hstep) as [Heq|(i & Heq & Hi)]; [left; by rewrite Heq|]. rewrite Heq in Hin.
  apply elem_of_cons in Hin as [<-|Hin]; [right; by apply Hi|by left].
Qed.

(** Facts of a run. *)
Lemma run_suffix es s s' t : run es s = Some s' → left s' t `suffix_of` left s t.
Proof.
  revert s. induction es as [|e es IH]; intros s; cbn [run]; [by intros [= <-]|].
  intros (s1 & H1 & Hrun)%bind_Some. transitivity (left s1 t); [by apply IH|by eapply left_suffix].
Qed.

Lemma run_closes es s s' : run es s = Some s' → closes_upstream s → closes_upstream s'.
Proof.
  revert s. induction es as [|e es IH]; intros s; cbn [run]; [by intros [= <-]|].
  intros (s1 & H1 & Hrun)%bind_Some Hc. eapply IH; [done|by eapply closes_step].
Qed.

Lemma tunnel_run_app es1 es2 s s1 : run es1 s = Some s1 → run (es1 ++ es2) s = run es2 s1.
Proof.
  revert s. induction es1 as [|e es IH]; intros s; cbn [run app]; [by intros [= ->]|].
  intros (s2 & -> & Hrun)%bind_Some. by apply IH.
Qed.

(** When one direction is over and the handler has not received, a message waits. *)
Lemma message_waits p es s :
  p ∈ tunnels → run es (start p) = Some s → up s = [] ∨ down s = [] →
  main s = main_body p → 0 < done_len s.
Proof.
  intros Hp Hrun Hover Hm. destruct (v_bal _ _ (tunnel_reachable_inv p es s Hp Hrun)) as (_ & _ & _ & Hb).
  pose proof (run_suffix es _ s Up Hrun) as [pu Hu]. pose proof (run_suffix es _ s Down Hrun) as [pd Hd].
  assert (done_len s + sends (up s) + sends (down s) = 2) as Hsum.
  { destruct Hb as [[_ ?]|[(pre & Hne & Hpre) _]]; [done|]. rewrite Hm in Hpre.
    apply (f_equal length) in Hpre. rewrite length_app in Hpre. destruct pre; [done|cbn in Hpre; lia]. }
  assert (∀ l pre k : list stmt, pre ++ l = k → sends l <= sends k) as Hle.
  { intros l pre k <-. unfold sends. rewrite filter_app, len_app. pose proof (len_nonneg (filter (λ i, i = Send) pre)). lia. }
  symmetry in Hu, Hd. apply Hle in Hu, Hd.
  assert (sends (up_body p) = 1 ∧ sends (down_body p) = 1) as [Eu Ed].
  { unfold tunnels in Hp. rewrite !elem_of_cons, elem_of_nil in Hp.
    destruct Hp as [->|[->|[->|[->|[]]]]]; by vm_compute. }
  cbn in Hu, Hd. destruct Hover as [Ho|Ho]; rewrite Ho in Hsum; change (sends []) with 0 in Hsum; lia.
Qed.

(** ** When the handlers return *)

(** Where a handler can be. *)
Lemma main_cases p es s :
  p ∈ tunnels → run es (start p) = Some s → main s `suffix_of` main_body p ∧ closes_upstream s.
Proof.
  intros Hp Hrun. split; [by apply (run_suffix es (start p) s Main)|].
  apply (run_closes es (start p)); [done|]. left.
  unfold tunnels in Hp. rewrite !elem_of_cons, elem_of_nil in Hp.
  destruct Hp as [->|[->|[->|[->|[]]]]]; cbn; set_solver.
Qed.

(** The suffixes of a list, the longest first. *)
Fixpoint suffixes {A} (l : list A) : list (list A) :=
  l :: match l with [] => [] | _ :: l => suffixes l end.

Lemma suffixes_complete {A} (l k : list A) : l `suffix_of` k → l ∈ suffixes k.
Proof.
  intros [pre ->]. induction pre as [|x pre IH]; cbn; [destruct l; by left|by right].
Qed.

Lemma main_suffixes p es s :
  p ∈ tunnels → run es (start p) = Some s → main s ∈ suffixes (main_body p).
Proof. intros Hp Hrun. by apply suffixes_complete, (main_cases p es). Qed.

Definition frontend_tunnels : list program :=
  [serveH1Connect_tunnel; handleRequest_tunnel; relayHandler_tunnel].

Definition handler_event (e : event) : bool :=
  match e with Exec Main _ | Timeout => true | _ => false end.

(** The statements of the handler run to the end. *)
Fixpoint finish_main (l : list stmt) : list event :=
  match l with
  | [] => []
  | RecvOrTimeout :: l => Timeout :: finish_main l
  | _ :: l => Exec Main 0 :: finish_main l
  end.

Lemma finish_main_events l : Forall (λ e, handler_event e = true) (finish_main l).
Proof. induction l as [|[] l IH]; cbn; by constructor. Qed.

Definition closing (i : stmt) : bool := match i with CloseWrite _ | Close _ => true | _ => false end.

Lemma closing_runs s i rest n :
  main s = i :: rest → closing i = true →
  ∃ s', step s (Exec Main n) = Some s' ∧ main s' = rest.
Proof.
  intros Hm Hi. destruct i; try done; (eexists; split;
    [cbn [step]; unfold exec_stmt; cbn [left]; rewrite Hm; reflexivity|by destruct c]).
Qed.

Lemma timeout_runs s rest :
  main s = RecvOrTimeout :: rest → ∃ s', step s Timeout = Some s' ∧ main s' = rest.
Proof. intros Hm. cbn [step]. unfold timeout. rewrite Hm. by eexists. Qed.

Lemma recv_runs s rest n :
  main s = Recv :: rest → 0 < done_len s →
  ∃ s', step s (Exec Main n) = Some s' ∧ main s' = rest.
Proof.
  intros Hm Hd. cbn [step]. unfold exec_stmt. cbn [left]. rewrite Hm, (proj2 (Z.ltb_lt _ _) Hd).
  by eexists.
Qed.

(** After its first receive a frontend handler never waits for long. *)
Lemma finish_main_runs l : ∀ s,
  main s = l → Forall (λ i, closing i = true ∨ i = RecvOrTimeout) l →
  ∃ s', run (finish_main l) s = Some s' ∧ returned s'.
Proof.
  induction l as [|i l IH]; intros s Hm Hs; [by exists s|].
  apply Forall_cons in Hs as [Hi Hs].
  assert (∃ e s1, finish_main (i :: l) = e :: finish_main l ∧ step s e = Some s1 ∧ main s1 = l)
    as (e & s1 & -> & Hstep & Hm1).
  { destruct Hi as [Hi| ->].
    - destruct (closing_runs s i l 0 Hm Hi) as (s1 & ? & ?). exists (Exec Main 0), s1. by destruct i.
    - destruct (timeout_runs s l Hm) as (s1 & ? & ?). by exists Timeout, s1. }
  destruct (IH s1 Hm1 Hs) as (s' & Hrun & Hr). exists s'. cbn [run]. by rewrite Hstep.
Qed.

Lemma suffixes_Forall {A} (P : A → Prop) (l k : list A) :
  l ∈ suffixes k → Forall P k → Forall P l ∧ (length l <= length k)%nat.
Proof.
  induction k as [|i k IH]; cbn [suffixes]; [by intros ->%list_elem_of_singleton|].
  intros [->|Hin]%elem_of_cons Hk; [done|]. apply Forall_cons in Hk as [_ Hk].
  destruct (IH Hin Hk). split; [done|cbn; lia].
Qed.

Lemma finish_main_length l : length (finish_main l) = length l.
Proof. induction l as [|[] l IH]; cbn; congruence. Qed.

(** A frontend handler past its receive, after the events [pre]. *)
Lemma finish_from s m pre s1 :
  (length m <= 3)%nat → Forall (λ i, closing i = true ∨ i = RecvOrTimeout) m →
  closes_upstream s → run pre s = Some s1 → main s1 ∈ suffixes m →
  Forall (λ e, handler_event e = true) pre → (length pre <= 1)%nat →
  ∃ es' s', Forall (λ e, handler_event e = true) es' ∧ (length es' <= 4)%nat ∧
    run es' s = Some s' ∧ returned s' ∧ upstream_closed s'.
Proof.
  intros Hlen Hall Hcl Hpre Hm1 Hh Hl. destruct (suffixes_Forall _ _ _ Hm1 Hall) as [Hf Hlen1].
  destruct (finish_main_runs (main s1) s1 eq_refl Hf) as (s' & Hrun' & Hr).
  exists (pre ++ finish_main (main s1)), s'. split_and!.
  - apply Forall_app. split; [done|apply finish_main_events].
  - rewrite length_app, finish_main_length. lia.
  - by rewrite (tunnel_run_app _ _ _ _ Hpre).
  - done.
  - assert (closes_upstream s') as [Hin|?]; [|exfalso|done].
    + exact (run_closes _ _ _ Hrun' (run_closes _ _ _ Hpre Hcl)).
    + unfold returned in Hr. rewrite Hr in Hin. by apply elem_of_nil in Hin.
Qed.

(** C22. The frontends' tunnels do not outlive a direction by more than the five
    seconds they wait: in every reachable state in which one of the copying
    goroutines is over, the handler returns by its own steps and the timer alone,
    at most four of them, whatever the peers and the other goroutine do, and with
    the upstream connection closed. *)
Theorem frontend_tunnels_return p es s :
  p ∈ frontend_tunnels → run es (start p) = Some s → up s = [] ∨ down s = [] →
  ∃ es' s', Forall (λ e, handler_event e = true) es' ∧ (length es' <= 4)%nat ∧
    run es' s = Some s' ∧ returned s' ∧ upstream_closed s'.
Proof.
  intros Hp Hrun Hover.
  assert (p ∈ tunnels) as Ht by (unfold frontend_tunnels, tunnels in *; set_solver).
  pose proof (main_suffixes p es s Ht Hrun) as Hm.
  destruct (main_cases p es s Ht Hrun) as [_ Hcl].
  pose proof (message_waits p es s Ht Hrun Hover) as Hwait.
  assert (∃ m, main_body p = Recv :: m ∧ (length m <= 3)%nat ∧
    Forall (λ i, closing i = true ∨ i = RecvOrTimeout) m) as (m & Hpm & Hlen & Hall).
  { unfold frontend_tunnels in Hp. rewrite !elem_of_cons, elem_of_nil in Hp.
    destruct Hp as [->|[->|[->|[]]]]; (eexists; split_and!; [done|cbn; lia|repeat constructor; by auto]). }
  rewrite Hpm in Hm, Hwait. cbn [suffixes] in Hm.
  apply elem_of_cons in Hm as [Hm|Hm]; [|apply (finish_from s m [] s); [done..|constructor|cbn; lia]].
  destruct (recv_runs s m 0 Hm (Hwait Hm)) as (s1 & Hstep & Hm1).
  apply (finish_from s m [Exec Main 0] s1);
    [done..|cbn [run]; by rewrite Hstep|rewrite Hm1; destruct m; by left|by repeat constructor|done].
Qed.

(** ** The answer that comes after the close *)

Lemma upstream_silent p s e s' :
  inv p s → upstream_closed s → step s e = Some s' → wrote (client s') = wrote (client s).
Proof.
  intros Hv Hc. destruct e as [t n| |t|x l|x]; cbn [step].
  - unfold exec_stmt. destruct (left s t) as [|i rest] eqn:Hl; [done|].
    destruct i as [dst src|x|x| | |].
    + destruct (thread_cases t) as [->|[x ->]].
      { destruct (v_bal _ _ Hv) as (_ & Hn & _). change (main s = Copy dst src :: rest) in Hl.
        rewrite Hl in Hn. by apply Forall_cons in Hn as [? _]. }
      destruct (pump_copy _ _ _ _ _ (v_dir _ _ Hv x) Hl) as [-> ->].
      unfold copy_step. destruct x; [|cbn [get]; rewrite Hc; by intros [= <-]].
      destruct (closed (get s Client)); [by intros [= <-]|].
      destruct (inbox (get s Client)); [destruct (eof _); [|done]; by intros [= <-]|].
      destruct (told _); by intros [= <-].
    + intros [= <-]. by destruct x, t.
    + intros [= <-]. by destruct x, t.
    + destruct (_ <? _); [|done]. intros [= <-]. by destruct t.
    + destruct (_ <? _); [|done]. intros [= <-]. by destruct t.
    + destruct (_ <? _); [|done]. intros [= <-]. by destruct t.
  - unfold timeout. destruct (main s) as [|[]]; try done. by intros [= <-].
  - unfold copy_fails. destruct (left s t) as [|[]]; try done. intros [= <-]. by destruct t.
  - unfold peer_sends. destruct (eof _); [done|]. intros [= <-]. by destruct x.
  - intros [= <-]. by destruct x.
Qed.

Lemma upstream_silent_run p es s s' :
  wf_program p → inv p s → upstream_closed s → run es s = Some s' →
  wrote (client s') = wrote (client s).
Proof.
  intros Hwf. revert s. induction es as [|e es IH]; intros s Hv Hc; cbn [run]; [by intros [= <-]|].
  intros (s1 & H1 & Hrun)%bind_Some. rewrite (IH s1); try done.
  - by eapply upstream_silent.
  - by eapply tunnel_step_inv.
  - by eapply closed_stays.
Qed.

(** A client that closes its write side loses the rest of the answer.  In
    each tunnel, when the copy towards the upstream is over and the handler has
    not received yet, two steps of the handler close the upstream connection; and
    once it is closed nothing more is written to the client, whatever the
    upstream sent or sends. *)
Theorem half_close_cuts_the_answer p es s :
  p ∈ tunnels → run es (start p) = Some s → up s = [] → main s = main_body p →
  ∃ s1, run [Exec Main 0; Exec Main 0] s = Some s1 ∧ upstream_closed s1 ∧
    wrote (client s1) = wrote (client s) ∧
    ∀ es' s', run es' s1 = Some s' → wrote (client s') = wrote (client s).
Proof.
  intros Hp Hrun Hup Hm. pose proof (message_waits p es s Hp Hrun (or_introl Hup) Hm) as Hd.
  assert (∃ rest, main_body p = Recv :: Close Upstream :: rest) as [rest Hb].
  { unfold tunnels in Hp. rewrite !elem_of_cons, elem_of_nil in Hp.
    destruct Hp as [->|[->|[->|[->|[]]]]]; by eexists. }
  rewrite Hb in Hm.
  set (s1 := s <| done_len := done_len s - 1 |> <| main := rest |>
    <| upstream := (upstream s) <| closed := true |> |>).
  assert (run [Exec Main 0; Exec Main 0] s = Some s1) as Hs1.
  { assert (exec_stmt s Main 0 = Some (s <| done_len := done_len s - 1 |> <| main := Close Upstream :: rest |>)) as Hrecv
      by (unfold exec_stmt; cbn [left]; by rewrite Hm, (proj2 (Z.ltb_lt _ _) Hd)).
    cbn [run step]. by rewrite Hrecv. }
  exists s1. split_and!; try done. intros es' s' Hrun'.
  rewrite (upstream_silent_run p es' s1 s'); [done|by apply tunnels_wf| |done|done].
  eapply tunnel_run_inv; [by apply tunnels_wf| |exact Hs1]. by eapply tunnel_reachable_inv.
Qed.

(** ** [splice] waits for the client *)

(** What a client does: send, close its side, or make its connection fail. *)
Definition client_event (e : event) : bool :=
  match e with PeerSends Client _ | PeerCloses Client | CopyFails Up => true | _ => false end.

(** The download is over, the upstream closed, the client silent and told nothing. *)
Record stranded (s : state) : Prop := {
  t_up : ∃ rest, up s = Copy Upstream Client :: rest;
  t_down : down s = [];
  t_main : main s = [Recv];
  t_done : done_len s = 0;
  t_idle : inbox (client s) = [] ∧ eof (client s) = false ∧ told (client s) = false
}.

Lemma stranded_step s e s' :
  stranded s → client_event e = false → step s e = Some s' → stranded s'.
Proof.
  intros [[rest Hu] Hd Hm H0 (Hi & He & Ht)] Hce. destruct e as [[| |] n| |[| |]|[] l|[]]; try done; cbn [step].
  - unfold exec_stmt. cbn [left]. rewrite Hu. unfold copy_step. cbn [get].
    unfold told in Ht. apply orb_false_iff in Ht as [_ ->]. by rewrite Hi, He.
  - unfold exec_stmt. cbn [left]. by rewrite Hd.
  - unfold exec_stmt. cbn [left]. by rewrite Hm, H0.
  - unfold timeout. by rewrite Hm.
  - unfold copy_fails. cbn [left]. by rewrite Hd.
  - unfold copy_fails. cbn [left]. by rewrite Hm.
  - unfold peer_sends. cbn [get]. destruct (eof (upstream s)); [done|]. intros [= <-]. split; try done. by exists rest.
  - intros [= <-]. split; try done. by exists rest.
Qed.

Lemma stranded_run es s s' :
  stranded s → Forall (λ e, client_event e = false) es → run es s = Some s' → stranded s'.
Proof.
  revert s. induction es as [|e es IH]; intros s Hs Hall; cbn [run]; [by intros [= <-]|].
  apply Forall_cons in Hall as [He Hall]. intros (s1 & H1 & Hrun)%bind_Some.
  apply (IH s1); [by eapply stranded_step|done|done].
Qed.

(** [splice] keeps a silent client waiting.  Whatever the upstream sends
    before it closes, there is a run in which all of it is forwarded and after
    which no event but the client's own (sending, closing, failing) makes the
    handler return or lets the client read an end of stream. *)
Theorem splice_strands_the_client l :
  ∃ es s, run es (start splice) = Some s ∧
    sent (upstream s) = l ∧ eof (upstream s) = true ∧ wrote (client s) = l ∧
    ∀ es' s', Forall (λ e, client_event e = false) es' → run es' s = Some s' →
      ¬ returned s' ∧ told (client s') = false.
Proof.
  set (c := fresh_conn <| wrote := l |>).
  set (u := mkConn l (length l) true [] false true).
  set (s := mkState c u 0 [Copy Upstream Client; Send] [] [Recv]).
  assert (∃ es, run es (start splice) = Some s) as [es Hrun].
  { exists ([PeerSends Upstream l; PeerCloses Upstream; Exec Down (length l)] ++
      (if decide (l = []) then [] else [Exec Down 0]) ++ [Exec Down 0; Exec Main 0; Exec Main 0]).
    destruct l as [|b l]; [reflexivity|]. rewrite decide_False by done.
    cbn -[take drop]. unfold exec_stmt, copy_step, inbox. cbn -[take drop].
    rewrite drop_0, take_ge by (cbn; lia). cbn -[drop]. rewrite drop_ge by (cbn; lia). done. }
  assert (stranded s) as Hs by (split; try done; by eexists).
  exists es, s. split_and!; try done. intros es' s' Hall Hrun'.
  destruct (stranded_run es' s s' Hs Hall Hrun') as [_ _ Hm _ (_ & _ & Ht)].
  split; [|done]. unfold returned. by rewrite Hm.
Qed.

(** ** [splice] returns when the client closes *)

Definition recvs (l : list stmt) : Z := len (filter (λ i, is_recv i = true) l).

Lemma recvs_cons i l : recvs (i :: l) = (if is_recv i then 1 else 0) + recvs l.
Proof.
  unfold recvs. rewrite filter_cons. destruct (is_recv i); case_decide; try done; rewrite ?len_cons; lia.
Qed.

(** Messages sent or to be sent, less the receives to come. *)
Definition credit (s : state) : Z :=
  done_len s + (sends (up s) + sends (down s) + sends (main s)) -
  (recvs (up s) + recvs (down s) + recvs (main s)).

Lemma credit_next s s1 t i rest :
  left s t = i :: rest → (∀ u, left s1 u = left s u) →
  done_len s1 = done_len s + (if decide (i = Send) then 1 else 0) - (if is_recv i then 1 else 0) →
  credit (set_left s1 t rest) = credit s.
Proof.
  intros Hl Hs1 Hd. pose proof (Hs1 Up) as Hu. pose proof (Hs1 Down) as Hw. pose proof (Hs1 Main) as Hm.
  cbn in Hu, Hw, Hm. unfold credit.
  destruct t; cbn [set_left left] in *; cbn -[sends recvs]; rewrite ?Hu, ?Hw, ?Hm, Hl, sends_cons, recvs_cons, Hd; lia.
Qed.

Ltac credit_arith :=
  first [rewrite decide_True by reflexivity | rewrite decide_False by discriminate]; cbn; lia.

Lemma credit_step s e s' : step s e = Some s' → e ≠ Timeout → credit s' = credit s.
Proof.
  intros Hstep Hne. destruct e as [t n| |t|x l|x]; cbn [step] in Hstep; [| done|..].
  - unfold exec_stmt in Hstep. destruct (left s t) as [|i rest] eqn:Hl; [done|].
    destruct i as [dst src|x|x| | |].
    + unfold copy_step in Hstep. destruct (closed (get s src)).
      { injection Hstep as <-. eapply credit_next; [exact Hl|done|credit_arith]. }
      destruct (inbox (get s src)); [destruct (eof (get s src)); [|done]|].
      { injection Hstep as <-. eapply credit_next; [exact Hl|done|credit_arith]. }
      destruct (told _); injection Hstep as <-.
      * eapply credit_next; [exact Hl|by intros []; destruct src|destruct src; credit_arith].
      * by destruct src, dst.
    + injection Hstep as <-. eapply credit_next; [exact Hl|by intros []; destruct x|destruct x; credit_arith].
    + injection Hstep as <-. eapply credit_next; [exact Hl|by intros []; destruct x|destruct x; credit_arith].
    + destruct (_ <? _); [|done]. injection Hstep as <-. eapply credit_next; [exact Hl|by intros []|credit_arith].
    + destruct (_ <? _); [|done]. injection Hstep as <-. eapply credit_next; [exact Hl|by intros []|credit_arith].
    + destruct (_ <? _); [|done]. injection Hstep as <-. eapply credit_next; [exact Hl|by intros []|credit_arith].
  - unfold copy_fails in Hstep. destruct (left s t) as [|[dst src| | | | |] rest] eqn:Hl; try done.
    injection Hstep as <-. eapply credit_next; [exact Hl|done|credit_arith].
  - unfold peer_sends in Hstep. destruct (eof (get s x)); [done|]. injection Hstep as <-. by destruct x.
  - injection Hstep as <-. by destruct x.
Qed.

Lemma splice_no_timeout s : main s `suffix_of` main_body splice → step s Timeout = None.
Proof.
  intros Hm%suffixes_complete. cbn [step]. unfold timeout. cbn in Hm.
  rewrite !elem_of_cons, elem_of_nil in Hm. by destruct Hm as [->|[->|[->|[->|[]]]]].
Qed.

Lemma splice_credit es s : run es (start splice) = Some s → credit s = 0.
Proof.
  assert (∀ s0, main s0 `suffix_of` main_body splice → run es s0 = Some s → credit s = credit s0) as Hrun.
  { induction es as [|e es IH]; intros s0 Hm; cbn [run]; [by intros [= <-]|].
    intros (s1 & H1 & Hrun)%bind_Some. rewrite (IH s1); [|..|done].
    - apply (credit_step _ e); [done|]. intros ->. by rewrite splice_no_timeout in H1.
    - transitivity (main s0); [by apply (left_suffix s0 e s1 Main)|done]. }
  intros H. by rewrite (Hrun (start splice)).
Qed.

(** What running one copying thread leaves alone. *)
Record frame (x : side) (s s' : state) : Prop := {
  f_other : left s' (reader (other x)) = left s (reader (other x));
  f_main : main s' = main s;
  f_closed : ∀ y, closed (get s' y) = closed (get s y);
  f_eof : ∀ y, eof (get s' y) = eof (get s y)
}.

Lemma frame_trans x s1 s2 s3 : frame x s1 s2 → frame x s2 s3 → frame x s1 s3.
Proof. intros [] []. split; intros; etransitivity; eauto. Qed.

Definition ends (s : state) (x : side) : Prop := closed (get s x) = true ∨ eof (get s x) = true.

Lemma frame_next x s s1 rest :
  frame x s s1 → frame x s (set_left s1 (reader x) rest).
Proof.
  intros [Ho Hm Hc He]. split.
  - rewrite <- Ho. by destruct x.
  - rewrite <- Hm. by destruct x.
  - intros y. by rewrite get_set_left.
  - intros y. by rewrite get_set_left.
Qed.

(** A copy whose source is closed or at its end of stream runs to completion. *)
Lemma copy_drains x rest k : ∀ s,
  (length (inbox (get s x)) < k)%nat →
  left s (reader x) = Copy (other x) x :: rest → ends s x →
  ∃ j s', run (replicate j (Exec (reader x) 0)) s = Some s' ∧
    left s' (reader x) = rest ∧ frame x s s'.
Proof.
  induction k as [|k IH]; intros s Hk Hl Hend; [lia|].
  assert (∀ s1, frame x s s1 → copy_step s (other x) x 0 = Returns s1 →
    ∃ j s', run (replicate j (Exec (reader x) 0)) s = Some s' ∧ left s' (reader x) = rest ∧ frame x s s') as Hret.
  { intros s1 Hf Hc. exists 1%nat, (set_left s1 (reader x) rest).
    cbn [replicate run step]. unfold exec_stmt. rewrite Hl, Hc.
    split_and!; [done|apply left_set_left|by apply frame_next]. }
  destruct (copy_step s (other x) x 0) as [|s1|s1] eqn:Hc.
  - exfalso. unfold copy_step in Hc. destruct (closed (get s x)) eqn:Hcl; [done|].
    destruct Hend as [Hend|Hend]; [congruence|]. rewrite Hend in Hc.
    destruct (inbox (get s x)); [done|]. by destruct (told _).
  - assert (frame x s s1 ∧ left s1 (reader x) = left s (reader x) ∧
      (length (inbox (get s1 x)) < length (inbox (get s x)))%nat) as (Hf & Hl1 & Hlt).
    { unfold copy_step in Hc. destruct (closed (get s x)); [done|].
      destruct (inbox (get s x)) as [|b l] eqn:Hin; [by destruct (eof _)|].
      destruct (told _); [done|]. injection Hc as <-. split_and!; [|by destruct x|].
      - destruct x; split; done || by intros [].
      - rewrite get_set_other by (apply not_eq_sym, other_ne). rewrite get_set_same.
        apply (f_equal length) in Hin. unfold inbox in *. cbn in *. rewrite length_drop in *. lia. }
    destruct (IH s1) as (j & s' & Hrun & Hl' & Hf').
    + lia.
    + by rewrite Hl1.
    + destruct Hend; [left; by rewrite (f_closed _ _ _ Hf)|right; by rewrite (f_eof _ _ _ Hf)].
    + exists (S j), s'. cbn [replicate run step]. unfold exec_stmt at 1. rewrite Hl, Hc. cbn.
      split_and!; [done|done|by eapply frame_trans].
  - apply (Hret s1); [|done]. unfold copy_step in Hc. destruct (closed (get s x)).
    { injection Hc as <-. by split. }
    destruct (inbox (get s x)); [destruct (eof _); [|done]; injection Hc as <-; by split|].
    destruct (told _); [|done]. injection Hc as <-. destruct x; split; done || by intros [].
Qed.

Definition exec_event (e : event) : bool := match e with Exec _ _ => true | _ => false end.

(** A copying thread of [splice] runs to its end once its source has ended. *)
Lemma splice_pump_ends es s x :
  run es (start splice) = Some s → ends s x →
  ∃ es' s', Forall (λ e, exec_event e = true) es' ∧ run es' s = Some s' ∧
    left s' (reader x) = [] ∧ frame x s s'.
Proof.
  intros Hrun Hend.
  assert (left s (reader x) ∈ suffixes [Copy (other x) x; Send]) as Hl.
  { apply suffixes_complete. pose proof (run_suffix es _ s (reader x) Hrun). by destruct x. }
  assert (∀ es1 s1, Forall (λ e, exec_event e = true) es1 → run es1 s = Some s1 → frame x s s1 →
    left s1 (reader x) = [Send] →
    ∃ es' s', Forall (λ e, exec_event e = true) es' ∧ run es' s = Some s' ∧
      left s' (reader x) = [] ∧ frame x s s') as Hsend.
  { intros es1 s1 Hes H1 Hf Hs1.
    assert (done_len s1 < 2) as Hlt.
    { apply (send_room splice s1 (reader x) []); [|done]. apply (tunnel_reachable_inv _ (es ++ es1)); [by left|].
      by rewrite (tunnel_run_app _ _ _ _ Hrun). }
    exists (es1 ++ [Exec (reader x) 0]), (set_left (s1 <| done_len := done_len s1 + 1 |>) (reader x) []).
    split_and!; [apply Forall_app; split; [done|by repeat constructor]| |apply left_set_left|].
    - rewrite (tunnel_run_app _ _ _ _ H1). cbn [run step]. unfold exec_stmt.
      by rewrite Hs1, (proj2 (Z.ltb_lt _ _) Hlt).
    - apply frame_next, (frame_trans _ _ s1); [done|]. split; done || by intros []. }
  cbn [suffixes] in Hl. rewrite !elem_of_cons, elem_of_nil in Hl. destruct Hl as [Hl|[Hl|[Hl|[]]]].
  - destruct (copy_drains x [Send] (S (length (inbox (get s x)))) s) as (j & s1 & H1 & Hl1 & Hf); [lia|done..|].
    apply (Hsend (replicate j (Exec (reader x) 0)) s1); [|done..]. by apply Forall_replicate.
  - apply (Hsend [] s); [done|done|by split|done].
  - exists [], s. by split_and!.
Qed.

(** Once the upload is over the handler closes the upstream connection. *)
Lemma splice_closes es s :
  run es (start splice) = Some s → up s = [] →
  ∃ es' s', Forall (λ e, exec_event e = true) es' ∧ run es' s = Some s' ∧
    up s' = [] ∧ (main s' = [Recv] ∨ main s' = []) ∧ upstream_closed s'.
Proof.
  intros Hrun Hup. assert (splice ∈ tunnels) as Hp by by left.
  pose proof (message_waits _ es s Hp Hrun (or_introl Hup)) as Hwait.
  destruct (main_cases _ es s Hp Hrun) as [Hm%suffixes_complete Hcl].
  assert (∀ s1 pre, run pre s = Some s1 → up s1 = [] → main s1 = [Close Upstream; Recv] →
    Forall (λ e, exec_event e = true) pre →
    ∃ es' s', Forall (λ e, exec_event e = true) es' ∧ run es' s = Some s' ∧
      up s' = [] ∧ (main s' = [Recv] ∨ main s' = []) ∧ upstream_closed s') as Hclose.
  { intros s1 pre H1 Hu Hm1 Hpre.
    exists (pre ++ [Exec Main 0]), (s1 <| upstream := (upstream s1) <| closed := true |> |> <| main := [Recv] |>).
    split_and!; [apply Forall_app; split; [done|by repeat constructor]| |done|by left|done].
    rewrite (tunnel_run_app _ _ _ _ H1). cbn [run step]. unfold exec_stmt. cbn [left]. by rewrite Hm1. }
  cbn in Hm. rewrite !elem_of_cons, elem_of_nil in Hm. destruct Hm as [Hm|[Hm|[Hm|[Hm|[]]]]].
  - destruct (recv_runs s _ 0 Hm (Hwait Hm)) as (s1 & H1 & Hm1).
    apply (Hclose s1 [Exec Main 0]); [cbn [run]; by rewrite H1| |done|by repeat constructor].
    destruct (left_suffix _ _ _ Up H1) as [pre Hpre]. cbn [left] in Hpre. rewrite Hup in Hpre.
    symmetry in Hpre. by apply app_eq_nil in Hpre as [_ ?].
  - by apply (Hclose s []).
  - exists [], s. split_and!; [done|done|done|by left|].
    destruct Hcl as [Hin|?]; [|done]. rewrite Hm in Hin. by apply list_elem_of_singleton in Hin.
  - exists [], s. split_and!; [done|done|done|by right|].
    destruct Hcl as [Hin|?]; [|done]. rewrite Hm in Hin. by apply elem_of_nil in Hin.
Qed.

(** [splice] returns once the client has closed its side: from every
    reachable state in which it has, whatever is still in flight, the three
    threads can run to the end without any further event from the peers, and
    [splice] returns with the upstream connection closed. *)
Theorem splice_finishes_when_the_client_closes es s :
  run es (start splice) = Some s → eof (client s) = true →
  ∃ es' s', Forall (λ e, exec_event e = true) es' ∧ run es' s = Some s' ∧
    returned s' ∧ upstream_closed s'.
Proof.
  intros Hrun He.
  destruct (splice_pump_ends es s Client Hrun (or_intror He)) as (es1 & s1 & Hx1 & H1 & Hu1 & _).
  assert (run (es ++ es1) (start splice) = Some s1) as R1 by by rewrite (tunnel_run_app _ _ _ _ Hrun).
  destruct (splice_closes _ s1 R1 Hu1) as (es2 & s2 & Hx2 & H2 & Hu2 & Hm2 & Hc2).
  assert (run ((es ++ es1) ++ es2) (start splice) = Some s2) as R2 by by rewrite (tunnel_run_app _ _ _ _ R1).
  destruct (splice_pump_ends _ s2 Upstream R2 (or_introl Hc2)) as (es3 & s3 & Hx3 & H3 & Hd3 & Hf3).
  assert (run (((es ++ es1) ++ es2) ++ es3) (start splice) = Some s3) as R3 by by rewrite (tunnel_run_app _ _ _ _ R2).
  assert (upstream_closed s3) as Hc3 by (unfold upstream_closed; rewrite <- Hc2; apply (f_closed _ _ _ Hf3 Upstream)).
  assert (run (es1 ++ es2 ++ es3) s = Some s3) as Hall.
  { by rewrite (tunnel_run_app _ _ _ _ H1), (tunnel_run_app _ _ _ _ H2). }
  assert (Forall (λ e, exec_event e = true) (es1 ++ es2 ++ es3)) as Hx by by rewrite !Forall_app.
  pose proof (f_main _ _ _ Hf3) as Hm3. pose proof (f_other _ _ _ Hf3) as Hu3. cbn in Hu3.
  destruct Hm2 as [Hm2|Hm2]; rewrite Hm2 in Hm3; [|by exists (es1 ++ es2 ++ es3), s3].
  assert (done_len s3 = 1) as Hdone.
  { pose proof (splice_credit _ s3 R3) as Hcr. unfold credit in Hcr. cbn in Hd3.
    rewrite Hd3, Hu3, Hu2, Hm3 in Hcr.
    change (sends []) with 0 in Hcr. change (sends [Recv]) with 0 in Hcr.
    change (recvs []) with 0 in Hcr. change (recvs [Recv]) with 1 in Hcr. lia. }
  destruct (recv_runs s3 [] 0 Hm3) as (s4 & H4 & Hm4); [lia|].
  exists ((es1 ++ es2 ++ es3) ++ [Exec Main 0]), s4. split_and!.
  - apply Forall_app. split; [done|by repeat constructor].
  - rewrite (tunnel_run_app _ _ _ _ Hall). cbn [run]. by rewrite H4.
  - done.
  - by eapply closed_stays.
Qed.

(** ** Witnesses *)

Module Demo.

(** The client sends two bytes and closes; the upstream answers one byte. *)
Definition exchange : list event :=
  [PeerSends Client [1; 2]; Exec Up 7; PeerSends Upstream [3]; Exec Down 7; PeerCloses Client].

Definition after (p : program) (es : list event) : state := default (start p) (run es (start p)).

Lemma tunnel_forwards_exactly_witness :
  wrote (upstream (after splice exchange)) `prefix_of` [1; 2].
Proof.
  destruct (tunnel_forwards_exactly splice exchange (after splice exchange)) as (Hpre & _);
    [by left|vm_compute; reflexivity|]. exact (Hpre Client).
Defined.

Lemma frontend_tunnels_return_witness :
  ∃ es' s', run es' (after handleRequest_tunnel (exchange ++ [Exec Up 0; Exec Up 0; Exec Up 0])) = Some s' ∧
    returned s'.
Proof.
  destruct (frontend_tunnels_return handleRequest_tunnel (exchange ++ [Exec Up 0; Exec Up 0; Exec Up 0])
    (after handleRequest_tunnel (exchange ++ [Exec Up 0; Exec Up 0; Exec Up 0]))) as (es' & s' & _ & _ & Hrun & Hr & _).
  - right. by left.
  - vm_compute. reflexivity.
  - left. vm_compute. reflexivity.
  - exists es', s'. split; [exact Hrun|exact Hr].
Defined.

Lemma half_close_cuts_the_answer_witness :
  ∃ s1, run [Exec Main 0; Exec Main 0]
      (after serveH1Connect_tunnel (exchange ++ [Exec Up 0; Exec Up 0; Exec Up 0])) = Some s1 ∧
    upstream_closed s1.
Proof.
  destruct (half_close_cuts_the_answer serveH1Connect_tunnel (exchange ++ [Exec Up 0; Exec Up 0; Exec Up 0])
    (after serveH1Connect_tunnel (exchange ++ [Exec Up 0; Exec Up 0; Exec Up 0]))) as (s1 & Hrun & Hc & _).
  - right. by left.
  - vm_compute. reflexivity.
  - vm_compute. reflexivity.
  - vm_compute. reflexivity.
  - exists s1. split; [exact Hrun|exact Hc].
Defined.

Lemma splice_strands_the_client_witness :
  ∃ es s, run es (start splice) = Some s ∧ wrote (client s) = [3; 4] ∧ ¬ returned s.
Proof.
  destruct (splice_strands_the_client [3; 4]) as (es & s & Hrun & _ & _ & Hw & Hall).
  exists es, s. split; [exact Hrun|split; [exact Hw|]]. apply (Hall [] s); [constructor|reflexivity].
Defined.

Lemma splice_finishes_when_the_client_closes_witness :
  ∃ es' s', run es' (after splice exchange) = Some s' ∧ returned s'.
Proof.
  destruct (splice_finishes_when_the_client_closes exchange (after splice exchange)) as (es' & s' & _ & Hrun & Hr & _);
    [vm_compute; reflexivity|vm_compute; reflexivity|]. exists es', s'. split; [exact Hrun|exact Hr].
Defined.

End Demo.
