(* ===== verification/GoNet.v ===== *)
(** * Numbers and network addresses as text

    The functions of [strconv] and [net] that the proxy code calls, written out
    on lists of bytes: [Itoa], [Atoi], [JoinHostPort], [ParseIP], [IP.To4] and
    [IP.String].  An address is a list of byte values. *)

From S2P Require Import Prelude GoIP GoText.

(** ** Decimal numbers *)

Definition digit (d : Z) : ascii := byte (48 + d).

(** The digits of [n], for [n < 10 ^ fuel]. *)
Fixpoint digits (fuel : nat) (n : Z) : text :=
  match fuel with
  | O => []
  | S fuel => if n <? 10 then [digit n] else digits fuel (n / 10) ++ [digit (n mod 10)]
  end.

(** An int has at most 19 digits. *)
Definition Itoa (n : Z) : text := if n <? 0 then "-"%char :: digits 20 (- n) else digits 20 n.

Definition is_digit (c : ascii) : bool := (48 <=? code c) && (code c <=? 57).
Definition value (l : text) : Z := foldl (λ v c, 10 * v + (code c - 48)) 0 l.

Definition Atoi (l : text) : option Z :=
  let '(neg, l) :=
    match l with
    | c :: l' => if bool_decide (c = "-"%char) then (true, l')
                 else if bool_decide (c = "+"%char) then (false, l') else (false, l)
    | [] => (false, l)
    end in
  if bool_decide (l = []) || negb (forallb is_digit l) then None
  else
    let n := if neg then - value l else value l in
    if (-9223372036854775808 <=? n) && (n <? 9223372036854775808) then Some n else None.

(** ** Host and port *)

Definition JoinHostPort (host port : text) : text :=
  if 0 <=? IndexByte host ":"%char
  then "["%char :: host ++ "]"%char :: ":"%char :: port
  else host ++ ":"%char :: port.

(** ** IPv4 addresses *)

(** The loop of [parseIPv4Fields]: the field being read, its number of digits,
    the fields before it, and the previous character. *)
Fixpoint parseIPv4Fields (l : text) (prev : option ascii) (val digLen : Z) (fields : list Z)
    : option (list Z) :=
  match l with
  | [] => if len fields <? 3 then None else Some (fields ++ [val])
  | c :: l =>
      if is_digit c then
        if (digLen =? 1) && (val =? 0) then None
        else
          let val := val * 10 + (code c - 48) in
          if 255 <? val then None else parseIPv4Fields l (Some c) val (digLen + 1) fields
      else if bool_decide (c = "."%char) then
        if bool_decide (prev = None) || bool_decide (l = []) || bool_decide (prev = Some "."%char) then None
        else if len fields =? 3 then None
        else parseIPv4Fields l (Some c) 0 0 (fields ++ [val])
      else None
  end.

Definition parseIPv4 (l : text) : option (list Z) := parseIPv4Fields l None 0 0 [].

(** ** IPv6 addresses *)

(** The digits at the front of [l], their number and their value. *)
Fixpoint hexGroup (l : text) (off acc : Z) : Z * Z * text :=
  match l with
  | [] => (off, acc, l)
  | c :: l' => match fromHexChar c with
               | Some d => hexGroup l' (off + 1) (16 * acc + d)
               | None => (off, acc, l)
               end
  end.

(** The loop of [parseIPv6]: the bytes read and the position of the ellipsis.
    Each round consumes a character, so [fuel] is the length of the text. *)
Fixpoint parseIPv6Loop (fuel : nat) (s : text) (ip : list Z) (ellipsis : option Z)
    : option (list Z * option Z * text) :=
  match fuel with
  | O => Some (ip, ellipsis, s)
  | S fuel =>
      if negb (len ip <? 16) then Some (ip, ellipsis, s)
      else
        let '(off, acc, tail) := hexGroup s 0 0 in
        if 4 <? off then None
        else if off =? 0 then None
        else
          match tail with
          | "."%char :: _ =>
              if bool_decide (ellipsis = None) && negb (len ip =? 12) then None
              else if 16 <? len ip + 4 then None
              else fields ← parseIPv4 s; Some (ip ++ fields, ellipsis, [])
          | _ =>
              let ip := ip ++ [Z.shiftr acc 8; Z.land acc 255] in
              match tail with
              | [] => Some (ip, ellipsis, [])
              | c :: s =>
                  if negb (bool_decide (c = ":"%char)) then None
                  else
                    match s with
                    | [] => None
                    | c :: s' =>
                        if bool_decide (c = ":"%char) then
                          match ellipsis with
                          | Some _ => None
                          | None =>
                              if bool_decide (s' = []) then Some (ip, Some (len ip), [])
                              else parseIPv6Loop fuel s' ip (Some (len ip))
                          end
                        else parseIPv6Loop fuel s ip ellipsis
                    end
              end
          end
  end.

(** A text with a zone ([%]) is not an IP for [net.ParseIP]. *)
Definition parseIPv6 (l : text) : option (list Z) :=
  if 0 <=? IndexByte l "%"%char then None
  else
    let finish '(ip, ellipsis, s) :=
      if negb (bool_decide (s = [])) then None
      else if len ip <? 16 then
        e ← ellipsis;
        Some (take (Z.to_nat e) ip ++ replicate (16 - length ip) 0 ++ drop (Z.to_nat e) ip)
      else match ellipsis with Some _ => None | None => Some ip end in
    match l with
    | ":"%char :: ":"%char :: l' =>
        if bool_decide (l' = []) then Some (replicate 16 0)
        else parseIPv6Loop (length l') l' [] (Some 0) ≫= finish
    | _ => parseIPv6Loop (length l) l [] None ≫= finish
    end.

(** The first of the characters [.], [:] and [%] decides. *)
Fixpoint ParseIP_from (l whole : text) : option (list Z) :=
  match l with
  | [] => None
  | c :: l =>
      if bool_decide (c = "."%char) then ip ← parseIPv4 whole; Some (v4InV6Prefix ++ ip)
      else if bool_decide (c = ":"%char) then parseIPv6 whole
      else if bool_decide (c = "%"%char) then None
      else ParseIP_from l whole
  end.

Definition ParseIP (l : text) : option (list Z) := ParseIP_from l l.

(** ** IP.String *)

Definition hexDigit (d : Z) : ascii := byte (if d <? 10 then 48 + d else 87 + d).

(** A group without leading zeros. *)
Definition appendHex (g : Z) : text :=
  (if 4096 <=? g then [hexDigit (Z.shiftr g 12)] else []) ++
  (if 256 <=? g then [hexDigit (Z.land (Z.shiftr g 8) 15)] else []) ++
  (if 16 <=? g then [hexDigit (Z.land (Z.shiftr g 4) 15)] else []) ++
  [hexDigit (Z.land g 15)].

Definition v4String (ip : list Z) : text :=
  match ip with
  | [a; b; c; d] => Itoa a ++ "."%char :: Itoa b ++ "."%char :: Itoa c ++ "."%char :: Itoa d
  | _ => []
  end.

(** The eight groups of an address. *)
Fixpoint groups (ip : list Z) : list Z :=
  match ip with
  | a :: b :: ip => 256 * a + b :: groups ip
  | _ => []
  end.

(** The number of zero groups at the front. *)
Fixpoint zeros (gs : list Z) : nat :=
  match gs with
  | g :: gs => if g =? 0 then S (zeros gs) else O
  | [] => O
  end.

(** The longest run of at least two zero groups, the first of them: its start and
    its end; the loop tries every start in turn. *)
Fixpoint longestZeros (i : nat) (gs : list Z) (best : nat * nat) : nat * nat :=
  match gs with
  | [] => best
  | _ :: gs' =>
      let l := zeros gs in
      longestZeros (S i) gs'
        (if (2 <=? l)%nat && (best.2 - best.1 <? l)%nat then (i, (i + l)%nat) else best)
  end.

(** Groups separated by colons. *)
Fixpoint joinGroups (gs : list Z) : text :=
  match gs with
  | [] => []
  | [g] => appendHex g
  | g :: gs => appendHex g ++ ":"%char :: joinGroups gs
  end.

Definition v6String (ip : list Z) : text :=
  let gs := groups ip in
  let '(zeroStart, zeroEnd) := longestZeros 0 gs (255%nat, 255%nat) in
  if (zeroStart <? 8)%nat
  then joinGroups (take zeroStart gs) ++ ":"%char :: ":"%char :: joinGroups (drop zeroEnd gs)
  else joinGroups gs.

Definition IPString (ip : list Z) : text :=
  match To4 ip with Some ip4 => v4String ip4 | None => v6String ip end.

Example parse_v4 : ParseIP (bytes "192.168.0.255") = Some (v4InV6Prefix ++ [192; 168; 0; 255]).
Proof. vm_compute. reflexivity. Qed.
Example parse_v4_leading_zero : ParseIP (bytes "192.168.01.1") = None.
Proof. vm_compute. reflexivity. Qed.
Example parse_v6 : ParseIP (bytes "2001:db8::8:800:200C:417a") =
  Some [32; 1; 13; 184; 0; 0; 0; 0; 0; 8; 8; 0; 32; 12; 65; 122].
Proof. vm_compute. reflexivity. Qed.
Example parse_v6_v4 : ParseIP (bytes "::ffff:1.2.3.4") = Some (v4InV6Prefix ++ [1; 2; 3; 4]).
Proof. vm_compute. reflexivity. Qed.
Example parse_v6_zone : ParseIP (bytes "fe80::1%eth0") = None.
Proof. vm_compute. reflexivity. Qed.
Example parse_v6_long : ParseIP (bytes "1:2:3:4:5:6:7::8") = None.
Proof. vm_compute. reflexivity. Qed.
Example string_v6 : IPString [32; 1; 13; 184; 0; 0; 0; 0; 0; 8; 8; 0; 32; 12; 65; 122] =
  bytes "2001:db8::8:800:200c:417a".
Proof. vm_compute. reflexivity. Qed.
Example string_v6_unspecified : IPString (replicate 16 0) = bytes "::".
Proof. vm_compute. reflexivity. Qed.
Example string_v6_plain : IPString [0; 1; 0; 0; 0; 3; 0; 4; 0; 5; 0; 6; 0; 7; 0; 8] = bytes "1:0:3:4:5:6:7:8".
Proof. vm_compute. reflexivity. Qed.
Example string_v4 : IPString [10; 0; 200; 7] = bytes "10.0.200.7".
Proof. vm_compute. reflexivity. Qed.
