(* ===== verification/GoNetFacts.v ===== *)
(** * Facts about numbers and addresses as text

    Rendering then parsing gives the value back: decimal numbers, IPv4 and IPv6
    addresses, and host:port pairs. *)

From S2P Require Import Prelude GoIP GoText GoNet.

(** ** Characters *)

Lemma code_byte z : 0 <= z < 256 → code (byte z) = z.
Proof. intros Hz. unfold code, byte. rewrite nat_ascii_embedding; lia. Qed.

Lemma byte_code c : byte (code c) = c.
Proof. unfold code, byte. by rewrite Nat2Z.id, ascii_nat_embedding. Qed.

Lemma code_range c : 0 <= code c < 256.
Proof. unfold code. pose proof (nat_ascii_bounded c). lia. Qed.

Lemma code_inj c d : code c = code d → c = d.
Proof. intros H. by rewrite <- (byte_code c), <- (byte_code d), H. Qed.

Lemma is_digit_digit d : 0 <= d < 10 → is_digit (digit d) = true ∧ code (digit d) - 48 = d.
Proof. intros Hd. unfold is_digit, digit. rewrite code_byte by lia. lia. Qed.

(** ** Decimal numbers *)

Lemma digits_S f n :
  digits (S f) n = if n <? 10 then [digit n] else digits f (n / 10) ++ [digit (n mod 10)].
Proof. done. Qed.

Lemma digits_ok f : ∀ n, 0 <= n < 10 ^ Z.of_nat f →
  value (digits f n) = n ∧ forallb is_digit (digits f n) = true ∧ (0 < f → digits f n ≠ [])%nat.
Proof.
  induction f as [|f IH]; intros n Hn.
  - assert (n = 0) as -> by (cbn in Hn; lia). split_and!; [done|done|lia].
  - rewrite digits_S. destruct (Z.ltb_spec n 10).
    + destruct (is_digit_digit n) as [Hd Hv]; [lia|]. unfold value. cbn [foldl forallb].
      rewrite Hv, Hd. split_and!; [lia|done|done].
    + rewrite Nat2Z.inj_succ, Z.pow_succ_r in Hn by lia.
      pose proof (Z.div_mod n 10 ltac:(lia)) as Hdm. pose proof (Z.mod_pos_bound n 10 ltac:(lia)) as Hm.
      assert (0 <= n / 10 < 10 ^ Z.of_nat f) as Hq by (split; [apply Z.div_pos; lia|apply Z.div_lt_upper_bound; lia]).
      destruct (IH (n / 10) Hq) as (Hv & Hd & _).
      destruct (is_digit_digit (n mod 10)) as [Hd1 Hv1]; [lia|].
      split_and!.
      * unfold value in *. rewrite foldl_app, Hv. cbn [foldl]. rewrite Hv1. lia.
      * rewrite forallb_app, Hd. cbn [forallb]. by rewrite Hd1.
      * intros _ Hnil. by apply app_eq_nil in Hnil as [_ ?].
Qed.

Lemma digits_head f n : 0 <= n < 10 ^ Z.of_nat f → (0 < f)%nat →
  ∃ c l, digits f n = c :: l ∧ is_digit c = true.
Proof.
  intros Hn Hf. destruct (digits_ok f n Hn) as (_ & Hd & Hne). specialize (Hne Hf).
  destruct (digits f n) as [|c l]; [done|]. cbn in Hd. apply andb_true_iff in Hd as [Hc _]. by exists c, l.
Qed.

Lemma Itoa_nonneg n : 0 <= n → Itoa n = digits 20 n.
Proof. intros. unfold Itoa. by destruct (Z.ltb_spec n 0); [lia|]. Qed.

Lemma Itoa_digits n : 0 <= n < 9223372036854775808 → forallb is_digit (Itoa n) = true.
Proof. intros Hn. rewrite Itoa_nonneg by lia. apply digits_ok. lia. Qed.

Lemma Atoi_Itoa n : 0 <= n < 9223372036854775808 → Atoi (Itoa n) = Some n.
Proof.
  intros Hn. rewrite Itoa_nonneg by lia.
  destruct (digits_ok 20 n) as (Hv & Hd & _); [lia|].
  destruct (digits_head 20 n) as (c & l & Hcl & Hc); [lia|lia|].
  unfold Atoi. rewrite Hcl. assert (c ≠ "-"%char ∧ c ≠ "+"%char) as [H1 H2] by (split; intros ->; discriminate Hc).
  rewrite !bool_decide_eq_false_2 by done. rewrite <- Hcl, Hd, Hv. cbn [orb negb].
  by destruct (Z.leb_spec (-9223372036854775808) n), (Z.ltb_spec n 9223372036854775808); try lia.
Qed.

(** ** Searching *)

Lemma IndexByte_absent l c : c ∉ l → IndexByte l c = -1.
Proof.
  induction l as [|x l IH]; cbn [IndexByte]; [done|].
  intros [Hx Hl]%not_elem_of_cons. rewrite bool_decide_eq_false_2 by done. by rewrite IH.
Qed.

Lemma IndexByte_app l k c : c ∉ l → IndexByte (l ++ c :: k) c = len l.
Proof.
  induction l as [|x l IH]; cbn [IndexByte app]; [by rewrite bool_decide_eq_true_2|].
  intros [Hx Hl]%not_elem_of_cons. rewrite bool_decide_eq_false_2 by done. rewrite IH by done.
  rewrite len_cons. pose proof (len_nonneg l). by destruct (Z.ltb_spec (len l) 0); [lia|].
Qed.

Lemma IndexByte_elem l c : 0 <= IndexByte l c → c ∈ l.
Proof.
  intros H. destruct (decide (c ∈ l)) as [|Hn]; [done|]. rewrite IndexByte_absent in H by done. lia.
Qed.

Lemma IndexByte_present l c : c ∈ l → 0 <= IndexByte l c.
Proof.
  induction l as [|x l IH]; [by intros ?%elem_of_nil|]. cbn [IndexByte]. case_bool_decide; [lia|].
  intros [->|Hin]%elem_of_cons; [done|]. specialize (IH Hin). cbn zeta. destruct (Z.ltb_spec (IndexByte l c) 0); lia.
Qed.

Lemma LastIndexByte_absent l c : c ∉ l → LastIndexByte l c = -1.
Proof.
  induction l as [|x l IH]; cbn [LastIndexByte]; [done|]. intros [Hx Hl]%not_elem_of_cons.
  rewrite IH by done. cbn. by rewrite bool_decide_eq_false_2.
Qed.

Lemma LastIndexByte_app l k c : c ∉ k → LastIndexByte (l ++ c :: k) c = len l.
Proof.
  intros Hk. induction l as [|x l IH]; cbn [LastIndexByte app].
  - rewrite LastIndexByte_absent by done. cbn. by rewrite bool_decide_eq_true_2.
  - rewrite IH, len_cons. pose proof (len_nonneg l). by destruct (Z.leb_spec 0 (len l)); [|lia].
Qed.

(** ** Host and port *)

(** A text without brackets, and one without colons either. *)
Definition plain (l : text) : Prop := ("["%char ∉ l) ∧ ("]"%char ∉ l).
Definition plain_port (l : text) : Prop := plain l ∧ (":"%char ∉ l).

Lemma slice_from_cons {A} (x : A) l : slice_from (x :: l) 1 = Ok l.
Proof. by apply (slice_from_app [x]). Qed.

Lemma slice_from_0 {A} (l : list A) : slice_from l 0 = Ok l.
Proof. by apply (slice_from_app []). Qed.

Lemma split_bracketed h p :
  plain h → plain_port p →
  SplitHostPort (of_bytes ("["%char :: h ++ "]"%char :: ":"%char :: p)) = ret (of_bytes h, of_bytes p).
Proof.
  intros [Hh1 Hh2] [[Hp1 Hp2] Hp3]. unfold SplitHostPort. rewrite bytes_of_bytes.
  pose proof (len_nonneg h). pose proof (len_nonneg p). set (l := "["%char :: _).
  assert (l = ("["%char :: h) ++ "]"%char :: ":"%char :: p) as L1 by done.
  assert (l = (("["%char :: h) ++ ["]"%char]) ++ ":"%char :: p) as L2 by by rewrite <- (assoc_L (++)).
  assert (l = (("["%char :: h) ++ ["]"%char; ":"%char]) ++ p) as L3 by by rewrite <- (assoc_L (++)).
  assert (LastIndexByte l ":"%char = len h + 2) as ->.
  { rewrite L2, LastIndexByte_app by done. rewrite len_app, len_cons. unfold len at 2. cbn. lia. }
  assert (IndexByte l "]"%char = len h + 1) as ->.
  { rewrite L1, IndexByte_app; [by rewrite len_cons|]. by apply not_elem_of_cons. }
  assert (len l = len h + 3 + len p) as Hlen by (unfold l; rewrite len_cons, len_app, !len_cons; lia).
  destruct (Z.ltb_spec (len h + 2) 0); [lia|].
  assert (slice_get l 0 = Ok "["%char) as -> by done. cbn [mbind result_bind].
  rewrite bool_decide_eq_true_2 by done. cbn zeta.
  destruct (Z.ltb_spec (len h + 1) 0); [lia|].
  destruct (Z.eqb_spec (len h + 1 + 1) (len l)); [lia|].
  rewrite (proj2 (Z.eqb_eq _ _)) by lia.
  assert (slice_to l (len h + 1) = Ok ("["%char :: h)) as ->
    by (rewrite L1; apply slice_to_app; by rewrite len_cons).
  cbn [mbind result_bind]. rewrite slice_from_cons. cbn [mbind result_bind try_bind ret].
  assert (slice_from l 1 = Ok (h ++ "]"%char :: ":"%char :: p)) as -> by (apply slice_from_cons).
  cbn [mbind result_bind].
  rewrite (IndexByte_absent _ "["%char) by (rewrite not_elem_of_app, !not_elem_of_cons; naive_solver).
  cbn [Z.leb Z.compare].
  assert (slice_from l (len h + 1 + 1) = Ok (":"%char :: p)) as ->.
  { rewrite L2. apply slice_from_app. rewrite len_app, len_cons. unfold len at 3. cbn. lia. }
  cbn [mbind result_bind]. rewrite IndexByte_absent by (rewrite not_elem_of_cons; naive_solver).
  cbn [Z.leb Z.compare].
  assert (slice_from l (len h + 2 + 1) = Ok p) as ->; [|done].
  rewrite L3. apply slice_from_app. rewrite len_app, len_cons. unfold len at 3. cbn. lia.
Qed.

Lemma split_bare h p :
  plain h → ":"%char ∉ h → plain_port p →
  SplitHostPort (of_bytes (h ++ ":"%char :: p)) = ret (of_bytes h, of_bytes p).
Proof.
  intros [Hh1 Hh2] Hno [[Hp1 Hp2] Hp3]. unfold SplitHostPort. rewrite bytes_of_bytes.
  pose proof (len_nonneg h). rewrite LastIndexByte_app by done. destruct (Z.ltb_spec (len h) 0); [lia|].
  assert (∃ c, slice_get (h ++ ":"%char :: p) 0 = Ok c ∧ c ≠ "["%char) as (c & -> & Hcne).
  { destruct h as [|c h]; [by exists ":"%char|]. exists c. split; [by apply (slice_get_app [])|].
    intros ->. apply Hh1. by left. }
  cbn [mbind result_bind]. rewrite bool_decide_eq_false_2 by done.
  rewrite slice_to_app by done. cbn [mbind result_bind].
  rewrite (IndexByte_absent h ":"%char) by done. cbn [Z.leb Z.compare try_bind ret].
  rewrite slice_from_0. cbn [mbind result_bind].
  rewrite !IndexByte_absent by (rewrite not_elem_of_app, not_elem_of_cons; naive_solver).
  cbn [Z.leb Z.compare mbind result_bind].
  replace (h ++ ":"%char :: p) with ((h ++ [":"%char]) ++ p) by (by rewrite <- (assoc_L (++))).
  by rewrite slice_from_app by (by rewrite len_app).
Qed.

Lemma SplitHostPort_JoinHostPort h p :
  plain h → plain_port p →
  SplitHostPort (of_bytes (JoinHostPort h p)) = ret (of_bytes h, of_bytes p).
Proof.
  intros Hh Hp. unfold JoinHostPort. destruct (Z.leb_spec 0 (IndexByte h ":"%char)) as [Hc|Hc].
  - by apply split_bracketed.
  - apply split_bare; [done| |done]. intros Hin%IndexByte_present. lia.
Qed.

(** ** IPv4 addresses *)

Lemma ipv4_digit d rest prev val dl fields :
  0 <= d < 10 → ¬ (dl = 1 ∧ val = 0) → val * 10 + d <= 255 →
  parseIPv4Fields (digit d :: rest) prev val dl fields =
  parseIPv4Fields rest (Some (digit d)) (val * 10 + d) (dl + 1) fields.
Proof.
  intros Hd Hz Hv. destruct (is_digit_digit d Hd) as [H1 H2]. cbn [parseIPv4Fields]. rewrite H1, H2.
  replace ((dl =? 1) && (val =? 0)) with false by lia. by destruct (Z.ltb_spec 255 (val * 10 + d)); [lia|].
Qed.

Lemma digits_small b :
  0 <= b < 256 →
  (b < 10 ∧ Itoa b = [digit b]) ∨
  (∃ a c, 1 <= a < 10 ∧ 0 <= c < 10 ∧ b = a * 10 + c ∧ Itoa b = [digit a; digit c]) ∨
  (∃ a c d, 1 <= a < 10 ∧ 0 <= c < 10 ∧ 0 <= d < 10 ∧ b = (a * 10 + c) * 10 + d ∧
    Itoa b = [digit a; digit c; digit d]).
Proof.
  intros Hb. rewrite Itoa_nonneg by lia. rewrite digits_S.
  destruct (Z.ltb_spec b 10); [by left|right]. rewrite digits_S.
  pose proof (Z.div_mod b 10 ltac:(lia)). pose proof (Z.mod_pos_bound b 10 ltac:(lia)).
  destruct (Z.ltb_spec (b / 10) 10); [left; exists (b / 10), (b mod 10); split_and!; done || lia|right].
  rewrite digits_S. pose proof (Z.div_mod (b / 10) 10 ltac:(lia)). pose proof (Z.mod_pos_bound (b / 10) 10 ltac:(lia)).
  destruct (Z.ltb_spec (b / 10 / 10) 10); [|lia].
  exists (b / 10 / 10), (b / 10 mod 10), (b mod 10). split_and!; done || lia.
Qed.

Lemma ipv4_field b rest prev fields :
  0 <= b < 256 → ∃ c dl, is_digit c = true ∧
  parseIPv4Fields (Itoa b ++ rest) prev 0 0 fields = parseIPv4Fields rest (Some c) b dl fields.
Proof.
  intros Hb. assert (∀ d, 0 <= d < 10 → is_digit (digit d) = true) as Hdig
    by (intros; by apply is_digit_digit).
  destruct (digits_small b Hb) as [[Hs ->]|[(a & c & Ha & Hc & Heq & ->)|(a & c & d & Ha & Hc & Hd & Heq & ->)]]; cbn [app].
  - exists (digit b), 1. split; [apply Hdig; lia|]. by rewrite ipv4_digit by lia.
  - exists (digit c), 2. split; [by apply Hdig|]. rewrite !ipv4_digit by lia. by rewrite Heq.
  - exists (digit d), 3. split; [by apply Hdig|]. rewrite !ipv4_digit by lia. by rewrite Heq.
Qed.

Lemma ipv4_dot rest c val dl fields :
  is_digit c = true → rest ≠ [] → len fields < 3 →
  parseIPv4Fields ("."%char :: rest) (Some c) val dl fields =
  parseIPv4Fields rest (Some "."%char) 0 0 (fields ++ [val]).
Proof.
  intros Hc Hr Hf. cbn [parseIPv4Fields]. change (is_digit "."%char) with false. cbn match.
  rewrite bool_decide_eq_true_2 by done. rewrite (bool_decide_eq_false_2 (Some c = None)) by done.
  rewrite bool_decide_eq_false_2 by done. rewrite bool_decide_eq_false_2 by (intros [= ->]; discriminate Hc).
  by destruct (Z.eqb_spec (len fields) 3); [lia|].
Qed.

(** A list of byte values. *)
Definition byte_list (l : list Z) : Prop := Forall (λ b, 0 <= b < 256) l.

Lemma list_of_four {A} (l : list A) : len l = 4 → ∃ a b c d, l = [a; b; c; d].
Proof. unfold len. destruct l as [|a [|b [|c [|d [|]]]]]; cbn; try lia. intros _. by exists a, b, c, d. Qed.

Lemma Itoa_nonempty b rest : 0 <= b < 256 → Itoa b ++ rest ≠ [].
Proof.
  intros Hb. destruct (digits_small b Hb) as [[_ ->]|[(?&?&?&?&?& ->)|(?&?&?&?&?&?&?& ->)]]; done.
Qed.

Lemma parse_v4String ip : byte_list ip → len ip = 4 → parseIPv4 (v4String ip) = Some ip.
Proof.
  intros Hb (a & b & c & d & ->)%list_of_four. unfold byte_list in Hb.
  rewrite !Forall_cons in Hb. destruct Hb as (Ha & Hb & Hc & Hd & _).
  unfold parseIPv4, v4String.
  destruct (ipv4_field a ("."%char :: Itoa b ++ "."%char :: Itoa c ++ "."%char :: Itoa d) None [] Ha) as (? & ? & ? & ->).
  rewrite ipv4_dot by (done || by apply Itoa_nonempty).
  destruct (ipv4_field b ("."%char :: Itoa c ++ "."%char :: Itoa d) (Some "."%char) ([] ++ [a]) Hb) as (? & ? & ? & ->).
  rewrite ipv4_dot by (done || by apply Itoa_nonempty).
  destruct (ipv4_field c ("."%char :: Itoa d) (Some "."%char) (([] ++ [a]) ++ [b]) Hc) as (? & ? & ? & ->).
  rewrite ipv4_dot; [|done| |done]; [|rewrite <- (app_nil_r (Itoa d)); by apply Itoa_nonempty].
  destruct (ipv4_field d [] (Some "."%char) ((([] ++ [a]) ++ [b]) ++ [c]) Hd) as (? & ? & ? & Hlast).
  rewrite app_nil_r in Hlast. by rewrite Hlast.
Qed.

(** [ParseIP] skips what is neither a dot, a colon nor a percent sign. *)
Lemma ParseIP_skip l k whole :
  ("."%char ∉ l) → (":"%char ∉ l) → ("%"%char ∉ l) →
  ParseIP_from (l ++ k) whole = ParseIP_from k whole.
Proof.
  induction l as [|c l IH]; intros H1 H2 H3; [done|]. apply not_elem_of_cons in H1 as [? ?], H2 as [? ?], H3 as [? ?].
  cbn [app ParseIP_from]. rewrite !bool_decide_eq_false_2 by done. by apply IH.
Qed.

Lemma digits_no_char l c : forallb is_digit l = true → is_digit c = false → c ∉ l.
Proof.
  intros Hl Hc Hin. apply (proj1 (forallb_forall _ _)) with (x := c) in Hl; [congruence|by apply list_elem_of_In].
Qed.

Lemma ParseIP_v4String ip : byte_list ip → len ip = 4 → ParseIP (v4String ip) = Some (v4InV6Prefix ++ ip).
Proof.
  intros Hb Hl. pose proof (parse_v4String ip Hb Hl) as Hp.
  apply list_of_four in Hl as (a & b & c & d & ->). apply Forall_cons in Hb as [Ha _].
  unfold ParseIP. unfold v4String at 1.
  assert (forallb is_digit (Itoa a) = true) as Hd by (apply Itoa_digits; lia).
  rewrite ParseIP_skip by (by apply digits_no_char). cbn [ParseIP_from].
  rewrite bool_decide_eq_true_2 by done. by rewrite Hp.
Qed.

(** ** IPv6 addresses *)

Lemma hexDigit_value d : 0 <= d < 16 → fromHexChar (hexDigit d) = Some d.
Proof.
  intros Hd. assert (d ∈ seqZ 0 16) as Hin by (apply elem_of_seqZ; lia). clear Hd.
  revert d Hin. apply Forall_forall. repeat constructor.
Qed.

Lemma hexGroup_digit d l off acc :
  0 <= d < 16 → hexGroup (hexDigit d :: l) off acc = hexGroup l (off + 1) (16 * acc + d).
Proof. intros Hd. cbn [hexGroup]. by rewrite hexDigit_value. Qed.

Lemma nibble g k : 0 <= g → 0 <= k → Z.land (Z.shiftr g k) 15 = g / 2 ^ k mod 16.
Proof. intros. change 15 with (Z.ones 4). rewrite Z.land_ones, Z.shiftr_div_pow2 by lia. done. Qed.

(** What follows a group: the end, or a character that is neither a digit nor a dot. *)
Definition after_group (rest : text) : Prop :=
  match rest with [] => True | c :: _ => fromHexChar c = None ∧ c ≠ "."%char end.

Lemma hexGroup_stop rest off acc : after_group rest → hexGroup rest off acc = (off, acc, rest).
Proof. destruct rest as [|c rest]; cbn [hexGroup]; [done|]. by intros [-> _]. Qed.

Lemma hexGroup_appendHex g rest :
  0 <= g < 65536 → after_group rest →
  ∃ off, 1 <= off <= 4 ∧ hexGroup (appendHex g ++ rest) 0 0 = (off, g, rest).
Proof.
  intros Hg Hr. unfold appendHex.
  assert (Z.shiftr g 12 = g / 4096) as -> by (by rewrite Z.shiftr_div_pow2).
  rewrite !nibble by lia. change (2 ^ 8) with 256. change (2 ^ 4) with 16.
  assert (Z.land g 15 = g mod 16) as -> by (change 15 with (Z.ones 4); by rewrite Z.land_ones by lia).
  pose proof (Z.div_mod g 16 ltac:(lia)) as D1. pose proof (Z.mod_pos_bound g 16 ltac:(lia)) as B1.
  pose proof (Z.div_mod (g / 16) 16 ltac:(lia)) as D2. pose proof (Z.mod_pos_bound (g / 16) 16 ltac:(lia)) as B2.
  pose proof (Z.div_mod (g / 256) 16 ltac:(lia)) as D3. pose proof (Z.mod_pos_bound (g / 256) 16 ltac:(lia)) as B3.
  assert (g / 16 / 16 = g / 256) as E1 by (by rewrite Z.div_div by lia).
  assert (g / 256 / 16 = g / 4096) as E2 by (by rewrite Z.div_div by lia).
  rewrite E1 in D2. rewrite E2 in D3.
  destruct (Z.leb_spec 4096 g); [|destruct (Z.leb_spec 256 g); [|destruct (Z.leb_spec 16 g)]].
  - replace (256 <=? g) with true by lia. replace (16 <=? g) with true by lia. cbn [app].
    exists 4. split; [lia|]. rewrite !hexGroup_digit, hexGroup_stop by (done || lia). repeat f_equal. lia.
  - replace (16 <=? g) with true by lia. cbn [app].
    exists 3. split; [lia|]. rewrite !hexGroup_digit, hexGroup_stop by (done || lia). repeat f_equal. lia.
  - cbn [app]. exists 2. split; [lia|]. rewrite !hexGroup_digit, hexGroup_stop by (done || lia). repeat f_equal. lia.
  - cbn [app]. exists 1. split; [lia|]. rewrite !hexGroup_digit, hexGroup_stop by (done || lia). repeat f_equal. lia.
Qed.

Definition group_bytes (g : Z) : list Z := [Z.shiftr g 8; Z.land g 255].
Definition groups_bytes (gs : list Z) : list Z := flat_map group_bytes gs.
Definition group_list (gs : list Z) : Prop := Forall (λ g, 0 <= g < 65536) gs.

Lemma groups_bytes_len gs : len (groups_bytes gs) = 2 * len gs.
Proof.
  induction gs as [|g gs IH]; [done|]. change (groups_bytes (g :: gs)) with (group_bytes g ++ groups_bytes gs).
  rewrite len_app, len_cons, IH. unfold len at 1. cbn. lia.
Qed.

Lemma groups_bytes_app gs hs : groups_bytes (gs ++ hs) = groups_bytes gs ++ groups_bytes hs.
Proof. apply flat_map_app. Qed.

(** One round of the loop on a group. *)
Lemma loop_group fuel g rest ip e :
  0 <= g < 65536 → after_group rest → len ip < 16 →
  parseIPv6Loop (S fuel) (appendHex g ++ rest) ip e =
  match rest with
  | [] => Some (ip ++ group_bytes g, e, [])
  | c :: s =>
      if negb (bool_decide (c = ":"%char)) then None
      else
        match s with
        | [] => None
        | c :: s' =>
            if bool_decide (c = ":"%char) then
              match e with
              | Some _ => None
              | None =>
                  if bool_decide (s' = [])
                  then Some (ip ++ group_bytes g, Some (len (ip ++ group_bytes g)), [])
                  else parseIPv6Loop fuel s' (ip ++ group_bytes g) (Some (len (ip ++ group_bytes g)))
              end
            else parseIPv6Loop fuel s (ip ++ group_bytes g) e
        end
  end.
Proof.
  intros Hg Hr Hip. destruct (hexGroup_appendHex g rest Hg Hr) as (off & Hoff & Hh).
  cbn [parseIPv6Loop]. rewrite Hh. replace (negb (len ip <? 16)) with false by lia.
  replace (4 <? off) with false by lia. replace (off =? 0) with false by lia.
  destruct rest as [|c rest]; [done|]. destruct Hr as [_ Hdot].
  destruct c as [[] [] [] [] [] [] [] []]; done.
Qed.

Lemma appendHex_head g rest :
  0 <= g < 65536 → ∃ c l, appendHex g ++ rest = c :: l ∧ fromHexChar c ≠ None.
Proof.
  intros Hg. assert (∀ d, 0 <= d < 16 → fromHexChar (hexDigit d) ≠ None) as Hd
    by (intros d Hd; by rewrite hexDigit_value).
  assert (Z.shiftr g 12 = g / 4096) as E by (by rewrite Z.shiftr_div_pow2).
  unfold appendHex. rewrite E, !nibble by lia.
  assert (Z.land g 15 = g mod 16) as -> by (change 15 with (Z.ones 4); by rewrite Z.land_ones by lia).
  repeat case_match; cbn [app]; (eexists _, _; split; [reflexivity|apply Hd]);
    first [apply Z.mod_pos_bound; lia|split; [apply Z.div_pos; lia|apply Z.div_lt_upper_bound; lia]].
Qed.

Lemma colon_after s : after_group (":"%char :: s).
Proof. by vm_compute. Qed.

Lemma colon_no_hex c : fromHexChar c ≠ None → c ≠ ":"%char.
Proof. intros H ->. by apply H. Qed.

Lemma joinGroups_cons g h gs :
  joinGroups (g :: h :: gs) = appendHex g ++ ":"%char :: joinGroups (h :: gs).
Proof. done. Qed.

Lemma joinGroups_head g gs rest :
  0 <= g < 65536 → ∃ c l, joinGroups (g :: gs) ++ rest = c :: l ∧ c ≠ ":"%char.
Proof.
  intros Hg. assert (∃ k, joinGroups (g :: gs) ++ rest = appendHex g ++ k) as [k ->].
  { destruct gs as [|h gs]; [by exists rest|].
    exists ((":"%char :: joinGroups (h :: gs)) ++ rest). rewrite joinGroups_cons. by rewrite <- (assoc_L (++)). }
  destruct (appendHex_head g k Hg) as (c & l & -> & Hc). exists c, l. split; [done|by apply colon_no_hex].
Qed.

(** A sequence of groups up to the end of the text. *)
Lemma loop_groups gs : ∀ fuel ip e,
  gs ≠ [] → group_list gs → (length gs <= fuel)%nat → len ip + 2 * len gs <= 16 →
  parseIPv6Loop fuel (joinGroups gs) ip e = Some (ip ++ groups_bytes gs, e, []).
Proof.
  induction gs as [|g gs IH]; intros fuel ip e Hne Hgs Hf Hlen; [done|].
  apply Forall_cons in Hgs as [Hg Hgs]. destruct fuel as [|fuel]; [cbn in Hf; lia|].
  rewrite len_cons in Hlen. pose proof (len_nonneg gs).
  destruct gs as [|h gs].
  - change (joinGroups [g]) with (appendHex g). rewrite <- (app_nil_r (appendHex g)).
    rewrite loop_group by (done || lia). unfold groups_bytes. cbn [flat_map]. by rewrite app_nil_r.
  - rewrite joinGroups_cons, loop_group; [|done|apply colon_after|lia].
    rewrite bool_decide_eq_true_2 by done. cbn [negb].
    pose proof Hgs as [Hh _]%Forall_cons.
    destruct (joinGroups_head h gs [] Hh) as (c & l & Heq & Hc). rewrite app_nil_r in Heq.
    rewrite Heq, bool_decide_eq_false_2 by done. rewrite <- Heq, IH; [|done|done|cbn in Hf |- *; lia|].
    + change (groups_bytes (g :: h :: gs)) with (group_bytes g ++ groups_bytes (h :: gs)).
      by rewrite (assoc_L (++)).
    + rewrite len_app. change (len (group_bytes g)) with 2. lia.
Qed.

(** Groups, then the ellipsis, then the rest. *)
Lemma loop_ellipsis gs hs : ∀ fuel ip,
  gs ≠ [] → group_list gs → group_list hs → (length gs + length hs <= fuel)%nat →
  len ip + 2 * len gs + 2 * len hs <= 16 →
  parseIPv6Loop fuel (joinGroups gs ++ ":"%char :: ":"%char :: joinGroups hs) ip None =
  Some (ip ++ groups_bytes gs ++ groups_bytes hs, Some (len (ip ++ groups_bytes gs)), []).
Proof.
  induction gs as [|g gs IH]; intros fuel ip Hne Hgs Hhs Hf Hlen; [done|].
  apply Forall_cons in Hgs as [Hg Hgs]. destruct fuel as [|fuel]; [cbn in Hf; lia|].
  rewrite len_cons in Hlen. pose proof (len_nonneg gs). pose proof (len_nonneg hs).
  change (groups_bytes (g :: gs)) with (group_bytes g ++ groups_bytes gs).
  destruct gs as [|h gs].
  - change (joinGroups [g]) with (appendHex g). rewrite loop_group; [|done|apply colon_after|lia].
    rewrite !bool_decide_eq_true_2 by done. cbn [negb]. rewrite !app_nil_r.
    destruct hs as [|h hs]; [by rewrite bool_decide_eq_true_2 by done; rewrite !app_nil_r|].
    pose proof Hhs as [Hh _]%Forall_cons.
    destruct (joinGroups_head h hs [] Hh) as (c & l & Heq & _). rewrite app_nil_r in Heq.
    rewrite bool_decide_eq_false_2 by (by rewrite Heq).
    rewrite loop_groups; [by rewrite <- (assoc_L (++))|done|done|cbn in Hf |- *; lia|].
    rewrite len_app. change (len (group_bytes g)) with 2. lia.
  - rewrite joinGroups_cons, <- (assoc_L (++)). cbn [app].
    rewrite loop_group; [|done|apply colon_after|lia].
    rewrite bool_decide_eq_true_2 by done. cbn [negb]. pose proof Hgs as [Hh _]%Forall_cons.
    destruct (joinGroups_head h gs (":"%char :: ":"%char :: joinGroups hs) Hh) as (c & l & Heq & Hc).
    rewrite Heq, bool_decide_eq_false_2 by done. rewrite <- Heq, IH; [|done|done|done|cbn in Hf |- *; lia|].
    + by rewrite <- !(assoc_L (++)).
    + rewrite len_app. change (len (group_bytes g)) with 2. lia.
Qed.

(** The chosen run of zeros, if any, is one. *)
Definition zero_run (gs : list Z) (b : nat * nat) : Prop :=
  b = (255, 255)%nat ∨
  ((b.1 + 2 <= b.2)%nat ∧ (b.2 <= length gs)%nat ∧
   gs = take b.1 gs ++ replicate (b.2 - b.1) 0 ++ drop b.2 gs).

Lemma zeros_prefix gs : gs = replicate (zeros gs) 0 ++ drop (zeros gs) gs ∧ (zeros gs <= length gs)%nat.
Proof.
  induction gs as [|g gs [IH1 IH2]]; cbn [zeros]; [done|].
  destruct (Z.eqb_spec g 0) as [->|]; [|by split; [|lia]]. cbn. rewrite <- IH1. split; [done|lia].
Qed.

Lemma longestZeros_run gs pre best :
  zero_run (pre ++ gs) best → zero_run (pre ++ gs) (longestZeros (length pre) gs best).
Proof.
  revert pre best. induction gs as [|g gs IH]; intros pre best Hb; [done|]. cbn [longestZeros].
  assert (zero_run (pre ++ g :: gs) (if (2 <=? zeros (g :: gs))%nat && (best.2 - best.1 <? zeros (g :: gs))%nat
    then (length pre, length pre + zeros (g :: gs))%nat else best)) as Hnew.
  { destruct (Nat.leb_spec 2 (zeros (g :: gs))); cbn [andb]; [|done]. destruct (_ <? _)%nat; [|done]. right.
    destruct (zeros_prefix (g :: gs)) as [Hz Hl]. cbn [fst snd].
    split_and!; [lia|rewrite length_app; lia|].
    rewrite take_app_length, drop_app_add, Nat.add_comm, Nat.add_sub by lia. by rewrite <- Hz. }
  specialize (IH (pre ++ [g]) _ ltac:(by rewrite <- (assoc_L (++)); exact Hnew)).
  rewrite <- (assoc_L (++)), length_app, Nat.add_1_r in IH. exact IH.
Qed.

Lemma appendHex_chars g c : 0 <= g < 65536 → c ∈ appendHex g → fromHexChar c ≠ None.
Proof.
  intros Hg. assert (Z.shiftr g 12 = g / 4096) as E by (by rewrite Z.shiftr_div_pow2).
  assert (Z.land g 15 = g mod 16) as E' by (change 15 with (Z.ones 4); by rewrite Z.land_ones by lia).
  assert (∀ d, 0 <= d < 16 → c = hexDigit d → fromHexChar c ≠ None) as Hd
    by (intros d Hd ->; by rewrite hexDigit_value).
  unfold appendHex. rewrite E, E', !nibble by lia. rewrite !elem_of_app, list_elem_of_singleton.
  intros [H|[H|[H|H]]]; [| | |by apply (Hd (g mod 16)); [apply Z.mod_pos_bound; lia|]];
    case_match; try (by apply elem_of_nil in H); apply list_elem_of_singleton in H; (eapply Hd; [|exact H]);
    first [apply Z.mod_pos_bound; lia|split; [apply Z.div_pos; lia|apply Z.div_lt_upper_bound; lia]].
Qed.

Lemma appendHex_no g c : 0 <= g < 65536 → fromHexChar c = None → c ∉ appendHex g.
Proof. intros Hg Hc Hin. by apply (appendHex_chars g c Hg Hin). Qed.

Lemma joinGroups_no gs c : group_list gs → fromHexChar c = None → c ≠ ":"%char → c ∉ joinGroups gs.
Proof.
  intros Hgs Hc Hne. induction gs as [|g gs IH]; [by apply not_elem_of_nil|].
  apply Forall_cons in Hgs as [Hg Hgs]. destruct gs as [|h gs]; [by apply appendHex_no|].
  rewrite joinGroups_cons, not_elem_of_app, not_elem_of_cons. split_and!; [by apply appendHex_no|done|by apply IH].
Qed.

(** A group followed by a colon makes the text an IPv6 candidate. *)
Lemma ParseIP_group g rest :
  0 <= g < 65536 → ParseIP (appendHex g ++ ":"%char :: rest) = parseIPv6 (appendHex g ++ ":"%char :: rest).
Proof.
  intros Hg. unfold ParseIP. rewrite ParseIP_skip by (by apply appendHex_no).
  cbn [ParseIP_from]. by rewrite bool_decide_eq_false_2, bool_decide_eq_true_2 by done.
Qed.

Definition expand (r : list Z * option Z * text) : option (list Z) :=
  let '(ip, ellipsis, s) := r in
  if negb (bool_decide (s = [])) then None
  else if len ip <? 16 then
    e ← ellipsis;
    Some (take (Z.to_nat e) ip ++ replicate (16 - length ip) 0 ++ drop (Z.to_nat e) ip)
  else match ellipsis with Some _ => None | None => Some ip end.

Lemma parseIPv6_default c l :
  ("%"%char ∉ c :: l) → c ≠ ":"%char →
  parseIPv6 (c :: l) = parseIPv6Loop (length (c :: l)) (c :: l) [] None ≫= expand.
Proof.
  intros Hp Hc. unfold parseIPv6. rewrite IndexByte_absent by done. cbn [Z.leb Z.compare].
  destruct c as [[] [] [] [] [] [] [] []]; try done.
Qed.

Lemma parseIPv6_leading l :
  ("%"%char ∉ l) → l ≠ [] →
  parseIPv6 (":"%char :: ":"%char :: l) = parseIPv6Loop (length l) l [] (Some 0) ≫= expand.
Proof.
  intros Hp Hl. unfold parseIPv6. rewrite IndexByte_absent by (rewrite !not_elem_of_cons; naive_solver).
  cbn [Z.leb Z.compare]. by rewrite bool_decide_eq_false_2.
Qed.

Lemma joinGroups_length gs : group_list gs → (length gs <= length (joinGroups gs))%nat.
Proof.
  induction gs as [|g gs IH]; intros Hgs; [done|]. apply Forall_cons in Hgs as [Hg Hgs].
  destruct (appendHex_head g [] Hg) as (c & l & Heq & _). rewrite app_nil_r in Heq.
  destruct gs as [|h gs]; [cbn [joinGroups]; rewrite Heq; cbn; lia|].
  specialize (IH Hgs). rewrite joinGroups_cons, Heq, length_app. cbn in IH |- *. lia.
Qed.

(** The eight groups of an address, and back. *)
Lemma groups_ok ip :
  byte_list ip → ∀ n, length ip = (2 * n)%nat →
  length (groups ip) = n ∧ group_list (groups ip) ∧ groups_bytes (groups ip) = ip.
Proof.
  intros Hb n. revert ip Hb. induction n as [|n IH]; intros ip Hb Hl.
  - destruct ip; [|done]. split_and!; [done|constructor|done].
  - destruct ip as [|a [|b ip]]; [cbn in Hl; lia|cbn in Hl; lia|].
    apply Forall_cons in Hb as [Ha Hb]. apply Forall_cons in Hb as [Hb0 Hb].
    destruct (IH ip Hb) as (H1 & H2 & H3); [cbn in Hl; lia|]. cbn [groups].
    split_and!; [cbn; by rewrite H1|constructor; [lia|done]|].
    change (groups_bytes (256 * a + b :: groups ip)) with (group_bytes (256 * a + b) ++ groups_bytes (groups ip)).
    rewrite H3. unfold group_bytes. cbn [app]. f_equal; [|f_equal].
    + rewrite Z.shiftr_div_pow2 by lia. change (2 ^ 8) with 256. symmetry. apply Z.div_unique with b; lia.
    + change 255 with (Z.ones 8). rewrite Z.land_ones by lia. change (2 ^ 8) with 256.
      symmetry. apply Z.mod_unique with a; lia.
Qed.

Lemma groups_bytes_zero n : groups_bytes (replicate n 0) = replicate (2 * n) 0.
Proof.
  induction n as [|n IH]; [done|]. replace (2 * S n)%nat with (S (S (2 * n))) by lia. cbn [replicate].
  change (groups_bytes (0 :: replicate n 0)) with ([0; 0] ++ groups_bytes (replicate n 0)). by rewrite IH.
Qed.

(** Expanding the ellipsis restores the run of zeros. *)
Lemma expand_run gs b ip :
  length gs = 8%nat → groups_bytes gs = ip → (b.1 + 2 <= b.2)%nat → (b.2 <= length gs)%nat →
  gs = take b.1 gs ++ replicate (b.2 - b.1) 0 ++ drop b.2 gs →
  expand (groups_bytes (take b.1 gs) ++ groups_bytes (drop b.2 gs), Some (len (groups_bytes (take b.1 gs))), [])
  = Some ip.
Proof.
  intros Hl Hip H2 H8 Hgs. unfold expand. rewrite bool_decide_eq_true_2 by done. cbn [negb].
  set (p := groups_bytes (take b.1 gs)). set (q := groups_bytes (drop b.2 gs)).
  assert (len p = 2 * Z.of_nat b.1) as Hp by (unfold p; rewrite groups_bytes_len; unfold len; rewrite length_take; lia).
  assert (len q = 2 * Z.of_nat (8 - b.2)) as Hq by (unfold q; rewrite groups_bytes_len; unfold len; rewrite length_drop; lia).
  rewrite len_app. replace (len p + len q <? 16) with true by lia. cbn [mbind option_bind].
  unfold len in *. rewrite Nat2Z.id, take_app_length, drop_app_length, length_app. f_equal.
  rewrite <- Hip, Hgs at 1. rewrite !groups_bytes_app, groups_bytes_zero. fold p q. repeat f_equal. lia.
Qed.

(** What a rendering that starts with a group looks like. *)
Lemma group_first g l c :
  0 <= g < 65536 → ("%"%char ∉ appendHex g ++ ":"%char :: l) → c = appendHex g ++ ":"%char :: l →
  ParseIP c = parseIPv6Loop (length c) c [] None ≫= expand.
Proof.
  intros Hg Hp ->. rewrite ParseIP_group by done.
  destruct (appendHex_head g (":"%char :: l) Hg) as (c & k & Heq & Hc). rewrite Heq in Hp |- *.
  apply parseIPv6_default; [done|by apply colon_no_hex].
Qed.

Lemma parse_no_run gs ip :
  length gs = 8%nat → group_list gs → groups_bytes gs = ip → ParseIP (joinGroups gs) = Some ip.
Proof.
  intros Hl Hgs Hip. pose proof (joinGroups_no gs "%"%char Hgs eq_refl ltac:(done)) as Hno.
  pose proof (joinGroups_length gs Hgs) as Hfuel.
  assert (∃ g h hs, gs = g :: h :: hs) as (g & h & hs & Hcons) by (destruct gs as [|? [|]]; try done; by do 3 eexists).
  rewrite (group_first g (joinGroups (h :: hs))); [|by subst gs; apply Forall_cons in Hgs as []|by subst gs|by subst gs].
  rewrite loop_groups; [|by subst gs|done|done|unfold len; cbn; lia]. cbn [mbind option_bind expand app].
  rewrite bool_decide_eq_true_2 by done. cbn [negb]. rewrite Hip.
  assert (len ip = 16) as -> by (rewrite <- Hip, groups_bytes_len; unfold len; lia). done.
Qed.

Lemma parse_leading_run gs ip n :
  length gs = 8%nat → group_list gs → groups_bytes gs = ip → (2 <= n <= 8)%nat →
  gs = replicate n 0 ++ drop n gs →
  ParseIP (":"%char :: ":"%char :: joinGroups (drop n gs)) = Some ip.
Proof.
  intros Hl Hgs Hip Hn Hrun. assert (group_list (drop n gs)) as Hd by by apply Forall_drop.
  change (parseIPv6 (":"%char :: ":"%char :: joinGroups (drop n gs)) = Some ip).
  pose proof (expand_run gs (0, n)%nat ip Hl Hip) as Hex. cbn [fst snd take] in Hex.
  rewrite Nat.sub_0_r in Hex. specialize (Hex ltac:(lia) ltac:(lia) Hrun). cbn [groups_bytes flat_map app] in Hex.
  destruct (decide (drop n gs = [])) as [Hnil|Hne].
  - rewrite Hnil in Hrun |- *. cbn [joinGroups]. rewrite app_nil_r in Hrun.
    rewrite <- Hip, Hrun, groups_bytes_zero. replace n with 8%nat; [done|].
    apply (f_equal length) in Hnil. rewrite length_drop in Hnil. cbn in Hnil. lia.
  - assert (joinGroups (drop n gs) ≠ []) as Hj.
    { intros Hj. pose proof (joinGroups_length _ Hd) as Hlen. rewrite Hj in Hlen.
      destruct (drop n gs); [done|cbn in Hlen; lia]. }
    rewrite parseIPv6_leading; [|by apply joinGroups_no|done].
    rewrite loop_groups; [exact Hex|done|done|by apply joinGroups_length|].
    unfold len. rewrite length_drop. cbn. lia.
Qed.

Lemma parse_inner_run gs ip b :
  length gs = 8%nat → group_list gs → groups_bytes gs = ip → (0 < b.1)%nat →
  (b.1 + 2 <= b.2)%nat → (b.2 <= length gs)%nat →
  gs = take b.1 gs ++ replicate (b.2 - b.1) 0 ++ drop b.2 gs →
  ParseIP (joinGroups (take b.1 gs) ++ ":"%char :: ":"%char :: joinGroups (drop b.2 gs)) = Some ip.
Proof.
  intros Hl Hgs Hip H0 H2 H8 Hrun.
  pose proof (expand_run gs b ip Hl Hip H2 H8 Hrun) as Hex.
  assert (group_list (take b.1 gs)) as Ht by by apply Forall_take.
  assert (group_list (drop b.2 gs)) as Hd by by apply Forall_drop.
  set (s := joinGroups (take b.1 gs) ++ _).
  assert ("%"%char ∉ s) as Hno.
  { unfold s. rewrite not_elem_of_app, !not_elem_of_cons. split_and!; try done; by apply joinGroups_no. }
  assert (length (take b.1 gs) + length (drop b.2 gs) <= length s)%nat as Hfuel.
  { unfold s. rewrite length_app. pose proof (joinGroups_length _ Ht). pose proof (joinGroups_length _ Hd). cbn. lia. }
  assert (∃ g l, 0 <= g < 65536 ∧ s = appendHex g ++ ":"%char :: l) as (g & l & Hg & Hs).
  { unfold s. destruct (take b.1 gs) as [|g [|h hs]] eqn:Htake.
    - apply (f_equal length) in Htake. rewrite length_take in Htake. cbn in Htake. lia.
    - apply Forall_cons in Ht as [Hg _]. by exists g, (":"%char :: joinGroups (drop b.2 gs)).
    - apply Forall_cons in Ht as [Hg _].
      exists g, (joinGroups (h :: hs) ++ ":"%char :: ":"%char :: joinGroups (drop b.2 gs)).
      split; [done|]. rewrite joinGroups_cons. by rewrite <- (assoc_L (++)). }
  rewrite (group_first g l) by (done || by rewrite <- Hs). unfold s at 2. rewrite loop_ellipsis.
  - exact Hex.
  - intros Hnil. apply (f_equal length) in Hnil. rewrite length_take in Hnil. cbn in Hnil. lia.
  - done.
  - done.
  - done.
  - unfold len. rewrite length_take, length_drop. cbn. lia.
Qed.

Lemma ParseIP_v6String ip :
  byte_list ip → len ip = 16 → ParseIP (v6String ip) = Some ip.
Proof.
  intros Hb Hlen. destruct (groups_ok ip Hb 8) as (Hl & Hgs & Hip); [unfold len in Hlen; lia|].
  pose proof (longestZeros_run (groups ip) [] (255, 255)%nat (or_introl eq_refl)) as Hrun. cbn [app length] in Hrun.
  unfold v6String. destruct (longestZeros 0 (groups ip) (255, 255)%nat) as [zs ze].
  destruct Hrun as [[= -> ->]|(H2 & H8 & Hrun)]; [by apply parse_no_run|]. cbn [fst snd] in H2, H8, Hrun.
  destruct (Nat.ltb_spec zs 8); [|lia]. destruct zs as [|zs].
  - rewrite Nat.sub_0_r in Hrun. apply parse_leading_run; try done. lia.
  - apply (parse_inner_run (groups ip) ip (S zs, ze)); try done. cbn. lia.
Qed.

(** [net.ParseIP] reads back what [IP.String] wrote. *)
Lemma ParseIP_IPString ip :
  byte_list ip → len ip = 4 ∨ len ip = 16 →
  ParseIP (IPString ip) = Some (match To4 ip with Some ip4 => v4InV6Prefix ++ ip4 | None => ip end).
Proof.
  intros Hb Hlen. unfold IPString, To4. destruct (Z.eqb_spec (len ip) 4).
  - by apply ParseIP_v4String.
  - destruct Hlen as [|Hlen]; [done|]. rewrite Hlen. cbn [Z.eqb Pos.eqb andb]. case_bool_decide.
    + apply ParseIP_v4String; [by apply Forall_drop|]. unfold len in *. rewrite length_drop. lia.
    + by apply ParseIP_v6String.
Qed.

(** Addresses hold no brackets, and numbers no separators. *)
Lemma v4String_no ip c :
  byte_list ip → len ip = 4 → is_digit c = false → c ≠ "."%char → c ∉ v4String ip.
Proof.
  intros Hb (a & b & d & e & ->)%list_of_four Hc Hdot. unfold byte_list in Hb. rewrite !Forall_cons in Hb.
  destruct Hb as (Ha & Hb & Hd & He & _). unfold v4String.
  assert (∀ z, 0 <= z < 256 → c ∉ Itoa z) as Hz by (intros z Hz; apply digits_no_char; [apply Itoa_digits; lia|done]).
  rewrite !not_elem_of_app, !not_elem_of_cons, !not_elem_of_app, !not_elem_of_cons, !not_elem_of_app, !not_elem_of_cons.
  by split_and!; try apply Hz.
Qed.

Lemma v6String_no ip c :
  byte_list ip → len ip = 16 → fromHexChar c = None → c ≠ ":"%char → c ∉ v6String ip.
Proof.
  intros Hb Hlen Hc Hne. destruct (groups_ok ip Hb 8) as (_ & Hgs & _); [unfold len in Hlen; lia|].
  unfold v6String. destruct (longestZeros _ _ _) as [zs ze]. case_match; [|by apply joinGroups_no].
  rewrite not_elem_of_app, !not_elem_of_cons.
  split_and!; try done; apply joinGroups_no; try done; [by apply Forall_take|by apply Forall_drop].
Qed.

Lemma IPString_plain ip : byte_list ip → len ip = 4 ∨ len ip = 16 → plain (IPString ip).
Proof.
  intros Hb Hlen. unfold IPString, To4. destruct (Z.eqb_spec (len ip) 4).
  - split; by apply v4String_no.
  - destruct Hlen as [|Hlen]; [done|]. rewrite Hlen. cbn [Z.eqb Pos.eqb andb]. case_bool_decide.
    + assert (len (drop 12 ip) = 4) by (unfold len in *; rewrite length_drop; lia).
      split; apply v4String_no; done || by apply Forall_drop.
    + split; by apply v6String_no.
Qed.

Lemma Itoa_plain n : 0 <= n < 9223372036854775808 → plain_port (Itoa n).
Proof. intros Hn. pose proof (Itoa_digits n Hn). split; [split|]; by apply digits_no_char. Qed.

Lemma To4_mapped ip : len ip = 4 → To4 (v4InV6Prefix ++ ip) = Some ip.
Proof. by intros (a & b & c & d & ->)%list_of_four. Qed.

