(* ===== verification/Socks.v ===== *)
(** * The SOCKS5 handshakes of the client (tui/internal/entry/entry.go)

    [serveSocks5] answers the applications, [socks5Dial] and [readSocks5Reply]
    speak to the core.  A connection is the bytes the peer will send, the writes
    done so far, and the targets dialed; reads and writes are the operations of a
    small monad in which [None] is an early return. *)

From S2P Require Import Prelude GoIP GoText GoNet.

Module Socks.

Record conn := mkConn {
  input : list Z;
  output : list (list Z);
  dialed : list text
}.

#[export] Instance eta_conn : Eta conn := fun c => mkConn (input c) (output c) (dialed c).

Definition M (A : Type) : Type := conn → option A * conn.

#[export] Instance M_ret : MRet M := fun A a c => (Some a, c).
#[export] Instance M_bind : MBind M := fun A B f m c =>
  match m c with
  | (Some a, c) => f a c
  | (None, c) => (None, c)
  end.

(** [return], from wherever it stands. *)
Definition stop {A} : M A := fun c => (None, c).

(** [if !ok { return }] *)
Definition guard_ok (ok : bool) : M () := if ok then mret () else stop.

Section io.
(** Whether the [n]-th write of a connection succeeds. *)
Context (writable : nat → bool).

(** [io.ReadFull]: an error when the peer sends less, and nothing more is read. *)
Definition ReadFull (n : Z) : M (list Z) := fun c =>
  if len (input c) <? n then (None, c <| input := [] |>)
  else (Some (take (Z.to_nat n) (input c)), c <| input := drop (Z.to_nat n) (input c) |>).

(** [c.Write(l)], whether or not its error is looked at. *)
Definition Write (l : list Z) : M bool := fun c =>
  (Some (writable (length (output c))), c <| output := output c ++ [l] |>).

(** [_, err := dial(target)] *)
Definition Dial (dial : text → bool) (target : text) : M bool := fun c =>
  (Some (dial target), c <| dialed := dialed c ++ [target] |>).

(** ** The server: [serveSocks5] *)

Definition hdr (l : list Z) (i : nat) : Z := l !!! i.

(** The host of the request, by address type. *)
Definition readHost (atyp : Z) : M text :=
  if atyp =? 1 then b ← ReadFull 4; mret (IPString b)
  else if atyp =? 3 then l ← ReadFull 1; b ← ReadFull (hdr l 0); mret (map byte b)
  else if atyp =? 4 then b ← ReadFull 16; mret (IPString b)
  else stop.

Definition Uint16 (b : list Z) : Z := 256 * hdr b 0 + hdr b 1.

Definition serveSocks5 (dial : text → bool) : M () :=
  h ← ReadFull 2;
  _ ← guard_ok (hdr h 0 =? 5);
  methods ← ReadFull (hdr h 1);
  if negb (bool_decide (0 ∈ methods)) then _ ← Write [5; 255]; stop
  else
    ok ← Write [5; 0];
    _ ← guard_ok ok;
    r ← ReadFull 4;
    _ ← guard_ok ((hdr r 0 =? 5) && (hdr r 1 =? 1));
    host ← readHost (hdr r 3);
    pb ← ReadFull 2;
    let port := Uint16 pb in
    let target := JoinHostPort host (Itoa port) in
    connected ← Dial dial target;
    if negb connected then _ ← Write [5; 5; 0; 1; 0; 0; 0; 0; 0; 0]; stop
    else
      ok ← Write [5; 0; 0; 1; 0; 0; 0; 0; 0; 0];
      guard_ok ok.

(** ** The client: [socks5Dial] *)

(** The address of a request. *)
Definition requestAddress (host : text) : option (list Z) :=
  match ParseIP host with
  | Some ip =>
      match To4 ip with
      | Some v4 => Some (1 :: v4)
      | None => Some (4 :: ip)
      end
  | None => if 255 <? len host then None else Some (3 :: len host :: map code host)
  end.

Definition readSocks5Reply : M () :=
  header ← ReadFull 4;
  _ ← guard_ok (hdr header 0 =? 5);
  _ ← guard_ok (hdr header 1 =? 0);
  addressLen ←
    (if hdr header 3 =? 1 then mret 4
     else if hdr header 3 =? 3 then l ← ReadFull 1; mret (hdr l 0)
     else if hdr header 3 =? 4 then mret 16
     else stop);
  _ ← ReadFull (addressLen + 2);
  mret ().

(** After [net.DialTimeout] succeeded. *)
Definition socks5Dial (target : text) : M () :=
  ok ← Write [5; 1; 0];
  _ ← guard_ok ok;
  reply ← ReadFull 2;
  _ ← guard_ok ((hdr reply 0 =? 5) && (hdr reply 1 =? 0));
  match SplitHostPort (of_bytes target) with
  | Ok (inr (host, portStr)) =>
      match Atoi (bytes portStr) with
      | Some port =>
          if (port <? 1) || (65535 <? port) then stop
          else
            match requestAddress (bytes host) with
            | Some a =>
                ok ← Write ([5; 1; 0] ++ a ++ [u8 (Z.shiftr port 8); u8 (Z.land port 255)]);
                _ ← guard_ok ok;
                readSocks5Reply
            | None => stop
            end
      | None => stop
      end
  | _ => stop
  end.

(** ** The HTTP entry: [serveHTTPConnect] *)

(** The request read by [http.ReadRequest], if any: its method and its host, and
    the bytes left in the buffered reader. *)
Record httpRequest := mkRequest { Method : string; Host : text; Buffered : list Z }.

(** [up] says how many bytes of a write towards the upstream succeed; the result
    is the bytes written to it before [splice]. *)
Definition serveHTTPConnect (req : option httpRequest) (dial : text → bool) (up : Z → Z) : M (list Z) :=
  match req with
  | None => _ ← Write (map code (bytes "HTTP/1.1 400 Bad Request") ++ [13; 10; 13; 10]); stop
  | Some r =>
      if negb (bool_decide (Method r = "CONNECT"))
      then _ ← Write (map code (bytes "HTTP/1.1 400 Bad Request") ++ [13; 10; 13; 10]); stop
      else
        connected ← Dial dial (Host r);
        if negb connected
        then _ ← Write (map code (bytes "HTTP/1.1 502 Bad Gateway") ++ [13; 10; 13; 10]); stop
        else
          ok ← Write (map code (bytes "HTTP/1.1 200 Connection Established") ++ [13; 10; 13; 10]);
          _ ← guard_ok ok;
          if 0 <? len (Buffered r) then
            _ ← guard_ok (up (len (Buffered r)) =? len (Buffered r));
            mret (Buffered r)
          else mret []
  end.

End io.

(** [Dialer]: the TUN data plane goes through the core too, for TCP only. *)
Definition Dialer (writable : nat → bool) (network target : text) : M () :=
  if negb (bool_decide (network = bytes "tcp")) then stop else socks5Dial writable target.

End Socks.
