(* ===== verification/SocksSpec.v ===== *)
(** * Theorems about the SOCKS5 handshakes

    What an application asks of the local entry is what the core is asked for; the
    server answers every input by the protocol; the reply of the core is read to
    its last byte and no further. *)

From S2P Require Import Prelude GoIP GoText GoNet GoNetFacts Socks.

Import Socks.

(** ** Requests *)

Inductive address := V4 (b : list Z) | Name (l : list Z) | V6 (b : list Z).

Definition encode (a : address) : list Z :=
  match a with
  | V4 b => 1 :: b
  | Name l => 3 :: len l :: l
  | V6 b => 4 :: b
  end.

Definition address_ok (a : address) : Prop :=
  match a with
  | V4 b => byte_list b ∧ len b = 4
  | Name l => byte_list l ∧ len l <= 255
  | V6 b => byte_list b ∧ len b = 16
  end.

Definition host (a : address) : text :=
  match a with
  | V4 b => IPString b
  | Name l => map byte l
  | V6 b => IPString b
  end.

(** The target dialed for a request. *)
Definition target (a : address) (port : Z) : text := JoinHostPort (host a) (Itoa port).

Definition port_bytes (port : Z) : list Z := [port / 256; port mod 256].

(** The greeting of an application and its CONNECT request; [rsv] is the reserved byte. *)
Definition client_request (methods : list Z) (rsv : Z) (a : address) (port : Z) : list Z :=
  [5; len methods] ++ methods ++ [5; 1; rsv] ++ encode a ++ port_bytes port.

(** An IPv4-mapped IPv6 address is an IPv4 one. *)
Definition normal (a : address) : address :=
  match a with
  | V6 b => match To4 b with Some v4 => V4 v4 | None => V6 b end
  | _ => a
  end.

(** A name that no rule of the address syntax takes for something else. *)
Definition name_ok (a : address) : Prop :=
  match a with
  | Name l => plain (map byte l) ∧ ParseIP (map byte l) = None
  | _ => True
  end.

(** ** Running the monad *)

Lemma M_bind_run {A B} (m : M A) (f : A → M B) c a c' : m c = (Some a, c') → (m ≫= f) c = f a c'.
Proof. unfold mbind, M_bind. by intros ->. Qed.

Lemma M_bind_inv {A B} (m : M A) (f : A → M B) c b c' :
  (m ≫= f) c = (Some b, c') → ∃ a c1, m c = (Some a, c1) ∧ f a c1 = (Some b, c').
Proof. unfold mbind, M_bind. destruct (m c) as [[a|] c1]; [|done]. intros H. by exists a, c1. Qed.

Lemma mret_run {A} (a : A) c : (mret a : M A) c = (Some a, c).
Proof. done. Qed.

Lemma ReadFull_run n l rest o d :
  len l = n → ReadFull n (mkConn (l ++ rest) o d) = (Some l, mkConn rest o d).
Proof.
  intros <-. unfold ReadFull. cbn [input]. rewrite len_app. pose proof (len_nonneg rest).
  destruct (Z.ltb_spec (len l + len rest) (len l)); [lia|].
  unfold len. by rewrite Nat2Z.id, take_app_length, drop_app_length.
Qed.

Lemma ReadFull_inv n c l c' :
  0 <= n → ReadFull n c = (Some l, c') →
  len l = n ∧ input c = l ++ input c' ∧ output c' = output c ∧ dialed c' = dialed c.
Proof.
  intros Hn. unfold ReadFull. destruct (Z.ltb_spec (len (input c)) n) as [|Hle]; [done|].
  intros [= <- <-]. split_and!; try done; [unfold len in *; rewrite length_take; lia|].
  symmetry. apply take_drop.
Qed.

Lemma guard_ok_inv b c u c' : guard_ok b c = (Some u, c') → b = true ∧ c' = c.
Proof. destruct b; cbn; [by intros [= _ <-]|done]. Qed.

(** Run the next call of a handler. *)
Ltac run_step H := rewrite (M_bind_run _ _ _ _ _ H).

(** ** Serving a request *)

Section serve.
Context (writable : nat → bool) (dial : text → bool).

Lemma readHost_run a rest o d k :
  address_ok a → readHost (hd 0 (encode a)) (mkConn (tail (encode a) ++ k ++ rest) o d) =
  (Some (host a), mkConn (k ++ rest) o d).
Proof.
  intros Ha. destruct a as [b|l|b]; destruct Ha as [Hb Hl]; cbn [encode hd tail host]; unfold readHost; cbn [Z.eqb Pos.eqb].
  - by rewrite (M_bind_run _ _ _ _ _ (ReadFull_run 4 b (k ++ rest) o d Hl)).
  - change ((len l :: l) ++ k ++ rest) with ([len l] ++ l ++ k ++ rest).
    rewrite (M_bind_run _ _ _ _ _ (ReadFull_run 1 [len l] (l ++ k ++ rest) o d eq_refl)).
    by rewrite (M_bind_run _ _ _ _ _ (ReadFull_run (len l) l (k ++ rest) o d eq_refl)).
  - by rewrite (M_bind_run _ _ _ _ _ (ReadFull_run 16 b (k ++ rest) o d Hl)).
Qed.

Lemma Write_run l i o d :
  Write writable l (mkConn i o d) = (Some (writable (length o)), mkConn i (o ++ [l]) d).
Proof. done. Qed.

Lemma Dial_run t i o d : Dial dial t (mkConn i o d) = (Some (dial t), mkConn i o (d ++ [t])).
Proof. done. Qed.

Lemma guard_run b c : b = true → guard_ok b c = (Some (), c).
Proof. by intros ->. Qed.

Lemma Uint16_port_bytes port : Uint16 (port_bytes port) = port.
Proof. unfold Uint16, port_bytes, hdr. cbn. pose proof (Z.div_mod port 256). lia. Qed.

Lemma serve_run methods rsv a port rest :
  0 ∈ methods → address_ok a →
  writable 0%nat = true → writable 1%nat = true → dial (target a port) = true →
  serveSocks5 writable dial (mkConn (client_request methods rsv a port ++ rest) [] []) =
  (Some (), mkConn rest [[5; 0]; [5; 0; 0; 1; 0; 0; 0; 0; 0; 0]] [target a port]).
Proof.
  intros Hm Ha W0 W1 Hd. unfold serveSocks5, client_request. rewrite <- !(assoc_L (++)).
  run_step (ReadFull_run 2 [5; len methods] (methods ++ [5; 1; rsv] ++ encode a ++ port_bytes port ++ rest) [] [] eq_refl).
  run_step (guard_run true (mkConn (methods ++ [5; 1; rsv] ++ encode a ++ port_bytes port ++ rest) [] []) eq_refl).
  run_step (ReadFull_run (len methods) methods ([5; 1; rsv] ++ encode a ++ port_bytes port ++ rest) [] [] eq_refl).
  rewrite bool_decide_eq_true_2 by done. cbn [negb].
  run_step (Write_run [5; 0] ([5; 1; rsv] ++ encode a ++ port_bytes port ++ rest) [] []). cbn [length].
  run_step (guard_run (writable 0) (mkConn ([5; 1; rsv] ++ encode a ++ port_bytes port ++ rest) ([] ++ [[5; 0]]) []) W0).
  change ([] ++ [[5; 0]]) with [[5; 0]].
  replace ([5; 1; rsv] ++ encode a ++ port_bytes port ++ rest)
    with ([5; 1; rsv; hd 0 (encode a)] ++ tail (encode a) ++ port_bytes port ++ rest) by (by destruct a).
  run_step (ReadFull_run 4 [5; 1; rsv; hd 0 (encode a)] (tail (encode a) ++ port_bytes port ++ rest) [[5; 0]] [] eq_refl).
  run_step (guard_run true (mkConn (tail (encode a) ++ port_bytes port ++ rest) [[5; 0]] []) eq_refl).
  run_step (readHost_run a rest [[5; 0]] [] (port_bytes port) Ha).
  run_step (ReadFull_run 2 (port_bytes port) rest [[5; 0]] [] eq_refl).
  rewrite Uint16_port_bytes. change (JoinHostPort (host a) (Itoa port)) with (target a port).
  run_step (Dial_run (target a port) rest [[5; 0]] []). rewrite Hd. cbn [negb].
  run_step (Write_run [5; 0; 0; 1; 0; 0; 0; 0; 0; 0] rest [[5; 0]] ([] ++ [target a port])). cbn [length].
  by rewrite W1.
Qed.

End serve.

(** ** Asking the core *)

Lemma map_code_byte l : byte_list l → map code (map byte l) = l.
Proof. induction 1 as [|b l Hb _ IH]; [done|]. cbn. by rewrite code_byte, IH. Qed.

Lemma host_plain a : address_ok a → name_ok a → plain (host a).
Proof.
  destruct a as [b|l|b]; intros [Hb Hl] Hn; cbn [host].
  - apply IPString_plain; [done|by left].
  - apply Hn.
  - apply IPString_plain; [done|by right].
Qed.

Lemma target_splits a port :
  address_ok a → name_ok a → 0 <= port < 65536 →
  SplitHostPort (of_bytes (target a port)) = ret (of_bytes (host a), of_bytes (Itoa port)).
Proof.
  intros Ha Hn Hp. apply SplitHostPort_JoinHostPort; [by apply host_plain|]. apply Itoa_plain. lia.
Qed.

Lemma requestAddress_host a :
  address_ok a → name_ok a → requestAddress (host a) = Some (encode (normal a)).
Proof.
  intros Ha Hn. unfold requestAddress. destruct a as [b|l|b]; destruct Ha as [Hb Hl]; cbn [host normal].
  - rewrite ParseIP_IPString by (done || by left).
    assert (To4 b = Some b) as -> by (unfold To4; by rewrite Hl). by rewrite To4_mapped.
  - destruct Hn as [_ ->]. assert (len (map byte l) = len l) as Hm by (unfold len; by rewrite length_map).
    rewrite Hm. destruct (Z.ltb_spec 255 (len l)); [lia|]. cbn [encode]. by rewrite map_code_byte.
  - rewrite ParseIP_IPString by (done || by right). destruct (To4 b) as [v4|] eqn:Hv4.
    + cbn [encode]. by rewrite (To4_mapped v4) by (by eapply To4_len).
    + by rewrite Hv4.
Qed.

(** A successful reply of the core, [b] being its bound address. *)
Definition core_reply (rsv : Z) (b : address) (p1 p2 : Z) : list Z :=
  [5; 0; rsv] ++ encode b ++ [p1; p2].

Lemma reply_run rsv b p1 p2 rest o d :
  address_ok b →
  readSocks5Reply (mkConn (core_reply rsv b p1 p2 ++ rest) o d) = (Some (), mkConn rest o d).
Proof.
  intros Hb. unfold readSocks5Reply, core_reply. rewrite <- !(assoc_L (++)).
  replace ([5; 0; rsv] ++ encode b ++ [p1; p2] ++ rest)
    with ([5; 0; rsv; hd 0 (encode b)] ++ tail (encode b) ++ [p1; p2] ++ rest) by (by destruct b).
  run_step (ReadFull_run 4 [5; 0; rsv; hd 0 (encode b)] (tail (encode b) ++ [p1; p2] ++ rest) o d eq_refl).
  run_step (guard_run true (mkConn (tail (encode b) ++ [p1; p2] ++ rest) o d) eq_refl).
  run_step (guard_run true (mkConn (tail (encode b) ++ [p1; p2] ++ rest) o d) eq_refl).
  assert (∀ l n, len l = n → ReadFull (n + 2) (mkConn (l ++ [p1; p2] ++ rest) o d) =
    (Some (l ++ [p1; p2]), mkConn rest o d)) as Hrest.
  { intros l n Hl. rewrite (assoc_L (++)). apply ReadFull_run. by rewrite len_app, Hl. }
  destruct b as [v4|l|v6]; destruct Hb as [_ Hl]; cbn [encode hd tail].
  - change (hdr [5; 0; rsv; 1] 3) with 1. cbn [Z.eqb Pos.eqb].
    run_step (mret_run 4 (mkConn (v4 ++ [p1; p2] ++ rest) o d)).
    by run_step (Hrest v4 4 Hl).
  - change (hdr [5; 0; rsv; 3] 3) with 3. cbn [Z.eqb Pos.eqb].
    assert ((l0 ← ReadFull 1; mret (hdr l0 0)) (mkConn ((len l :: l) ++ [p1; p2] ++ rest) o d) =
      (Some (len l), mkConn (l ++ [p1; p2] ++ rest) o d)) as Hlen.
    { change ((len l :: l) ++ [p1; p2] ++ rest) with ([len l] ++ l ++ [p1; p2] ++ rest).
      by run_step (ReadFull_run 1 [len l] (l ++ [p1; p2] ++ rest) o d eq_refl). }
    run_step Hlen. by run_step (Hrest l (len l) eq_refl).
  - change (hdr [5; 0; rsv; 4] 3) with 4. cbn [Z.eqb Pos.eqb].
    run_step (mret_run 16 (mkConn (v6 ++ [p1; p2] ++ rest) o d)).
    by run_step (Hrest v6 16 Hl).
Qed.

Lemma port_shift port :
  0 <= port < 65536 → [u8 (Z.shiftr port 8); u8 (Z.land port 255)] = port_bytes port.
Proof.
  intros Hp. unfold port_bytes, u8. rewrite Z.shiftr_div_pow2 by lia.
  change 255 with (Z.ones 8). rewrite Z.land_ones by lia. change (2 ^ 8) with 256.
  rewrite Zmod_mod, (Z.mod_small (port / 256)); [done|].
  split; [apply Z.div_pos; lia|apply Z.div_lt_upper_bound; lia].
Qed.

Lemma dial_run writable a port rsv b p1 p2 rest :
  address_ok a → name_ok a → 1 <= port < 65536 → address_ok b →
  writable 0%nat = true → writable 1%nat = true →
  socks5Dial writable (target a port) (mkConn ([5; 0] ++ core_reply rsv b p1 p2 ++ rest) [] []) =
  (Some (), mkConn rest [[5; 1; 0]; [5; 1; 0] ++ encode (normal a) ++ port_bytes port] []).
Proof.
  intros Ha Hn Hp Hb W0 W1. unfold socks5Dial. set (i := core_reply rsv b p1 p2 ++ rest).
  run_step (Write_run writable [5; 1; 0] ([5; 0] ++ i) [] []). cbn [length].
  run_step (guard_run (writable 0%nat) (mkConn ([5; 0] ++ i) ([] ++ [[5; 1; 0]]) []) W0).
  run_step (ReadFull_run 2 [5; 0] i ([] ++ [[5; 1; 0]]) [] eq_refl).
  run_step (guard_run true (mkConn i ([] ++ [[5; 1; 0]]) []) eq_refl).
  rewrite target_splits by (done || lia). cbn [ret]. rewrite !bytes_of_bytes, Atoi_Itoa by lia.
  replace ((port <? 1) || (65535 <? port)) with false by lia.
  rewrite requestAddress_host by done. rewrite port_shift by lia.
  set (req := [5; 1; 0] ++ encode (normal a) ++ port_bytes port).
  run_step (Write_run writable req i ([] ++ [[5; 1; 0]]) []). cbn [length app].
  run_step (guard_run (writable 1%nat) (mkConn i [[5; 1; 0]; req] []) W1).
  apply reply_run. done.
Qed.

(** C19. What an application asks the local entry for is what the core is asked
    for.  Any well-formed SOCKS5 request to an IPv4, IPv6 or named destination is
    answered with success and consumed to its last byte, the one target dialed is
    its host and port, and dialing that target writes to the core the request
    with the same address (an IPv4-mapped one as IPv4) and the same port, and
    consumes exactly the core's reply, whatever the form of its bound address. *)
Theorem request_reaches_core writable dial methods rsv a port rest rsv' b p1 p2 rest' :
  0 ∈ methods → address_ok a → name_ok a → 1 <= port < 65536 → address_ok b →
  writable 0%nat = true → writable 1%nat = true → dial (target a port) = true →
  serveSocks5 writable dial (mkConn (client_request methods rsv a port ++ rest) [] []) =
    (Some (), mkConn rest [[5; 0]; [5; 0; 0; 1; 0; 0; 0; 0; 0; 0]] [target a port]) ∧
  socks5Dial writable (target a port) (mkConn ([5; 0] ++ core_reply rsv' b p1 p2 ++ rest') [] []) =
    (Some (), mkConn rest' [[5; 1; 0]; [5; 1; 0] ++ encode (normal a) ++ port_bytes port] []).
Proof.
  intros Hm Ha Hn Hp Hb W0 W1 Hd. split; [by apply serve_run|by apply dial_run].
Qed.

(** ** Every input of the server *)

Lemma readHost_frame atyp c r c' :
  readHost atyp c = (r, c') → output c' = output c ∧ dialed c' = dialed c.
Proof.
  assert (∀ n c r c', ReadFull n c = (r, c') → output c' = output c ∧ dialed c' = dialed c) as Hread.
  { intros n c0 r0 c0'. unfold ReadFull. destruct (_ <? n); by intros [= <- <-]. }
  unfold readHost, mbind, M_bind. destruct (atyp =? 1); [|destruct (atyp =? 3); [|destruct (atyp =? 4)]].
  - destruct (ReadFull 4 c) as [[b|] c1] eqn:H1; apply Hread in H1; by intros [= <- <-].
  - destruct (ReadFull 1 c) as [[b|] c1] eqn:H1; apply Hread in H1 as [E1 E2]; [|by intros [= <- <-]].
    destruct (ReadFull (hdr b 0) c1) as [[b2|] c2] eqn:H2; apply Hread in H2 as [E3 E4]; intros [= <- <-]; cbn;
      by rewrite E3, E4.
  - destruct (ReadFull 16 c) as [[b|] c1] eqn:H1; apply Hread in H1; by intros [= <- <-].
  - by intros [= <- <-].
Qed.

Lemma byte_list_split l k : byte_list (l ++ k) → byte_list l ∧ byte_list k.
Proof. apply Forall_app. Qed.

(** A host that was read is that of an encoded address. *)
Lemma readHost_inv atyp c h c' :
  byte_list (input c) → readHost atyp c = (Some h, c') →
  ∃ a, address_ok a ∧ h = host a ∧ atyp :: input c = encode a ++ input c'.
Proof.
  intros Hb. unfold readHost. destruct (Z.eqb_spec atyp 1) as [->|]; [|destruct (Z.eqb_spec atyp 3) as [->|];
    [|destruct (Z.eqb_spec atyp 4) as [->|]; [|done]]].
  - intros (b & c1 & (Hl & Hi & _)%ReadFull_inv & [= <- <-])%M_bind_inv; [|lia].
    exists (V4 b). rewrite Hi in Hb |- *. apply byte_list_split in Hb as []. done.
  - intros (k & c1 & (Hl & Hi & _)%ReadFull_inv & Hrun)%M_bind_inv; [|lia].
    assert (∃ x, k = [x]) as [x ->] by (destruct k as [|x [|]]; unfold len in Hl; cbn in Hl; try lia; by exists x).
    rewrite Hi in Hb |- *. apply byte_list_split in Hb as [Hn Hb].
    apply Forall_cons in Hn as [Hn _]. apply M_bind_inv in Hrun as (b & c2 & Hrun & [= <- <-]).
    change (hdr [x] 0) with x in Hrun. apply ReadFull_inv in Hrun as (Hlb & Hib & _); [|lia].
    exists (Name b). rewrite Hib in Hb |- *. apply byte_list_split in Hb as [Hbb _].
    split_and!; [split; [done|lia]|done|]. cbn [encode]. by rewrite Hlb.
  - intros (b & c1 & (Hl & Hi & _)%ReadFull_inv & [= <- <-])%M_bind_inv; [|lia].
    exists (V6 b). rewrite Hi in Hb |- *. apply byte_list_split in Hb as []. done.
Qed.

(** The target that was dialed, for an input that holds a whole request. *)
Definition requested (inp : list Z) (a : address) (port : Z) (rest : list Z) : Prop :=
  address_ok a ∧ 0 <= port < 65536 ∧
  ∃ methods rsv, 0 ∈ methods ∧ inp = client_request methods rsv a port ++ rest.

Lemma M_bind_stop {A B} (m : M A) (f : A → M B) c c' :
  m c = (None, c') → (m ≫= f) c = (None, c').
Proof. unfold mbind, M_bind. by intros ->. Qed.

(** Either way of running the next call. *)
Lemma ReadFull_cases n c :
  0 <= n →
  (∃ c', ReadFull n c = (None, c') ∧ output c' = output c ∧ dialed c' = dialed c) ∨
  (∃ l i, ReadFull n c = (Some l, mkConn i (output c) (dialed c)) ∧ len l = n ∧ input c = l ++ i).
Proof.
  intros Hn. destruct (ReadFull n c) as [[l|] c'] eqn:Hr.
  - right. apply ReadFull_inv in Hr as (Hl & Hi & Ho & Hd); [|done]. exists l, (input c').
    split_and!; [|done|done]. destruct c'. cbn in Ho, Hd. by rewrite <- Ho, <- Hd.
  - left. exists c'. split; [done|]. revert Hr. unfold ReadFull. destruct (_ <? n); [by intros [= <-]|done].
Qed.

Definition granted : list Z := [5; 0; 0; 1; 0; 0; 0; 0; 0; 0].
Definition refused : list Z := [5; 5; 0; 1; 0; 0; 0; 0; 0; 0].

(** What the server did: nothing was dialed; or the target of the request was,
    and the reply says whether that worked. *)
Definition served (writable : nat → bool) (dial : text → bool) (inp : list Z)
    (r : option ()) (c' : conn) : Prop :=
  (r = None ∧ dialed c' = [] ∧ output c' ∈ [[]; [[5; 255]]; [[5; 0]]]) ∨
  (∃ a port, requested inp a port (input c') ∧ writable 0%nat = true ∧ dialed c' = [target a port] ∧
    (dial (target a port) = false ∧ r = None ∧ output c' = [[5; 0]; refused] ∨
     dial (target a port) = true ∧ output c' = [[5; 0]; granted] ∧ (r = Some () ↔ writable 1%nat = true))).

Lemma served_nothing writable dial inp r c' :
  r = None → dialed c' = [] → output c' ∈ [[]; [[5; 255]]; [[5; 0]]] → served writable dial inp r c'.
Proof. intros. by left. Qed.

Lemma two_bytes (l : list Z) : len l = 2 → ∃ a b, l = [a; b].
Proof. unfold len. destruct l as [|a [|b []]]; cbn; try lia. intros _. by exists a, b. Qed.

Lemma port_of_bytes p : byte_list p → len p = 2 → 0 <= Uint16 p < 65536 ∧ p = port_bytes (Uint16 p).
Proof.
  intros Hb (x & y & ->)%two_bytes. unfold byte_list in Hb. rewrite !Forall_cons in Hb. destruct Hb as (Hx & Hy & _).
  unfold Uint16, hdr, port_bytes. cbn. split; [lia|]. f_equal; [|f_equal].
  - apply Z.div_unique with y; lia.
  - apply Z.mod_unique with x; lia.
Qed.

(** The dial and the reply. *)
Lemma serve_dial writable dial inp a port i r c' :
  requested inp a port i → writable 0%nat = true →
  (connected ← Dial dial (target a port);
   if negb connected then _ ← Write writable refused; stop
   else ok ← Write writable granted; guard_ok ok) (mkConn i [[5; 0]] []) = (r, c') →
  served writable dial inp r c'.
Proof.
  intros Hreq W0 Hrun. rewrite (M_bind_run _ _ _ _ _ (Dial_run dial (target a port) i [[5; 0]] [])) in Hrun.
  right. exists a, port. destruct (dial (target a port)) eqn:Hdial; cbn [negb] in Hrun.
  - rewrite (M_bind_run _ _ _ _ _ (Write_run writable granted i [[5; 0]] ([] ++ [target a port]))) in Hrun.
    cbn [length] in Hrun. destruct (writable 1%nat); injection Hrun as <- <-; split_and!; try done; by right.
  - rewrite (M_bind_run _ _ _ _ _ (Write_run writable refused i [[5; 0]] ([] ++ [target a port]))) in Hrun.
    injection Hrun as <- <-. split_and!; try done. by left.
Qed.

(** After the greeting has been answered. *)
Lemma serve_request writable dial (inp methods i : list Z) r c' :
  byte_list i → inp = [5; len methods] ++ methods ++ i → 0 ∈ methods → writable 0%nat = true →
  (h ← ReadFull 4;
   _ ← guard_ok ((hdr h 0 =? 5) && (hdr h 1 =? 1));
   host ← readHost (hdr h 3);
   pb ← ReadFull 2;
   let port := Uint16 pb in
   let target := JoinHostPort host (Itoa port) in
   connected ← Dial dial target;
   if negb connected then _ ← Write writable refused; stop
   else ok ← Write writable granted; guard_ok ok) (mkConn i [[5; 0]] []) = (r, c') →
  served writable dial inp r c'.
Proof.
  intros Hb Hinp Hm W0 Hrun. assert ([[5; 0]] ∈ [[]; [[5; 255]]; [[5; 0]]]) as Hout by set_solver.
  destruct (ReadFull_cases 4 (mkConn i [[5; 0]] [])) as [(c1 & H1 & Ho & Hd)|(h & i1 & H1 & Hl & Hi)]; [lia|..].
  { rewrite (M_bind_stop _ _ _ _ H1) in Hrun. injection Hrun as <- <-. by apply served_nothing; rewrite ?Ho. }
  rewrite (M_bind_run _ _ _ _ _ H1) in Hrun. cbn [input output dialed] in Hi, Hrun. subst i.
  assert (∃ v cmd rsv t, h = [v; cmd; rsv; t]) as (v & cmd & rsv & t & ->) by (by apply list_of_four).
  change (hdr [v; cmd; rsv; t] 0) with v in Hrun. change (hdr [v; cmd; rsv; t] 1) with cmd in Hrun.
  change (hdr [v; cmd; rsv; t] 3) with t in Hrun.
  destruct (Z.eqb_spec v 5) as [->|]; [destruct (Z.eqb_spec cmd 1) as [->|]|]; cbn [andb] in Hrun.
  2, 3: injection Hrun as <- <-; by apply served_nothing.
  rewrite (M_bind_run _ _ _ _ _ (guard_run true (mkConn i1 [[5; 0]] []) eq_refl)) in Hrun.
  apply byte_list_split in Hb as [_ Hb].
  destruct (readHost t (mkConn i1 [[5; 0]] [])) as [[hs|] c2] eqn:H2; pose proof H2 as [Ho2 Hd2]%readHost_frame.
  2: { rewrite (M_bind_stop _ _ _ _ H2) in Hrun. injection Hrun as <- <-. by apply served_nothing; rewrite ?Ho2. }
  rewrite (M_bind_run _ _ _ _ _ H2) in Hrun. apply readHost_inv in H2 as (a & Ha & -> & Henc); [|done].
  cbn [input output dialed] in *. destruct c2 as [i2 o2 d2]. cbn in Ho2, Hd2, Henc. subst o2 d2.
  assert (byte_list i2) as Hb2.
  { destruct a; cbn in Henc; injection Henc as _ Henc; rewrite Henc in Hb;
      repeat (apply Forall_cons in Hb as [_ Hb]); by apply byte_list_split in Hb as []. }
  destruct (ReadFull_cases 2 (mkConn i2 [[5; 0]] [])) as [(c3 & H3 & Ho & Hd)|(p & i3 & H3 & Hl3 & Hi3)]; [lia|..].
  { rewrite (M_bind_stop _ _ _ _ H3) in Hrun. injection Hrun as <- <-. by apply served_nothing; rewrite ?Ho. }
  rewrite (M_bind_run _ _ _ _ _ H3) in Hrun. cbn [input output dialed] in Hi3, Hrun. subst i2.
  apply byte_list_split in Hb2 as [Hbp _]. destruct (port_of_bytes p Hbp Hl3) as [Hp Hpb].
  assert (requested inp a (Uint16 p) i3) as Hreq.
  { split; [done|]. split; [done|]. exists methods, rsv. split; [done|]. rewrite Hinp. unfold client_request.
    rewrite <- Hpb, <- !(assoc_L (++)). do 2 f_equal.
    change ([5; 1; rsv; t] ++ i1) with ([5; 1; rsv] ++ t :: i1). by rewrite Henc. }
  cbn zeta in Hrun. by apply (serve_dial writable dial inp a (Uint16 p) i3).
Qed.

(** C20. The SOCKS5 server answers every input by the protocol.  For any bytes an
    application sends and any write that fails, the server either dials nothing,
    having written nothing, the refusal of the authentication methods, or its
    choice of no authentication; or the input is a complete CONNECT request, the
    one target dialed is that of the request, and the reply says whether the dial
    worked; it goes on to the tunnel exactly when the dial worked and the reply
    was written, with the rest of the input unread. *)
Theorem socks_server_follows_protocol writable dial inp r c' :
  byte_list inp → serveSocks5 writable dial (mkConn inp [] []) = (r, c') →
  served writable dial inp r c'.
Proof.
  intros Hb Hrun. unfold serveSocks5 in Hrun.
  destruct (ReadFull_cases 2 (mkConn inp [] [])) as [(c1 & H1 & Ho & Hd)|(h & i1 & H1 & Hl & Hi)]; [lia|..].
  { rewrite (M_bind_stop _ _ _ _ H1) in Hrun. injection Hrun as <- <-. apply served_nothing; rewrite ?Ho; set_solver. }
  rewrite (M_bind_run _ _ _ _ _ H1) in Hrun. cbn [input output dialed] in Hi, Hrun. subst inp.
  destruct (two_bytes h Hl) as (v & n & ->).
  change (hdr [v; n] 0) with v in Hrun. change (hdr [v; n] 1) with n in Hrun.
  apply byte_list_split in Hb as [Hvn Hb]. unfold byte_list in Hvn. rewrite !Forall_cons in Hvn.
  destruct Hvn as (_ & Hn & _).
  destruct (Z.eqb_spec v 5) as [->|]; [|injection Hrun as <- <-; apply served_nothing; set_solver].
  rewrite (M_bind_run _ _ _ _ _ (guard_run true (mkConn i1 [] []) eq_refl)) in Hrun.
  destruct (ReadFull_cases n (mkConn i1 [] [])) as [(c2 & H2 & Ho & Hd)|(methods & i2 & H2 & Hlm & Hi)]; [lia|..].
  { rewrite (M_bind_stop _ _ _ _ H2) in Hrun. injection Hrun as <- <-. apply served_nothing; rewrite ?Ho; set_solver. }
  rewrite (M_bind_run _ _ _ _ _ H2) in Hrun. cbn [input output dialed] in Hi, Hrun. subst i1.
  apply byte_list_split in Hb as [_ Hb].
  case_bool_decide as Hm; cbn [negb] in Hrun.
  2: { rewrite (M_bind_run _ _ _ _ _ (Write_run writable [5; 255] i2 [] [])) in Hrun.
       injection Hrun as <- <-. apply served_nothing; set_solver. }
  rewrite (M_bind_run _ _ _ _ _ (Write_run writable [5; 0] i2 [] [])) in Hrun. cbn [length app] in Hrun.
  destruct (writable 0%nat) eqn:W0; [|injection Hrun as <- <-; apply served_nothing; set_solver].
  rewrite (M_bind_run _ _ _ _ _ (guard_run true (mkConn i2 [[5; 0]] []) eq_refl)) in Hrun.
  apply (serve_request writable dial _ methods i2); [done|by rewrite Hlm|done|done|exact Hrun].
Qed.

(** ** The reply of the core *)

Lemma one_byte (l : list Z) : len l = 1 → ∃ x, l = [x].
Proof. unfold len. destruct l as [|x []]; cbn; try lia. intros _. by exists x. Qed.

(** The length of the address, and the bytes it takes to know it. *)
Lemma address_length_inv t c n c' :
  byte_list (input c) →
  (if t =? 1 then mret 4 else if t =? 3 then l ← ReadFull 1; mret (hdr l 0)
   else if t =? 4 then mret 16 else (stop : M Z)) c = (Some n, c') →
  0 <= n ∧ output c' = output c ∧ dialed c' = dialed c ∧
  (t = 1 ∧ n = 4 ∧ input c = input c' ∨ t = 3 ∧ n <= 255 ∧ input c = n :: input c' ∨
   t = 4 ∧ n = 16 ∧ input c = input c').
Proof.
  intros Hb. destruct (Z.eqb_spec t 1); [|destruct (Z.eqb_spec t 3); [|destruct (Z.eqb_spec t 4); [|done]]].
  - intros [= <- <-]. split_and!; [done..|by left].
  - intros (k & c1 & (Hk & Hi & Ho & Hd)%ReadFull_inv & [= <- <-])%M_bind_inv; [|lia].
    apply one_byte in Hk as [x ->]. change (hdr [x] 0) with x. rewrite Hi in Hb.
    apply Forall_cons in Hb as [Hx _]. split_and!; [lia|done|done|]. right; left. split_and!; [done|lia|done].
  - intros [= <- <-]. split_and!; [done..|by right; right].
Qed.

(** The reply of the core is read to its last byte and no further: on any
    stream of bytes, [readSocks5Reply] succeeds exactly when it begins with a
    version 5 success reply with an address of one of the three types, and then
    what is left is what follows the reply, so no byte of the tunnel is lost. *)
Theorem core_reply_read_exactly inp c' :
  byte_list inp →
  readSocks5Reply (mkConn inp [] []) = (Some (), c') ↔
  ∃ rsv b p1 p2 rest, address_ok b ∧ inp = core_reply rsv b p1 p2 ++ rest ∧ c' = mkConn rest [] [].
Proof.
  intros Hb. split; [|intros (rsv & b & p1 & p2 & rest & Hbok & -> & ->); by apply reply_run].
  intros Hrun. unfold readSocks5Reply in Hrun.
  apply M_bind_inv in Hrun as (h & c1 & (Hl & Hi & Ho & Hd)%ReadFull_inv & Hrun); [|lia].
  cbn [input output dialed] in Hi, Ho, Hd. subst inp.
  assert (∃ v rep rsv t, h = [v; rep; rsv; t]) as (v & rep & rsv & t & ->) by (by apply list_of_four).
  apply M_bind_inv in Hrun as (u1 & c2 & [Hv ->]%guard_ok_inv & Hrun).
  apply M_bind_inv in Hrun as (u2 & c2 & [Hrep ->]%guard_ok_inv & Hrun).
  change (hdr [v; rep; rsv; t] 0) with v in Hv. change (hdr [v; rep; rsv; t] 1) with rep in Hrep.
  apply Z.eqb_eq in Hv, Hrep. subst v rep. apply byte_list_split in Hb as [_ Hb].
  apply M_bind_inv in Hrun as (n & c2 & Haddr & Hrun). change (hdr [5; 0; rsv; t] 3) with t in Haddr.
  apply address_length_inv in Haddr as (Hn & Ho2 & Hd2 & Hcase); [|done].
  apply M_bind_inv in Hrun as (a & c3 & (Hla & Hia & Hoa & Hda)%ReadFull_inv & [= <-]); [|lia].
  destruct c3 as [i3 o3 d3]. cbn in Hia, Hoa, Hda. rewrite Hoa, Ho2, Ho, Hda, Hd2, Hd.
  assert (∃ x p1 p2, a = x ++ [p1; p2] ∧ len x = n) as (x & p1 & p2 & -> & Hx).
  { rewrite <- (take_drop (Z.to_nat n) a). destruct (two_bytes (drop (Z.to_nat n) a)) as (p1 & p2 & ->).
    - unfold len in *. rewrite length_drop. lia.
    - exists (take (Z.to_nat n) a), p1, p2. split; [done|]. unfold len in *. rewrite length_take. lia. }
  assert (byte_list x) as Hbx.
  { rewrite Hia in Hcase. destruct Hcase as [(_ & _ & Hc)|[(_ & _ & Hc)|(_ & _ & Hc)]]; rewrite Hc in Hb;
      [|apply Forall_cons in Hb as [_ Hb]|]; by apply byte_list_split in Hb as [[]%byte_list_split _]. }
  destruct Hcase as [(-> & -> & Hc)|[(-> & Hle & Hc)|(-> & -> & Hc)]]; rewrite Hia in Hc; rewrite Hc.
  - exists rsv, (V4 x), p1, p2, i3. split_and!; [done..| |done].
    unfold core_reply. cbn [encode]. by rewrite <- !(assoc_L (++)).
  - exists rsv, (Name x), p1, p2, i3. split; [split; [done|lia]|]. split; [|done].
    unfold core_reply. cbn [encode]. rewrite Hx. by rewrite <- !(assoc_L (++)).
  - exists rsv, (V6 x), p1, p2, i3. split_and!; [done..| |done].
    unfold core_reply. cbn [encode]. by rewrite <- !(assoc_L (++)).
Qed.

(** ** The HTTP entry *)

(** The HTTP entry dials at most once, for a CONNECT request only, and reaches
    the tunnel only when the dial worked, with every buffered byte written first. *)
Lemma http_entry_dials_connect writable req dial up c r c' :
  serveHTTPConnect writable req dial up c = (r, c') →
  (dialed c' = dialed c ∧ r = None) ∨
  (∃ q, req = Some q ∧ Method q = "CONNECT" ∧ dialed c' = dialed c ++ [Host q] ∧
    ∀ l, r = Some l → dial (Host q) = true ∧ l = Buffered q).
Proof.
  unfold serveHTTPConnect, Write, Dial, mbind, M_bind, stop, guard_ok. destruct req as [q|].
  2: { intros [= <- <-]. by left. }
  case_bool_decide as Hm; cbn [negb]; [|intros [= <- <-]; by left]. intros Hrun. right. exists q.
  split; [done|]. split; [done|]. destruct (dial (Host q)) eqn:Hd; cbn [negb] in Hrun.
  - destruct (writable _); [|injection Hrun as <- <-; by split].
    cbn in Hrun. destruct (0 <? len (Buffered q)) eqn:Hb.
    + destruct (_ =? _); injection Hrun as <- <-; (split; [done|]); [by intros l [= <-]|done].
    + injection Hrun as <- <-. split; [done|]. intros l [= <-]. split; [done|].
      apply Z.ltb_ge in Hb. pose proof (len_nonneg (Buffered q)). symmetry. apply len_nil_inv. lia.
  - injection Hrun as <- <-. by split.
Qed.

(** ** Witnesses *)

Module Demo.

Definition example_com : list Z := map code (bytes "example.com").

Lemma request_reaches_core_witness :
  socks5Dial (λ _, true) (target (Name example_com) 443)
    (mkConn ([5; 0] ++ core_reply 0 (V4 [0; 0; 0; 0]) 0 0 ++ [9]) [] []) =
  (Some (), mkConn [9] [[5; 1; 0]; [5; 1; 0] ++ encode (Name example_com) ++ [1; 187]] []).
Proof.
  apply (request_reaches_core (λ _, true) (λ _, true) [0; 2] 0 (Name example_com) 443 [] 0 (V4 [0; 0; 0; 0]) 0 0 [9]).
  - left.
  - split; [vm_compute; repeat constructor; discriminate|vm_compute; discriminate].
  - split; [split; apply (bool_decide_eq_true_1 _); vm_compute; reflexivity|vm_compute; reflexivity].
  - lia.
  - split; [vm_compute; repeat constructor; discriminate|reflexivity].
  - reflexivity.
  - reflexivity.
  - reflexivity.
Defined.

Lemma socks_server_follows_protocol_witness :
  served (λ _, true) (λ _, false) [5; 1; 2] None (mkConn [] [[5; 255]] []).
Proof.
  apply socks_server_follows_protocol; [repeat constructor; lia|vm_compute; reflexivity].
Defined.

Lemma core_reply_read_exactly_witness :
  ∃ rsv b p1 p2 rest, address_ok b ∧ [5; 0; 0; 3; 1; 97; 1; 187; 42] = core_reply rsv b p1 p2 ++ rest ∧
    mkConn [42] [] [] = mkConn rest [] [].
Proof.
  apply (core_reply_read_exactly [5; 0; 0; 3; 1; 97; 1; 187; 42]);
    [repeat constructor; lia|vm_compute; reflexivity].
Defined.

End Demo.
