(* ===== verification/GoHttp.v ===== *)
(** * HTTP headers as text

    What the proxy code uses of [strings], [net/http], [net/textproto] and
    [encoding/base64]: lower case, canonical header names, header maps, [Cut],
    [HasPrefix], [EqualFold] with an ASCII word, and standard base64. *)

From stdpp Require Import gmap.
From S2P Require Import Prelude GoText.

(** ** Case *)

(** On ASCII characters; names of HTTP headers are ASCII. *)
Definition lower (c : ascii) : ascii :=
  if (65 <=? code c) && (code c <=? 90) then byte (code c + 32) else c.
Definition upper (c : ascii) : ascii :=
  if (97 <=? code c) && (code c <=? 122) then byte (code c - 32) else c.

Definition ToLower (s : string) : string := of_bytes (map lower (bytes s)).

(** The bytes of a header name: [validHeaderFieldByte]. *)
Definition token_byte (c : ascii) : bool :=
  let n := code c in
  (48 <=? n) && (n <=? 57) || (65 <=? n) && (n <=? 90) || (97 <=? n) && (n <=? 122) ||
  bool_decide (c ∈ bytes "!#$%&'*+-.^_`|~").

(** A letter is upper case at the start and after a hyphen, lower case elsewhere. *)
Fixpoint canonical (up : bool) (l : text) : text :=
  match l with
  | [] => []
  | c :: l =>
      let c := if up then upper c else lower c in
      c :: canonical (bool_decide (c = "-"%char)) l
  end.

Definition CanonicalMIMEHeaderKey (s : string) : string :=
  if forallb token_byte (bytes s) then of_bytes (canonical true (bytes s)) else s.

(** ** Header maps *)

Abbreviation Header := (gmap string (list string)).

Definition header_values (h : Header) (key : string) : list string :=
  default [] (h !! CanonicalMIMEHeaderKey key).

Definition header_add (h : Header) (key value : string) : Header :=
  let key := CanonicalMIMEHeaderKey key in <[key := default [] (h !! key) ++ [value]]> h.

Definition header_get (h : Header) (key : string) : string :=
  match header_values h key with v :: _ => v | [] => "" end.

(** [h] written with [w.Header().Set]. *)
Definition header_set (h : Header) (key value : string) : Header :=
  <[CanonicalMIMEHeaderKey key := [value]]> h.

(** ** Parts of strings *)

Definition HasPrefix (s prefix : string) : bool :=
  match after_prefix (bytes prefix) (bytes s) with Some _ => true | None => false end.

Definition TrimPrefix (s prefix : string) : string :=
  match after_prefix (bytes prefix) (bytes s) with Some l => of_bytes l | None => s end.

(** [strings.Cut] at a one-byte separator. *)
Fixpoint cut_at (l : text) (sep : ascii) : option (text * text) :=
  match l with
  | [] => None
  | c :: l => if bool_decide (c = sep) then Some ([], l)
              else '(before, after) ← cut_at l sep; Some (c :: before, after)
  end.

Definition Cut (s : string) (sep : ascii) : option (string * string) :=
  '(before, after) ← cut_at (bytes s) sep; Some (of_bytes before, of_bytes after).

(** [strings.ContainsAny]: [chars] are ASCII. *)
Definition ContainsAny (s : string) (chars : text) : bool := existsb (λ c, bool_decide (c ∈ chars)) (bytes s).

(** [strings.EqualFold(s, t)] for an ASCII [t].  Besides the two cases of a
    letter, Unicode folding identifies [k] with the Kelvin sign and [s] with the
    long s, whose encodings are given. *)
Definition folds (c : ascii) : list text :=
  [[c]; [lower c]; [upper c]] ++
  (if bool_decide (lower c = "k"%char) then [map byte [226; 132; 170]] else []) ++
  (if bool_decide (lower c = "s"%char) then [map byte [197; 191]] else []).

Fixpoint equal_fold (l t : text) : bool :=
  match t with
  | [] => bool_decide (l = [])
  | c :: t => match drop_one (folds c) l with Some l' => equal_fold l' t | None => false end
  end.

Definition EqualFold (s t : string) : bool := equal_fold (bytes s) (bytes t).

(** ** Standard base64 *)

Definition stdValue (c : ascii) : option Z :=
  let n := code c in
  if (65 <=? n) && (n <=? 90) then Some (n - 65)
  else if (97 <=? n) && (n <=? 122) then Some (n - 71)
  else if (48 <=? n) && (n <=? 57) then Some (n + 4)
  else if n =? 43 then Some 62
  else if n =? 47 then Some 63
  else None.

(** Groups of four characters; the last may end in one or two [=].  The bits
    left over in it are ignored. *)
Fixpoint stdGroups (l : text) : option (list Z) :=
  match l with
  | [] => Some []
  | a :: b :: c :: d :: l =>
      x ← stdValue a; y ← stdValue b;
      if bool_decide (l = []) && bool_decide (c = "="%char) && bool_decide (d = "="%char)
      then Some [4 * x + Z.shiftr y 4]
      else
        z ← stdValue c;
        if bool_decide (l = []) && bool_decide (d = "="%char)
        then Some [4 * x + Z.shiftr y 4; u8 (Z.shiftl y 4) + Z.shiftr z 2]
        else
          w ← stdValue d; rest ← stdGroups l;
          Some (4 * x + Z.shiftr y 4 :: u8 (Z.shiftl y 4) + Z.shiftr z 2 :: u8 (Z.shiftl z 6) + w :: rest)
  | _ => None
  end.

(** [base64.StdEncoding.DecodeString]: line breaks are skipped. *)
Definition stdDecode (s : string) : option (list Z) :=
  stdGroups (filter (λ c, code c ≠ 10 ∧ code c ≠ 13) (bytes s)).

Example canonical_example : CanonicalMIMEHeaderKey "proxy-AUTHorization" = "Proxy-Authorization".
Proof. vm_compute. reflexivity. Qed.
Example cut_example : Cut "Basic dXNlcjpwYXNz" " "%char = Some ("Basic", "dXNlcjpwYXNz").
Proof. vm_compute. reflexivity. Qed.
Example fold_example : EqualFold "bASIC" "Basic" = true.
Proof. vm_compute. reflexivity. Qed.
Example base64_std : stdDecode "dXNlcjpwYXNz" = Some (map code (bytes "user:pass")).
Proof. vm_compute. reflexivity. Qed.
Example base64_std_padded : stdDecode "YQ==" = Some [97].
Proof. vm_compute. reflexivity. Qed.
Example base64_std_unpadded : stdDecode "YQ" = None.
Proof. vm_compute. reflexivity. Qed.

(** ** Facts *)

Lemma cut_at_app l k c : c ∉ l → cut_at (l ++ c :: k) c = Some (l, k).
Proof.
  induction l as [|x l IH]; intros Hc; cbn [app cut_at]; [by rewrite bool_decide_eq_true_2|].
  apply not_elem_of_cons in Hc as [? ?]. rewrite bool_decide_eq_false_2 by done. by rewrite IH.
Qed.

Lemma cut_at_absent l c : c ∉ l → cut_at l c = None.
Proof.
  induction l as [|x l IH]; intros Hc; cbn [cut_at]; [done|].
  apply not_elem_of_cons in Hc as [? ?]. rewrite bool_decide_eq_false_2 by done. by rewrite IH.
Qed.
