(* ===== verification/Relay.v ===== *)
(** * Relaying CONNECT requests (frontend/relay.go, h3frontend/relay.go, frontend/status.go)

    The head sent to the upstream, the filtering of headers, and the handlers as
    functions of what the upstream does.  A Go map that the code ranges over is
    the list of its entries in the order of that run. *)

From stdpp Require Import gmap.
From S2P Require Import Prelude GoText GoNet GoHttp.

Definition crlf : text := [byte 13; byte 10].

(** Entries of a header map, in the order they are visited. *)
Abbreviation entries := (list (string * list string)).

Record Request := mkRequest { Method : string; Host : string; Header_ : entries }.

(** A response of the upstream, read by [http.ReadResponse]. *)
Record Response := mkResponse {
  Proto : string;
  Status : string;
  StatusCode : Z;
  RespHeader : entries
}.

(** What the upstream does: accept the connection, take the request, answer. *)
Record upstream := mkUpstream {
  dialOk : bool;
  writeOk : bool;
  response : option Response
}.

(** What the client of an HTTP/2 or HTTP/3 stream sees, what was written to the
    upstream, and whether the tunnel runs. *)
Record reply := mkReply {
  status : Z;
  header : Header;
  body : string;
  toUpstream : option text;
  tunnelled : bool
}.

(** ** The REALITY frontend *)

Module Relay.

Definition isHopByHop (name : string) : bool :=
  bool_decide (name ∈ ["connection"; "proxy-connection"; "keep-alive"; "transfer-encoding"; "te";
    "trailer"; "upgrade"]).

Definition header_line (n v : string) : text := bytes n ++ bytes ": " ++ bytes v ++ crlf.

Definition entry_lines (e : string * list string) : text :=
  let n := ToLower e.1 in
  if isHopByHop n then [] else flat_map (header_line n) e.2.

Definition buildH1Connect (authority : string) (header : entries) : text :=
  bytes "CONNECT " ++ bytes authority ++ bytes " HTTP/1.1" ++ crlf ++
  bytes "Host: " ++ bytes authority ++ crlf ++
  flat_map entry_lines header ++ crlf.

Definition copy_entry (dst : Header) (e : string * list string) : Header :=
  let n := ToLower e.1 in
  if isHopByHop n || bool_decide (n = "content-length") then dst
  else foldl (λ dst v, header_add dst n v) dst e.2.

Definition copyResponseHeaders (dst : Header) (src : entries) : Header := foldl copy_entry dst src.

(** The HTTP/2 handler. *)
Definition handleRequest (r : Request) (up : upstream) : reply :=
  if negb (bool_decide (Method r = "CONNECT")) then
    mkReply 404 (header_set ∅ "content-type" "text/html; charset=utf-8")
      "<html><head><title>404 Not Found</title></head><body>404 Not Found</body></html>" None false
  else if negb (dialOk up) then mkReply 502 ∅ "" None false
  else
    let head := buildH1Connect (Host r) (Header_ r) in
    if negb (writeOk up) then mkReply 502 ∅ "" (Some head) false
    else
      match response up with
      | None => mkReply 502 ∅ "" (Some head) false
      | Some resp =>
          let h := copyResponseHeaders ∅ (RespHeader resp) in
          if (200 <=? StatusCode resp) && (StatusCode resp <? 300)
          then mkReply 200 h "" (Some head) true
          else mkReply (StatusCode resp) h "" (Some head) false
      end.

(** The HTTP/1.1 handler writes its answers itself. *)
Record h1reply := mkH1Reply { toClient : text; toUpstream1 : option text; tunnelled1 : bool }.

Definition StatusText (code : Z) : string :=
  if code =? 404 then "Not Found" else if code =? 502 then "Bad Gateway" else "".

Definition writeH1Error (code : Z) : text :=
  bytes "HTTP/1.1 " ++ Itoa code ++ bytes " " ++ bytes (StatusText code) ++ crlf ++
  bytes "Content-Length: 0" ++ crlf ++ crlf.

Section h1.
(** The order in which [range] visits a map. *)
Context (range : Header → entries).

Definition writeH1ResponseHead (resp : Response) : text :=
  bytes (Proto resp) ++ bytes " " ++ bytes (Status resp) ++ crlf ++
  flat_map (λ e, flat_map (header_line e.1) e.2) (range (copyResponseHeaders ∅ (RespHeader resp))) ++ crlf.

(** The request as [http.ReadRequest] returns it, [None] when it fails;
    [headOk] says whether the response head could be written. *)
Definition serveH1Connect (req : option Request) (up : upstream) (headOk : bool) : h1reply :=
  match req with
  | None => mkH1Reply [] None false
  | Some r =>
      if negb (bool_decide (Method r = "CONNECT")) then mkH1Reply (writeH1Error 404) None false
      else if negb (dialOk up) then mkH1Reply (writeH1Error 502) None false
      else
        let head := buildH1Connect (Host r) (Header_ r) in
        if negb (writeOk up) then mkH1Reply (writeH1Error 502) (Some head) false
        else
          match response up with
          | None => mkH1Reply (writeH1Error 502) (Some head) false
          | Some resp =>
              let answer := writeH1ResponseHead resp in
              if negb headOk then mkH1Reply answer (Some head) false
              else if (StatusCode resp <? 200) || (300 <=? StatusCode resp)
              then mkH1Reply answer (Some head) false
              else mkH1Reply answer (Some head) true
          end
  end.

End h1.

(** ** The status page (frontend/status.go) *)

(** Whether a request to [/stats] may see the counters. *)
Definition statusAuthorized (Token : string) (h : Header) : bool :=
  let auth := header_get h "Authorization" in
  let provided := if HasPrefix auth "Bearer " then TrimPrefix auth "Bearer " else "" in
  (len (bytes provided) =? len (bytes Token)) && bool_decide (provided = Token).

End Relay.

(** ** The HTTP/3 frontend *)

Module H3Relay.

Definition isHopByHop (name : string) : bool :=
  bool_decide (name ∈ ["connection"; "proxy-connection"; "keep-alive"; "transfer-encoding"; "te";
    "trailer"; "upgrade"]).

Definition header_line (n v : string) : text := bytes n ++ bytes ": " ++ bytes v ++ crlf.

Definition entry_lines (e : string * list string) : text :=
  let n := ToLower e.1 in
  if isHopByHop n then [] else flat_map (header_line n) e.2.

Definition buildH1Connect (authority : string) (header : entries) : text :=
  bytes "CONNECT " ++ bytes authority ++ bytes " HTTP/1.1" ++ crlf ++
  bytes "Host: " ++ bytes authority ++ crlf ++
  flat_map entry_lines header ++ crlf.

Definition copy_entry (dst : Header) (e : string * list string) : Header :=
  let n := ToLower e.1 in
  if isHopByHop n || bool_decide (n = "content-length") then dst
  else foldl (λ dst v, header_add dst n v) dst e.2.

Definition copyResponseHeaders (dst : Header) (src : entries) : Header := foldl copy_entry dst src.

(** [streamer] says whether the response writer gives access to its stream, which
    the HTTP/3 server's does; the status already sent stays when it does not. *)
Definition ServeHTTP (r : Request) (up : upstream) (streamer : bool) : reply :=
  if negb (bool_decide (Method r = "CONNECT")) then
    mkReply 404 (header_set ∅ "content-type" "text/html; charset=utf-8")
      "<html><head><title>404 Not Found</title></head><body>404 Not Found</body></html>" None false
  else if negb (dialOk up) then mkReply 502 ∅ "" None false
  else
    let head := buildH1Connect (Host r) (Header_ r) in
    if negb (writeOk up) then mkReply 502 ∅ "" (Some head) false
    else
      match response up with
      | None => mkReply 502 ∅ "" (Some head) false
      | Some resp =>
          let h := copyResponseHeaders ∅ (RespHeader resp) in
          if (StatusCode resp <? 200) || (300 <=? StatusCode resp)
          then mkReply (StatusCode resp) h "" (Some head) false
          else mkReply 200 h "" (Some head) streamer
      end.

End H3Relay.
