(* ===== verification/RelaySpec.v ===== *)
(** * Theorems about the relaying of CONNECT requests

    The head sent to the upstream reads back as one request; headers come through
    as they are, less the connection's own; both frontends answer alike. *)

From stdpp Require Import gmap.
From S2P Require Import Prelude GoText GoNet GoHttp GoNetFacts Relay.

(** ** Reading a head back *)

Definition cr : ascii := byte 13.
Definition lf : ascii := byte 10.

(** The line at the front, up to the first LF, less a CR at its end: a server of Go
    takes a bare LF for the end of a line too. *)
Fixpoint up_to_lf (l : text) : option (text * text) :=
  match l with
  | [] => None
  | c :: l =>
      if bool_decide (c = lf) then Some ([], l)
      else '(line, rest) ← up_to_lf l; Some (c :: line, rest)
  end.

Fixpoint strip_cr (line : text) : text :=
  match line with
  | [] => []
  | [c] => if bool_decide (c = cr) then [] else [c]
  | c :: line => c :: strip_cr line
  end.

Definition read_line (l : text) : option (text * text) :=
  '(line, rest) ← up_to_lf l; Some (strip_cr line, rest).

(** Spaces and tabs around a value do not belong to it. *)
Definition blank (c : ascii) : bool := bool_decide (c = byte 32) || bool_decide (c = byte 9).

Fixpoint drop_blank (l : text) : text :=
  match l with c :: l' => if blank c then drop_blank l' else l | [] => [] end.

Definition trim (l : text) : text := rev (drop_blank (rev (drop_blank l))).

(** Header fields up to the empty line; [fuel] bounds their number. *)
Fixpoint read_fields (fuel : nat) (l : text) : option (list (text * text) * text) :=
  match fuel with
  | O => None
  | S fuel =>
      '(line, rest) ← read_line l;
      if bool_decide (line = []) then Some ([], rest)
      else
        '(name, value) ← cut_at line ":"%char;
        if bool_decide (name = []) || existsb blank name then None
        else '(fs, rest) ← read_fields fuel rest; Some ((name, trim value) :: fs, rest)
  end.

(** The request line, the fields, and what follows the head. *)
Definition parse_head (l : text) : option (text * list (text * text) * text) :=
  '(start, l) ← read_line l;
  '(fs, rest) ← read_fields (length l) l;
  Some (start, fs, rest).

Definition clean (l : text) : Prop := (cr ∉ l) ∧ (lf ∉ l).

Definition header_name (s : string) : Prop := s ≠ "" ∧ forallb token_byte (bytes s) = true.

Definition entry_ok (e : string * list string) : Prop :=
  header_name e.1 ∧ Forall (λ v, clean (bytes v)) e.2.

(** The header fields that belong to one connection. *)
Definition connection_fields : list string :=
  ["connection"; "proxy-connection"; "keep-alive"; "transfer-encoding"; "te"; "trailer"; "upgrade"].

(** The fields the upstream is meant to read for an entry. *)
Definition entry_fields (e : string * list string) : list (text * text) :=
  if decide (ToLower e.1 ∈ connection_fields) then [] else map (λ v, (bytes (ToLower e.1), trim (bytes v))) e.2.

Lemma up_to_lf_app line rest : lf ∉ line → up_to_lf (line ++ lf :: rest) = Some (line, rest).
Proof.
  induction line as [|c line IH]; intros Hc; [done|]. apply not_elem_of_cons in Hc as [Hne Hc]. cbn.
  rewrite bool_decide_eq_false_2 by done. by rewrite IH.
Qed.

Lemma strip_cr_snoc line : strip_cr (line ++ [cr]) = line.
Proof.
  induction line as [|c line IH]; [done|]. cbn [app strip_cr]. destruct (line ++ [cr]) eqn:He; [by destruct line|].
  by rewrite IH.
Qed.

Lemma read_line_app line rest : clean line → read_line (line ++ crlf ++ rest) = Some (line, rest).
Proof.
  intros [_ Hlf]. unfold read_line. change (crlf ++ rest) with ([cr] ++ lf :: rest). rewrite (assoc_L (++)).
  rewrite up_to_lf_app. 2: { rewrite not_elem_of_app, list_elem_of_singleton. done. }
  cbn [mbind option_bind]. by rewrite strip_cr_snoc.
Qed.

Lemma clean_app l k : clean (l ++ k) ↔ clean l ∧ clean k.
Proof. unfold clean. rewrite !not_elem_of_app. tauto. Qed.

Lemma trim_space l : trim (" "%char :: l) = trim l.
Proof. done. Qed.

Lemma drop_blank_none l : existsb blank l = false → drop_blank l = l.
Proof. destruct l as [|c l]; [done|]. cbn. by intros [-> _]%orb_false_iff. Qed.

Lemma existsb_rev {A} (f : A → bool) l : existsb f (rev l) = existsb f l.
Proof.
  induction l as [|x l IH]; [done|]. cbn. rewrite existsb_app, IH. cbn. rewrite orb_false_r. apply orb_comm.
Qed.

Lemma trim_none l : existsb blank l = false → trim l = l.
Proof. intros H. unfold trim. rewrite (drop_blank_none l), drop_blank_none, rev_involutive by (by rewrite ?existsb_rev). done. Qed.

(** One field line is read back. *)
Lemma read_header_field fuel name value rest :
  clean name → clean value → ":"%char ∉ name → name ≠ [] → existsb blank name = false →
  read_fields (S fuel) (name ++ bytes ": " ++ value ++ crlf ++ rest) =
  ('(fs, rest) ← read_fields fuel rest; Some ((name, trim value) :: fs, rest)).
Proof.
  intros Hn Hv Hc Hne Hb. cbn [read_fields].
  assert (name ++ bytes ": " ++ value ++ crlf ++ rest = (name ++ ":"%char :: " "%char :: value) ++ crlf ++ rest) as ->
    by (by rewrite <- (assoc_L (++))).
  rewrite read_line_app.
  2: { apply clean_app. split; [done|]. destruct Hv. split; rewrite !not_elem_of_cons; done. }
  cbn [mbind option_bind]. rewrite bool_decide_eq_false_2 by (by intros [? ?]%app_eq_nil).
  rewrite cut_at_app by done. cbn [mbind option_bind].
  rewrite bool_decide_eq_false_2 by done. by rewrite Hb, trim_space.
Qed.

Lemma read_end fuel rest : read_fields (S fuel) (crlf ++ rest) = Some ([], rest).
Proof. done. Qed.

(** Names in lower case are still names. *)
Lemma lower_token c : token_byte c = true → lower c ≠ cr ∧ lower c ≠ lf ∧ lower c ≠ ":"%char ∧ blank (lower c) = false.
Proof. destruct c as [[] [] [] [] [] [] [] []]; vm_compute; try done; by intros []. Qed.

Record name_ok (n : text) : Prop := {
  nm_clean : clean n; nm_colon : ":"%char ∉ n; nm_some : n ≠ []; nm_blank : existsb blank n = false
}.

Lemma lower_name s : header_name s → name_ok (bytes (ToLower s)).
Proof.
  intros [Hne Ht]. unfold ToLower. rewrite bytes_of_bytes.
  assert (bytes s ≠ []) as Hb by (intros Hb; apply Hne; by rewrite <- (of_bytes_bytes s), Hb).
  revert Ht Hb. generalize (bytes s). intros l Ht Hb. rewrite forallb_forall in Ht.
  assert (∀ d, d ∈ map lower l → d ≠ cr ∧ d ≠ lf ∧ d ≠ ":"%char ∧ blank d = false) as Hl.
  { intros d (c & -> & Hin)%list_elem_of_fmap. apply lower_token, Ht. by apply list_elem_of_In. }
  split; [split; intros Hin; by destruct (Hl _ Hin) as (? & ? & ? & ?)|intros Hin; by destruct (Hl _ Hin) as (? & ? & ? & ?)|by destruct l|].
  apply not_true_is_false. intros (d & Hin & Hd)%existsb_exists. apply list_elem_of_In in Hin.
  destruct (Hl _ Hin) as (_ & _ & _ & ?). congruence.
Qed.

(** The lines of an entry. *)
Lemma read_values n vs fuel k :
  name_ok n → Forall (λ v, clean (bytes v)) vs →
  read_fields (length vs + fuel) (flat_map (λ v, n ++ bytes ": " ++ bytes v ++ crlf) vs ++ k) =
  ('(fs, rest) ← read_fields fuel k; Some (map (λ v, (n, trim (bytes v))) vs ++ fs, rest)).
Proof.
  intros [] Hvs. induction Hvs as [|v vs Hv _ IH].
  - cbn. by destruct (read_fields fuel k) as [[]|].
  - cbn [flat_map length Nat.add map]. rewrite <- !(assoc_L (++)).
    rewrite read_header_field by done. rewrite IH. by destruct (read_fields fuel k) as [[]|].
Qed.

(** The values of an entry that are sent on. *)
Definition sent (e : string * list string) : list string :=
  if decide (ToLower e.1 ∈ connection_fields) then [] else e.2.

Lemma entry_lines_values e :
  Relay.entry_lines e = flat_map (λ v, bytes (ToLower e.1) ++ bytes ": " ++ bytes v ++ crlf) (sent e).
Proof. unfold Relay.entry_lines, sent, Relay.isHopByHop. case_bool_decide; by case_decide. Qed.

Lemma entry_fields_values e : entry_fields e = map (λ v, (bytes (ToLower e.1), trim (bytes v))) (sent e).
Proof. unfold entry_fields, sent. by case_decide. Qed.

Lemma read_entries h fuel rest :
  Forall entry_ok h →
  read_fields (length (flat_map entry_fields h) + S fuel) (flat_map Relay.entry_lines h ++ crlf ++ rest) =
  Some (flat_map entry_fields h, rest).
Proof.
  induction 1 as [|e h [Hn Hv] _ IH]; [done|]. cbn [flat_map]. rewrite <- (assoc_L (++)), entry_lines_values.
  assert (Forall (λ v, clean (bytes v)) (sent e)) as Hvs by (unfold sent; by case_decide).
  rewrite entry_fields_values, length_app, length_map, <- Nat.add_assoc, read_values by (done || by apply lower_name).
  by rewrite IH.
Qed.

Lemma fields_fit h rest :
  (length (flat_map entry_fields h) < length (flat_map Relay.entry_lines h ++ crlf ++ rest))%nat.
Proof.
  rewrite length_app. assert (length (flat_map entry_fields h) <= length (flat_map Relay.entry_lines h))%nat as Hle.
  { induction h as [|e h IH]; cbn [flat_map]; [done|]. rewrite !length_app.
    enough (length (entry_fields e) <= length (Relay.entry_lines e))%nat by lia.
    rewrite entry_fields_values, entry_lines_values, length_map. generalize (bytes (ToLower e.1)). intros n.
    induction (sent e) as [|v vs IHv]; cbn [flat_map length]; [done|].
    rewrite !length_app. change (length crlf) with 2%nat. lia. }
  cbn. lia.
Qed.

(** C24. The head sent to the upstream is one request, whatever follows it.  For an
    authority without line breaks and blanks, header names that are tokens and
    header values without line breaks: a server that ends lines at LF or CR LF and
    trims the values reads from the rendered head the CONNECT line, the Host field,
    and the fields of the request in order, with lower-case names, all but those
    named connection, proxy-connection, keep-alive, transfer-encoding, te, trailer
    and upgrade; and the head ends exactly where the tunnel's bytes begin. *)
Theorem connect_head_roundtrip authority h rest :
  clean (bytes authority) → existsb blank (bytes authority) = false → Forall entry_ok h →
  parse_head (Relay.buildH1Connect authority h ++ rest) =
    Some (bytes "CONNECT " ++ bytes authority ++ bytes " HTTP/1.1",
          (bytes "Host", bytes authority) :: flat_map entry_fields h, rest) ∧
  H3Relay.buildH1Connect authority h = Relay.buildH1Connect authority h.
Proof.
  intros Ha Hb Hh. split; [|done].
  assert (∀ s, bool_decide (cr ∉ bytes s) && bool_decide (lf ∉ bytes s) = true → clean (bytes s)) as Hlit.
  { intros s [H1%bool_decide_eq_true H2%bool_decide_eq_true]%andb_true_iff. by split. }
  unfold parse_head, Relay.buildH1Connect. rewrite <- !(assoc_L (++)).
  set (body := flat_map Relay.entry_lines h ++ crlf ++ rest).
  assert (bytes "CONNECT " ++ bytes authority ++ bytes " HTTP/1.1" ++ crlf ++
    bytes "Host: " ++ bytes authority ++ crlf ++ body =
    (bytes "CONNECT " ++ bytes authority ++ bytes " HTTP/1.1") ++ crlf ++
    bytes "Host: " ++ bytes authority ++ crlf ++ body) as -> by (by rewrite <- !(assoc_L (++))).
  rewrite read_line_app by (rewrite !clean_app; split_and!; [|done|]; apply Hlit; vm_compute; reflexivity).
  cbn [mbind option_bind].
  change (bytes "Host: " ++ bytes authority ++ crlf ++ body)
    with (bytes "Host" ++ bytes ": " ++ bytes authority ++ crlf ++ body).
  assert (∃ f, length (bytes "Host" ++ bytes ": " ++ bytes authority ++ crlf ++ body) =
    S (length (flat_map entry_fields h) + S f)) as [f ->].
  { pose proof (fields_fit h rest) as Hlt. fold body in Hlt.
    exists (length (bytes "Host" ++ bytes ": " ++ bytes authority ++ crlf ++ body) -
      S (S (length (flat_map entry_fields h))))%nat. rewrite !length_app in *. cbn in *. lia. }
  rewrite read_header_field; [|apply Hlit; vm_compute; reflexivity|done|
    apply (bool_decide_eq_true_1 _); vm_compute; reflexivity|done|vm_compute; reflexivity].
  rewrite (trim_none _ Hb). unfold body. by rewrite read_entries.
Qed.

(** ** Response headers *)

(** The keys of a header map as the HTTP parser makes them: canonical tokens. *)
Definition canonical_name (s : string) : Prop :=
  CanonicalMIMEHeaderKey (ToLower s) = s.

Definition dropped (name : string) : bool :=
  bool_decide (ToLower name ∈ connection_fields) || bool_decide (ToLower name = "content-length").

Lemma add_values n vs : ∀ dst,
  foldl (λ dst v, header_add dst n v) dst vs =
  match vs with
  | [] => dst
  | _ => <[CanonicalMIMEHeaderKey n := default [] (dst !! CanonicalMIMEHeaderKey n) ++ vs]> dst
  end.
Proof.
  induction vs as [|v vs IH]; intros dst; [done|]. cbn [foldl]. rewrite IH. unfold header_add.
  destruct vs as [|w vs]; [done|]. rewrite lookup_insert, insert_insert.
  rewrite !decide_True by done. cbn [default from_option id]. by rewrite <- (assoc_L (++)).
Qed.

Lemma copy_entry_lookup dst e k :
  canonical_name e.1 →
  Relay.copy_entry dst e !! k =
  if bool_decide (k = e.1) && negb (dropped e.1) && negb (bool_decide (e.2 = []))
  then Some (default [] (dst !! k) ++ e.2) else dst !! k.
Proof.
  intros Hc. unfold Relay.copy_entry, dropped. destruct (_ || _); [by rewrite andb_false_r|].
  rewrite add_values. unfold canonical_name in Hc. rewrite Hc. cbn [negb]. rewrite andb_true_r.
  destruct e as [n [|v vs]]; cbn [fst snd]; [by rewrite andb_false_r|]. rewrite andb_true_r.
  case_bool_decide as Hk; [subst k; by rewrite lookup_insert, decide_True|].
  rewrite lookup_insert_ne by done. done.
Qed.

(** The values of the entry with a given name. *)
Definition values_of (src : entries) (k : string) : list string :=
  match list_find (λ e, e.1 = k) src with Some (_, e) => e.2 | None => [] end.

Lemma copy_lookup src k : ∀ dst,
  Forall (λ e, canonical_name e.1) src → NoDup src.*1 →
  Relay.copyResponseHeaders dst src !! k =
  if negb (dropped k) && negb (bool_decide (values_of src k = []))
  then Some (default [] (dst !! k) ++ values_of src k) else dst !! k.
Proof.
  unfold Relay.copyResponseHeaders, values_of. induction src as [|e src IH]; intros dst Hc Hnd; cbn [foldl].
  - cbn. by rewrite andb_false_r.
  - apply Forall_cons in Hc as [He Hc]. rewrite fmap_cons in Hnd. apply NoDup_cons in Hnd as [Hni Hnd].
    rewrite IH, copy_entry_lookup by done. cbn [list_find]. destruct (decide (e.1 = k)) as [<-|Hne].
    + rewrite (bool_decide_eq_true_2 (e.1 = e.1)) by done. cbn [andb].
      assert (list_find (λ x : string * list string, x.1 = e.1) src = None) as ->.
      { apply list_find_None, Forall_forall. intros x Hx Heq. apply Hni. rewrite <- Heq. exact (list_elem_of_fmap_2 fst _ _ Hx). }
      rewrite (bool_decide_eq_true_2 ([] = [])) by done. cbn [negb]. rewrite andb_false_r. done.
    + rewrite (bool_decide_eq_false_2 (k = e.1)) by done. cbn [andb].
      destruct (list_find _ src) as [[i x]|]; done.
Qed.

Lemma values_of_spec src k vs : NoDup src.*1 → (k, vs) ∈ src → values_of src k = vs.
Proof.
  intros Hnd Hin. unfold values_of. destruct (list_find (λ e, e.1 = k) src) as [[i e]|] eqn:Hf.
  - apply list_find_Some in Hf as (He & Hk & _). apply list_elem_of_lookup_2 in He.
    destruct e as [n ws]. cbn in Hk. subst n. cbn.
    apply list_elem_of_lookup_1 in He as [j Hj]. apply list_elem_of_lookup_1 in Hin as [m Hm].
    assert (j = m) as ->; [|congruence].
    eapply (NoDup_lookup src.*1); [done|rewrite list_lookup_fmap, Hj; done|rewrite list_lookup_fmap, Hm; done].
  - apply list_find_None in Hf. rewrite Forall_forall in Hf. by destruct (Hf _ Hin).
Qed.

(** The headers of a response come through whole and unordered.  For response
    headers with distinct canonical names, the client is sent exactly the values
    of every header that is neither hop-by-hop nor Content-Length, and the result
    does not depend on the order in which Go's range visits the map; both
    frontends relay the same headers. *)
Theorem response_headers_relayed src src' :
  Forall (λ e, canonical_name e.1) src → NoDup src.*1 → src ≡ₚ src' →
  Relay.copyResponseHeaders ∅ src' = Relay.copyResponseHeaders ∅ src ∧
  H3Relay.copyResponseHeaders ∅ src = Relay.copyResponseHeaders ∅ src ∧
  (∀ k vs, (k, vs) ∈ src → vs ≠ [] →
     Relay.copyResponseHeaders ∅ src !! k = if dropped k then None else Some vs) ∧
  (∀ k, k ∉ src.*1 → Relay.copyResponseHeaders ∅ src !! k = None).
Proof.
  intros Hc Hnd Hp. assert (∀ k, k ∉ src.*1 → values_of src k = []) as Hnone.
  { intros k Hk. unfold values_of. destruct (list_find (λ e, e.1 = k) src) as [[i e]|] eqn:Hf; [|done].
    apply list_find_Some in Hf as (He & <- & _). apply list_elem_of_lookup_2 in He.
    destruct Hk. exact (list_elem_of_fmap_2 fst _ _ He). }
  assert (NoDup src'.*1) as Hnd' by by rewrite <- Hp.
  assert (Forall (λ e, canonical_name e.1) src') as Hc' by by rewrite <- Hp.
  split_and!; [|done|..].
  - apply map_eq. intros k. rewrite !copy_lookup by done. replace (values_of src' k) with (values_of src k); [done|].
    destruct (decide (k ∈ src.*1)) as [Hin|Hni].
    + apply list_elem_of_fmap in Hin as ([n vs] & -> & Hin). cbn [fst].
      rewrite (values_of_spec src n vs), (values_of_spec src' n vs); try done. by rewrite <- Hp.
    + rewrite Hnone by done. unfold values_of. destruct (list_find (λ e, e.1 = k) src') as [[i e]|] eqn:Hf; [|done].
      apply list_find_Some in Hf as (He & <- & _). apply list_elem_of_lookup_2 in He. rewrite <- Hp in He.
      destruct Hni. exact (list_elem_of_fmap_2 fst _ _ He).
  - intros k vs Hin Hne. rewrite copy_lookup, (values_of_spec src k vs) by done.
    rewrite bool_decide_eq_false_2 by done. rewrite lookup_empty. by destruct (dropped k).
  - intros k Hk. rewrite copy_lookup, Hnone by done. cbn. by rewrite andb_false_r, lookup_empty.
Qed.

(** ** The handlers *)

(** What the upstream must do for a tunnel. *)
Definition accepts (r : Request) (up : upstream) : Prop :=
  Method r = "CONNECT" ∧ dialOk up = true ∧ writeOk up = true ∧
  ∃ resp, response up = Some resp ∧ 200 <= StatusCode resp < 300.

(** The status a client is due. *)
Definition due_status (r : Request) (up : upstream) : Z :=
  if bool_decide (Method r = "CONNECT") then
    if dialOk up && writeOk up then
      match response up with
      | Some resp => if bool_decide (200 <= StatusCode resp < 300) then 200 else StatusCode resp
      | None => 502
      end
    else 502
  else 404.

(** Both frontends answer a request alike.  For any request and upstream, the
    HTTP/2 and the HTTP/3 handlers give the same reply: 404 to what is not
    CONNECT, 502 when the upstream cannot be dialed, written to or read, 200 when
    it accepts and its own status otherwise; the tunnel runs exactly on a 200, that
    is exactly when the upstream accepted a CONNECT, and the upstream is written
    to only for a CONNECT that was dialed, with the rendered head. *)
Theorem frontends_answer_alike r up :
  H3Relay.ServeHTTP r up true = Relay.handleRequest r up ∧
  status (Relay.handleRequest r up) = due_status r up ∧
  (tunnelled (Relay.handleRequest r up) = true ↔ accepts r up) ∧
  (tunnelled (Relay.handleRequest r up) = true ↔ status (Relay.handleRequest r up) = 200) ∧
  (toUpstream (Relay.handleRequest r up) =
     if bool_decide (Method r = "CONNECT") && dialOk up
     then Some (Relay.buildH1Connect (Host r) (Header_ r)) else None).
Proof.
  unfold H3Relay.ServeHTTP, Relay.handleRequest, due_status, accepts.
  case_bool_decide as Hm; cbn [negb andb]; [|split_and!; cbn; [done|done|naive_solver|lia|done]].
  destruct (dialOk up); cbn [negb andb]; [|split_and!; cbn; [done|done|naive_solver|lia|done]].
  destruct (writeOk up); cbn [negb andb]; [|split_and!; cbn; [done|done|naive_solver|lia|done]].
  destruct (response up) as [resp|]; [|split_and!; cbn; [done|done|naive_solver|lia|done]].
  case_bool_decide as Hs.
  - replace ((200 <=? StatusCode resp) && (StatusCode resp <? 300)) with true by lia.
    replace ((StatusCode resp <? 200) || (300 <=? StatusCode resp)) with false by lia.
    split_and!; cbn; [done|done|naive_solver|done|done].
  - replace ((200 <=? StatusCode resp) && (StatusCode resp <? 300)) with false by lia.
    replace ((StatusCode resp <? 200) || (300 <=? StatusCode resp)) with true by lia.
    split_and!; cbn; [done|done|naive_solver|split; [done|lia]|done].
Qed.

(** ** The status page *)

Lemma after_prefix_inv p l k : after_prefix p l = Some k → l = p ++ k.
Proof. by intros ?%after_prefix_Some. Qed.

(** The counters are shown to the bearer of the token only: with a non-empty
    token, as validation demands of an enabled status page, a request is let
    through exactly when its Authorization field is "Bearer ", then the token. *)
Theorem status_needs_the_token Token h :
  Token ≠ "" →
  Relay.statusAuthorized Token h = true ↔
  bytes (header_get h "Authorization") = bytes "Bearer " ++ bytes Token.
Proof.
  intros Hne. unfold Relay.statusAuthorized, HasPrefix, TrimPrefix.
  destruct (after_prefix (bytes "Bearer ") (bytes (header_get h "Authorization"))) as [k|] eqn:Hp.
  - apply after_prefix_inv in Hp. rewrite Hp, andb_true_iff, bool_decide_eq_true, Z.eqb_eq, bytes_of_bytes. split.
    + intros [_ <-]. by rewrite bytes_of_bytes.
    + intros ->%app_inv_head. by rewrite of_bytes_bytes.
  - rewrite andb_true_iff, bool_decide_eq_true. split; [intros [_ ?]; congruence|].
    intros H. rewrite H, after_prefix_app in Hp. done.
Qed.

(** ** Witnesses *)

Module Demo.

Definition headers : entries :=
  [("User-Agent", ["naive"]); ("Padding", ["aaaa"]); ("Proxy-Connection", ["keep-alive"])].

Lemma connect_head_roundtrip_witness :
  parse_head (Relay.buildH1Connect "example.com:443" headers ++ bytes "tunnel") =
  Some (bytes "CONNECT " ++ bytes "example.com:443" ++ bytes " HTTP/1.1",
        (bytes "Host", bytes "example.com:443") :: flat_map entry_fields headers, bytes "tunnel").
Proof.
  apply (connect_head_roundtrip "example.com:443" headers (bytes "tunnel")).
  - split; apply (bool_decide_eq_true_1 _); vm_compute; reflexivity.
  - vm_compute. reflexivity.
  - repeat constructor; try discriminate; apply (bool_decide_eq_true_1 _); vm_compute; reflexivity.
Defined.

(** Two fields reach the upstream: the padding does, the connection's own do not. *)
Example headers_read :
  flat_map entry_fields headers = [(bytes "user-agent", bytes "naive"); (bytes "padding", bytes "aaaa")].
Proof. vm_compute. reflexivity. Qed.

Lemma response_headers_relayed_witness :
  Relay.copyResponseHeaders ∅ headers !! "Padding" = Some ["aaaa"].
Proof.
  destruct (response_headers_relayed headers (reverse headers)) as (_ & _ & Hin & _).
  - repeat constructor.
  - apply (bool_decide_eq_true_1 _). vm_compute. reflexivity.
  - symmetry. apply reverse_Permutation.
  - rewrite (Hin "Padding" ["aaaa"]); [reflexivity|right; left|discriminate].
Defined.

Lemma status_needs_the_token_witness :
  Relay.statusAuthorized "secret" (header_set ∅ "authorization" "Bearer secret") = true.
Proof. apply status_needs_the_token; [discriminate|vm_compute; reflexivity]. Defined.

End Demo.
