(* ===== verification/GoTime.v ===== *)
(** * time.ParseDuration

    The parser of durations of the Go library: a sign, then decimal numbers each
    with a unit. *)

From S2P Require Import Prelude Float64 GoText.

Definition is_decimal (c : ascii) : bool := (48 <=? code c) && (code c <=? 57).

(** [leadingInt]: [None] when the number is above [2^63]. *)
Fixpoint leadingInt (l : text) (x : Z) : option (Z * text) :=
  match l with
  | c :: l' =>
      if is_decimal c then
        if 922337203685477580 <? x then None
        else
          let x := x * 10 + (code c - 48) in
          if 9223372036854775808 <? x then None else leadingInt l' x
      else Some (x, l)
  | [] => Some (x, l)
  end.

(** [leadingFraction]: digits beyond the precision are read and dropped. *)
Fixpoint leadingFraction (l : text) (x : Z) (scale : float64) (overflow : bool) : Z * float64 * text :=
  match l with
  | c :: l' =>
      if is_decimal c then
        if overflow || (922337203685477580 <? x) then leadingFraction l' x scale true
        else
          let y := x * 10 + (code c - 48) in
          if 9223372036854775808 <? y then leadingFraction l' x scale true
          else leadingFraction l' y (f64_mul scale (f64_of_int 10)) false
      else (x, scale, l)
  | [] => (x, scale, l)
  end.

(** The characters of the unit, and the rest. *)
Fixpoint unit_span (l : text) : text * text :=
  match l with
  | c :: l' =>
      if bool_decide (c = "."%char) || is_decimal c then ([], l)
      else let '(u, rest) := unit_span l' in (c :: u, rest)
  | [] => ([], [])
  end.

Definition unitMap (u : text) : option Z :=
  if bool_decide (u = bytes "ns") then Some 1
  else if bool_decide (u = bytes "us") || bool_decide (u = map byte [194; 181; 115]) ||
          bool_decide (u = map byte [206; 188; 115]) then Some 1000
  else if bool_decide (u = bytes "ms") then Some Millisecond
  else if bool_decide (u = bytes "s") then Some Second
  else if bool_decide (u = bytes "m") then Some (60 * Second)
  else if bool_decide (u = bytes "h") then Some (3600 * Second)
  else None.

Section parse.
Context `{!Platform}.

(** The loop over the terms; each reads at least a character. *)
Fixpoint durationLoop (fuel : nat) (s : text) (d : Z) : option Z :=
  match fuel with
  | O => None
  | S fuel =>
      match s with
      | [] => Some d
      | c :: _ =>
          if negb (bool_decide (c = "."%char) || is_decimal c) then None
          else
            '(v, s1) ← leadingInt s 0;
            let pre := negb (len s1 =? len s) in
            let '(f, scale, s2, post) :=
              match s1 with
              | c :: s1' =>
                  if bool_decide (c = "."%char) then
                    let '(f, scale, s2) := leadingFraction s1' 0 (f64_of_int 1) false in
                    (f, scale, s2, negb (len s2 =? len s1'))
                  else (0, f64_of_int 1, s1, false)
              | [] => (0, f64_of_int 1, s1, false)
              end in
            if negb pre && negb post then None
            else
              let '(u, s3) := unit_span s2 in
              if bool_decide (u = []) then None
              else
                unit ← unitMap u;
                if 9223372036854775808 / unit <? v then None
                else
                  let v := v * unit in
                  let v := if 0 <? f
                    then u64 (v + f64_to_u64 (f64_mul (f64_of_int f) (f64_div (f64_of_int unit) scale)))
                    else v in
                  if (0 <? f) && (9223372036854775808 <? v) then None
                  else
                    let d := u64 (d + v) in
                    if 9223372036854775808 <? d then None else durationLoop fuel s3 d
      end
  end.

Definition ParseDuration (str : string) : option Z :=
  let s := bytes str in
  let '(neg, s) :=
    match s with
    | c :: s' => if bool_decide (c = "-"%char) then (true, s')
                 else if bool_decide (c = "+"%char) then (false, s') else (false, s)
    | [] => (false, s)
    end in
  if bool_decide (s = ["0"%char]) then Some 0
  else if bool_decide (s = []) then None
  else
    d ← durationLoop (S (length s)) s 0;
    if neg then Some (i64 (- d))
    else if 9223372036854775807 <? d then None else Some d.

End parse.

Example duration_30s : @ParseDuration amd64 "30s" = Some (30 * Second).
Proof. vm_compute. reflexivity. Qed.
Example duration_mixed : @ParseDuration amd64 "1h15m30.918273645s" = Some 4530918273645.
Proof. vm_compute. reflexivity. Qed.
Example duration_no_unit : @ParseDuration amd64 "30" = None.
Proof. vm_compute. reflexivity. Qed.
Example duration_negative : @ParseDuration amd64 "-1.5ms" = Some (-1500000).
Proof. vm_compute. reflexivity. Qed.
