(* ===== verification/H3Config.v ===== *)
(** * Configuration of the HTTP/3 frontend (h3frontend/config.go, congestion.go)

    Defaults and validation, and the choice of the congestion controller they
    lead to.  The file system is a parameter. *)

From S2P Require Import Prelude Float64 QuicGo GoText GoHttp GoTime Bbr FrontendConfig.

Module H3Config.

Record TLSConfig := mkTLS { Cert : string; Key : string }.

Record OriginConfig := mkOrigin {
  WebRoot : string;
  Username : string;
  Password : string;
  TCPListen : string
}.

Record QUICConfig := mkQUIC {
  InitialPacketSize : Z;
  InitialStreamReceiveWindow : Z;
  MaxStreamReceiveWindow : Z;
  InitialConnectionReceiveWindow : Z;
  MaxConnectionReceiveWindow : Z;
  MaxIdleTimeout : string;
  MaxIncomingStreams : Z;
  DisablePathMTUDiscovery : bool;
  DisableGSO : bool;
  DisablePathManager : bool
}.

Record CongestionConfig := mkCongestion { Type_ : string; BBRProfile : string }.

(** [Upstream.Addr] is flattened into [UpstreamAddr]. *)
Record Config := mkConfig {
  LogLevel : string;
  Listen : string;
  Mode : string;
  TLS : TLSConfig;
  Origin : OriginConfig;
  QUIC : QUICConfig;
  Congestion : CongestionConfig;
  UpstreamAddr : string
}.

Definition defaultStreamReceiveWindow : Z := 8 * 1024 * 1024.
Definition defaultConnReceiveWindow : Z := defaultStreamReceiveWindow * 5 / 2.

Import FrontendConfig (or_default, or_default_int, check, one_of, check_address).

Section validation.
Context `{!Platform}.

(** [os.Stat]: [None] is an error, else whether the path is a directory. *)
Context (Stat : string → option bool).

Definition exists_file (path : string) : bool := match Stat path with Some _ => true | None => false end.

Definition validate (c : OriginConfig) : fallible unit :=
  _ ←? check (negb (bool_decide (Username c = "")) && negb (bool_decide (Password c = "")))
         "origin.username and origin.password are required";
  _ ←? check (negb (ContainsAny (Username c) [":"%char; byte 13; byte 10]) &&
              negb (ContainsAny (Password c) [byte 13; byte 10]))
         "origin credentials contain invalid HTTP Basic characters";
  _ ←? check (negb (bool_decide (WebRoot c = ""))) "origin.web_root is required";
  _ ←? check (exists_file (WebRoot c)) "origin.web_root";
  _ ←? check (bool_decide (Stat (WebRoot c) = Some true)) "origin.web_root must be a directory";
  if bool_decide (TCPListen c = "") then ret () else check_address (TCPListen c) "origin.tcp_listen".

(** The receive windows. *)
Definition setWindow (v def : Z) : fallible Z :=
  if v =? 0 then ret def else if v <? 16384 then fail "quic window must be at least 16384" else ret v.

Definition validateQUIC (q : QUICConfig) : fallible QUICConfig :=
  ips ←? (if InitialPacketSize q =? 0 then ret 1200
          else if InitialPacketSize q <? 1200 then fail "quic.initPacketSize must be at least 1200"
          else ret (InitialPacketSize q));
  isw ←? setWindow (InitialStreamReceiveWindow q) defaultStreamReceiveWindow;
  msw ←? setWindow (MaxStreamReceiveWindow q) defaultStreamReceiveWindow;
  icw ←? setWindow (InitialConnectionReceiveWindow q) defaultConnReceiveWindow;
  mcw ←? setWindow (MaxConnectionReceiveWindow q) defaultConnReceiveWindow;
  let idle := or_default (MaxIdleTimeout q) "30s" in
  _ ←? check (match ParseDuration idle with Some _ => true | None => false end) "quic.maxIdleTimeout";
  let streams := or_default_int (MaxIncomingStreams q) 1024 in
  _ ←? check (negb (streams <? 8)) "quic.maxIncomingStreams must be at least 8";
  ret (mkQUIC ips isw msw icw mcw idle streams (DisablePathMTUDiscovery q) (DisableGSO q)
         (DisablePathManager q)).

Definition validateCongestion (c : CongestionConfig) : fallible CongestionConfig :=
  let c1 := or_default (Type_ c) "bbr" in
  _ ←? check (one_of c1 ["bbr"; "cubic"]) "congestion.type: must be bbr or cubic";
  let p := or_default (BBRProfile c) "standard" in
  _ ←? check (one_of p ["standard"; "aggressive"; "conservative"]) "congestion.bbrProfile";
  ret (mkCongestion c1 p).

(** The mode is known, and its certificate and website exist. *)
Definition validateMode (c : Config) : fallible string :=
  let mode := or_default (Mode c) "origin" in
  if bool_decide (mode = "reality") then fail "REALITY-over-QUIC has been removed"
  else
    _ ←? check (one_of mode ["tls"; "origin"]) "mode";
    _ ←? check (negb (bool_decide (Cert (TLS c) = "")) && negb (bool_decide (Key (TLS c) = "")))
           "tls.cert and tls.key are required";
    _ ←? check (exists_file (Cert (TLS c))) "tls.cert";
    _ ←? check (exists_file (Key (TLS c))) "tls.key";
    _ ←? (if bool_decide (mode = "origin") then validate (Origin c) else ret ());
    ret mode.

Definition validateAndFill (c : Config) : fallible Config :=
  let level := or_default (LogLevel c) "info" in
  _ ←? check (one_of level ["debug"; "info"; "warn"; "error"]) "log_level";
  let listen := or_default (Listen c) "0.0.0.0:443" in
  _ ←? check_address listen "listen";
  mode ←? validateMode c;
  let addr := or_default (UpstreamAddr c) "127.0.0.1:18080" in
  _ ←? check_address addr "upstream.addr";
  q ←? validateQUIC (QUIC c);
  cg ←? validateCongestion (Congestion c);
  ret (mkConfig level listen mode (TLS c) (Origin c) q cg addr).

(** [loadConfig] after parsing: [reality] says whether the file has a section of
    that name. *)
Definition loadConfig (parsed : string + Config * bool) : fallible Config :=
  match parsed with
  | inl e => fail e
  | inr (c, reality) =>
      if reality : bool then fail "REALITY-over-QUIC has been removed" else validateAndFill c
  end.

End validation.

(** ** Congestion control (h3frontend/internal/congestion/congestion.go) *)

Definition NormalizeType (s : string) : fallible string :=
  if one_of (ToLower s) [""; "bbr"] then ret "bbr" else fail "unsupported congestion type".

Definition ParseProfile (profile : string) : fallible Bbr.Profile :=
  let normalized := ToLower profile in
  if one_of normalized [""; Bbr.ProfileStandard] then ret Bbr.ProfileStandard
  else if bool_decide (normalized = Bbr.ProfileConservative) then ret Bbr.ProfileConservative
  else if bool_decide (normalized = Bbr.ProfileAggressive) then ret Bbr.ProfileAggressive
  else fail "unsupported BBR profile".

Section congestion.
Context {Q : QuicGo} `{!Platform}.

Definition GetInitialPacketSize (udp : bool) : Z :=
  if udp then QuicGo.InitialPacketSize else MinInitialPacketSize.

Definition seedPacketSize (quicSize byAddr : Z) : Z :=
  if quicSize <=? 0 then byAddr else Z.min quicSize byAddr.

(** The sender installed on a connection, [udp] being the kind of its address. *)
Definition UseBBR (now quicSize : Z) (udp : bool) (profile : string) : fallible Bbr.bbrSender :=
  p ←? ParseProfile profile;
  b ← Bbr.NewBbrSender now (seedPacketSize quicSize (GetInitialPacketSize udp)) p;
  ret b.

End congestion.

End H3Config.
