(* ===== verification/H3ConfigSpec.v ===== *)
(** * Theorems about the configuration of the HTTP/3 frontend

    Validation is total and idempotent, bounds what it accepts, and leads to a
    congestion controller that can be installed. *)

From S2P Require Import Prelude Float64 QuicGo GoText GoHttp GoTime Bbr BbrFacts BbrSpec FrontendConfig FrontendConfigSpec H3Config.

Import FrontendConfig (or_default, or_default_int, check, one_of, check_address).
Import H3Config.

Section validation.
Context `{!Platform} (Stat : string → option bool).
Implicit Types (c : Config) (q : QUICConfig).

(** ** Validation returns *)

Lemma setWindow_returns v def : returns (setWindow v def) (ok_with (λ _, True)).
Proof. unfold setWindow. destruct (v =? 0); [by apply returns_ok|]. destruct (v <? 16384); by apply returns_ok. Qed.

Lemma validate_origin_returns o : returns (validate Stat o) (ok_with (λ _, True)).
Proof.
  unfold validate. do 5 try_step check_returns. case_bool_decide; [by apply returns_ok|]. apply check_address_returns.
Qed.

Lemma validateMode_returns c : returns (validateMode Stat c) (ok_with (λ _, True)).
Proof.
  unfold validateMode. case_bool_decide; [by apply returns_ok|]. do 4 try_step check_returns.
  eapply (try_returns _ _ (λ _, True)); [|intros; by apply returns_ok].
  case_bool_decide; [apply validate_origin_returns|by apply returns_ok].
Qed.

Lemma validateQUIC_returns q : returns (validateQUIC q) (ok_with (λ _, True)).
Proof.
  unfold validateQUIC. eapply (try_returns _ _ (λ _, True)).
  { destruct (_ =? 0); [by apply returns_ok|]. destruct (_ <? 1200); by apply returns_ok. }
  intros. do 4 try_step setWindow_returns. do 2 try_step check_returns. by apply returns_ok.
Qed.

Lemma validateAndFill_returns c : returns (validateAndFill Stat c) (ok_with (λ _, True)).
Proof.
  unfold validateAndFill. try_step check_returns. try_step check_address_returns.
  try_step validateMode_returns. try_step check_address_returns. try_step validateQUIC_returns.
  eapply (try_returns _ _ (λ _, True)); [|intros; by apply returns_ok].
  unfold validateCongestion. do 2 try_step check_returns. by apply returns_ok.
Qed.

(** ** What is accepted *)

(** The transport settings of an accepted configuration. *)
Record quic_ok q : Prop := {
  k_packet : 1200 <= InitialPacketSize q;
  k_windows : 16384 <= InitialStreamReceiveWindow q ∧ 16384 <= MaxStreamReceiveWindow q ∧
    16384 <= InitialConnectionReceiveWindow q ∧ 16384 <= MaxConnectionReceiveWindow q;
  k_idle : MaxIdleTimeout q ≠ "" ∧ ∃ d, ParseDuration (MaxIdleTimeout q) = Some d;
  k_streams : 8 <= MaxIncomingStreams q
}.

Lemma setWindow_inv v def w : 16384 <= def → setWindow v def = ret w → 16384 <= w.
Proof.
  intros Hd. unfold setWindow. destruct (v =? 0); [by intros <-%ret_inj|].
  destruct (Z.ltb_spec v 16384); [done|]. by intros <-%ret_inj.
Qed.

Lemma setWindow_fixed v def : 16384 <= v → setWindow v def = ret v.
Proof.
  intros Hv. unfold setWindow. destruct (Z.eqb_spec v 0); [lia|]. by destruct (Z.ltb_spec v 16384); [lia|].
Qed.

Lemma validateQUIC_inv q q' : validateQUIC q = ret q' → quic_ok q'.
Proof.
  unfold validateQUIC. intros Hrun.
  apply try_ret_inv in Hrun as (ips & Hips & Hrun).
  apply try_ret_inv in Hrun as (isw & Hisw & Hrun). apply try_ret_inv in Hrun as (msw & Hmsw & Hrun).
  apply try_ret_inv in Hrun as (icw & Hicw & Hrun). apply try_ret_inv in Hrun as (mcw & Hmcw & Hrun).
  apply try_ret_inv in Hrun as (? & Hidle%check_inv & Hrun).
  apply try_ret_inv in Hrun as (? & Hstr%check_inv & Hrun). apply ret_inj in Hrun as <-.
  apply setWindow_inv in Hisw, Hmsw, Hicw, Hmcw; try (vm_compute; discriminate).
  split; cbn.
  - destruct (_ =? 0); [by apply ret_inj in Hips as <-|].
    destruct (Z.ltb_spec (InitialPacketSize q) 1200); [done|]. by apply ret_inj in Hips as <-.
  - done.
  - split; [unfold or_default; by case_bool_decide|]. destruct (ParseDuration _) as [d|]; [by exists d|done].
  - lia.
Qed.

Lemma validateQUIC_fixed q : quic_ok q → validateQUIC q = ret q.
Proof.
  intros [Hp (H1 & H2 & H3 & H4) [Hi [d Hd]] Hs]. unfold validateQUIC.
  destruct (Z.eqb_spec (InitialPacketSize q) 0); [lia|].
  destruct (Z.ltb_spec (InitialPacketSize q) 1200); [lia|]. cbn [try_bind ret].
  rewrite !setWindow_fixed by done. cbn [try_bind ret].
  unfold or_default, or_default_int. rewrite bool_decide_eq_false_2, Hd by done. cbn [check try_bind ret].
  destruct (Z.eqb_spec (MaxIncomingStreams q) 0); [lia|].
  destruct (Z.ltb_spec (MaxIncomingStreams q) 8); [lia|]. cbn. by destruct q.
Qed.

Definition congestion_ok (g : CongestionConfig) : Prop :=
  one_of (Type_ g) ["bbr"; "cubic"] = true ∧
  one_of (BBRProfile g) ["standard"; "aggressive"; "conservative"] = true.

Lemma validateCongestion_inv g g' : validateCongestion g = ret g' → congestion_ok g'.
Proof.
  unfold validateCongestion. intros Hrun. inv_try Hrun. apply check_inv in E, E0. by apply ret_inj in Hrun as <-.
Qed.

Lemma one_of_nonempty s l : one_of s l = true → "" ∉ l → s ≠ "".
Proof. unfold one_of. rewrite bool_decide_eq_true. by intros Hin Hno ->. Qed.

Lemma or_default_keeps s def : s ≠ "" → or_default s def = s.
Proof. intros. unfold or_default. by rewrite bool_decide_eq_false_2. Qed.

Lemma validateCongestion_fixed g : congestion_ok g → validateCongestion g = ret g.
Proof.
  intros [Ht Hp]. unfold validateCongestion.
  rewrite !or_default_keeps by (eapply one_of_nonempty; [eassumption|set_solver]).
  rewrite Ht, Hp. by destruct g.
Qed.

(** The mode, with its certificate and website. *)
Definition mode_ok c : Prop :=
  one_of (Mode c) ["tls"; "origin"] = true ∧ Mode c ≠ "reality" ∧
  Cert (TLS c) ≠ "" ∧ Key (TLS c) ≠ "" ∧
  exists_file Stat (Cert (TLS c)) = true ∧ exists_file Stat (Key (TLS c)) = true ∧
  (Mode c = "origin" → validate Stat (Origin c) = ret ()).

Lemma validateMode_inv c mode :
  validateMode Stat c = ret mode → ∀ c', Mode c' = mode → TLS c' = TLS c → Origin c' = Origin c → mode_ok c'.
Proof.
  unfold validateMode. intros Hrun c' Hm Ht Ho. case_bool_decide as Hr; [done|].
  apply try_ret_inv in Hrun as (? & H1%check_inv & Hrun). apply try_ret_inv in Hrun as (? & H2%check_inv & Hrun).
  apply try_ret_inv in Hrun as (? & H3%check_inv & Hrun). apply try_ret_inv in Hrun as (? & H4%check_inv & Hrun).
  apply try_ret_inv in Hrun as ([] & H5 & Hrun). apply ret_inj in Hrun. rewrite Hrun in *.
  apply andb_true_iff in H2 as [Hc%negb_true_iff%bool_decide_eq_false Hk%negb_true_iff%bool_decide_eq_false].
  unfold mode_ok. rewrite Hm, Ht, Ho. split_and!; try done. intros Horg. by rewrite bool_decide_eq_true_2 in H5.
Qed.

Lemma validateMode_fixed c : mode_ok c → validateMode Stat c = ret (Mode c).
Proof.
  intros (H1 & Hr & Hc & Hk & H3 & H4 & H5). unfold validateMode.
  rewrite or_default_keeps by (eapply one_of_nonempty; [exact H1|set_solver]).
  rewrite bool_decide_eq_false_2 by done. rewrite H1. cbn [check try_bind ret].
  rewrite !bool_decide_eq_false_2 by done. cbn [negb andb check try_bind ret]. rewrite H3, H4. cbn [check try_bind ret].
  case_bool_decide; [by rewrite H5|done].
Qed.

(** The parts of an accepted configuration. *)
Lemma h3_accepted_inv c c' :
  validateAndFill Stat c = ret c' →
  one_of (LogLevel c') ["debug"; "info"; "warn"; "error"] = true ∧
  (∃ l, Listen c' = or_default l "0.0.0.0:443" ∧ check_address (Listen c') "listen" = ret ()) ∧
  mode_ok c' ∧
  (∃ a, UpstreamAddr c' = or_default a "127.0.0.1:18080" ∧ check_address (UpstreamAddr c') "upstream.addr" = ret ()) ∧
  quic_ok (QUIC c') ∧ congestion_ok (Congestion c').
Proof.
  unfold validateAndFill. intros Hrun.
  apply try_ret_inv in Hrun as (? & H1%check_inv & Hrun). apply try_ret_inv in Hrun as ([] & H2 & Hrun).
  apply try_ret_inv in Hrun as (mode & H3 & Hrun). apply try_ret_inv in Hrun as ([] & H4 & Hrun).
  apply try_ret_inv in Hrun as (q & H5%validateQUIC_inv & Hrun).
  apply try_ret_inv in Hrun as (g & H6%validateCongestion_inv & Hrun). apply ret_inj in Hrun as <-.
  cbn. split_and!; try done; [by eexists|by eapply validateMode_inv|by eexists].
Qed.

(** The transport section of an accepted configuration, from the one given. *)
Lemma h3_filled_QUIC c c' :
  validateAndFill Stat c = ret c' →
  ∃ ips isw msw icw mcw,
    (if InitialPacketSize (QUIC c) =? 0 then ret 1200
     else if InitialPacketSize (QUIC c) <? 1200 then fail "quic.initPacketSize must be at least 1200"
     else ret (InitialPacketSize (QUIC c))) = ret ips ∧
    setWindow (InitialStreamReceiveWindow (QUIC c)) defaultStreamReceiveWindow = ret isw ∧
    setWindow (MaxStreamReceiveWindow (QUIC c)) defaultStreamReceiveWindow = ret msw ∧
    setWindow (InitialConnectionReceiveWindow (QUIC c)) defaultConnReceiveWindow = ret icw ∧
    setWindow (MaxConnectionReceiveWindow (QUIC c)) defaultConnReceiveWindow = ret mcw ∧
    QUIC c' = mkQUIC ips isw msw icw mcw (or_default (MaxIdleTimeout (QUIC c)) "30s")
      (or_default_int (MaxIncomingStreams (QUIC c)) 1024) (DisablePathMTUDiscovery (QUIC c)) (DisableGSO (QUIC c))
      (DisablePathManager (QUIC c)).
Proof.
  unfold validateAndFill, validateQUIC. intros Hrun. do 4 apply try_ret_inv in Hrun as (? & _ & Hrun).
  apply try_ret_inv in Hrun as (q & Hq & Hrun). apply try_ret_inv in Hrun as (? & _ & Hrun).
  apply ret_inj in Hrun as <-.
  apply try_ret_inv in Hq as (ips & H0 & Hq). apply try_ret_inv in Hq as (isw & H1 & Hq).
  apply try_ret_inv in Hq as (msw & H2 & Hq). apply try_ret_inv in Hq as (icw & H3 & Hq).
  apply try_ret_inv in Hq as (mcw & H4 & Hq). do 2 apply try_ret_inv in Hq as (? & _ & Hq).
  apply ret_inj in Hq as <-. by exists ips, isw, msw, icw, mcw.
Qed.

Lemma h3_accepted_fixed c' :
  one_of (LogLevel c') ["debug"; "info"; "warn"; "error"] = true →
  (∃ l, Listen c' = or_default l "0.0.0.0:443" ∧ check_address (Listen c') "listen" = ret ()) →
  mode_ok c' →
  (∃ a, UpstreamAddr c' = or_default a "127.0.0.1:18080" ∧ check_address (UpstreamAddr c') "upstream.addr" = ret ()) →
  quic_ok (QUIC c') → congestion_ok (Congestion c') → validateAndFill Stat c' = ret c'.
Proof.
  intros Hl (l & El & Hla) Hm (a & Ea & Hua) Hq Hg. unfold validateAndFill.
  rewrite or_default_keeps by (eapply one_of_nonempty; [exact Hl|set_solver]). rewrite Hl. cbn [check try_bind ret].
  rewrite El, or_default_idem, <- El, Hla. cbn [try_bind ret]. rewrite validateMode_fixed by done. cbn [try_bind ret].
  rewrite Ea, or_default_idem, <- Ea, Hua. cbn [try_bind ret].
  rewrite validateQUIC_fixed, validateCongestion_fixed by done. cbn [try_bind ret]. by destruct c'.
Qed.

End validation.

(** Validation of the HTTP/3 frontend's configuration is total and idempotent:
    on every configuration and file system it returns, with an error or with the
    completed configuration, and never panics; and validating a configuration it
    returned accepts it and changes nothing more. *)
Theorem h3_validation_total_and_idempotent `{!Platform} Stat c :
  (∃ r, validateAndFill Stat c = Ok r) ∧
  (∀ c', validateAndFill Stat c = ret c' → validateAndFill Stat c' = ret c').
Proof.
  split; [destruct (validateAndFill_returns Stat c) as (r & Hr & _); by exists r|].
  intros c' (H1 & H2 & H3 & H4 & H5 & H6)%h3_accepted_inv. by apply h3_accepted_fixed.
Qed.

Lemma ParseProfile_known p :
  one_of p ["standard"; "aggressive"; "conservative"] = true → ParseProfile p = ret p.
Proof.
  unfold one_of. rewrite bool_decide_eq_true, !elem_of_cons, elem_of_nil.
  intros [->|[->|[->|[]]]]; vm_compute; reflexivity.
Qed.

(** Installing the controller of a known profile. *)
Lemma UseBBR_installs {Q : QuicGo} `{!QuicGoLaws Q} `{!Platform} p now quicSize :
  one_of p ["standard"; "aggressive"; "conservative"] = true →
  ∃ b, UseBBR now quicSize true p = ret b ∧
    Bbr.maxDatagramSize b = seedPacketSize quicSize QuicGo.InitialPacketSize ∧
    0 < Bbr.maxDatagramSize b <= QuicGo.InitialPacketSize ∧
    ∀ r, in_i64 r → inv (Bbr.SetRTTStatsProvider b r).
Proof.
  intros Hp. unfold UseBBR. rewrite ParseProfile_known by done. cbn [try_bind ret GetInitialPacketSize].
  pose proof InitialPacketSize_range as Hrange.
  assert (0 < seedPacketSize quicSize QuicGo.InitialPacketSize <= QuicGo.InitialPacketSize) as Hseed
    by (unfold seedPacketSize; destruct (Z.leb_spec quicSize 0); lia).
  assert (∀ r, in_i64 r → ∃ b, Bbr.NewBbrSender now (seedPacketSize quicSize QuicGo.InitialPacketSize) p = Ok b ∧
    inv (Bbr.SetRTTStatsProvider b r) ∧ Bbr.maxDatagramSize b = seedPacketSize quicSize QuicGo.InitialPacketSize)
    as Hnew by (intros r Hr; destruct (NewBbrSender_returns now _ p r Hseed Hr) as (b & ? & ? & ?); by exists b).
  destruct (Hnew 0) as (b & Hb & _ & Hsize); [by vm_compute|]. rewrite Hb. exists b. cbn. rewrite Hsize.
  split_and!; try done; try lia. intros r Hr. destruct (Hnew r Hr) as (b' & Hb' & ? & _). rewrite Hb in Hb'. by injection Hb' as ->.
Qed.

(** An accepted HTTP/3 configuration can be run: its packet size, receive
    windows and stream limit are at least the minima, its idle timeout parses,
    and on every UDP connection installing the controller of its profile succeeds,
    whatever packet size QUIC reports: the new sender's packet size is within the
    host's bounds, and the sender satisfies the controller's invariant once it has
    its RTT provider. *)
Theorem accepted_h3_config_runs_bbr {Q : QuicGo} `{!QuicGoLaws Q} `{!Platform} Stat c c' :
  validateAndFill Stat c = ret c' →
  quic_ok (QUIC c') ∧ one_of (Type_ (Congestion c')) ["bbr"; "cubic"] = true ∧
  ∀ now quicSize r, in_i64 r →
    ∃ b, UseBBR now quicSize true (BBRProfile (Congestion c')) = ret b ∧
      Bbr.maxDatagramSize b = seedPacketSize quicSize QuicGo.InitialPacketSize ∧
      0 < Bbr.maxDatagramSize b <= QuicGo.InitialPacketSize ∧
      inv (Bbr.SetRTTStatsProvider b r).
Proof.
  intros (_ & _ & _ & _ & Hq & Ht & Hp)%h3_accepted_inv. split; [done|]. split; [done|].
  intros now quicSize r Hr.
  destruct (UseBBR_installs (BBRProfile (Congestion c')) now quicSize Hp) as (b & ? & ? & ? & Hi). exists b. auto.
Qed.

(** ** Witnesses *)

Module Demo.

#[local] Existing Instance amd64.
#[local] Existing Instance sample_quic.
#[local] Existing Instance sample_quic_laws.

(** A website directory and two files. *)
Definition disk (path : string) : option bool :=
  if bool_decide (path = "www") then Some true
  else if bool_decide (path ∈ ["cert.pem"; "key.pem"]) then Some false else None.

Definition minimal : Config :=
  mkConfig "" "" "" (mkTLS "cert.pem" "key.pem") (mkOrigin "www" "user" "pass" "")
    (mkQUIC 0 0 0 0 0 "" 0 false false false) (mkCongestion "" "") "".

Definition completed : Config :=
  mkConfig "info" "0.0.0.0:443" "origin" (mkTLS "cert.pem" "key.pem") (mkOrigin "www" "user" "pass" "")
    (mkQUIC 1200 8388608 8388608 20971520 20971520 "30s" 1024 false false false)
    (mkCongestion "bbr" "standard") "127.0.0.1:18080".

Lemma minimal_completed : validateAndFill disk minimal = ret completed.
Proof. vm_compute. reflexivity. Qed.

Lemma h3_validation_total_and_idempotent_witness : validateAndFill disk completed = ret completed.
Proof. apply (proj2 (h3_validation_total_and_idempotent disk minimal)). apply minimal_completed. Defined.

Lemma accepted_h3_config_runs_bbr_witness :
  ∃ b, UseBBR 1 1350 true "standard" = ret b ∧ Bbr.maxDatagramSize b = 1280.
Proof.
  destruct (accepted_h3_config_runs_bbr disk minimal completed minimal_completed) as (_ & _ & Hb).
  destruct (Hb 1 1350 50000000) as (b & Hrun & Hsize & _); [vm_compute; split; congruence|].
  exists b. split; [exact Hrun|exact Hsize].
Defined.

End Demo.
