(* ===== verification/Origin.v ===== *)
(** * The origin mode of the HTTP/3 frontend (h3frontend/origin.go)

    Each request is authenticated by itself: a CONNECT with the configured
    credentials goes to the proxy, everything else to the website.  The hash
    function is a parameter. *)

From stdpp Require Import gmap.
From S2P Require Import Prelude GoText GoHttp H3Config.

Module Origin.

Section origin.
(** [sha256.Sum256] *)
Context (Sum256 : list Z → list Z).

(** The handler keeps only the digest of the credentials; the website and the
    proxy are other handlers. *)
Record originHandler := mkHandler { credentialHash : list Z }.

(** [[]byte(s)] *)
Definition string_bytes (s : string) : list Z := map code (bytes s).

Definition newOriginHandler (cfg : H3Config.OriginConfig) : originHandler :=
  mkHandler (Sum256 (string_bytes (H3Config.Username cfg +:+ ":" +:+ H3Config.Password cfg))).

Definition authorized (h : originHandler) (hdr : Header) : bool :=
  match header_values hdr "Proxy-Authorization" with
  | [v] =>
      match Cut v " "%char with
      | Some (scheme, encoded) =>
          if negb (EqualFold scheme "Basic") then false
          else
            match stdDecode encoded with
            | Some credential => bool_decide (Sum256 credential = credentialHash h)
            | None => false
            end
      | None => false
      end
  | _ => false
  end.

(** Where a request goes. *)
Inductive route := Proxy | Files | MethodNotAllowed.

(** The website serves GET and HEAD only. *)
Definition website (method : string) : route :=
  if bool_decide (method ∈ ["GET"; "HEAD"]) then Files else MethodNotAllowed.

Definition ServeHTTP (h : originHandler) (method : string) (hdr : Header) : route :=
  if bool_decide (method = "CONNECT") && authorized h hdr then Proxy else website method.

End origin.

End Origin.
