(* ===== verification/GoBase64.v ===== *)
(** * Base64 encoders (encoding/base64) and the facts about decoding

    The standard alphabet with padding, and the URL alphabet without. *)

From S2P Require Import Prelude GoText GoHttp GoNetFacts.

(** [base64.StdEncoding.EncodeToString] *)
Definition stdChar (v : Z) : ascii :=
  byte (if v <? 26 then 65 + v else if v <? 52 then 71 + v else if v <? 62 then v - 4
        else if v =? 62 then 43 else 47).

Fixpoint stdEncode (l : list Z) : text :=
  match l with
  | [] => []
  | [a] => [stdChar (a / 4); stdChar (a mod 4 * 16); "="%char; "="%char]
  | [a; b] => [stdChar (a / 4); stdChar (a mod 4 * 16 + b / 16); stdChar (b mod 16 * 4); "="%char]
  | a :: b :: c :: l =>
      stdChar (a / 4) :: stdChar (a mod 4 * 16 + b / 16) :: stdChar (b mod 16 * 4 + c / 64) ::
      stdChar (c mod 64) :: stdEncode l
  end.

(** The six-bit values of a list of bytes. *)
Fixpoint sextets (l : list Z) : list Z :=
  match l with
  | [] => []
  | [a] => [a / 4; a mod 4 * 16]
  | [a; b] => [a / 4; a mod 4 * 16 + b / 16; b mod 16 * 4]
  | a :: b :: c :: l => a / 4 :: a mod 4 * 16 + b / 16 :: b mod 16 * 4 + c / 64 :: c mod 64 :: sextets l
  end.

Definition urlChar (v : Z) : ascii := if v =? 62 then byte 45 else if v =? 63 then byte 95 else stdChar v.

(** [base64.RawURLEncoding.EncodeToString] *)
Definition urlEncode (l : list Z) : text := map urlChar (sextets l).

(** ** Facts *)

Lemma stdChar_ok v :
  0 <= v < 64 → stdValue (stdChar v) = Some v ∧ stdChar v ≠ "="%char ∧
  code (stdChar v) ≠ 10 ∧ code (stdChar v) ≠ 13.
Proof.
  intros Hv. assert (v ∈ seqZ 0 64) as Hin by (apply elem_of_seqZ; lia). clear Hv.
  revert v Hin. apply Forall_forall.
  apply (bool_decide_eq_true_1 (Forall (λ v, stdValue (stdChar v) = Some v ∧ stdChar v ≠ "="%char ∧
    code (stdChar v) ≠ 10 ∧ code (stdChar v) ≠ 13) (seqZ 0 64))). vm_compute. reflexivity.
Qed.

(** Induction three bytes at a time. *)
Lemma three_ind (P : list Z → Prop) :
  P [] → (∀ a, P [a]) → (∀ a b, P [a; b]) → (∀ a b c l, P l → P (a :: b :: c :: l)) → ∀ l, P l.
Proof.
  intros H0 H1 H2 H3. assert (∀ n l, (length l <= n)%nat → P l) as H; [|intros l; by apply (H (length l))].
  induction n as [|n IH]; intros [|a [|b [|c l]]] Hl; cbn in Hl; try done; try lia.
  apply H3, IH. lia.
Qed.

(** The quotients and remainders of an encoded byte. *)
Lemma byte_parts x :
  0 <= x < 256 → 0 <= x / 4 < 64 ∧ 0 <= x mod 4 < 4 ∧ 0 <= x / 16 < 16 ∧ 0 <= x mod 16 < 16 ∧
  0 <= x / 64 < 4 ∧ 0 <= x mod 64 < 64 ∧ x = 4 * (x / 4) + x mod 4 ∧ x = 16 * (x / 16) + x mod 16 ∧
  x = 64 * (x / 64) + x mod 64.
Proof.
  intros Hx. pose proof (Z.div_mod x 4). pose proof (Z.div_mod x 16). pose proof (Z.div_mod x 64).
  pose proof (Z.mod_pos_bound x 4). pose proof (Z.mod_pos_bound x 16). pose proof (Z.mod_pos_bound x 64). lia.
Qed.

Lemma shiftl_u8 v k : 0 <= k → u8 (Z.shiftl v k) = v * 2 ^ k mod 256.
Proof. intros. unfold u8. by rewrite Z.shiftl_mul_pow2. Qed.

Lemma shiftr_div v k : 0 <= k → Z.shiftr v k = v / 2 ^ k.
Proof. intros. by rewrite Z.shiftr_div_pow2. Qed.

(** The bytes put together from four values. *)
Lemma first_byte a r : 0 <= a < 256 → 0 <= r < 16 → 4 * (a / 4) + (a mod 4 * 16 + r) / 16 = a.
Proof. intros Ha Hr. pose proof (byte_parts a Ha). rewrite Z.div_add_l, (Z.div_small r) by lia. lia. Qed.

Lemma second_byte a b r :
  0 <= a < 256 → 0 <= b < 256 → 0 <= r < 4 →
  (a mod 4 * 16 + b / 16) * 16 mod 256 + (b mod 16 * 4 + r) / 4 = b.
Proof.
  intros Ha Hb Hr. pose proof (byte_parts a Ha). pose proof (byte_parts b Hb).
  replace ((a mod 4 * 16 + b / 16) * 16) with (b / 16 * 16 + a mod 4 * 256) by lia.
  rewrite Z.mod_add, Z.mod_small, Z.div_add_l, (Z.div_small r) by lia. lia.
Qed.

Lemma third_byte b c :
  0 <= b < 256 → 0 <= c < 256 → (b mod 16 * 4 + c / 64) * 64 mod 256 + c mod 64 = c.
Proof.
  intros Hb Hc. pose proof (byte_parts b Hb). pose proof (byte_parts c Hc).
  replace ((b mod 16 * 4 + c / 64) * 64) with (c / 64 * 64 + b mod 16 * 256) by lia.
  rewrite Z.mod_add, Z.mod_small by lia. lia.
Qed.

(** The ranges of the four values of a group. *)
Lemma value_ranges a b c :
  0 <= a < 256 → 0 <= b < 256 → 0 <= c < 256 →
  0 <= a / 4 < 64 ∧ 0 <= a mod 4 * 16 + b / 16 < 64 ∧ 0 <= b mod 16 * 4 + c / 64 < 64 ∧ 0 <= c mod 64 < 64.
Proof.
  intros Ha Hb Hc. pose proof (byte_parts a Ha). pose proof (byte_parts b Hb). pose proof (byte_parts c Hc). lia.
Qed.

Lemma std_value v : 0 <= v < 64 → stdValue (stdChar v) = Some v.
Proof. intros Hv. by apply stdChar_ok. Qed.

Lemma std_no_pad v : 0 <= v < 64 → bool_decide (stdChar v = "="%char) = false.
Proof. intros Hv. apply bool_decide_eq_false_2. by apply stdChar_ok. Qed.

Lemma byte_list_cons a l : byte_list (a :: l) ↔ (0 <= a < 256) ∧ byte_list l.
Proof. unfold byte_list. by rewrite Forall_cons. Qed.

Lemma filter_keeps (P : ascii → Prop) `{!∀ c, Decision (P c)} l : Forall P l → filter P l = l.
Proof. induction 1 as [|c l Hc _ IH]; [done|]. by rewrite filter_cons_True, IH. Qed.

Lemma stdGroups_stdEncode l : byte_list l → stdGroups (stdEncode l) = Some l.
Proof.
  revert l. apply (three_ind (λ l, byte_list l → stdGroups (stdEncode l) = Some l)).
  - done.
  - intros a [Ha _]%byte_list_cons. destruct (value_ranges a 0 0) as (R1 & R2 & _); [lia..|].
    rewrite Z.div_0_l, Z.add_0_r in R2 by lia. cbn [stdEncode stdGroups].
    rewrite !std_value by done. cbn [mbind option_bind]. rewrite !bool_decide_eq_true_2 by done. cbn [andb].
    rewrite shiftr_div by lia. change (2 ^ 4) with 16. pose proof (first_byte a 0 Ha ltac:(lia)) as Hf.
    rewrite Z.add_0_r in Hf. by rewrite Hf.
  - intros a b [Ha [Hb _]%byte_list_cons]%byte_list_cons.
    destruct (value_ranges a b 0) as (R1 & R2 & R3 & _); [lia..|].
    rewrite Z.div_0_l, Z.add_0_r in R3 by lia. pose proof (byte_parts b Hb). cbn [stdEncode stdGroups].
    rewrite !std_value by done. cbn [mbind option_bind].
    rewrite std_no_pad, !bool_decide_eq_true_2 by done. cbn [andb].
    rewrite !shiftr_div, shiftl_u8 by lia. change (2 ^ 4) with 16. change (2 ^ 2) with 4.
    rewrite first_byte by lia. pose proof (second_byte a b 0 Ha Hb ltac:(lia)) as Hs.
    rewrite Z.add_0_r in Hs. by rewrite Hs.
  - intros a b c l IH [Ha [Hb [Hc Hl]%byte_list_cons]%byte_list_cons]%byte_list_cons.
    destruct (value_ranges a b c Ha Hb Hc) as (R1 & R2 & R3 & R4).
    pose proof (byte_parts b Hb). pose proof (byte_parts c Hc). cbn [stdEncode stdGroups].
    rewrite !std_value by done. cbn [mbind option_bind]. rewrite !std_no_pad, !andb_false_r by done.
    rewrite IH by done. cbn [mbind option_bind].
    rewrite !shiftr_div, !shiftl_u8 by lia. change (2 ^ 4) with 16. change (2 ^ 2) with 4. change (2 ^ 6) with 64.
    by rewrite first_byte, second_byte, third_byte by lia.
Qed.

Lemma stdEncode_no_breaks l :
  byte_list l → filter (λ c, code c ≠ 10 ∧ code c ≠ 13) (stdEncode l) = stdEncode l.
Proof.
  intros Hl. apply filter_keeps. revert l Hl.
  assert (∀ v, 0 <= v < 64 → code (stdChar v) ≠ 10 ∧ code (stdChar v) ≠ 13) as Hv by (intros v Hv; by apply stdChar_ok).
  assert (code "="%char ≠ 10 ∧ code "="%char ≠ 13) as He by (by vm_compute).
  apply (three_ind (λ l, byte_list l → Forall _ (stdEncode l))).
  - constructor.
  - intros a [Ha _]%byte_list_cons. destruct (value_ranges a 0 0) as (R1 & R2 & _); [lia..|].
    rewrite Z.div_0_l, Z.add_0_r in R2 by lia. by repeat (constructor; [by try apply Hv|]).
  - intros a b [Ha [Hb _]%byte_list_cons]%byte_list_cons.
    destruct (value_ranges a b 0) as (R1 & R2 & R3 & _); [lia..|].
    rewrite Z.div_0_l, Z.add_0_r in R3 by lia. by repeat (constructor; [by try apply Hv|]).
  - intros a b c l IH [Ha [Hb [Hc Hl]%byte_list_cons]%byte_list_cons]%byte_list_cons.
    destruct (value_ranges a b c Ha Hb Hc) as (R1 & R2 & R3 & R4). cbn [stdEncode].
    do 4 (constructor; [by apply Hv|]). by apply IH.
Qed.

Lemma stdDecode_stdEncode l : byte_list l → stdDecode (of_bytes (stdEncode l)) = Some l.
Proof.
  intros Hl. unfold stdDecode. rewrite bytes_of_bytes, stdEncode_no_breaks by done. by apply stdGroups_stdEncode.
Qed.

(** ** The URL alphabet *)

Lemma urlChar_ok v :
  0 <= v < 64 → base64Value (urlChar v) = Some v ∧ code (urlChar v) ≠ 10 ∧ code (urlChar v) ≠ 13 ∧
  code (urlChar v) < 127 ∧ 32 < code (urlChar v).
Proof.
  intros Hv. assert (v ∈ seqZ 0 64) as Hin by (apply elem_of_seqZ; lia). clear Hv.
  revert v Hin. apply Forall_forall.
  apply (bool_decide_eq_true_1 (Forall (λ v, base64Value (urlChar v) = Some v ∧ code (urlChar v) ≠ 10 ∧
    code (urlChar v) ≠ 13 ∧ code (urlChar v) < 127 ∧ 32 < code (urlChar v)) (seqZ 0 64))). vm_compute. reflexivity.
Qed.

Lemma sextets_range l : byte_list l → Forall (λ v, 0 <= v < 64) (sextets l).
Proof.
  revert l. apply (three_ind (λ l, byte_list l → Forall _ (sextets l))).
  - constructor.
  - intros a [Ha _]%byte_list_cons. destruct (value_ranges a 0 0) as (R1 & R2 & _); [lia..|].
    rewrite Z.div_0_l, Z.add_0_r in R2 by lia. by repeat (apply Forall_cons; split; [done|]).
  - intros a b [Ha [Hb _]%byte_list_cons]%byte_list_cons.
    destruct (value_ranges a b 0) as (R1 & R2 & R3 & _); [lia..|].
    rewrite Z.div_0_l, Z.add_0_r in R3 by lia. by repeat (apply Forall_cons; split; [done|]).
  - intros a b c l IH [Ha [Hb [Hc Hl]%byte_list_cons]%byte_list_cons]%byte_list_cons.
    destruct (value_ranges a b c Ha Hb Hc) as (R1 & R2 & R3 & R4). cbn [sextets].
    do 4 (constructor; [done|]). by apply IH.
Qed.

Lemma base64Groups_sextets l : byte_list l → base64Groups (sextets l) = Some l.
Proof.
  revert l. apply (three_ind (λ l, byte_list l → base64Groups (sextets l) = Some l)).
  - done.
  - intros a [Ha _]%byte_list_cons. cbn [sextets base64Groups]. rewrite shiftr_div by lia. change (2 ^ 4) with 16.
    pose proof (first_byte a 0 Ha ltac:(lia)) as Hf. rewrite Z.add_0_r in Hf. by rewrite Hf.
  - intros a b [Ha [Hb _]%byte_list_cons]%byte_list_cons. pose proof (byte_parts b Hb).
    cbn [sextets base64Groups]. rewrite !shiftr_div, shiftl_u8 by lia. change (2 ^ 4) with 16. change (2 ^ 2) with 4.
    rewrite first_byte by lia. pose proof (second_byte a b 0 Ha Hb ltac:(lia)) as Hs.
    rewrite Z.add_0_r in Hs. by rewrite Hs.
  - intros a b c l IH [Ha [Hb [Hc Hl]%byte_list_cons]%byte_list_cons]%byte_list_cons.
    pose proof (byte_parts b Hb). pose proof (byte_parts c Hc). cbn [sextets base64Groups].
    rewrite IH by done. cbn [mbind option_bind].
    rewrite !shiftr_div, !shiftl_u8 by lia. change (2 ^ 4) with 16. change (2 ^ 2) with 4. change (2 ^ 6) with 64.
    by rewrite first_byte, second_byte, third_byte by lia.
Qed.

Lemma base64Decode_urlEncode l : byte_list l → base64Decode (urlEncode l) = Some l.
Proof.
  intros Hl. unfold base64Decode, urlEncode. pose proof (sextets_range l Hl) as Hr.
  rewrite filter_keeps.
  - assert (mapM base64Value (map urlChar (sextets l)) = Some (sextets l)) as ->.
    + induction Hr as [|v vs Hv _ IH]; [done|]. cbn [map mapM]. rewrite (proj1 (urlChar_ok v Hv)). cbn [mbind option_bind].
      by rewrite IH.
    + by apply base64Groups_sextets.
  - apply Forall_map. eapply Forall_impl; [done|]. intros v Hv. by destruct (urlChar_ok v Hv) as (_ & ? & ? & _).
Qed.
