(* ===== verification/OriginSpec.v ===== *)
(** * Theorems about the origin mode

    Only the configured credentials open the proxy, short of a second
    preimage under the hash function, and a client that presents them gets through. *)

From stdpp Require Import gmap.
From S2P Require Import Prelude GoText GoHttp GoNetFacts GoBase64 FrontendConfig FrontendConfigSpec H3Config Origin.

Import Origin.

(** ** The client's side: Basic credentials *)

Definition basic (user pass : string) : string :=
  "Basic " +:+ of_bytes (stdEncode (string_bytes (user +:+ ":" +:+ pass))).

(** The header of a client that presents credentials. *)
Definition client_header (user pass : string) : Header :=
  header_set ∅ "Proxy-Authorization" (basic user pass).

Lemma string_bytes_list s : byte_list (string_bytes s).
Proof. unfold byte_list, string_bytes. apply Forall_map, Forall_forall. intros c _. apply code_range. Qed.

(** ** Who gets through *)

Lemma string_bytes_inj s t : string_bytes s = string_bytes t → s = t.
Proof.
  unfold string_bytes. intros H. apply bytes_inj. revert H. generalize (bytes s), (bytes t).
  intros l. induction l as [|c l IH]; intros [|d k] H; try done. injection H as Hc H.
  apply code_inj in Hc. subst d. f_equal. by apply IH.
Qed.

(** A user name without a colon and a password are read off their concatenation. *)
Lemma credentials_inj u p u' p' :
  (":"%char ∉ bytes u) → (":"%char ∉ bytes u') →
  u +:+ ":" +:+ p = u' +:+ ":" +:+ p' → u = u' ∧ p = p'.
Proof.
  intros Hu Hu' Heq. apply (f_equal bytes) in Heq. rewrite !bytes_app in Heq.
  change (bytes ":") with [":"%char] in Heq. cbn [app] in Heq.
  revert Heq Hu Hu'. intros Heq Hu Hu'.
  assert (bytes u = bytes u' ∧ bytes p = bytes p') as [H1 H2]; [|split; by apply bytes_inj].
  revert Heq Hu Hu'. generalize (bytes u), (bytes u'). intros l. induction l as [|c l IH]; intros [|d k] Heq Hl Hk.
  - by injection Heq as ->.
  - injection Heq as <- _. destruct Hk. by left.
  - injection Heq as -> _. destruct Hl. by left.
  - injection Heq as -> Heq. apply not_elem_of_cons in Hl as [_ Hl], Hk as [_ Hk].
    destruct (IH k Heq Hl Hk) as [-> ->]. done.
Qed.

Lemma ContainsAny_absent s chars c : ContainsAny s chars = false → c ∈ chars → c ∉ bytes s.
Proof.
  unfold ContainsAny. intros H Hc Hin. apply list_elem_of_In in Hin.
  assert (existsb (λ c, bool_decide (c ∈ chars)) (bytes s) = true) as Ht; [|congruence].
  apply existsb_exists. exists c. split; [done|]. by apply bool_decide_eq_true_2.
Qed.

Section origin.
Context (Sum256 : list Z → list Z) (Stat : string → option bool).

(** A second preimage: other bytes than [x], with its digest. *)
Definition second_preimage (x y : list Z) : Prop := y ≠ x ∧ Sum256 y = Sum256 x.

(** The credentials a header value carries, if it has the Basic form. *)
Definition credentials (v : string) : option (list Z) :=
  '(scheme, encoded) ← Cut v " "%char;
  if EqualFold scheme "Basic" then stdDecode encoded else None.

Lemma authorized_iff h hdr :
  authorized Sum256 h hdr = true ↔
  ∃ v cred, header_values hdr "Proxy-Authorization" = [v] ∧ credentials v = Some cred ∧
    Sum256 cred = credentialHash h.
Proof.
  unfold authorized, credentials. destruct (header_values hdr "Proxy-Authorization") as [|v [|w l]].
  - split; [done|]. by intros (? & ? & ? & _).
  - destruct (Cut v " "%char) as [[scheme encoded]|] eqn:Hcut; cbn [mbind option_bind].
    2: { split; [done|]. intros (? & ? & [= <-] & H & _). by rewrite Hcut in H. }
    destruct (EqualFold scheme "Basic") eqn:Hf; cbn [negb].
    2: { split; [done|]. intros (? & ? & [= <-] & H & _). rewrite Hcut in H. cbn [mbind option_bind] in H. by rewrite Hf in H. }
    destruct (stdDecode encoded) as [cred|] eqn:Hd.
    + rewrite bool_decide_eq_true. split.
      * intros Hs. exists v, cred. rewrite Hcut. cbn [mbind option_bind]. by rewrite Hf.
      * intros (? & ? & [= <-] & H & Hs). rewrite Hcut in H. cbn [mbind option_bind] in H. rewrite Hf, Hd in H. by injection H as <-.
    + split; [done|]. intros (? & ? & [= <-] & H & _). rewrite Hcut in H. cbn [mbind option_bind] in H. by rewrite Hf, Hd in H.
  - split; [done|]. by intros (? & ? & ? & _).
Qed.

Lemma Proxy_authorized h method hdr :
  ServeHTTP Sum256 h method hdr = Proxy ↔ method = "CONNECT" ∧ authorized Sum256 h hdr = true.
Proof.
  unfold ServeHTTP, website. case_bool_decide as Hm; cbn [andb].
  - destruct (authorized Sum256 h hdr); [done|]. subst method. split; [by case_bool_decide|by intros []].
  - split; [by case_bool_decide|by intros []].
Qed.

Lemma client_header_credentials u p :
  header_values (client_header u p) "Proxy-Authorization" = [basic u p] ∧
  credentials (basic u p) = Some (string_bytes (u +:+ ":" +:+ p)).
Proof.
  split; [unfold client_header, header_values, header_set; by rewrite lookup_insert_eq|].
  unfold credentials, basic, Cut. rewrite bytes_app, bytes_of_bytes.
  change (bytes "Basic ") with (bytes "Basic" ++ [" "%char]). rewrite <- (assoc_L (++)). cbn [app].
  assert (cut_at (bytes "Basic" ++ " "%char :: stdEncode (string_bytes (u +:+ ":" +:+ p))) " "%char =
    Some (bytes "Basic", stdEncode (string_bytes (u +:+ ":" +:+ p)))) as -> by done.
  cbn [mbind option_bind]. rewrite of_bytes_bytes.
  assert (EqualFold "Basic" "Basic" = true) as -> by done.
  apply stdDecode_stdEncode, string_bytes_list.
Qed.

(** C25. The origin mode opens the proxy to its credentials only.  With a
    validated configuration: a CONNECT whose only Proxy-Authorization value is the
    Basic form of the configured user and password reaches the proxy, whatever the
    other headers.  A request that reaches the proxy is a CONNECT with one such
    value, which decodes to the configured credentials, or else to other bytes that
    have their digest, a second preimage that this very request presents; so a
    client with another user (without a colon) or password gets through only if its
    own credentials are a second preimage.  A CONNECT that does not get through is
    refused, never answered with a file. *)
Theorem origin_admits_only_its_credentials cfg :
  H3Config.validate Stat cfg = ret () →
  let h := newOriginHandler Sum256 cfg in
  let secret := string_bytes (H3Config.Username cfg +:+ ":" +:+ H3Config.Password cfg) in
  (∀ hdr, header_values hdr "Proxy-Authorization" = [basic (H3Config.Username cfg) (H3Config.Password cfg)] →
     ServeHTTP Sum256 h "CONNECT" hdr = Proxy) ∧
  (∀ method hdr, ServeHTTP Sum256 h method hdr = Proxy →
     method = "CONNECT" ∧ ∃ v cred, header_values hdr "Proxy-Authorization" = [v] ∧
       credentials v = Some cred ∧ (cred = secret ∨ second_preimage secret cred)) ∧
  (∀ u p, (":"%char ∉ bytes u) → ServeHTTP Sum256 h "CONNECT" (client_header u p) = Proxy →
     (u = H3Config.Username cfg ∧ p = H3Config.Password cfg) ∨
     second_preimage secret (string_bytes (u +:+ ":" +:+ p))) ∧
  (∀ hdr, ServeHTTP Sum256 h "CONNECT" hdr = Proxy ∨ ServeHTTP Sum256 h "CONNECT" hdr = MethodNotAllowed).
Proof.
  intros Hval h secret.
  assert (":"%char ∉ bytes (H3Config.Username cfg)) as Hcolon.
  { unfold H3Config.validate in Hval. apply try_ret_inv in Hval as (? & _ & Hval).
    apply try_ret_inv in Hval as (? & [Hu%negb_true_iff _]%check_inv%andb_true_iff & _).
    apply (ContainsAny_absent _ _ _ Hu). by left. }
  assert (∀ method hdr, ServeHTTP Sum256 h method hdr = Proxy →
     method = "CONNECT" ∧ ∃ v cred, header_values hdr "Proxy-Authorization" = [v] ∧
       credentials v = Some cred ∧ (cred = secret ∨ second_preimage secret cred)) as Hsound.
  { intros method hdr Hp. apply Proxy_authorized in Hp as [-> (v & cred & Hv & Hc & Hs)%authorized_iff].
    split; [done|]. exists v, cred. split_and!; [done..|]. destruct (decide (cred = secret)); [by left|by right]. }
  split_and!; [|exact Hsound| |].
  - intros hdr Hv. apply Proxy_authorized. split; [done|]. apply authorized_iff.
    eexists _, secret. split_and!; [exact Hv|apply client_header_credentials|done].
  - intros u p Hu Hp. destruct (Hsound _ _ Hp) as (_ & v & cred & Hv & Hc & Hs).
    destruct (client_header_credentials u p) as [H1 H2]. rewrite H1 in Hv. injection Hv as <-.
    rewrite H2 in Hc. injection Hc as <-. destruct Hs as [Hs%string_bytes_inj|]; [left|by right]. by apply credentials_inj.
  - intros hdr. unfold ServeHTTP, website. rewrite bool_decide_eq_true_2 by done. cbn [andb].
    destruct (authorized Sum256 h hdr); [by left|by right].
Qed.

End origin.

(** ** Witness *)

Module Demo.

Definition www (path : string) : option bool := if bool_decide (path = "www") then Some true else None.

(** With a hash that has no second preimages, the identity. *)
Lemma origin_admits_only_its_credentials_witness :
  let h := newOriginHandler id (H3Config.mkOrigin "www" "user" "pass" "") in
  ServeHTTP id h "CONNECT" (client_header "user" "pass") = Proxy ∧
  ServeHTTP id h "CONNECT" (client_header "user" "word") = MethodNotAllowed.
Proof.
  destruct (origin_admits_only_its_credentials id www (H3Config.mkOrigin "www" "user" "pass" "")) as (Hc & _ & Hs & Ho);
    [vm_compute; reflexivity|].
  split; [by apply Hc|]. destruct (Ho (client_header "user" "word")) as [Hp|]; [exfalso|done].
  destruct (Hs "user" "word") as [[_ H]|[H H']]; [apply (bool_decide_eq_true_1 _); vm_compute; reflexivity|exact Hp|discriminate H|].
  by apply H.
Defined.

End Demo.
