(* ===== verification/EntryMgr.v ===== *)
(** * The local listeners of the client (tui/internal/entry/entry.go)

    [Manager] binds the listeners, tracks the connections its accept loops hand
    over, and closes everything in [Stop].  Its critical sections, the accepts and
    the ends of the handlers are the events of a transition system. *)

From stdpp Require Import gmap.
From S2P Require Import Prelude.

Module EntryMgr.

Abbreviation lnid := nat.
Abbreviation connid := nat.

(** An accept loop: in [Accept], with a connection it has not locked for yet, or
    returned. *)
Inductive loop_pc := Accepting | Holding (c : connid) | Returned.

(** The goroutine of a connection: in its handler, or with only the removal from
    the map left. *)
Inductive handler_pc := Handling | Leaving.

#[export] Instance handler_pc_eq_dec : EqDecision handler_pc.
Proof. solve_decision. Defined.

(** The manager's fields; the sockets that are open; the goroutines. *)
Record Manager := mkManager {
  listeners : gset lnid;
  conns : gset connid;
  closed : bool;
  open_listeners : gset lnid;
  open_conns : gset connid;
  loops : gmap lnid loop_pc;
  handlers : gmap connid handler_pc
}.

#[export] Instance eta_Manager : Eta Manager := fun m =>
  mkManager (listeners m) (conns m) (closed m) (open_listeners m) (open_conns m) (loops m) (handlers m).

Definition NewManager : Manager := mkManager ∅ ∅ false ∅ ∅ ∅ ∅.

Implicit Types (m : Manager) (l : lnid) (c : connid).

(** The result of binding an address: not asked for, bound, or an error. *)
Inductive bind_result := NotAsked | Bound (l : lnid) | BindFails.

Definition bound (r : bind_result) : gset lnid := match r with Bound l => {[ l ]} | _ => ∅ end.

(** A new listener has a name of its own. *)
Definition fresh_bind m (socks http : bind_result) : bool :=
  bool_decide (bound socks ## bound http) &&
  bool_decide (∀ l, l ∈ bound socks ∪ bound http → loops m !! l = None).

(** [Start], all of it under the mutex: the error, and the new state.  A listener
    bound before a failure is closed again. *)
Definition Start m (socks http : bind_result) : bool * Manager :=
  if closed m then (false, m)
  else
    match socks with
    | BindFails => (false, m)
    | _ =>
        let bound_now := open_listeners m ∪ bound socks in
        match http with
        | BindFails => (false, m <| open_listeners := bound_now ∖ bound socks |>)
        | _ =>
            let new := bound socks ∪ bound http in
            (true,
             m <| open_listeners := bound_now ∪ bound http |>
               <| listeners := listeners m ∪ new |>
               <| loops := gset_to_gmap Accepting new ∪ loops m |>)
        end
    end.

(** [ln.Accept] returns a connection, or an error, which ends the loop. *)
Definition AcceptConn m l c : option Manager :=
  match loops m !! l, handlers m !! c with
  | Some Accepting, None =>
      if bool_decide (l ∈ open_listeners m) && negb (bool_decide (c ∈ open_conns m))
      then Some (m <| loops := <[l := Holding c]> (loops m) |> <| open_conns := {[ c ]} ∪ open_conns m |>)
      else None
  | _, _ => None
  end.

Definition AcceptFails m l : option Manager :=
  match loops m !! l with
  | Some Accepting => Some (m <| loops := <[l := Returned]> (loops m) |>)
  | _ => None
  end.

(** The critical section of the accept loop, and the start of the handler. *)
Definition Track m l : option Manager :=
  match loops m !! l with
  | Some (Holding c) =>
      if closed m then
        Some (m <| open_conns := open_conns m ∖ {[ c ]} |> <| loops := <[l := Returned]> (loops m) |>)
      else
        Some (m <| conns := {[ c ]} ∪ conns m |> <| handlers := <[c := Handling]> (handlers m) |>
                <| loops := <[l := Accepting]> (loops m) |>)
  | _ => None
  end.

(** The handler returns: its deferred [Close], then the removal from the map. *)
Definition HandlerReturns m c : option Manager :=
  if decide (handlers m !! c = Some Handling)
  then Some (m <| open_conns := open_conns m ∖ {[ c ]} |> <| handlers := <[c := Leaving]> (handlers m) |>)
  else None.

Definition Untrack m c : option Manager :=
  if decide (handlers m !! c = Some Leaving)
  then Some (m <| conns := conns m ∖ {[ c ]} |> <| handlers := delete c (handlers m) |>)
  else None.

Definition Stop m : Manager :=
  m <| closed := true |>
    <| open_listeners := open_listeners m ∖ listeners m |>
    <| listeners := ∅ |>
    <| open_conns := open_conns m ∖ conns m |>
    <| conns := ∅ |>.

Inductive event :=
  | EStart (socks http : bind_result)
  | EAcceptConn l c | EAcceptFails l | ETrack l
  | EHandlerReturns c | EUntrack c | EStop.

Definition step m (e : event) : option Manager :=
  match e with
  | EStart socks http => if fresh_bind m socks http then Some (Start m socks http).2 else None
  | EAcceptConn l c => AcceptConn m l c
  | EAcceptFails l => AcceptFails m l
  | ETrack l => Track m l
  | EHandlerReturns c => HandlerReturns m c
  | EUntrack c => Untrack m c
  | EStop => Some (Stop m)
  end.

Fixpoint run (es : list event) m : option Manager :=
  match es with
  | [] => Some m
  | e :: es => m' ← step m e; run es m'
  end.

End EntryMgr.
