(* ===== verification/EntryMgrSpec.v ===== *)
(** * Theorems about the local listeners

    What [Stop] leaves open, and what a failed [Start] leaves behind. *)

From stdpp Require Import gmap.
From S2P Require Import Prelude EntryMgr.

Import EntryMgr.

(** Every open socket is accounted for. *)
Record inv (m : Manager) : Prop := {
  e_listeners : open_listeners m ⊆ listeners m;
  e_loops : ∀ l, l ∈ open_listeners m → is_Some (loops m !! l);
  e_conns : ∀ c, c ∈ open_conns m →
    (∃ l, loops m !! l = Some (Holding c)) ∨ (c ∈ conns m ∧ handlers m !! c = Some Handling);
  e_closed : closed m = true → listeners m = ∅ ∧ conns m = ∅
}.

Lemma new_manager_inv : inv NewManager.
Proof. split; cbn; [set_solver..|done]. Qed.

(** A loop that moves on from a state other than holding [c]. *)
Lemma holding_kept (loops : gmap lnid loop_pc) l p k c :
  (∃ j, loops !! j = Some (Holding c)) → loops !! l = Some k → k ≠ Holding c →
  ∃ j, <[l := p]> loops !! j = Some (Holding c).
Proof.
  intros [j Hj] Hl Hk. exists j. rewrite lookup_insert_ne; [done|]. intros ->. congruence.
Qed.

Lemma insert_is_Some {A} (loops : gmap lnid A) l p j : is_Some (loops !! j) → is_Some (<[l := p]> loops !! j).
Proof. intros H. destruct (decide (l = j)) as [->|]; [rewrite lookup_insert_eq|rewrite lookup_insert_ne by done]; by eauto. Qed.

Lemma fresh_bind_inv m socks http :
  fresh_bind m socks http = true →
  bound socks ## bound http ∧ ∀ l, l ∈ bound socks ∪ bound http → loops m !! l = None.
Proof.
  unfold fresh_bind. rewrite andb_true_iff, !bool_decide_eq_true. done.
Qed.

(** A start that fails changes nothing. *)
Lemma failed_start_unchanged m socks http m' :
  inv m → fresh_bind m socks http = true → Start m socks http = (false, m') → m' = m.
Proof.
  intros Hi [_ Hf]%fresh_bind_inv. unfold Start. destruct (closed m); [by intros [= <-]|].
  assert ((open_listeners m ∪ bound socks) ∖ bound socks = open_listeners m) as Hback.
  { apply set_eq. intros l. split; [set_solver|]. intros Hl.
    assert (l ∉ bound socks); [|set_solver]. intros Hb.
    destruct (e_loops _ Hi l Hl) as [x Hx]. rewrite Hf in Hx by set_solver. done. }
  destruct socks; [destruct http|destruct http|by intros [= <-]]; try done;
    intros [= <-]; destruct m; cbn in *; by rewrite Hback.
Qed.

Lemma start_keeps m socks http :
  inv m → fresh_bind m socks http = true → inv (Start m socks http).2.
Proof.
  intros Hi Hf. destruct (Start m socks http) as [[] m'] eqn:Hs; cbn.
  2: { by rewrite (failed_start_unchanged m socks http m'). }
  apply fresh_bind_inv in Hf as [Hd Hf]. unfold Start in Hs. destruct (closed m) eqn:Hc; [done|].
  assert (m' = m <| open_listeners := open_listeners m ∪ bound socks ∪ bound http |>
    <| listeners := listeners m ∪ (bound socks ∪ bound http) |>
    <| loops := gset_to_gmap Accepting (bound socks ∪ bound http) ∪ loops m |>) as ->
    by (destruct socks, http; try done; by injection Hs as <-).
  destruct Hi as [H1 H2 H3 H4]. split; cbn.
  - set_solver.
  - intros l Hl. rewrite lookup_union. destruct (decide (l ∈ bound socks ∪ bound http)) as [Hn|Hn].
    + rewrite (proj2 (lookup_gset_to_gmap_Some _ _ _ _)) by done. destruct (loops m !! l); by eexists.
    + rewrite (proj2 (lookup_gset_to_gmap_None _ _ _)) by done.
      destruct (H2 l) as [x ->]; [set_solver|by eexists].
  - intros c Hin. destruct (H3 c Hin) as [[l Hl]|?]; [left; exists l|by right].
    rewrite lookup_union_r; [done|]. apply lookup_gset_to_gmap_None. intros Hn. by rewrite Hf in Hl.
  - rewrite Hc. done.
Qed.

Lemma entry_step_inv m e m' : inv m → step m e = Some m' → inv m'.
Proof.
  intros Hi. destruct e as [socks http|l c|l|l|c|c|]; cbn [step].
  - destruct (fresh_bind m socks http) eqn:Hf; [|done]. intros [= <-]. by apply start_keeps.
  - unfold AcceptConn. destruct (loops m !! l) as [[]|] eqn:Hl, (handlers m !! c); try done.
    case_bool_decide; cbn [andb]; [|done]. destruct (negb _); [|done]. intros [= <-].
    destruct Hi as [H1 H2 H3 H4]. split; cbn; [done| | |done].
    + intros j Hj. by apply insert_is_Some, H2.
    + intros d [->%elem_of_singleton|Hd]%elem_of_union; [left; exists l; apply lookup_insert_eq|].
      destruct (H3 d Hd) as [?|?]; [left; by eapply holding_kept|by right].
  - unfold AcceptFails. destruct (loops m !! l) as [[]|] eqn:Hl; try done. intros [= <-].
    destruct Hi as [H1 H2 H3 H4]. split; cbn; [done| | |done].
    + intros j Hj. by apply insert_is_Some, H2.
    + intros d Hd. destruct (H3 d Hd) as [?|?]; [left; by eapply holding_kept|by right].
  - unfold Track. destruct (loops m !! l) as [[|c|]|] eqn:Hl; try done.
    destruct Hi as [H1 H2 H3 H4]. destruct (closed m) eqn:Hc; intros [= <-]; (split; cbn; [done| | |]).
    + intros j Hj. by apply insert_is_Some, H2.
    + intros d [Hd Hne%not_elem_of_singleton]%elem_of_difference.
      destruct (H3 d Hd) as [?|?]; [left; eapply holding_kept; [done|done|congruence]|by right].
    + intros _. by apply H4.
    + intros j Hj. by apply insert_is_Some, H2.
    + intros d Hd. destruct (decide (d = c)) as [->|Hne]; [right; split; [set_solver|apply lookup_insert_eq]|].
      destruct (H3 d Hd) as [?|[? ?]]; [left; eapply holding_kept; [done|done|congruence]|right].
      rewrite lookup_insert_ne by done. split; [set_solver|done].
    + rewrite Hc. done.
  - unfold HandlerReturns. case_decide as Hh; [|done]. intros [= <-].
    destruct Hi as [H1 H2 H3 H4]. split; cbn; [done..| |done].
    intros d [Hd Hne%not_elem_of_singleton]%elem_of_difference. rewrite lookup_insert_ne by done. by apply H3.
  - unfold Untrack. case_decide as Hh; [|done]. intros [= <-].
    destruct Hi as [H1 H2 H3 H4]. split; cbn; [done..| |].
    + intros d Hd. destruct (H3 d Hd) as [?|[? Hd']]; [by left|right]. assert (d ≠ c) by congruence.
      rewrite lookup_delete_ne by done. split; [set_solver|done].
    + intros Hc. destruct (H4 Hc) as [? ->]. set_solver.
  - intros [= <-]. destruct Hi as [H1 H2 H3 H4]. split; cbn; [set_solver| | |done].
    + intros j Hj. apply H2. set_solver.
    + intros d [Hd Hn]%elem_of_difference. destruct (H3 d Hd) as [?|[? ?]]; [by left|done].
Qed.

Lemma entry_run_inv es m m' : inv m → run es m = Some m' → inv m'.
Proof.
  revert m. induction es as [|e es IH]; intros m Hi; cbn [run]; [by intros [= <-]|].
  intros (m1 & H1 & Hrun)%bind_Some. apply (IH m1); [by eapply entry_step_inv|done].
Qed.

(** C23. [Stop] leaves nothing open.  However accepts, handlers, starts and stops
    interleave, once the manager is stopped no listener is open and none can
    accept; no further start does anything; every connection still open is in the
    hands of an accept loop, whose next step closes it and ends the loop; and at
    any time a start that fails leaves the manager and its sockets as they were. *)
Theorem stop_leaves_nothing_open es m :
  run es NewManager = Some m →
  (closed m = true →
     open_listeners m = ∅ ∧ conns m = ∅ ∧
     (∀ l c, AcceptConn m l c = None) ∧
     (∀ socks http, Start m socks http = (false, m)) ∧
     (∀ c, c ∈ open_conns m → ∃ l m', loops m !! l = Some (Holding c) ∧
        Track m l = Some m' ∧ (c ∉ open_conns m') ∧ loops m' !! l = Some Returned)) ∧
  (∀ socks http m', fresh_bind m socks http = true → Start m socks http = (false, m') → m' = m).
Proof.
  intros Hrun. pose proof (entry_run_inv es _ m new_manager_inv Hrun) as Hi.
  split; [|intros ? ? ?; by apply failed_start_unchanged].
  intros Hc. destruct (e_closed _ Hi Hc) as [Hl Hcs].
  assert (open_listeners m = ∅) as Ho by (pose proof (e_listeners _ Hi); set_solver).
  split_and!; [done|done|..].
  - intros l c. unfold AcceptConn. destruct (loops m !! l) as [[]|], (handlers m !! c); try done.
    rewrite bool_decide_eq_false_2; [done|]. rewrite Ho. set_solver.
  - intros socks http. unfold Start. by rewrite Hc.
  - intros c Hin. destruct (e_conns _ Hi c Hin) as [[l Hh]|[Hin' _]]; [|set_solver].
    eexists l, _. split; [done|]. unfold Track. rewrite Hh, Hc. split; [reflexivity|]. cbn.
    split; [set_solver|apply lookup_insert_eq].
Qed.

(** ** Witness *)

Module Demo.

(** Two connections, one tracked and one in hand when [Stop] runs. *)
Definition session : list event :=
  [EStart (Bound 1) (Bound 2); EAcceptConn 1 7; ETrack 1; EAcceptConn 2 8; EStop].

Definition after : Manager := default NewManager (run session NewManager).

Lemma stop_leaves_nothing_open_witness :
  open_listeners after = ∅ ∧ ∃ l m', Track after l = Some m' ∧ 8%nat ∉ open_conns m'.
Proof.
  destruct (stop_leaves_nothing_open session after) as [H _]; [vm_compute; reflexivity|].
  destruct H as (Hl & _ & _ & _ & Hc); [vm_compute; reflexivity|]. split; [exact Hl|].
  destruct (Hc 8%nat) as (l & m' & _ & Ht & Hn & _); [apply (bool_decide_eq_true_1 _); vm_compute; reflexivity|].
  exists l, m'. split; [exact Ht|exact Hn].
Defined.

End Demo.
