(* ===== verification/GoUrl.v ===== *)
(** * net/url

    The part of the URL library the client uses: [Parse], [URL.String],
    [Hostname], [Port], [Query] and [Values.Encode], on lists of bytes.  The slices
    that the library takes are cut where a byte was found, so that no index is out
    of range. *)

From S2P Require Import Prelude GoIP GoText GoNet GoHttp.

Inductive encoding :=
  | encodePath | encodeHost | encodeZone | encodeUserPassword | encodeQueryComponent | encodeFragment.

#[export] Instance encoding_eq_dec : EqDecision encoding.
Proof. solve_decision. Defined.

Definition mem (c : ascii) (l : text) : bool := existsb (Ascii.eqb c) l.

Definition letter (c : ascii) : bool :=
  ((97 <=? code c) && (code c <=? 122)) || ((65 <=? code c) && (code c <=? 90)).
Definition alnum (c : ascii) : bool := letter c || is_digit c.

Definition sub_delims : text := bytes "!$&'()*+,;=:[]<>" ++ [byte 34].

Definition shouldEscape (c : ascii) (mode : encoding) : bool :=
  if alnum c then false
  else if (bool_decide (mode = encodeHost) || bool_decide (mode = encodeZone)) && mem c sub_delims then false
  else if mem c (bytes "-_.~") then false
  else if mem c (bytes "$&+,/:;=?@") then
    match mode with
    | encodePath => mem c (bytes "?")
    | encodeUserPassword => mem c (bytes "@/?:")
    | encodeQueryComponent => true
    | encodeFragment => false
    | _ => true
    end
  else if bool_decide (mode = encodeFragment) && mem c (bytes "!()*") then false
  else true.

Definition upperhex (d : Z) : ascii := byte (if d <? 10 then 48 + d else 55 + d).

Definition escape_byte (mode : encoding) (c : ascii) : text :=
  if bool_decide (mode = encodeQueryComponent) && Ascii.eqb c " " then ["+"%char]
  else if shouldEscape c mode then ["%"%char; upperhex (code c / 16); upperhex (code c mod 16)]
  else [c].

Definition escape (mode : encoding) (l : text) : text := flat_map (escape_byte mode) l.

(** Whether the escape sequence of the byte [v] may stand in a component. *)
Definition escapable (mode : encoding) (v : Z) : bool :=
  match mode with
  | encodeHost => (128 <=? v) || (v =? 37)
  | encodeZone => (v =? 37) || (v =? 32) || negb (shouldEscape (byte v) encodeHost)
  | _ => true
  end.

(** Whether a byte may stand for itself. *)
Definition literal_ok (mode : encoding) (c : ascii) : bool :=
  negb ((bool_decide (mode = encodeHost) || bool_decide (mode = encodeZone)) &&
        (code c <? 128) && shouldEscape c mode).

Fixpoint unescape (mode : encoding) (l : text) : option text :=
  match l with
  | [] => Some []
  | c :: l =>
      if Ascii.eqb c "%" then
        match l with
        | a :: b :: l =>
            match fromHexChar a, fromHexChar b with
            | Some x, Some y =>
                if escapable mode (16 * x + y)
                then rest ← unescape mode l; Some (byte (16 * x + y) :: rest)
                else None
            | _, _ => None
            end
        | _ => None
        end
      else if bool_decide (mode = encodeQueryComponent) && Ascii.eqb c "+"
      then rest ← unescape mode l; Some (" "%char :: rest)
      else if literal_ok mode c then rest ← unescape mode l; Some (c :: rest)
      else None
  end.

(** The parts before and after the last occurrence of a byte. *)
Definition cut_last (l : text) (c : ascii) : option (text * text) :=
  let i := LastIndexByte l c in
  if i <? 0 then None else Some (take (Z.to_nat i) l, drop (S (Z.to_nat i)) l).

Record URL := mkURL {
  Scheme : text;
  Opaque : text;
  User : option (text * option text);
  Host : text;
  Path : text;
  RawQuery : text;
  Fragment : text
}.

#[export] Instance eta_URL : Eta URL := fun u =>
  mkURL (Scheme u) (Opaque u) (User u) (Host u) (Path u) (RawQuery u) (Fragment u).

(** ** Parsing *)

Inductive scheme_result := NoScheme | BadScheme | SchemeIs (s rest : text).

Definition scheme_char (c : ascii) (r : scheme_result) : scheme_result :=
  match r with SchemeIs s rest => SchemeIs (c :: s) rest | r => r end.

Fixpoint getScheme (first : bool) (l : text) : scheme_result :=
  match l with
  | [] => NoScheme
  | c :: l =>
      if letter c then scheme_char c (getScheme false l)
      else if is_digit c || mem c (bytes "+-.") then
        if first then NoScheme else scheme_char c (getScheme false l)
      else if Ascii.eqb c ":" then if first then BadScheme else SchemeIs [] l
      else NoScheme
  end.

Definition validOptionalPort (port : text) : bool :=
  match port with
  | [] => true
  | c :: l => Ascii.eqb c ":" && forallb is_digit l
  end.

Definition validUserinfo (l : text) : bool :=
  forallb (λ c, alnum c || mem c (bytes "-._:~!$&'()*+,;=%@")) l.

(** An address in brackets is IPv6, maybe with a zone. *)
Definition bracketed_ok (h : text) : bool :=
  let '(a, zone_ok) := match cut_at h "%" with Some (a, z) => (a, negb (bool_decide (z = []))) | None => (h, true) end in
  zone_ok && mem ":" a && match ParseIP a with Some _ => true | None => false end.

(** The position of the escaped percent sign before a zone. *)
Fixpoint cut_zone (l : text) : option (text * text) :=
  match l with
  | [] => None
  | c :: r =>
      match after_prefix (bytes "%25") l with
      | Some _ => Some ([], l)
      | None => '(a, b) ← cut_zone r; Some (c :: a, b)
      end
  end.

Definition unescape_bracketed (h : text) : option text :=
  match cut_zone h with
  | Some (a, z) => a ← unescape encodeHost a; z ← unescape encodeZone z; Some (a ++ z)
  | None => unescape encodeHost h
  end.

Definition parseHost (host : text) : option text :=
  if mem "[" host then
    match host with
    | c :: l =>
        if Ascii.eqb c "[" then
          '(h, colonPort) ← cut_last l "]";
          if negb (validOptionalPort colonPort) then None
          else
            p ← unescape encodeHost colonPort;
            h ← unescape_bracketed h;
            if bracketed_ok h then Some ("["%char :: h ++ "]"%char :: p) else None
        else None
    | [] => None
    end
  else
    match cut_at host ":" with
    | Some (_, p) => if forallb is_digit p then unescape encodeHost host else None
    | None => unescape encodeHost host
    end.

Definition parseUserinfo (u : text) : option (text * option text) :=
  if negb (validUserinfo u) then None
  else
    match cut_at u ":" with
    | Some (name, pw) =>
        name ← unescape encodeUserPassword name;
        pw ← unescape encodeUserPassword pw;
        Some (name, Some pw)
    | None => name ← unescape encodeUserPassword u; Some (name, None)
    end.

Definition parseAuthority (authority : text) : option (option (text * option text) * text) :=
  match cut_last authority "@" with
  | Some (userinfo, host) =>
      host ← parseHost host;
      user ← parseUserinfo userinfo;
      Some (Some user, host)
  | None => host ← parseHost authority; Some (None, host)
  end.

(** The part up to a byte, and the rest from that byte on. *)
Definition until (l : text) (c : ascii) : text * text :=
  match cut_at l c with Some (a, b) => (a, c :: b) | None => (l, []) end.

(** After the scheme and the query were taken off. *)
Definition parse_rest (scheme rawQuery rest : text) : option URL :=
  match rest with
  | "/"%char :: r =>
      '(user, host, path) ←
        (match r with
         | "/"%char :: r2 =>
             if negb (bool_decide (scheme = [])) || negb (HasPrefix (of_bytes r2) "/") then
               let '(authority, path) := until r2 "/" in
               '(user, host) ← parseAuthority authority; Some (user, host, path)
             else Some (None, [], rest)
         | _ => Some (None, [], rest)
         end);
      path ← unescape encodePath path;
      Some (mkURL scheme [] user host path rawQuery [])
  | _ =>
      if negb (bool_decide (scheme = [])) then Some (mkURL scheme rest None [] [] rawQuery [])
      else if mem ":" (until rest "/").1 then None
      else path ← unescape encodePath rest; Some (mkURL [] [] None [] path rawQuery [])
  end.

Definition is_ctl (c : ascii) : bool := (code c <? 32) || (code c =? 127).

Definition cut_query (rest : text) : text * text :=
  match cut_at rest "?" with Some (a, q) => (a, q) | None => (rest, []) end.

Definition parse (rawURL : text) : option URL :=
  if existsb is_ctl rawURL then None
  else
    match getScheme true rawURL with
    | BadScheme => None
    | NoScheme => let '(rest, q) := cut_query rawURL in parse_rest [] q rest
    | SchemeIs s r => let '(rest, q) := cut_query r in parse_rest (map lower s) q rest
    end.

Definition url_Parse (rawURL : text) : option URL :=
  match cut_at rawURL "#" with
  | None => parse rawURL
  | Some (u, frag) =>
      url ← parse u;
      f ← unescape encodeFragment frag;
      Some (url <| Fragment := f |>)
  end.

Definition splitHostPort (hostPort : text) : text * text :=
  let '(host, port) :=
    match cut_last hostPort ":" with
    | Some (h, p) => if forallb is_digit p then (h, p) else (hostPort, [])
    | None => (hostPort, [])
    end in
  match host with
  | "["%char :: l =>
      match cut_last l "]" with
      | Some (h, []) => (h, port)
      | _ => (host, port)
      end
  | _ => (host, port)
  end.

Definition Hostname (u : URL) : text := (splitHostPort (Host u)).1.
Definition Port (u : URL) : text := (splitHostPort (Host u)).2.

(** ** Rendering *)

Definition Userinfo_String (u : text * option text) : text :=
  escape encodeUserPassword u.1 ++
  match u.2 with Some pw => ":"%char :: escape encodeUserPassword pw | None => [] end.

(** [URL.String] of a URL with an empty path. *)
Definition URL_String (u : URL) : text :=
  (if bool_decide (Scheme u = []) then [] else Scheme u ++ [":"%char]) ++
  (if negb (bool_decide (Opaque u = [])) then Opaque u
   else
     (if bool_decide (Host u = []) && bool_decide (User u = None) then []
      else bytes "//" ++
        (match User u with Some ui => Userinfo_String ui ++ ["@"%char] | None => [] end) ++
        escape encodeHost (Host u))) ++
  (if bool_decide (RawQuery u = []) then [] else "?"%char :: RawQuery u) ++
  (if bool_decide (Fragment u = []) then [] else "#"%char :: escape encodeFragment (Fragment u)).

(** ** Queries *)

(** A map with its keys in increasing order. *)
Abbreviation Values := (list (text * list text)).

Definition text_ltb (k k' : text) : bool :=
  match String.compare (of_bytes k) (of_bytes k') with Lt => true | _ => false end.

Fixpoint values_update (f : list text → list text) (m : Values) (k : text) : Values :=
  match m with
  | [] => [(k, f [])]
  | (k', vs) :: m' =>
      if bool_decide (k = k') then (k, f vs) :: m'
      else if text_ltb k k' then (k, f []) :: m
      else (k', vs) :: values_update f m' k
  end.

Definition values_Set (m : Values) (k v : text) : Values := values_update (λ _, [v]) m k.
Definition values_Add (m : Values) (k v : text) : Values := values_update (λ vs, vs ++ [v]) m k.

Definition values_Get (m : Values) (k : text) : text :=
  match list_find (λ e, e.1 = k) m with
  | Some (_, (_, v :: _)) => v
  | _ => []
  end.

(** The parts of [l] between occurrences of [c]. *)
Fixpoint split_all (l : text) (c : ascii) : list text :=
  match l with
  | [] => [[]]
  | x :: l =>
      if Ascii.eqb x c then [] :: split_all l c
      else match split_all l c with w :: ws => (x :: w) :: ws | [] => [[x]] end
  end.

(** One setting of a query; a malformed one is skipped. *)
Definition parse_pair (m : Values) (kv : text) : Values :=
  if mem ";" kv || bool_decide (kv = []) then m
  else
    let '(k, v) := match cut_at kv "=" with Some kv => kv | None => (kv, []) end in
    match unescape encodeQueryComponent k, unescape encodeQueryComponent v with
    | Some k, Some v => values_Add m k v
    | _, _ => m
    end.

Definition ParseQuery (query : text) : Values := foldl parse_pair [] (split_all query "&").

Definition encode_pair (k v : text) : text :=
  escape encodeQueryComponent k ++ "="%char :: escape encodeQueryComponent v.

Definition Encode (m : Values) : text :=
  match flat_map (λ e, map (encode_pair e.1) e.2) m with
  | [] => []
  | p :: ps => p ++ flat_map (λ q, "&"%char :: q) ps
  end.

Example parse_example :
  (λ u, (Hostname u, Port u, User u)) <$> url_Parse (bytes "naivereal://u%40x:p%3Aa%25ss@[2001:db8::1]:8443?a=b#IPv6%20node") =
  Some (bytes "2001:db8::1", bytes "8443", Some (bytes "u@x", Some (bytes "p:a%ss"))).
Proof. vm_compute. reflexivity. Qed.

Example string_example :
  URL_String (mkURL (bytes "http") [] (Some (bytes "a b", Some [])) (bytes "host:80") [] (bytes "x=1") (bytes "n@1")) =
  bytes "http://a%20b:@host:80?x=1#n@1".
Proof. vm_compute. reflexivity. Qed.

Example query_example :
  ParseQuery (Encode (values_Set (values_Set [] (bytes "b") (bytes "1 &=")) (bytes "a") [])) =
  [(bytes "a", [[]]); (bytes "b", [bytes "1 &="])].
Proof. vm_compute. reflexivity. Qed.
