(* ===== verification/GoUrlFacts.v ===== *)
(** * Facts about URLs

    Escaping followed by unescaping is the identity, an escaped text has no
    delimiters, and what [URL_String] renders, [url_Parse] takes apart. *)

From S2P Require Import Prelude GoIP GoText GoNet GoNetFacts GoHttp GoUrl.

(** ** Bytes *)

Lemma eqb_false (c d : ascii) : c ≠ d → Ascii.eqb c d = false.
Proof. by apply Ascii.eqb_neq. Qed.

Lemma mem_spec c l : mem c l = true ↔ c ∈ l.
Proof.
  unfold mem. rewrite existsb_exists, list_elem_of_In. split; [|intros; exists c; split; [done|by apply Ascii.eqb_refl]].
  intros (x & Hx & ->%Ascii.eqb_eq). done.
Qed.

Lemma mem_false c l : c ∉ l → mem c l = false.
Proof. intros H. destruct (mem c l) eqn:E; [|done]. by apply mem_spec in E. Qed.

(** A test on all bytes. *)
Lemma all_bytes (P : ascii → bool) :
  forallb (λ n, P (ascii_of_nat n)) (seq 0 256) = true → ∀ c, P c = true.
Proof.
  intros H c. rewrite forallb_forall in H. specialize (H (nat_of_ascii c)).
  rewrite ascii_nat_embedding in H. apply H. rewrite in_seq. pose proof (nat_ascii_bounded c). lia.
Qed.

Lemma upperhex_value d : 0 <= d < 16 → fromHexChar (upperhex d) = Some d ∧ alnum (upperhex d) = true.
Proof.
  intros Hd. rewrite <- (Z2Nat.id d) by lia. assert (Z.to_nat d < 16)%nat as Hn by lia.
  revert Hn. generalize (Z.to_nat d). clear. intros n Hn.
  do 16 (destruct n as [|n]; [by vm_compute|]). lia.
Qed.

Lemma alnum_literal c mode : alnum c = true → shouldEscape c mode = false.
Proof. unfold shouldEscape. by intros ->. Qed.

(** ** Escaping *)

Lemma escape_app mode l k : escape mode (l ++ k) = escape mode l ++ escape mode k.
Proof. apply flat_map_app. Qed.

Lemma escape_literal mode l :
  Forall (λ c, shouldEscape c mode = false ∧ c ≠ " "%char) l → escape mode l = l.
Proof.
  induction 1 as [|c l [Hc Hs] _ IH]; [done|]. unfold escape in *. cbn [flat_map].
  rewrite IH. unfold escape_byte. by rewrite Hc, (eqb_false c " ") by done; rewrite andb_false_r.
Qed.

(** The bytes that survive a round trip. *)
Definition byte_safe (mode : encoding) (c : ascii) : Prop :=
  shouldEscape c mode = false ∨ escapable mode (code c) = true.

Lemma percent_escaped mode : shouldEscape "%" mode = true.
Proof. by destruct mode. Qed.

Lemma unescape_escape_byte mode c r :
  byte_safe mode c → unescape mode (escape_byte mode c ++ r) = (rest ← unescape mode r; Some (c :: rest)).
Proof.
  intros Hc. unfold escape_byte.
  destruct (bool_decide (mode = encodeQueryComponent) && Ascii.eqb c " ") eqn:Hq.
  { apply andb_true_iff in Hq as [Hm%bool_decide_eq_true ->%Ascii.eqb_eq]. by subst mode. }
  destruct (shouldEscape c mode) eqn:He.
  - destruct Hc as [?|Hc]; [congruence|]. pose proof (code_range c) as Hr.
    assert (0 <= code c / 16 < 16) as Hh by (split; [apply Z.div_pos|apply Z.div_lt_upper_bound]; lia).
    assert (0 <= code c mod 16 < 16) as Hl by (apply Z.mod_pos_bound; lia).
    cbn [app unescape]. rewrite Ascii.eqb_refl.
    rewrite (proj1 (upperhex_value _ Hh)), (proj1 (upperhex_value _ Hl)), <- Z.div_mod, byte_code, Hc by lia. done.
  - cbn [app unescape]. rewrite (eqb_false c "%") by (intros ->; by rewrite percent_escaped in He).
    destruct (bool_decide (mode = encodeQueryComponent) && Ascii.eqb c "+") eqn:Hp.
    { apply andb_true_iff in Hp as [Hm%bool_decide_eq_true ->%Ascii.eqb_eq]. by subst mode. }
    unfold literal_ok. rewrite He, andb_false_r. done.
Qed.

Lemma unescape_escape mode l : Forall (byte_safe mode) l → unescape mode (escape mode l) = Some l.
Proof.
  induction 1 as [|c l Hc _ IH]; [done|]. unfold escape in *. cbn [flat_map].
  by rewrite unescape_escape_byte, IH.
Qed.

Lemma free_text mode l : mode ≠ encodeHost → mode ≠ encodeZone → Forall (byte_safe mode) l.
Proof. intros Hh Hz. apply Forall_forall. intros c _. right. by destruct mode. Qed.

(** The characters of an escaped text. *)
Lemma escape_elem mode l d :
  d ∈ escape mode l →
  shouldEscape d mode = false ∨ d = "%"%char ∨ (mode = encodeQueryComponent ∧ d = "+"%char).
Proof.
  unfold escape. rewrite list_elem_of_In, in_flat_map. intros (c & _ & Hd). unfold escape_byte in Hd.
  destruct (bool_decide (mode = encodeQueryComponent) && Ascii.eqb c " ") eqn:Hq.
  { apply andb_true_iff in Hq as [Hm%bool_decide_eq_true _]. destruct Hd as [<-|[]]. by right; right. }
  destruct (shouldEscape c mode) eqn:He; [|by destruct Hd as [<-|[]]; left].
  pose proof (code_range c) as Hr.
  assert (0 <= code c / 16 < 16) by (split; [apply Z.div_pos|apply Z.div_lt_upper_bound]; lia).
  assert (0 <= code c mod 16 < 16) by (apply Z.mod_pos_bound; lia).
  destruct Hd as [<-|[<-|[<-|[]]]]; [by right; left| |]; left; apply alnum_literal; by apply upperhex_value.
Qed.

(** A delimiter of a component does not occur in its escaped text. *)
Definition delimiter (mode : encoding) (d : ascii) : bool :=
  shouldEscape d mode && negb (Ascii.eqb d "%") &&
  negb (bool_decide (mode = encodeQueryComponent) && Ascii.eqb d "+").

Lemma escape_absent mode l d : delimiter mode d = true → d ∉ escape mode l.
Proof.
  unfold delimiter. rewrite !andb_true_iff, !negb_true_iff. intros [[He Hp] Hq] [?|[->|[-> ->]]]%escape_elem.
  - congruence.
  - by rewrite Ascii.eqb_refl in Hp.
  - done.
Qed.

(** ** Printable text *)

Definition printable (c : ascii) : bool := (33 <=? code c) && (code c <=? 126).

Lemma literal_printable mode c : shouldEscape c mode = false → printable c = true.
Proof.
  intros H. assert (shouldEscape c mode || printable c = true) as Hp; [|by rewrite H in Hp].
  revert c H. refine (λ c _, all_bytes (λ c, shouldEscape c mode || printable c) _ c).
  by destruct mode; vm_compute.
Qed.

Lemma escape_printable mode l : forallb printable (escape mode l) = true.
Proof.
  apply forallb_forall. intros d Hd%list_elem_of_In. apply escape_elem in Hd as [?%literal_printable|[->|[_ ->]]]; done.
Qed.

Lemma printable_no_ctl l : forallb printable l = true → existsb is_ctl l = false.
Proof.
  rewrite forallb_forall. intros H. apply not_true_is_false. rewrite existsb_exists.
  intros (c & Hc & Hctl). specialize (H c Hc). unfold printable, is_ctl in *. lia.
Qed.

Lemma digits_printable l : forallb is_digit l = true → forallb printable l = true.
Proof. rewrite !forallb_forall. intros H c Hc. specialize (H c Hc). unfold is_digit, printable in *. lia. Qed.

(** No white space to trim. *)
Lemma drop_one_none encs c l :
  Forall (λ e, match e with x :: _ => x ≠ c | [] => False end) encs → drop_one encs (c :: l) = None.
Proof.
  induction 1 as [|e encs He _ IH]; [done|]. cbn [drop_one]. destruct e as [|x e]; [done|].
  cbn [after_prefix]. by rewrite bool_decide_eq_false_2.
Qed.

Lemma trim_front_printable encs n l :
  Forall (λ e, match e with x :: _ => printable x = false | [] => False end) encs →
  forallb printable l = true → trim_front n encs l = l.
Proof.
  intros He Hl. destruct n; [done|]. cbn [trim_front]. destruct l as [|c l]; [|rewrite drop_one_none; [done|]].
  - assert (drop_one encs [] = None) as ->; [|done].
    induction He as [|e encs' He' _ IH]; [done|]. destruct e; [done|]. cbn. apply IH.
  - cbn in Hl. apply andb_true_iff in Hl as [Hc _]. eapply Forall_impl; [exact He|].
    intros [|x e]; [done|]. cbn. intros Hx ->. congruence.
Qed.

Lemma TrimSpace_printable l : forallb printable l = true → TrimSpace (of_bytes l) = of_bytes l.
Proof.
  intros Hl. unfold TrimSpace. rewrite bytes_of_bytes. unfold trim_left, trim_right.
  rewrite (trim_front_printable space_encodings); [|by repeat constructor|done].
  rewrite trim_front_printable; [by rewrite reverse_involutive| |].
  - by repeat constructor.
  - rewrite forallb_forall in *. intros c Hc. apply Hl. apply list_elem_of_In, elem_of_reverse.
    by apply list_elem_of_In.
Qed.

(** ** Hosts *)

(** A registered name: bytes that may stand in a host, without the colon of a port
    or the brackets of an address. *)
Definition regname (h : text) : Prop :=
  h ≠ [] ∧ Forall (byte_safe encodeHost) h ∧ plain h ∧ ":"%char ∉ h.

(** An IPv6 address as it is written. *)
Definition ipv6_char (c : ascii) : bool := is_digit c || mem c (bytes "abcdefABCDEF:.").
Definition ipv6 (h : text) : Prop := ":"%char ∈ h ∧ is_Some (ParseIP h) ∧ forallb ipv6_char h = true.

Lemma ipv6_literal h mode : mode = encodeHost → forallb ipv6_char h = true →
  escape mode h = h ∧ Forall (byte_safe mode) h ∧ plain h ∧ ("%"%char ∉ h).
Proof.
  intros -> H. rewrite forallb_forall in H.
  assert (∀ c, ipv6_char c = true → shouldEscape c encodeHost = false ∧ c ≠ " "%char ∧
    c ≠ "["%char ∧ c ≠ "]"%char ∧ c ≠ "%"%char) as Hall.
  { intros c Hc.
    assert (negb (ipv6_char c) || (negb (shouldEscape c encodeHost) && negb (Ascii.eqb c " ") &&
      negb (Ascii.eqb c "[") && negb (Ascii.eqb c "]") && negb (Ascii.eqb c "%")) = true) as Hb.
    { revert c Hc. refine (λ c _, all_bytes (λ c, negb (ipv6_char c) || (negb (shouldEscape c encodeHost) &&
        negb (Ascii.eqb c " ") && negb (Ascii.eqb c "[") && negb (Ascii.eqb c "]") && negb (Ascii.eqb c "%"))) _ c).
      by vm_compute. }
    rewrite Hc in Hb. cbn [negb orb] in Hb. rewrite !andb_true_iff, !negb_true_iff, !Ascii.eqb_neq in Hb. tauto. }
  split_and!.
  - apply escape_literal, Forall_forall. intros c Hc%list_elem_of_In. specialize (Hall c (H c Hc)). tauto.
  - apply Forall_forall. intros c Hc%list_elem_of_In. left. by apply Hall, H.
  - split; intros Hc%list_elem_of_In; by destruct (Hall _ (H _ Hc)) as (_ & _ & ? & ? & _).
  - intros Hc%list_elem_of_In. by destruct (Hall _ (H _ Hc)) as (_ & _ & _ & _ & ?).
Qed.

(** A port, with its colon, or nothing. *)
Definition port_part (p : text) : Prop := p = [] ∨ ∃ ds, p = ":"%char :: ds ∧ forallb is_digit ds = true.

Lemma digits_literal mode ds : forallb is_digit ds = true →
  Forall (λ c, shouldEscape c mode = false ∧ c ≠ " "%char) ds.
Proof.
  rewrite forallb_forall. intros H. apply Forall_forall. intros c Hc%list_elem_of_In. specialize (H c Hc). split.
  - apply alnum_literal. unfold alnum. by rewrite H, orb_true_r.
  - intros ->. done.
Qed.

Lemma port_part_literal p : port_part p →
  escape encodeHost p = p ∧ Forall (byte_safe encodeHost) p ∧ plain p ∧ validOptionalPort p = true.
Proof.
  intros [->|(ds & -> & Hd)]; [by split_and!; try done; split; apply not_elem_of_nil|].
  pose proof (digits_literal encodeHost ds Hd) as Hl. split_and!.
  - apply escape_literal. by constructor.
  - constructor; [by left|]. eapply Forall_impl; [exact Hl|]. by intros c [? _]; left.
  - split; apply not_elem_of_cons; (split; [done|]); by apply digits_no_char.
  - cbn. done.
Qed.

Lemma host_absent h c : delimiter encodeHost c = true → c ∉ escape encodeHost h.
Proof. apply escape_absent. Qed.

(** A host with its port comes back from its escaped form. *)
Definition host_ok (h : text) : Prop := regname h ∨ ∃ a, h = "["%char :: a ++ ["]"%char] ∧ ipv6 a.

Lemma escape_not_elem h c : c ∉ h → c ≠ "%"%char → alnum c = false → c ∉ escape encodeHost h.
Proof.
  intros Hc Hp Ha Hin. unfold escape in Hin. apply list_elem_of_In, in_flat_map in Hin as (d & Hd & Hin).
  unfold escape_byte in Hin. cbn [bool_decide andb] in Hin. rewrite bool_decide_eq_false_2 in Hin by done. cbn [andb] in Hin.
  destruct (shouldEscape d encodeHost); [|destruct Hin as [<-|[]]; by apply Hc, list_elem_of_In].
  pose proof (code_range d) as Hr.
  assert (0 <= code d / 16 < 16) as Hh by (split; [apply Z.div_pos|apply Z.div_lt_upper_bound]; lia).
  assert (0 <= code d mod 16 < 16) as Hl by (apply Z.mod_pos_bound; lia).
  destruct Hin as [<-|[<-|[<-|[]]]]; [done| |].
  - by rewrite (proj2 (upperhex_value _ Hh)) in Ha.
  - by rewrite (proj2 (upperhex_value _ Hl)) in Ha.
Qed.

Lemma parseHost_regname h p : regname h → port_part p → parseHost (escape encodeHost (h ++ p)) = Some (h ++ p).
Proof.
  intros (Hne & Hsafe & [Hb1 Hb2] & Hc) Hp. pose proof (port_part_literal p Hp) as (Hep & Hps & [Hp1 Hp2] & Hv).
  unfold parseHost. rewrite mem_false.
  2: { rewrite escape_app, Hep, not_elem_of_app. split; [by apply escape_not_elem|done]. }
  assert (unescape encodeHost (escape encodeHost (h ++ p)) = Some (h ++ p)) as Hu
    by (apply unescape_escape; by apply Forall_app).
  rewrite Hu. rewrite escape_app, Hep.
  assert (":"%char ∉ escape encodeHost h) as Hn by by apply escape_not_elem.
  destruct Hp as [->|(ds & -> & Hd)]; [by rewrite app_nil_r, cut_at_absent|by rewrite cut_at_app, Hd].
Qed.

Lemma cut_last_app l k c : c ∉ k → cut_last (l ++ c :: k) c = Some (l, k).
Proof.
  intros Hk. unfold cut_last. rewrite LastIndexByte_app by done. pose proof (len_nonneg l).
  destruct (Z.ltb_spec (len l) 0); [lia|]. unfold len. rewrite Nat2Z.id.
  rewrite take_app_length. rewrite <- Nat.add_1_r, drop_app_add. done.
Qed.

Lemma cut_last_absent l c : c ∉ l → cut_last l c = None.
Proof. intros H. unfold cut_last. by rewrite LastIndexByte_absent. Qed.

Lemma cut_zone_none a : "%"%char ∉ a → cut_zone a = None.
Proof.
  induction a as [|c a IH]; intros Hn; [done|]. apply not_elem_of_cons in Hn as [Hc Hn].
  cbn [cut_zone]. assert (after_prefix (bytes "%25") (c :: a) = None) as ->; [|by rewrite IH].
  cbn. by rewrite bool_decide_eq_false_2.
Qed.

Lemma parseHost_ipv6 a p : ipv6 a → port_part p →
  parseHost (escape encodeHost ("["%char :: a ++ "]"%char :: p)) = Some ("["%char :: a ++ "]"%char :: p).
Proof.
  intros (Hcolon & [ip Hip] & Hch) Hp. pose proof (port_part_literal p Hp) as (Hep & Hps & [Hp1 Hp2] & Hv).
  pose proof (ipv6_literal a encodeHost eq_refl Hch) as (Hea & Has & _ & Hperc).
  assert (escape encodeHost ("["%char :: a ++ "]"%char :: p) = "["%char :: a ++ "]"%char :: p) as ->.
  { change ("["%char :: a ++ "]"%char :: p) with (["["%char] ++ a ++ ["]"%char] ++ p).
    by rewrite !escape_app, Hea, Hep. }
  unfold parseHost. rewrite (proj2 (mem_spec _ _)) by by left.
  change (Ascii.eqb "[" "[") with true. cbn match. rewrite cut_last_app by done. cbn [mbind option_bind].
  rewrite Hv. cbn [negb]. rewrite <- Hep at 1. rewrite (unescape_escape encodeHost p Hps). cbn [mbind option_bind].
  unfold unescape_bracketed. rewrite cut_zone_none by done. rewrite <- Hea at 1.
  rewrite (unescape_escape encodeHost a Has). cbn [mbind option_bind].
  unfold bracketed_ok. rewrite cut_at_absent by done. cbn [andb].
  rewrite (proj2 (mem_spec _ _) Hcolon), Hip. done.
Qed.

Lemma digits_no_bracket ds : forallb is_digit ds = true → "]"%char ∉ ds.
Proof. intros Hd. by apply digits_no_char. Qed.

Lemma splitHostPort_regname h ds : regname h → forallb is_digit ds = true →
  splitHostPort (h ++ ":"%char :: ds) = (h, ds) ∧ splitHostPort h = (h, []).
Proof.
  intros (Hne & _ & [Hb _] & Hc) Hd. unfold splitHostPort.
  rewrite cut_last_app, cut_last_absent, Hd by (done || by apply digits_no_char).
  destruct h as [|x h]; [done|]. apply not_elem_of_cons in Hb as [Hx _].
  destruct (decide (x = "["%char)) as [->|Hne']; [done|].
  clear -Hne'. destruct x as [[] [] [] [] [] [] [] []]; try done.
Qed.

Lemma splitHostPort_ipv6 a ds : ipv6 a → forallb is_digit ds = true →
  splitHostPort ("["%char :: a ++ "]"%char :: ":"%char :: ds) = (a, ds) ∧
  splitHostPort ("["%char :: a ++ ["]"%char]) = (a, []).
Proof.
  intros (Hcolon & _ & Hch) Hd. pose proof (ipv6_literal a encodeHost eq_refl Hch) as (_ & _ & [_ Hb] & _).
  assert (cut_last (a ++ ["]"%char]) "]" = Some (a, [])) as Hcut by by (apply cut_last_app, not_elem_of_nil).
  unfold splitHostPort. split.
  - change ("["%char :: a ++ "]"%char :: ":"%char :: ds) with (("["%char :: a) ++ ["]"%char] ++ ":"%char :: ds).
    rewrite app_assoc, cut_last_app by by apply digits_no_char. by rewrite Hd; cbn [app]; rewrite Hcut.
  - apply list_elem_of_split_r in Hcolon as (a1 & a2 & -> & Hn).
    assert ("["%char :: (a1 ++ ":"%char :: a2) ++ ["]"%char] =
      ("["%char :: a1) ++ ":"%char :: (a2 ++ ["]"%char])) as Hl by by rewrite <- app_assoc.
    rewrite Hl.
    rewrite cut_last_app by (by rewrite not_elem_of_app, list_elem_of_singleton; split; [|done]).
    assert (forallb is_digit (a2 ++ ["]"%char]) = false) as ->; [by rewrite forallb_app, andb_false_r|].
    rewrite <- Hl. by rewrite Hcut.
Qed.

(** ** Whole URLs *)

Definition good_scheme (s : text) : Prop := s ∈ map bytes ["naivereal"; "naive+https"; "http"; "https"].

Lemma good_scheme_facts s r : good_scheme s →
  getScheme true (s ++ ":"%char :: r) = SchemeIs s r ∧ map lower s = s ∧ s ≠ [] ∧
  ("#"%char ∉ s) ∧ forallb printable s = true.
Proof.
  unfold good_scheme. cbn [map]. rewrite !elem_of_cons, elem_of_nil.
  intros [->|[->|[->|[->|[]]]]]; (split_and!; [reflexivity|reflexivity|done| |reflexivity]);
    apply (bool_decide_eq_true_1 _); vm_compute; reflexivity.
Qed.

Definition user_part (u : option (text * option text)) : text :=
  match u with Some ui => Userinfo_String ui ++ ["@"%char] | None => [] end.
Definition authority (u : URL) : text := user_part (User u) ++ escape encodeHost (Host u).

(** Credentials as [url.UserPassword] makes them. *)
Definition user_ok (u : option (text * option text)) : Prop :=
  match u with Some (_, None) => False | _ => True end.

Lemma parseUserinfo_String n pw : parseUserinfo (Userinfo_String (n, Some pw)) = Some (n, Some pw).
Proof.
  unfold parseUserinfo, Userinfo_String. cbn [fst snd].
  assert (validUserinfo (escape encodeUserPassword n ++ ":"%char :: escape encodeUserPassword pw) = true) as ->.
  { assert (∀ l, forallb (λ c, alnum c || mem c (bytes "-._:~!$&'()*+,;=%@")) (escape encodeUserPassword l) = true) as Hv.
    { intros l. apply forallb_forall. intros c [He|[->|[? _]]]%list_elem_of_In%escape_elem; [|done|done].
      assert (shouldEscape c encodeUserPassword || (alnum c || mem c (bytes "-._:~!$&'()*+,;=%@")) = true) as Hc;
        [|by rewrite He in Hc].
      by apply (all_bytes (λ c, shouldEscape c encodeUserPassword || (alnum c || mem c (bytes "-._:~!$&'()*+,;=%@")))). }
    unfold validUserinfo. rewrite forallb_app. cbn [forallb]. by rewrite !Hv. }
  cbn [negb]. rewrite cut_at_app by by apply escape_absent.
  rewrite !unescape_escape by by apply free_text. done.
Qed.

Lemma authority_absent u c : user_ok (User u) →
  delimiter encodeUserPassword c = true → delimiter encodeHost c = true → c ≠ "@"%char → c ≠ ":"%char →
  c ∉ authority u.
Proof.
  intros Hu Hd Hh Ha Hc. unfold authority, user_part.
  rewrite not_elem_of_app. split; [|by apply escape_absent].
  destruct (User u) as [[n [pw|]]|]; [|done|apply not_elem_of_nil].
  unfold Userinfo_String. cbn [fst snd].
  rewrite !not_elem_of_app, not_elem_of_cons, list_elem_of_singleton.
  pose proof (escape_absent encodeUserPassword n c Hd). pose proof (escape_absent encodeUserPassword pw c Hd). tauto.
Qed.

Lemma authority_printable u : forallb printable (authority u) = true.
Proof.
  unfold authority, user_part, Userinfo_String. rewrite forallb_app, escape_printable, andb_true_r.
  destruct (User u) as [[n [pw|]]|]; [| |done]; cbn [fst snd]; rewrite !forallb_app; cbn [forallb];
    by rewrite !escape_printable.
Qed.

Lemma parseAuthority_authority u : user_ok (User u) →
  parseHost (escape encodeHost (Host u)) = Some (Host u) → parseAuthority (authority u) = Some (User u, Host u).
Proof.
  intros Hu Hh. unfold parseAuthority, authority, user_part.
  assert ("@"%char ∉ escape encodeHost (Host u)) as Ha by by apply escape_absent.
  destruct (User u) as [[n [pw|]]|]; [|done|].
  - rewrite <- app_assoc. cbn [app]. rewrite cut_last_app, Hh by done. cbn [mbind option_bind].
    by rewrite parseUserinfo_String.
  - cbn [app]. by rewrite cut_last_absent, Hh.
Qed.

Lemma query_cut (a q : text) : "?"%char ∉ a →
  cut_query (a ++ (if bool_decide (q = []) then [] else "?"%char :: q)) = (a, q).
Proof.
  intros Ha. unfold cut_query. case_bool_decide as Hq; [subst q; by rewrite app_nil_r, cut_at_absent|].
  by rewrite cut_at_app.
Qed.

(** The link of a URL: it is printable, and parses back. *)
Lemma url_Parse_String u :
  good_scheme (Scheme u) → Opaque u = [] → Path u = [] → Host u ≠ [] → user_ok (User u) →
  parseHost (escape encodeHost (Host u)) = Some (Host u) →
  forallb printable (RawQuery u) = true → "#"%char ∉ RawQuery u →
  url_Parse (URL_String u) = Some u ∧ forallb printable (URL_String u) = true.
Proof.
  intros Hs Ho Hp Hne Hu Hh Hq Hqh.
  destruct (good_scheme_facts _ [] Hs) as (_ & Hlow & Hs0 & Hsh & Hsp).
  set (Q := if bool_decide (RawQuery u = []) then [] else "?"%char :: RawQuery u).
  set (F := if bool_decide (Fragment u = []) then [] else "#"%char :: escape encodeFragment (Fragment u)).
  set (B := Scheme u ++ ":"%char :: "/"%char :: "/"%char :: authority u ++ Q).
  assert (URL_String u = B ++ F) as Hstr.
  { unfold URL_String, B. rewrite Ho, (bool_decide_eq_false_2 (Scheme u = [])) by done.
    rewrite (bool_decide_eq_true_2 ([] = [])) by done. cbn [negb].
    rewrite (bool_decide_eq_false_2 (Host u = [])) by done. cbn [andb].
    unfold authority, user_part. fold Q F. rewrite <- !app_assoc. cbn [app]. by rewrite <- !app_assoc. }
  assert (forallb printable Q = true) as HQp by (unfold Q; case_bool_decide; [done|cbn; by rewrite Hq]).
  assert (forallb printable B = true) as HBp.
  { unfold B. rewrite forallb_app, Hsp. cbn [forallb andb]. rewrite forallb_app, authority_printable, HQp. done. }
  assert (forallb printable F = true) as HFp by (unfold F; case_bool_decide; [done|cbn; by rewrite escape_printable]).
  split; [|by rewrite Hstr, forallb_app, HBp, HFp].
  assert (parse B = Some (u <| Fragment := [] |>)) as HB.
  { unfold parse. rewrite printable_no_ctl by done. unfold B.
    rewrite (proj1 (good_scheme_facts _ _ Hs)), Hlow.
    change ("/"%char :: "/"%char :: authority u ++ Q) with (("/"%char :: "/"%char :: authority u) ++ Q).
    unfold Q. rewrite query_cut.
    2: { rewrite !not_elem_of_cons. split_and!; [done|done|]. by apply authority_absent. }
    cbn [parse_rest]. rewrite (bool_decide_eq_false_2 (Scheme u = [])) by done. cbn [negb orb].
    unfold until. rewrite cut_at_absent by by apply authority_absent.
    rewrite parseAuthority_authority by done. cbn. destruct u. cbn in *. by subst. }
  rewrite Hstr. unfold url_Parse, F. case_bool_decide as Hf.
  - rewrite app_nil_r, cut_at_absent, HB; [destruct u; cbn in *; by subst|].
    unfold B. rewrite not_elem_of_app, !not_elem_of_cons, not_elem_of_app. split_and!; try done.
    + by apply authority_absent.
    + unfold Q. case_bool_decide; [apply not_elem_of_nil|by apply not_elem_of_cons].
  - rewrite cut_at_app, HB.
    2: { unfold B. rewrite not_elem_of_app, !not_elem_of_cons, not_elem_of_app. split_and!; try done.
         - by apply authority_absent.
         - unfold Q. case_bool_decide; [apply not_elem_of_nil|by apply not_elem_of_cons]. }
    cbn [mbind option_bind]. rewrite unescape_escape by by apply free_text. by destruct u.
Qed.

(** ** Queries *)

Lemma split_all_join w ws :
  Forall (λ w, "&"%char ∉ w) (w :: ws) → split_all (w ++ flat_map (λ q, "&"%char :: q) ws) "&" = w :: ws.
Proof.
  revert w. induction ws as [|v ws IH]; intros w [Hw Hws]%Forall_cons.
  - cbn [flat_map]. rewrite app_nil_r. clear Hws. induction w as [|c w IHw]; [done|].
    apply not_elem_of_cons in Hw as [Hc Hw]. cbn [split_all].
    by rewrite (eqb_false c "&"), IHw by congruence.
  - cbn [flat_map app]. assert (split_all ("&"%char :: v ++ flat_map (λ q, "&"%char :: q) ws) "&" = [] :: v :: ws) as Hsplit
      by (cbn [split_all Ascii.eqb]; by rewrite IH).
    clear IH. induction w as [|c w IHw]; [done|]. apply not_elem_of_cons in Hw as [Hc Hw].
    cbn [app split_all]. by rewrite (eqb_false c "&"), IHw by congruence.
Qed.

Lemma encode_pair_absent k v c : delimiter encodeQueryComponent c = true → c ≠ "="%char → c ∉ encode_pair k v.
Proof.
  intros Hd Hc. unfold encode_pair. rewrite not_elem_of_app, not_elem_of_cons.
  split_and!; [by apply escape_absent|done|by apply escape_absent].
Qed.

Lemma parse_encoded_pair m k v : parse_pair m (encode_pair k v) = values_Add m k v.
Proof.
  unfold parse_pair. rewrite mem_false by by apply encode_pair_absent.
  rewrite bool_decide_eq_false_2 by (unfold encode_pair; by destruct (escape encodeQueryComponent k)). cbn [orb].
  unfold encode_pair. rewrite cut_at_app by by apply escape_absent.
  by rewrite !unescape_escape by by apply free_text.
Qed.

(** The settings of a query, one after the other. *)
Definition settings (m : Values) : list (text * text) := flat_map (λ e, map (pair e.1) e.2) m.

Lemma ParseQuery_Encode m :
  ParseQuery (Encode m) = foldl (λ m kv, values_Add m kv.1 kv.2) [] (settings m).
Proof.
  unfold ParseQuery, Encode.
  assert (flat_map (λ e, map (encode_pair e.1) e.2) m = map (λ kv, encode_pair kv.1 kv.2) (settings m)) as ->.
  { unfold settings. induction m as [|e m IH]; [done|]. cbn [flat_map]. rewrite map_app, IH, map_map. done. }
  destruct (settings m) as [|kv kvs]; [done|]. cbn [map].
  rewrite split_all_join.
  2: { apply Forall_forall. intros p Hp. change (p ∈ map (λ kv, encode_pair kv.1 kv.2) (kv :: kvs)) in Hp.
       apply list_elem_of_In, in_map_iff in Hp as (x & <- & _). by apply encode_pair_absent. }
  change (encode_pair kv.1 kv.2 :: map (λ kv, encode_pair kv.1 kv.2) kvs)
    with (map (λ kv, encode_pair kv.1 kv.2) (kv :: kvs)).
  generalize (@nil (text * list text)). induction (kv :: kvs) as [|x l IH]; intros acc; [done|].
  cbn [map foldl]. rewrite parse_encoded_pair. apply IH.
Qed.

Lemma Encode_chars m : forallb printable (Encode m) = true ∧ "#"%char ∉ Encode m.
Proof.
  assert (∀ k v, forallb printable (encode_pair k v) = true ∧ "#"%char ∉ encode_pair k v) as Hp.
  { intros k v. split; [|by apply encode_pair_absent]. unfold encode_pair. rewrite forallb_app. cbn [forallb].
    by rewrite !escape_printable. }
  assert (Forall (λ p, forallb printable p = true ∧ "#"%char ∉ p) (flat_map (λ e, map (encode_pair e.1) e.2) m)) as Hall.
  { apply Forall_forall. intros p (e & _ & Hin)%list_elem_of_In%in_flat_map.
    apply in_map_iff in Hin as (v & <- & _). apply Hp. }
  unfold Encode. destruct Hall as [|p ps [Hp1 Hp2] Hps]; [split; [done|apply not_elem_of_nil]|].
  rewrite forallb_app, Hp1, not_elem_of_app. cbn [andb]. clear Hp1.
  induction Hps as [|q ps [Hq1 Hq2] _ [IH1 [_ IH2]]]; [by split_and!; [|done|apply not_elem_of_nil]|].
  cbn [flat_map app forallb]. rewrite forallb_app, Hq1, IH1, not_elem_of_cons, not_elem_of_app. done.
Qed.
