(* ===== verification/ClientConfig.v ===== *)
(** * The profile store of the client (tui/internal/config/config.go)

    The store and its defaults, the selected profile, and the way the store is
    written: to a temporary file that then replaces the old one.  The file system
    operations can fail or be interrupted at any point. *)

From stdpp Require Import gmap.
From S2P Require Import Prelude.

Module ClientConfig.

Record RealityConfig := mkReality {
  ServerName : string;
  PublicKey : string;
  ShortID : string;
  Fingerprint : string
}.

Record SysProxyConfig := mkSysProxy { SysProxyEnabled : bool; Bypass : string }.

Record TUNConfig := mkTUN {
  TUNEnabled : bool;
  Gateway : string;
  Subnet : string;
  MTU : Z;
  DoH : list string;
  ExcludeIP : list string
}.

(** Pointers are options; [TLS] is nil for true. *)
Record Profile := mkProfile {
  Name : string;
  Server : string;
  Port : Z;
  Username : string;
  Password : string;
  InsecureConcurrency : Z;
  Reality : option RealityConfig;
  TLS : option bool;
  LocalSocks : string;
  LocalHTTP : string;
  SystemProxy : option SysProxyConfig;
  TUN : option TUNConfig
}.

Record Store := mkStore {
  ActiveProfile : string;
  Profiles : list Profile;
  CorePath : string;
  InternalSocks : string;
  LogLevel : string
}.

#[export] Instance eta_RealityConfig : Eta RealityConfig := fun r =>
  mkReality (ServerName r) (PublicKey r) (ShortID r) (Fingerprint r).
#[export] Instance eta_TUNConfig : Eta TUNConfig := fun t =>
  mkTUN (TUNEnabled t) (Gateway t) (Subnet t) (MTU t) (DoH t) (ExcludeIP t).
#[export] Instance eta_Profile : Eta Profile := fun p =>
  mkProfile (Name p) (Server p) (Port p) (Username p) (Password p) (InsecureConcurrency p) (Reality p)
    (TLS p) (LocalSocks p) (LocalHTTP p) (SystemProxy p) (TUN p).
#[export] Instance eta_Store : Eta Store := fun s =>
  mkStore (ActiveProfile s) (Profiles s) (CorePath s) (InternalSocks s) (LogLevel s).

#[export] Instance RealityConfig_eq_dec : EqDecision RealityConfig.
Proof. solve_decision. Defined.
#[export] Instance SysProxyConfig_eq_dec : EqDecision SysProxyConfig.
Proof. solve_decision. Defined.
#[export] Instance TUNConfig_eq_dec : EqDecision TUNConfig.
Proof. solve_decision. Defined.
#[export] Instance Profile_eq_dec : EqDecision Profile.
Proof. solve_decision. Defined.
#[export] Instance Store_eq_dec : EqDecision Store.
Proof. solve_decision. Defined.

(** ** Defaults *)

Definition or_else (s def : string) : string := if bool_decide (s = "") then def else s.

Definition reality_defaults (r : RealityConfig) : RealityConfig :=
  r <| Fingerprint := or_else (Fingerprint r) "chrome" |>.

Definition tun_defaults (t : TUNConfig) : TUNConfig :=
  t <| Gateway := or_else (Gateway t) "198.18.0.1" |>
    <| Subnet := or_else (Subnet t) "198.18.0.0/15" |>
    <| MTU := if MTU t =? 0 then 1500 else MTU t |>.

Definition profile_defaults (p : Profile) : Profile :=
  p <| Port := if Port p =? 0 then 443 else Port p |>
    <| LocalSocks := or_else (LocalSocks p) "127.0.0.1:1080" |>
    <| LocalHTTP := or_else (LocalHTTP p) "127.0.0.1:8080" |>
    <| InsecureConcurrency := if InsecureConcurrency p <=? 0 then 1 else InsecureConcurrency p |>
    <| Reality := reality_defaults <$> Reality p |>
    <| TUN := tun_defaults <$> TUN p |>.

Definition applyDefaults (s : Store) : Store :=
  s <| InternalSocks := or_else (InternalSocks s) "127.0.0.1:41080" |>
    <| CorePath := or_else (CorePath s) "naive.exe" |>
    <| LogLevel := or_else (LogLevel s) "info" |>
    <| Profiles := map profile_defaults (Profiles s) |>.

(** [Active] returns a pointer into [Profiles]; the index it points to. *)
Definition active_index (s : Store) : option nat :=
  match list_find (λ p, Name p = ActiveProfile s) (Profiles s) with
  | Some (i, _) => Some i
  | None => if bool_decide (Profiles s = []) then None else Some 0%nat
  end.

Definition Active (s : Store) : option Profile := i ← active_index s; Profiles s !! i.

(** ** Files *)

Abbreviation content := (list Z).

(** A write replaces the file step by step, a rename at once. *)
Inductive fsop :=
  | MkdirAll (dir : string)
  | WriteFile (path : string) (data : content)
  | Rename (old new : string).

(** Where an operation is stopped, by an error or a crash: a write leaves the
    file as it was, or a part of the data. *)
Inductive interruption := Before | Partway (n : nat).

Abbreviation fs := (gmap string content).

Definition exec (f : fs) (o : fsop) : fs :=
  match o with
  | MkdirAll _ => f
  | WriteFile p d => <[p := d]> f
  | Rename a b => match f !! a with Some d => <[b := d]> (delete a f) | None => f end
  end.

Definition exec_partly (f : fs) (o : fsop) (i : interruption) : fs :=
  match o, i with
  | WriteFile p d, Partway n => <[p := take n d]> f
  | _, _ => f
  end.

(** Run operations until they are done or the [k]-th is stopped. *)
Fixpoint run (f : fs) (ops : list fsop) (stop : option (nat * interruption)) : bool * fs :=
  match ops with
  | [] => (true, f)
  | o :: ops =>
      match stop with
      | Some (O, i) => (false, exec_partly f o i)
      | Some (S k, i) => run (exec f o) ops (Some (k, i))
      | None => run (exec f o) ops None
      end
  end.

Section files.
(** [json.MarshalIndent] and [json.Unmarshal] on stores; the directory and the
    path of the store. *)
Context (Marshal : Store → content) (Unmarshal : content → option Store).
Context (dir path : string).

Definition Save_ops (s : Store) : list fsop :=
  [MkdirAll dir; WriteFile (path +:+ ".tmp") (Marshal s); Rename (path +:+ ".tmp") path].

(** Whether [Save] returned nil, and the files it leaves. *)
Definition Save (s : Store) (f : fs) (stop : option (nat * interruption)) : bool * fs := run f (Save_ops s) stop.

(** [readable] is false when reading fails for another reason than a missing file. *)
Definition Load (f : fs) (readable : bool) : fallible Store :=
  if negb readable then fail "read"
  else
    match f !! path with
    | None => ret (applyDefaults (mkStore "" [] "" "" ""))
    | Some data =>
        match Unmarshal data with
        | None => fail "parse"
        | Some s => ret (applyDefaults s)
        end
    end.

End files.

End ClientConfig.
