(* ===== verification/ClientConfigSpec.v ===== *)
(** * Theorems about the profile store *)

From stdpp Require Import gmap.
From S2P Require Import Prelude ClientConfig.

Import ClientConfig.

(** ** Defaults *)

Lemma or_else_idem s d : or_else (or_else s d) d = or_else s d.
Proof. unfold or_else. repeat case_bool_decide; naive_solver. Qed.

Lemma reality_defaults_idem r : reality_defaults (reality_defaults r) = reality_defaults r.
Proof. destruct r as [sn pk sid fp]. change (mkReality sn pk sid (or_else (or_else fp "chrome") "chrome") =
  mkReality sn pk sid (or_else fp "chrome")). by rewrite or_else_idem. Qed.

Lemma if_zero_idem n d : d ≠ 0 → (if (if n =? 0 then d else n) =? 0 then d else (if n =? 0 then d else n)) = if n =? 0 then d else n.
Proof. intros Hd. destruct (Z.eqb_spec n 0); [by destruct (Z.eqb_spec d 0)|by destruct (Z.eqb_spec n 0)]. Qed.

Lemma tun_ext t t' :
  TUNEnabled t = TUNEnabled t' → Gateway t = Gateway t' → Subnet t = Subnet t' → MTU t = MTU t' →
  DoH t = DoH t' → ExcludeIP t = ExcludeIP t' → t = t'.
Proof. destruct t, t'. cbn. congruence. Qed.

Lemma tun_defaults_idem t : tun_defaults (tun_defaults t) = tun_defaults t.
Proof. apply tun_ext; cbn; try done; [apply or_else_idem..|by apply if_zero_idem]. Qed.

Lemma profile_ext p q :
  Name p = Name q → Server p = Server q → Port p = Port q → Username p = Username q → Password p = Password q →
  InsecureConcurrency p = InsecureConcurrency q → Reality p = Reality q → TLS p = TLS q →
  LocalSocks p = LocalSocks q → LocalHTTP p = LocalHTTP q → SystemProxy p = SystemProxy q → TUN p = TUN q → p = q.
Proof. destruct p, q. cbn. congruence. Qed.

Lemma profile_defaults_idem p : profile_defaults (profile_defaults p) = profile_defaults p.
Proof.
  apply profile_ext; cbn; try done; try apply or_else_idem.
  - by apply if_zero_idem.
  - destruct (Z.leb_spec (InsecureConcurrency p) 0); [done|]. by destruct (Z.leb_spec (InsecureConcurrency p) 0); [lia|].
  - destruct (Reality p) as [r|]; [|done]. cbn. by rewrite reality_defaults_idem.
  - destruct (TUN p) as [t|]; [|done]. cbn. by rewrite tun_defaults_idem.
Qed.

Lemma applyDefaults_idem s : applyDefaults (applyDefaults s) = applyDefaults s.
Proof.
  unfold applyDefaults. cbn. rewrite !or_else_idem, map_map.
  by rewrite (map_ext _ _ profile_defaults_idem).
Qed.

(** [Active] is the profile of the active name if there is one, and a profile of the
    store whenever the store has one. *)
Lemma Active_spec s :
  match Active s with
  | Some p => p ∈ Profiles s ∧ ((∃ q, q ∈ Profiles s ∧ Name q = ActiveProfile s) → Name p = ActiveProfile s)
  | None => Profiles s = []
  end.
Proof.
  unfold Active, active_index. destruct (list_find _ (Profiles s)) as [[i p]|] eqn:Hf; cbn [mbind option_bind].
  - apply list_find_Some in Hf as (Hi & Hn & _). rewrite Hi. split; [by eapply list_elem_of_lookup_2|done].
  - apply list_find_None in Hf. rewrite Forall_forall in Hf. case_bool_decide as He; [done|].
    destruct (Profiles s) as [|p ps] eqn:Hps; [done|]. split; [by left|].
    intros (q & Hq & Hn). by destruct (Hf q Hq).
Qed.

(** ** Files *)

Lemma tmp_path path : path ≠ path +:+ ".tmp".
Proof.
  intros H. apply (f_equal String.length) in H. revert H. induction path; cbn in *; [done|]. intros [= H]. auto.
Qed.

Section files.
Context (Marshal : Store → content) (Unmarshal : content → option Store) (dir path : string).

(** The files a save can leave. *)
Lemma Save_leaves s f stop ok f' : Save Marshal dir path s f stop = (ok, f') →
  (ok = false ∧ (f' = f ∨ ∃ d, f' = <[path +:+ ".tmp" := d]> f)) ∨
  (ok = true ∧ f' = <[path := Marshal s]> (delete (path +:+ ".tmp") f)).
Proof.
  unfold Save, Save_ops.
  destruct stop as [[[|[|[|k]]] i]|]; cbn [run exec exec_partly]; rewrite ?lookup_insert_eq, ?delete_insert_eq;
    try destruct i; intros [= <- <-]; eauto.
Qed.

(** C29. The store is replaced atomically.  Wherever [Save] is stopped, by an error or a
    crash, the file of the store has its old content or all of the new one, and no
    file but it and its temporary file has changed; when [Save] returns nil it is the
    new one.  So if the JSON of the store reads back, [Load] then gives what it gave
    before or the saved store with its defaults, and the latter when [Save] returned
    nil; a store that was loaded comes back as it was. *)
Theorem save_is_atomic s f stop ok f' :
  Unmarshal (Marshal s) = Some s → Save Marshal dir path s f stop = (ok, f') →
  (f' !! path = f !! path ∨ f' !! path = Some (Marshal s)) ∧
  (∀ q, q ≠ path → q ≠ path +:+ ".tmp" → f' !! q = f !! q) ∧
  (Load Unmarshal path f' true = Load Unmarshal path f true ∨
   Load Unmarshal path f' true = ret (applyDefaults s)) ∧
  (ok = true → f' !! path = Some (Marshal s) ∧ Load Unmarshal path f' true = ret (applyDefaults s)) ∧
  (∀ f0, Load Unmarshal path f0 true = ret s → applyDefaults s = s).
Proof.
  intros Hback Hrun. pose proof (tmp_path path) as Hne.
  set (tmp := path +:+ ".tmp") in *.
  assert ((f' !! path = f !! path ∨ f' !! path = Some (Marshal s)) ∧
    (∀ q, q ≠ path → q ≠ tmp → f' !! q = f !! q) ∧ (ok = true → f' !! path = Some (Marshal s))) as (Hp & Hq & Hok).
  { destruct (Save_leaves s f stop ok f' Hrun) as [[-> [->|[d ->]]]|[-> ->]]; fold tmp.
    - by split_and!; [left|..].
    - split_and!; [left; by apply lookup_insert_ne|intros; by apply lookup_insert_ne|done].
    - split_and!; [right; apply lookup_insert_eq| |intros; apply lookup_insert_eq].
      intros. by rewrite lookup_insert_ne, lookup_delete_ne. }
  assert (f' !! path = Some (Marshal s) → Load Unmarshal path f' true = ret (applyDefaults s)) as Hnew
    by (intros Hs; unfold Load; cbn [negb]; by rewrite Hs, Hback).
  split_and!; try done.
  - destruct Hp as [Hp|Hp]; [left|right; by apply Hnew]. unfold Load. cbn [negb]. by rewrite Hp.
  - intros Hk. split; [by apply Hok|by apply Hnew, Hok].
  - intros f0. unfold Load. cbn [negb]. destruct (f0 !! path) as [d|].
    + destruct (Unmarshal d) as [s'|]; [|done]. intros [= <-]. apply applyDefaults_idem.
    + intros [= <-]. apply applyDefaults_idem.
Qed.

End files.

(** ** Witness *)

Module Demo.

(** A store, an encoding that knows it, and a save that fails while writing. *)
Definition store : Store := mkStore "home" [] "" "" "".
Definition Marshal (_ : Store) : content := [123; 125].
Definition Unmarshal (d : content) : option Store :=
  if bool_decide (d = [123; 125]) then Some store else None.

Lemma save_is_atomic_witness :
  Load Unmarshal "p" (Save Marshal "d" "p" store ∅ None).2 true = ret (applyDefaults store) ∧
  (Save Marshal "d" "p" store {[ "p" := [1] ]} (Some (1%nat, Partway 1))).2 !! "p" = Some [1].
Proof.
  split.
  - destruct (save_is_atomic Marshal Unmarshal "d" "p" store ∅ None true (Save Marshal "d" "p" store ∅ None).2)
      as (_ & _ & _ & Hok & _); [reflexivity|vm_compute; reflexivity|]. by destruct (Hok eq_refl).
  - vm_compute. reflexivity.
Defined.

End Demo.
