(* ===== verification/ShareLinkSpec.v ===== *)
(** * Theorems about share links

    A profile survives being shared, what is imported is valid, and the core is
    given the URL of the profile's server. *)

From S2P Require Import Prelude GoIP GoText GoNet GoNetFacts GoHttp GoUrl GoUrlFacts ClientConfig ShareLink.

Import ClientConfig ShareLink.

(** ** Server names *)

(** A host name, or an IPv6 address without brackets. *)
Definition server_ok (s : text) : Prop := regname s ∨ ipv6 s.

Lemma ipv6_first h : ipv6 h → HasPrefix (of_bytes h) "[" = false ∧ h ≠ [].
Proof.
  intros (Hc & _ & Hch). destruct h as [|c h]; [by apply elem_of_nil in Hc|]. split; [|done].
  unfold HasPrefix. rewrite bytes_of_bytes. cbn [bytes String.list_ascii_of_string after_prefix].
  cbn in Hch. apply andb_true_iff in Hch as [Hch _]. rewrite bool_decide_eq_false_2; [done|].
  intros <-. done.
Qed.

(** A host with or without a port: it is parsed, and splits again. *)
Lemma joined_host s port : server_ok s → 0 <= port < 9223372036854775808 →
  let h := JoinHostPort s (Itoa port) in
  h ≠ [] ∧ parseHost (escape encodeHost h) = Some h ∧ splitHostPort h = (s, Itoa port).
Proof.
  intros Hs Hp. pose proof (Itoa_digits port Hp) as Hd. unfold JoinHostPort. cbn zeta.
  assert (port_part (":"%char :: Itoa port)) as Hpp by (right; by eexists).
  destruct Hs as [Hr|H6].
  - pose proof Hr as (Hne & _ & _ & Hc). rewrite IndexByte_absent by done. cbn [Z.leb Z.compare]. split_and!.
    + by destruct s.
    + by apply parseHost_regname.
    + by apply splitHostPort_regname.
  - pose proof H6 as (Hc & _). pose proof (IndexByte_present s ":" Hc).
    destruct (Z.leb_spec 0 (IndexByte s ":")); [|lia]. split_and!; [done| |].
    + by apply parseHost_ipv6.
    + by apply splitHostPort_ipv6.
Qed.

Lemma bare_host s : server_ok s →
  let h := if mem ":" s && negb (HasPrefix (of_bytes s) "[") then "["%char :: s ++ ["]"%char] else s in
  h ≠ [] ∧ parseHost (escape encodeHost h) = Some h ∧ splitHostPort h = (s, []).
Proof.
  assert (port_part []) as Hpp by by left. cbn zeta. intros [Hr|H6].
  - pose proof Hr as (Hne & _ & _ & Hc). rewrite mem_false by done. cbn [andb]. split_and!; [done| |].
    + rewrite <- (app_nil_r s). by apply parseHost_regname.
    + by apply (splitHostPort_regname s []).
  - pose proof H6 as (Hc & _). rewrite (proj2 (mem_spec _ _) Hc), (proj1 (ipv6_first s H6)). cbn [negb andb].
    split_and!; [done| |].
    + by apply (parseHost_ipv6 s []).
    + by apply (splitHostPort_ipv6 s []).
Qed.

Lemma link_host_ok s pp port : server_ok s → 0 <= port < 9223372036854775808 →
  let h := link_host s pp port in
  h ≠ [] ∧ parseHost (escape encodeHost h) = Some h ∧
  splitHostPort h = (s, if negb (pp =? 0) && negb (pp =? 443) then Itoa port else []).
Proof.
  intros Hs Hp. unfold link_host. destruct (negb (pp =? 0) && negb (pp =? 443)).
  - by apply joined_host.
  - by apply bare_host.
Qed.

(** ** The REALITY block *)

Definition reality_valid (r : RealityConfig) : Prop :=
  ServerName r ≠ "" ∧ validatePublicKey (PublicKey r) = ret () ∧ validateShortID (ShortID r) = ret ().

(** Reading back the settings of a query whose keys are known. *)
Lemma query_back r :
  let q := ParseQuery (Encode (link_query r)) in
  values_Get q (bytes "server_name") = bytes (ServerName r) ∧
  values_Get q (bytes "public_key") = bytes (PublicKey r) ∧
  values_Get q (bytes "short_id") = bytes (ShortID r) ∧
  values_Get q (bytes "fingerprint") =
    bytes (if negb (bool_decide (Fingerprint r = "")) && negb (bool_decide (Fingerprint r = "chrome"))
           then Fingerprint r else "").
Proof.
  cbn zeta. rewrite ParseQuery_Encode. unfold link_query.
  generalize (bytes (ServerName r)) (bytes (PublicKey r)) (bytes (ShortID r)). intros sn pk sid.
  destruct (negb (bool_decide (Fingerprint r = "")) && negb (bool_decide (Fingerprint r = "chrome"))).
  - generalize (bytes (Fingerprint r)). intros fp. vm_compute. done.
  - vm_compute. done.
Qed.

Lemma of_bytes_id s l : l = bytes s → of_bytes l = s.
Proof. intros ->. apply of_bytes_bytes. Qed.

Lemma link_reality_back r : reality_valid r →
  link_reality (ParseQuery (Encode (link_query r))) = ret (reality_defaults r).
Proof.
  intros (Hsn & Hpk & Hsid). destruct (query_back r) as (H1 & H2 & H3 & H4). unfold link_reality. cbn zeta.
  cbn [ServerName PublicKey ShortID].
  rewrite (of_bytes_id _ _ H1), (of_bytes_id _ _ H2), (of_bytes_id _ _ H3), (of_bytes_id _ _ H4).
  rewrite bool_decide_eq_false_2 by done. rewrite Hpk, Hsid. cbn [try_bind ret].
  assert (or_else (if negb (bool_decide (Fingerprint r = "")) && negb (bool_decide (Fingerprint r = "chrome"))
    then Fingerprint r else "") "chrome" = or_else (Fingerprint r) "chrome") as Hf
    by (unfold or_else; repeat case_bool_decide; naive_solver).
  unfold reality_defaults. destruct r. cbn in *. by rewrite Hf.
Qed.

(** ** Sharing *)

(** What is kept of a profile: its name, server, credentials and REALITY block. *)
Definition imported (p : Profile) : Profile :=
  mkProfile (or_else (Name p) (Server p)) (Server p) (if Port p =? 0 then 443 else Port p) (Username p) (Password p)
    1 (reality_defaults <$> Reality p) None "127.0.0.1:1080" "127.0.0.1:8080" None None.

(** The URL that [Build] renders. *)
Definition link_url (p : Profile) : URL :=
  let port := if Port p =? 0 then 443 else Port p in
  mkURL (match Reality p with Some _ => bytes "naivereal" | None => bytes "naive+https" end) []
    (link_user p) (link_host (bytes (Server p)) (Port p) port) []
    (match Reality p with Some r => Encode (link_query r) | None => [] end) (bytes (Name p)).

Lemma TrimSpace_empty : TrimSpace "" = "".
Proof. reflexivity. Qed.

Lemma Build_inv p link : Build p = ret link →
  link = of_bytes (URL_String (link_url p)) ∧
  1 <= (if Port p =? 0 then 443 else Port p) <= 65535 ∧
  match Reality p with Some r => reality_valid r | None => True end.
Proof.
  unfold Build, link_url. case_bool_decide; [done|]. cbn zeta. set (port := if Port p =? 0 then 443 else Port p).
  destruct (Z.ltb_spec port 1), (Z.ltb_spec 65535 port); try done. cbn [orb].
  destruct (Reality p) as [r|]; [|by intros [= <-]].
  case_bool_decide as Hsn; [done|]. unfold reality_valid.
  destruct (validatePublicKey (PublicKey r)) as [[|[]]| |], (validateShortID (ShortID r)) as [[|[]]| |]; try done.
  cbn [try_bind]. intros [= <-]. split_and!; try done. intros H'. by rewrite H', TrimSpace_empty in Hsn.
Qed.

Lemma port_range n : 1 <= n <= 65535 → 0 <= n < 9223372036854775808.
Proof. lia. Qed.

Lemma link_user_ok p : user_ok (link_user p).
Proof. unfold link_user. by destruct (_ && _). Qed.

Lemma link_user_back p :
  match link_user p with Some (n, _) => n | None => [] end = bytes (Username p) ∧
  match link_user p with Some (_, Some pw) => pw | _ => [] end = bytes (Password p).
Proof.
  unfold link_user. destruct (bool_decide (Username p = "") && bool_decide (Password p = "")) eqn:E; [|done].
  apply andb_true_iff in E as [->%bool_decide_eq_true ->%bool_decide_eq_true]. done.
Qed.

Lemma link_url_back p :
  server_ok (bytes (Server p)) → 1 <= (if Port p =? 0 then 443 else Port p) <= 65535 →
  url_Parse (URL_String (link_url p)) = Some (link_url p) ∧ forallb printable (URL_String (link_url p)) = true.
Proof.
  intros Hs Hp. destruct (link_host_ok (bytes (Server p)) (Port p) _ Hs (port_range _ Hp))
    as (Hne & Hh & _).
  apply url_Parse_String; try done.
  - unfold good_scheme, link_url. cbn [Scheme map]. destruct (Reality p); set_solver.
  - apply link_user_ok.
  - unfold link_url. cbn [RawQuery]. destruct (Reality p); [apply Encode_chars|done].
  - unfold link_url. cbn [RawQuery]. destruct (Reality p); [apply Encode_chars|apply not_elem_of_nil].
Qed.

Lemma link_port_back pp : 1 <= (if pp =? 0 then 443 else pp) <= 65535 →
  link_port (if negb (pp =? 0) && negb (pp =? 443) then Itoa (if pp =? 0 then 443 else pp) else []) =
  ret (if pp =? 0 then 443 else pp).
Proof.
  destruct (Z.eqb_spec pp 0), (Z.eqb_spec pp 443); cbn [negb andb]; intros Hp; try done; [by subst|].
  unfold link_port. rewrite bool_decide_eq_false_2.
  2: { intros He. assert (Atoi (Itoa pp) = None) as Ha by by rewrite He. rewrite Atoi_Itoa in Ha; [done|lia]. }
  rewrite Atoi_Itoa by lia. destruct (Z.ltb_spec pp 1), (Z.ltb_spec 65535 pp); try lia. done.
Qed.

(** C27. A shared profile is imported whole.  For every profile whose server is a
    host name or an IPv6 address, if [Build] renders a link then [Parse] reads back
    the same name (the server's when it had none), server, port (443 when it had
    none), user name and password, byte for byte, and the same REALITY block with
    the default fingerprint filled in; everything else gets the defaults of an
    import. *)
Theorem share_link_roundtrip p link :
  server_ok (bytes (Server p)) → Build p = ret link → Parse link = ret (imported p).
Proof.
  intros Hs (-> & Hp & Hr)%Build_inv. destruct (link_url_back p Hs Hp) as [Hback Hpr].
  unfold Parse. rewrite (TrimSpace_printable _ Hpr), bytes_of_bytes, Hback.
  destruct (link_host_ok (bytes (Server p)) (Port p) (if Port p =? 0 then 443 else Port p) Hs
    (port_range _ Hp)) as (_ & _ & Hsplit).
  unfold Hostname, GoUrl.Port. change (Host (link_url p)) with (link_host (bytes (Server p)) (Port p) (if Port p =? 0 then 443 else Port p)).
  rewrite Hsplit. cbn [fst snd].
  change (User (link_url p)) with (link_user p). destruct (link_user_back p) as [-> ->].
  rewrite link_port_back by done. 
  assert (bytes (Server p) ≠ []) as Hne.
  { destruct Hs as [(Hne & _)|H6]; [done|by apply ipv6_first]. }
  change (Fragment (link_url p)) with (bytes (Name p)).
  assert (of_bytes (if bool_decide (bytes (Name p) = []) then bytes (Server p) else bytes (Name p)) =
    or_else (Name p) (Server p)) as Hname.
  { unfold or_else. destruct (Name p); cbn; [apply of_bytes_bytes|]. by rewrite of_bytes_bytes. }
  unfold imported. destruct (Reality p) as [r|] eqn:HR.
  - assert (ToLower (of_bytes (Scheme (link_url p))) = "naivereal") as -> by (unfold link_url; by rewrite HR).
    assert (RawQuery (link_url p) = Encode (link_query r)) as -> by (unfold link_url; by rewrite HR).
    cbn [negb andb bool_decide try_bind ret]. rewrite (bool_decide_eq_false_2 (bytes (Server p) = [])) by done.
    rewrite link_reality_back by done. cbn [try_bind ret]. rewrite Hname, !of_bytes_bytes. done.
  - assert (ToLower (of_bytes (Scheme (link_url p))) = "naive+https") as -> by (unfold link_url; by rewrite HR).
    cbn [negb andb bool_decide try_bind ret]. rewrite (bool_decide_eq_false_2 (bytes (Server p) = [])) by done.
    rewrite Hname, !of_bytes_bytes. done.
Qed.

(** The core is told the profile's server.  For a profile with such a server and
    a valid port, the proxy URL of the core's configuration parses, and names the
    profile's scheme, server, port and credentials; the REALITY block and the
    concurrency are passed as they are. *)
Theorem core_url_names_the_server p socks :
  server_ok (bytes (Server p)) → 1 <= ClientConfig.Port p <= 65535 →
  ∃ u, url_Parse (bytes (Proxy (BuildCoreConfig p socks))) = Some u ∧
    Scheme u = bytes (if bool_decide (TLS p = Some false) then "http" else "https") ∧
    Hostname u = bytes (Server p) ∧ GoUrl.Port u = Itoa (ClientConfig.Port p) ∧
    Atoi (GoUrl.Port u) = Some (ClientConfig.Port p) ∧
    match User u with Some (n, _) => n | None => [] end = bytes (Username p) ∧
    match User u with Some (_, Some pw) => pw | _ => [] end = bytes (Password p) ∧
    CoreReality (BuildCoreConfig p socks) = Reality p.
Proof.
  intros Hs Hp. destruct (joined_host (bytes (Server p)) (ClientConfig.Port p) Hs (port_range _ Hp)) as (Hne & Hh & Hsplit).
  cbn [Proxy CoreReality BuildCoreConfig]. rewrite bytes_of_bytes. eexists. split.
  - apply url_Parse_String; try done; [|apply link_user_ok|apply not_elem_of_nil].
    unfold good_scheme. cbn [Scheme map]. destruct (TLS p) as [[]|]; set_solver.
  - unfold Hostname, GoUrl.Port. cbn [Host Scheme User]. rewrite Hsplit. cbn [fst snd].
    split_and!; try apply link_user_back; try done; [by destruct (TLS p) as [[]|]|].
    apply Atoi_Itoa, port_range, Hp.
Qed.

(** ** What is accepted *)

Lemma link_port_inv s n : link_port s = ret n → 1 <= n <= 65535.
Proof.
  unfold link_port. case_bool_decide; [by intros [= <-]|]. destruct (Atoi s) as [m|]; [|done].
  destruct (Z.ltb_spec m 1), (Z.ltb_spec 65535 m); try done. intros [= <-]. lia.
Qed.

Lemma or_else_nonempty s d : d ≠ "" → or_else s d ≠ "".
Proof. unfold or_else. by case_bool_decide. Qed.

Lemma or_else_fixed s d : s ≠ "" → or_else s d = s.
Proof. unfold or_else. intros. by rewrite bool_decide_eq_false_2. Qed.

Lemma link_reality_inv q r : link_reality q = ret r → reality_valid r ∧ Fingerprint r ≠ "".
Proof.
  unfold link_reality. cbn zeta. case_bool_decide as Hsn; [done|]. cbn [PublicKey ShortID].
  destruct (validatePublicKey _) as [[|[]]| |] eqn:Hpk; try done.
  cbn [try_bind]. destruct (validateShortID _) as [[|[]]| |] eqn:Hsid; try done. cbn [try_bind].
  intros [= <-]. split; [|by apply or_else_nonempty]. split_and!; [exact Hsn|exact Hpk|exact Hsid].
Qed.

Lemma of_bytes_nonempty l : l ≠ [] → of_bytes l ≠ "".
Proof. by destruct l. Qed.

(** What an imported profile looks like. *)
Lemma Parse_inv link p : Parse link = ret p →
  1 <= ClientConfig.Port p <= 65535 ∧ Server p ≠ "" ∧ Name p ≠ "" ∧ InsecureConcurrency p = 1 ∧
  LocalSocks p = "127.0.0.1:1080" ∧ LocalHTTP p = "127.0.0.1:8080" ∧ TUN p = None ∧
  match Reality p with Some r => reality_valid r ∧ Fingerprint r ≠ "" | None => True end.
Proof.
  unfold Parse. destruct (url_Parse _) as [u|]; [|done]. cbn zeta.
  destruct (negb _ && negb _); [done|]. destruct (link_port (GoUrl.Port u)) as [[|port]| |] eqn:Hport; try done.
  apply link_port_inv in Hport. cbn [try_bind]. case_bool_decide as Hh; [done|].
  assert (of_bytes (Hostname u) ≠ "") as Hs by by apply of_bytes_nonempty.
  assert (of_bytes (if bool_decide (Fragment u = []) then Hostname u else Fragment u) ≠ "") as Hn
    by (apply of_bytes_nonempty; by case_bool_decide).
  destruct (bool_decide (ToLower (of_bytes (Scheme u)) = "naivereal")).
  - destruct (link_reality _) as [[|r]| |] eqn:Hr; try done. cbn [try_bind]. intros [= <-].
    cbn. split_and!; try done; try lia; by apply (link_reality_inv _ _ Hr).
  - intros [= <-]. cbn. split_and!; try done; lia.
Qed.

(** What the checks of a REALITY block amount to. *)
Definition hex_digits : text := bytes "0123456789abcdefABCDEF".

Definition key_of_32_bytes (s : string) : Prop := ∃ b, base64Decode (bytes s) = Some b ∧ len b = 32.

Definition short_id_ok (s : string) : Prop :=
  len (bytes s) <= 16 ∧ Z.even (len (bytes s)) = true ∧ Forall (λ c, c ∈ hex_digits) (bytes s).

Lemma hex_char c : is_Some (fromHexChar c) ↔ c ∈ hex_digits.
Proof.
  rewrite <- (bool_decide_spec (c ∈ hex_digits)), <- (bool_decide_spec (is_Some (fromHexChar c))).
  by destruct c as [[] [] [] [] [] [] [] []].
Qed.

Lemma hexDecode_digits l : ∀ n, (length l <= n)%nat →
  is_Some (hexDecode l) ↔ Z.even (len l) = true ∧ Forall (λ c, c ∈ hex_digits) l.
Proof.
  intros n. revert l. induction n as [|n IH]; intros [|a [|b l]] Hn; try (cbn in Hn; lia).
  1,2: split; [by repeat constructor|by eexists].
  - split; [by intros [? ?]|by intros [? _]].
  - cbn [hexDecode]. cbn in Hn. rewrite !Forall_cons, <- !hex_char, !len_cons, <- Z.add_assoc, Z.even_add.
    change (Z.even (1 + 1)) with true.
    assert (Bool.eqb (Z.even (len l)) true = Z.even (len l)) as -> by by destruct (Z.even _).
    specialize (IH l ltac:(lia)). destruct (fromHexChar a) as [x|], (fromHexChar b) as [y|];
      try (split; [by intros [? ?]|by intros (_ & [? ?] & [? ?] & _)]).
    rewrite (is_Some_alt (hexDecode l)) in IH.
    destruct (hexDecode l); cbn [mbind option_bind]; naive_solver.
Qed.

Lemma validateShortID_ok s : validateShortID s = ret () → short_id_ok s.
Proof.
  unfold validateShortID, short_id_ok. case_bool_decide as Hs; [intros _; subst s; by repeat constructor|].
  destruct (Z.ltb_spec 16 (len (bytes s))); [done|].
  pose proof (hexDecode_digits (bytes s) _ (le_n _)) as Hd.
  destruct (hexDecode (bytes s)); [|done]. intros _. split; [done|]. apply Hd. by eexists.
Qed.

Lemma validatePublicKey_ok s : validatePublicKey s = ret () → key_of_32_bytes s.
Proof.
  unfold validatePublicKey, key_of_32_bytes. case_bool_decide; [done|].
  destruct (base64Decode (bytes s)) as [b|]; [|done]. destruct (Z.eqb_spec (len b) 32); [|done]. by exists b.
Qed.

(** C28. Only valid profiles are imported.  A profile [Parse] returns has a server, a
    name, a port in range, and if it has a REALITY block a server name, a public
    key that is base64url of 32 bytes, a short ID of at most 16 hexadecimal digits,
    an even number of them, and a fingerprint;
    the defaults of the store leave it as it is; and [Build] renders it again,
    unless its server or REALITY server name is all white space. *)
Theorem imported_profiles_are_valid link p :
  Parse link = ret p →
  1 <= ClientConfig.Port p <= 65535 ∧ Server p ≠ "" ∧ Name p ≠ "" ∧
  match Reality p with
  | Some r => ServerName r ≠ "" ∧ key_of_32_bytes (PublicKey r) ∧ short_id_ok (ShortID r) ∧ Fingerprint r ≠ ""
  | None => True
  end ∧
  profile_defaults p = p ∧
  (TrimSpace (Server p) ≠ "" → (∀ r, Reality p = Some r → TrimSpace (ServerName r) ≠ "") →
   ∃ link', Build p = ret link').
Proof.
  intros (Hp & Hs & Hn & Hic & Hls & Hlh & Ht & Hr)%Parse_inv. split_and!; try done; try lia.
  - destruct (Reality p) as [r|]; [|done]. destruct Hr as ((Hsn & Hk & Hi) & Hf).
    split_and!; [done|by apply validatePublicKey_ok|by apply validateShortID_ok|done].
  - unfold profile_defaults. rewrite Hic, Hls, Hlh, Ht.
    destruct (Z.eqb_spec (ClientConfig.Port p) 0); [lia|]. rewrite !or_else_fixed by done.
    assert (reality_defaults <$> Reality p = Reality p) as HR.
    { destruct (Reality p) as [r|]; [|done]. cbn. unfold reality_defaults. rewrite or_else_fixed by apply Hr. by destruct r. }
    rewrite HR. destruct p. cbn in *. by subst.
  - intros Hts Htn. unfold Build. rewrite bool_decide_eq_false_2 by done. cbn zeta.
    destruct (Z.eqb_spec (ClientConfig.Port p) 0); [lia|].
    destruct (Z.ltb_spec (ClientConfig.Port p) 1), (Z.ltb_spec 65535 (ClientConfig.Port p)); try lia. cbn [orb].
    destruct (Reality p) as [r|]; [|by eexists]. destruct Hr as ((_ & -> & ->) & _).
    rewrite bool_decide_eq_false_2 by by apply Htn. by eexists.
Qed.

(** ** Witnesses *)

Module Demo.

Definition key : string := "kWJW4VtHG8oCyj9tS6k6gJmW2lX0eZzQv8xP7bYy1Kc".

(** An IPv6 server, credentials that need escaping, and a REALITY block. *)
Definition node : Profile :=
  mkProfile "IPv6 #1" "2001:db8::1" 8443 "user@example.com" "p:a%ss" 4
    (Some (mkReality "www.example.com" key "abcd" "")) None "" "" None None.

Definition node_link : string := match Build node with Ok (inr l) => l | _ => "" end.

Lemma node_server : server_ok (bytes (Server node)).
Proof.
  right. split; [apply (bool_decide_eq_true_1 _); vm_compute; reflexivity|].
  split; [|vm_compute; reflexivity].
  exists [32; 1; 13; 184; 0; 0; 0; 0; 0; 0; 0; 0; 0; 0; 0; 1]. vm_compute. reflexivity.
Qed.

Lemma share_link_roundtrip_witness : Parse node_link = ret (imported node).
Proof. apply (share_link_roundtrip node); [exact node_server|vm_compute; reflexivity]. Defined.

Lemma core_url_names_the_server_witness :
  ∃ u, url_Parse (bytes (Proxy (BuildCoreConfig node "127.0.0.1:41080"))) = Some u ∧
    Hostname u = bytes "2001:db8::1".
Proof.
  destruct (core_url_names_the_server node "127.0.0.1:41080") as (u & Hu & _ & Hh & _);
    [exact node_server|split; vm_compute; discriminate|].
  exists u. split; [exact Hu|exact Hh].
Defined.

Lemma imported_profiles_are_valid_witness :
  profile_defaults (imported node) = imported node ∧ ∃ link', Build (imported node) = ret link'.
Proof.
  destruct (imported_profiles_are_valid node_link (imported node)) as (_ & _ & _ & _ & Hd & Hb);
    [vm_compute; reflexivity|]. split; [exact Hd|].
  apply Hb; [vm_compute; discriminate|intros r Hr; injection Hr as <-; vm_compute; discriminate].
Defined.

End Demo.
