(* ===== verification/SysProxy.v ===== *)
(** * The system proxy setting (tui/internal/sysproxy/sysproxy_windows.go)

    Three values of a registry key are read, replaced and put back.  The registry
    package is a library: it is a class of operations, and a class of what they are
    documented to do. *)

From S2P Require Import Prelude.

(** The result of reading a value: [registry.ErrNotExist], another error, or data. *)
Inductive value (A : Type) := Absent | Failed | Found (a : A).
Arguments Absent {A}.
Arguments Failed {A}.
Arguments Found {A} a.

Inductive access := QUERY_VALUE | SET_VALUE.

(** The values of the Internet Settings key, in a registry of type [R].  A write that
    fails changes nothing. *)
Class Registry (R : Type) := {
  OpenKey : R → access → bool;
  GetIntegerValue : R → string → value Z;
  GetStringValue : R → string → value string;
  SetDWordValue : R → string → Z → option R;
  SetStringValue : R → string → string → option R
}.

Class RegistryLaws (R : Type) `{!Registry R} := {
  set_dword r n v r' : SetDWordValue r n v = Some r' →
    GetIntegerValue r' n = Found v ∧
    (∀ m, m ≠ n → GetIntegerValue r' m = GetIntegerValue r m) ∧
    (∀ m, m ≠ n → GetStringValue r' m = GetStringValue r m) ∧
    (∀ a, OpenKey r' a = OpenKey r a);
  set_string r n s r' : SetStringValue r n s = Some r' →
    GetStringValue r' n = Found s ∧
    (∀ m, m ≠ n → GetStringValue r' m = GetStringValue r m) ∧
    (∀ m, m ≠ n → GetIntegerValue r' m = GetIntegerValue r m) ∧
    (∀ a, OpenKey r' a = OpenKey r a)
}.

Module SysProxy.

Record State := mkState { Enabled : bool; Server : string; Override : string }.

#[export] Instance State_eq_dec : EqDecision State.
Proof. solve_decision. Defined.

Section sysproxy.
Context {R : Type} `{!Registry R}.
Implicit Types r : R.

(** A string that is absent reads as empty. *)
Definition get_string r (name : string) : option string :=
  match GetStringValue r name with Found s => Some s | Absent => Some "" | Failed => None end.

Definition Get r : option State :=
  if negb (OpenKey r QUERY_VALUE) then None
  else
    match GetIntegerValue r "ProxyEnable" with
    | Found enabled =>
        server ← get_string r "ProxyServer";
        override ← get_string r "ProxyOverride";
        Some (mkState (negb (enabled =? 0)) server override)
    | _ => None
    end.

(** The three writes of [Enable] and [Restore]: whether they succeeded, and the
    registry they leave. *)
Definition write r (enabled : Z) (server override : string) : bool * R :=
  if negb (OpenKey r SET_VALUE) then (false, r)
  else
    match SetDWordValue r "ProxyEnable" enabled with
    | None => (false, r)
    | Some r =>
        match SetStringValue r "ProxyServer" server with
        | None => (false, r)
        | Some r =>
            match SetStringValue r "ProxyOverride" override with
            | None => (false, r)
            | Some r => (true, r)
            end
        end
    end.

Definition Enable r (proxyAddr bypass : string) : option State * R :=
  match Get r with
  | None => (None, r)
  | Some prev =>
      let '(ok, r) := write r 1 proxyAddr bypass in
      (if ok then Some prev else None, r)
  end.

Definition Disable r : R :=
  if negb (OpenKey r SET_VALUE) then r
  else match SetDWordValue r "ProxyEnable" 0 with Some r => r | None => r end.

Definition Restore r (prev : State) : bool * R :=
  write r (if Enabled prev then 1 else 0) (Server prev) (Override prev).

End sysproxy.

End SysProxy.
