(* ===== verification/SysProxySpec.v ===== *)
(** * Theorems about the system proxy setting *)

From stdpp Require Import gmap.
From S2P Require Import Prelude SysProxy.

Import SysProxy.

Section facts.
Context {R : Type} `{!Registry R} `{!RegistryLaws R}.
Implicit Types r : R.

(** Three writes that succeed are what [Get] then reads. *)
Lemma write_Get r e server override r' :
  OpenKey r QUERY_VALUE = true → write r e server override = (true, r') →
  Get r' = Some (mkState (negb (e =? 0)) server override) ∧ OpenKey r' QUERY_VALUE = true.
Proof.
  intros Hq. unfold write. destruct (OpenKey r SET_VALUE); [|done]. cbn [negb].
  destruct (SetDWordValue r "ProxyEnable" e) as [r1|] eqn:H1; [|done].
  destruct (SetStringValue r1 "ProxyServer" server) as [r2|] eqn:H2; [|done].
  destruct (SetStringValue r2 "ProxyOverride" override) as [r3|] eqn:H3; [|done]. intros [= <-].
  apply set_dword in H1 as (Hi1 & _ & _ & Ho1). apply set_string in H2 as (Hs2 & _ & Hi2 & Ho2).
  apply set_string in H3 as (Hs3 & Hk3 & Hi3 & Ho3).
  assert (OpenKey r3 QUERY_VALUE = true) as Hq3 by by rewrite Ho3, Ho2, Ho1.
  split; [|done]. unfold Get, get_string. rewrite Hq3, Hi3, Hi2, Hi1, (Hk3 "ProxyServer"), Hs2, Hs3 by done. done.
Qed.

Lemma Get_opens r st : Get r = Some st → OpenKey r QUERY_VALUE = true.
Proof. unfold Get. by destruct (OpenKey r QUERY_VALUE). Qed.

(** What [Enable] reports was there, and what it leaves. *)
Lemma Enable_Get r a b prev r1 : Enable r a b = (Some prev, r1) →
  Get r = Some prev ∧ Get r1 = Some (mkState true a b).
Proof.
  unfold Enable. destruct (Get r) as [st|] eqn:Hg; [|done].
  destruct (write r 1 a b) as [[] r'] eqn:Hw; [|done]. intros [= <- <-]. split; [done|].
  by eapply write_Get in Hw as [Hw _]; [|by eapply Get_opens].
Qed.

Lemma Restore_Get r prev r' : OpenKey r QUERY_VALUE = true → Restore r prev = (true, r') → Get r' = Some prev.
Proof.
  intros Hq Hr. eapply write_Get in Hr as [-> _]; [|done]. by destruct prev as [[] s o].
Qed.

(** Restoring the system proxy undoes enabling it.  When [Enable] succeeds, it
    returns the settings that were read before, the settings read afterwards are
    the proxy's, and a [Restore] of what it returned that succeeds brings back
    exactly the former settings; when it cannot read the settings it changes
    nothing. *)
Theorem restore_undoes_enable r a b :
  (Get r = None → Enable r a b = (None, r)) ∧
  (∀ prev r1, Enable r a b = (Some prev, r1) →
     Get r = Some prev ∧ Get r1 = Some (mkState true a b) ∧
     ∀ r2, Restore r1 prev = (true, r2) → Get r2 = Get r).
Proof.
  split; [intros Hg; unfold Enable; by rewrite Hg|]. intros prev r1 He.
  destruct (Enable_Get _ _ _ _ _ He) as [Hg Hg1]. split_and!; [done|done|].
  intros r2 Hr. rewrite Hg. by eapply Restore_Get; [eapply Get_opens|].
Qed.

End facts.

(** ** A registry *)

Module Memory.

(** Values in memory; writes to the read-only names fail. *)
Record registry := mkRegistry {
  dwords : gmap string Z;
  strings : gmap string string;
  readonly : gset string
}.

#[export] Instance memory : Registry registry := {
  OpenKey _ _ := true;
  GetIntegerValue r n := match dwords r !! n with Some v => Found v | None => Absent end;
  GetStringValue r n := match strings r !! n with Some v => Found v | None => Absent end;
  SetDWordValue r n v :=
    if bool_decide (n ∈ readonly r) then None else Some (mkRegistry (<[n := v]> (dwords r)) (strings r) (readonly r));
  SetStringValue r n v :=
    if bool_decide (n ∈ readonly r) then None else Some (mkRegistry (dwords r) (<[n := v]> (strings r)) (readonly r))
}.

#[export] Instance memory_laws : RegistryLaws registry.
Proof.
  split; cbn; intros r n v r'; case_bool_decide; try done; intros [= <-]; cbn;
    rewrite lookup_insert_eq; split_and!; try done; intros m Hm; by rewrite lookup_insert_ne.
Qed.

Definition default : registry := mkRegistry {[ "ProxyEnable" := 0 ]} {[ "ProxyServer" := "old:1" ]} ∅.
Definition locked : registry := mkRegistry {[ "ProxyEnable" := 0 ]} {[ "ProxyServer" := "old:1" ]} {[ "ProxyOverride" ]}.

End Memory.

Module Demo.

Import Memory.

Lemma restore_undoes_enable_witness :
  Get (Restore (Enable default "127.0.0.1:1080" "<local>").2 (mkState false "old:1" "")).2 = Get default.
Proof.
  destruct (restore_undoes_enable default "127.0.0.1:1080" "<local>") as [_ H].
  destruct (H (mkState false "old:1" "") (Enable default "127.0.0.1:1080" "<local>").2) as (_ & _ & Hr);
    [vm_compute; reflexivity|].
  apply Hr. vm_compute. reflexivity.
Defined.

(** An [Enable] that fails at its last write has switched the system to the proxy,
    and tells its caller nothing to restore. *)
Example failed_enable_keeps_the_proxy :
  (Enable locked "127.0.0.1:1080" "").1 = None ∧
  Get (Enable locked "127.0.0.1:1080" "").2 = Some (mkState true "127.0.0.1:1080" "") ∧
  Get locked = Some (mkState false "old:1" "").
Proof. vm_compute. done. Qed.

End Demo.
