(* ===== verification/Tun.v ===== *)
(** * The TUN device (tui/internal/tun/tun_windows.go, dns.go)

    The validation of a configuration, the commands that set up and take down the
    routes, the packets handed to the network stack, and the answers to DNS
    queries.  The stack, the driver and the HTTP client are libraries. *)

From S2P Require Import Prelude GoIP GoText GoNet GoHttp Dns.

(** ** net.ParseCIDR *)

Fixpoint mask_bytes (k : nat) (n : Z) : list Z :=
  match k with
  | O => []
  | S k => if 8 <=? n then 255 :: mask_bytes k (n - 8) else (255 - Z.shiftr 255 n) :: mask_bytes k 0
  end.

(** [net.CIDRMask], for [0 <= n <= bits]. *)
Definition CIDRMask (n bits : Z) : list Z := mask_bytes (Z.to_nat (bits / 8)) n.

Definition and_bytes (a b : list Z) : list Z := zip_with Z.land a b.

Record IPNet := mkIPNet { net_IP : list Z; net_Mask : list Z }.

(** [IP.Mask]; a nil result is empty. *)
Definition IP_Mask (ip mask : list Z) : list Z :=
  let ip := if (len mask =? 4) && (len ip =? 16) && bool_decide (take 12 ip = v4InV6Prefix) then drop 12 ip else ip in
  if len ip =? len mask then and_bytes ip mask else [].

(** A decimal number and nothing else. *)
Definition dtoi (l : text) : option Z := if bool_decide (l = []) || negb (forallb is_digit l) then None else Some (value l).

Definition ParseCIDR (l : text) : option (list Z * IPNet) :=
  '(addr, mask) ← cut_at l "/"%char;
  ip ← ParseIP addr;
  n ← dtoi mask;
  let bits := if bool_decide (":"%char ∈ addr) then 128 else 32 in
  if bits <? n then None
  else let m := CIDRMask n bits in Some (ip, mkIPNet (IP_Mask ip m) m).

(** [IPNet.Contains] *)
Definition Contains (n : IPNet) (ip : list Z) : bool :=
  let nn := default (net_IP n) (To4 (net_IP n)) in
  let m := if (len nn =? 4) && (len (net_Mask n) =? 16) then drop 12 (net_Mask n) else net_Mask n in
  let ip := default ip (To4 ip) in
  (len ip =? len nn) && bool_decide (and_bytes nn m = and_bytes ip m).

(** [strings.Fields] on a line of ASCII *)
Definition is_blank (c : ascii) : bool := bool_decide (code c ∈ [9; 10; 11; 12; 13; 32]).

Fixpoint Fields_from (l word : text) : list text :=
  match l with
  | [] => if bool_decide (word = []) then [] else [word]
  | c :: l =>
      if is_blank c then (if bool_decide (word = []) then [] else [word]) ++ Fields_from l []
      else Fields_from l (word ++ [c])
  end.
Definition Fields (l : text) : list text := Fields_from l [].

(** [strings.Split(l, "\n")] *)
Fixpoint lines_from (l line : text) : list text :=
  match l with
  | [] => [line]
  | c :: l => if bool_decide (code c = 10) then line :: lines_from l [] else lines_from l (line ++ [c])
  end.

Module Tun.

Record Config := mkConfig {
  Gateway : text;
  Subnet : text;
  MTU : Z;
  DoH : list text;
  ExcludeIP : list text
}.

Section tun.
(** [tcpip.NewSubnet] accepts an address and a mask. *)
Context (NewSubnet : list Z → list Z → bool).

Definition is_v4 (ip : list Z) : bool := match To4 ip with Some _ => true | None => false end.

(** The address and the mask of a subnet. *)
Definition parseCIDR (cidr : text) : fallible (list Z * IPNet) :=
  match ParseCIDR cidr with
  | None => fail "parse subnet"
  | Some (ip, ipnet) =>
      match To4 ip with
      | None => fail "subnet must be IPv4"
      | Some v4 => if NewSubnet v4 (net_Mask ipnet) then ret (v4, ipnet) else fail "subnet"
      end
  end.

Definition ipv4_address (l : text) : option (list Z) := ip ← ParseIP l; To4 ip.

Definition or_text (l def : text) : text := if bool_decide (l = []) then def else l.

Definition fill_config (cfg : Config) : Config :=
  mkConfig (or_text (Gateway cfg) (bytes "198.18.0.1")) (or_text (Subnet cfg) (bytes "198.18.0.0/15"))
    (if MTU cfg =? 0 then 1500 else MTU cfg) (DoH cfg) (ExcludeIP cfg).

(** The checks of [Create], before the device is made. *)
Definition Create_config (cfg : Config) : fallible Config :=
  let cfg := fill_config cfg in
  if (MTU cfg <? 576) || (65535 <? MTU cfg) then fail "tun: invalid MTU"
  else
    match ipv4_address (Gateway cfg), ParseIP (Gateway cfg) with
    | Some _, Some gateway =>
        match ParseCIDR (Subnet cfg) with
        | None => fail "parse subnet"
        | Some (_, subnet) =>
            if negb (is_v4 (net_IP subnet)) then fail "subnet must be IPv4"
            else if negb (Contains subnet gateway) then fail "tun: gateway is outside subnet"
            else
              _ ←? parseCIDR (Subnet cfg);
              if forallb (λ ip, match ipv4_address ip with Some _ => true | None => false end) (ExcludeIP cfg)
              then ret cfg else fail "tun: excluded address must be IPv4"
        end
    | _, _ => fail "tun: gateway must be an IPv4 address"
    end.

(** ** Routes *)

(** A command and its arguments. *)
Abbreviation command := (list text).

Definition words (l : list string) : list text := map bytes l.

(** The two halves of the address space. *)
Definition halves : list text := words ["0.0.0.0/1"; "128.0.0.0/1"].

Fixpoint mustAtoi_from (l : text) (n : Z) : Z :=
  match l with
  | [] => n
  | c :: l => if is_digit c then mustAtoi_from l (i64 (i64 (n * 10) + (code c - 48))) else n
  end.
Definition mustAtoi (l : text) : Z := mustAtoi_from l 0.

(** The address and the mask of one half: [SplitN] and [CIDRMask]. *)
Definition half_parts (cidr : text) : text * text :=
  match cut_at cidr "/"%char with
  | Some (ip, n) => (ip, IPString (CIDRMask (mustAtoi n) 32))
  | None => (cidr, [])
  end.

(** The default gateway in the output of [route print 0.0.0.0]. *)
Definition default_route (line : text) : option text :=
  match Fields line with
  | dest :: mask :: gw :: _ =>
      if bool_decide (dest = bytes "0.0.0.0") && bool_decide (mask = bytes "0.0.0.0") &&
         match ParseIP gw with Some _ => true | None => false end
      then Some gw else None
  | _ => None
  end.

(** [out] is [None] when the command failed; no gateway is the empty text. *)
Definition physicalGateway (out : option text) : text :=
  match out with
  | None => []
  | Some out => default [] (head (omap default_route (lines_from out [])))
  end.

Definition set_address (ifName gateway mask : text) : command :=
  words ["netsh"; "interface"; "ip"; "set"; "address"] ++ [bytes "name=" ++ ifName; bytes "static"; gateway; mask; bytes "none"].

Definition add_route (dest mask gw : text) : command :=
  words ["route"; "add"] ++ [dest; bytes "mask"; mask; gw; bytes "metric"; bytes "5"].

(** The commands of [setupRoutes] in order, or the error it returns before the
    routes when the physical gateway is not found; the first command has been run
    then. *)
Definition setupRoutes (cfg : Config) (ifName : text) (phyGW : text) : list command * bool :=
  match ParseCIDR (Subnet cfg) with
  | None => ([], false)
  | Some (_, ipnet) =>
      let addr := set_address ifName (Gateway cfg) (IPString (net_Mask ipnet)) in
      if negb (bool_decide (ExcludeIP cfg = [])) && bool_decide (phyGW = []) then ([addr], false)
      else
        (addr ::
         map (λ ip, add_route ip (bytes "255.255.255.255") phyGW) (ExcludeIP cfg) ++
         map (λ h, let '(ip, m) := half_parts h in add_route ip m (Gateway cfg)) halves, true)
  end.

(** The commands are run until one fails: what was run, and whether all was. *)
Fixpoint run_commands (cs : list command) (ok : command → bool) : list command * bool :=
  match cs with
  | [] => ([], true)
  | c :: cs => if ok c then let '(done, all) := run_commands cs ok in (c :: done, all) else ([c], false)
  end.

(** The gateway is given or left out. *)
Definition delete_route (dest mask : text) (gw : list text) : command :=
  words ["route"; "delete"] ++ [dest; bytes "mask"; mask] ++ gw.

(** [teardownRoutes] goes on whatever fails. *)
Definition teardownRoutes (cfg : Config) (ifName : text) (phyGW : text) : list command :=
  map (λ h, let '(ip, m) := half_parts h in delete_route ip m []) halves ++
  (if bool_decide (phyGW = []) then []
   else map (λ ip, delete_route ip (bytes "255.255.255.255") [phyGW]) (ExcludeIP cfg)) ++
  [words ["netsh"; "interface"; "ip"; "delete"; "address"] ++ [bytes "name=" ++ ifName; bytes "gateway=all"]].

(** ** Packets *)

Inductive protocol := IPv4 | IPv6.

(** A packet read from the device, and the protocol it is handed on as. *)
Definition inboundPacket (buf : list Z) (size : Z) : result (option (list Z * protocol)) :=
  if (size <=? 0) || (len buf <? size) then Ok None
  else
    b ← slice_get buf 0;
    if Z.shiftr b 4 =? 4 then p ← slice_to buf size; Ok (Some (p, IPv4))
    else if Z.shiftr b 4 =? 6 then p ← slice_to buf size; Ok (Some (p, IPv6))
    else Ok None.

(** ** DNS *)

(** The answer of an HTTP endpoint: an error, or a status and a body. *)
Definition endpoint : Type := option (Z * list Z).

Definition lookupOnce (r : endpoint) : fallible (list (list Z)) :=
  match r with
  | None => fail "doh request"
  | Some (status, body) =>
      if negb (status =? 200) then fail "doh status" else Dns.parseAnswers (take (Z.to_nat 65536) body)
  end.

(** The endpoints are tried in order; without one there is neither an address nor
    an error. *)
Fixpoint lookup (rs : list endpoint) (lastErr : option string) : fallible (list (list Z)) :=
  match rs with
  | [] => match lastErr with Some e => fail e | None => ret [] end
  | r :: rs =>
      x ← lookupOnce r;
      match x with
      | inr ips => ret ips
      | inl e => lookup rs (Some e)
      end
  end.

(** The reply to a datagram, [None] when it is left without one: only port 53 is
    served, and an error of the lookup is an empty answer. *)
Definition handleUDP (port : Z) (query : list Z) (rs : list endpoint) : result (option (list Z)) :=
  if negb (port =? 53) then Ok None
  else
    x ← lookup rs None;
    let ips := match x with inr ips => ips | inl _ => [] end in
    r ← Dns.buildResponse query ips 300;
    match r with
    | inr resp => Ok (Some resp)
    | inl _ => Ok None
    end.

End tun.

Example gateway_example :
  physicalGateway (Some (bytes "  0.0.0.0  128.0.0.0  198.18.0.1  198.18.0.1  5" ++ [byte 10] ++
    bytes "  0.0.0.0  0.0.0.0  192.168.1.1  192.168.1.7  25")) = bytes "192.168.1.1".
Proof. vm_compute. reflexivity. Qed.

Example cidr_example : snd <$> ParseCIDR (bytes "198.18.0.0/15") = Some (mkIPNet [198; 18; 0; 0] [255; 254; 0; 0]).
Proof. vm_compute. reflexivity. Qed.

Example half_example : map half_parts halves =
  [(bytes "0.0.0.0", bytes "128.0.0.0"); (bytes "128.0.0.0", bytes "128.0.0.0")].
Proof. vm_compute. reflexivity. Qed.

End Tun.
