(* ===== verification/TunSpec.v ===== *)
(** * Theorems about the TUN device

    Accepted configurations can be set up, routes are taken down as they were put
    up, and DNS queries are answered. *)

From S2P Require Import Prelude GoIP GoText GoNet GoNetFacts GoHttp Dns DnsSpec Tun.

Import Tun.

(** ** Configurations *)

Lemma or_text_idem l d : d ≠ [] → or_text (or_text l d) d = or_text l d.
Proof.
  unfold or_text. intros Hd. destruct (decide (l = [])) as [->|Hl].
  - by rewrite (bool_decide_eq_true_2 ([] = [])), bool_decide_eq_false_2.
  - by rewrite !(bool_decide_eq_false_2 (l = [])).
Qed.

Lemma fill_config_idem cfg : fill_config (fill_config cfg) = fill_config cfg.
Proof.
  unfold fill_config. cbn [Tun.Gateway Tun.Subnet Tun.MTU Tun.DoH Tun.ExcludeIP]. rewrite !or_text_idem by done.
  f_equal. destruct (Z.eqb_spec (MTU cfg) 0); [done|]. by destruct (Z.eqb_spec (MTU cfg) 0).
Qed.

Definition v4_ok (l : text) : Prop := is_Some (ipv4_address l).

(** What the checks establish. *)
Record accepted (NewSubnet : list Z → list Z → bool) (cfg : Config) : Prop := {
  a_mtu : 576 <= MTU cfg <= 65535;
  a_net : ∃ gw ip v4 subnet,
    ParseIP (Gateway cfg) = Some gw ∧ v4_ok (Gateway cfg) ∧
    ParseCIDR (Subnet cfg) = Some (ip, subnet) ∧ is_v4 (net_IP subnet) = true ∧ Contains subnet gw = true ∧
    To4 ip = Some v4 ∧ NewSubnet v4 (net_Mask subnet) = true;
  a_exclude : Forall v4_ok (ExcludeIP cfg)
}.

Lemma forallb_v4 l :
  forallb (λ ip, match ipv4_address ip with Some _ => true | None => false end) l = true ↔ Forall v4_ok l.
Proof.
  rewrite forallb_forall, Forall_forall. setoid_rewrite list_elem_of_In. unfold v4_ok.
  split; intros H x Hx; specialize (H x Hx); destruct (ipv4_address x); naive_solver.
Qed.

Lemma Create_config_iff NewSubnet cfg cfg' :
  Create_config NewSubnet cfg = ret cfg' ↔ cfg' = fill_config cfg ∧ accepted NewSubnet cfg'.
Proof.
  unfold Create_config. cbn zeta. generalize (fill_config cfg). clear cfg. intros cfg.
  destruct (Z.ltb_spec (MTU cfg) 576); [split; [done|intros [-> [? _ _]]; lia]|].
  destruct (Z.ltb_spec 65535 (MTU cfg)); [split; [done|intros [-> [? _ _]]; lia]|]. cbn [orb].
  destruct (ipv4_address (Gateway cfg)) as [g4|] eqn:Hg4.
  2: { split; [done|]. intros [-> [_ (? & ? & ? & ? & _ & [? Hv] & _) _]]. congruence. }
  destruct (ParseIP (Gateway cfg)) as [gw|] eqn:Hgw; [|by unfold ipv4_address in Hg4; rewrite Hgw in Hg4].
  destruct (ParseCIDR (Subnet cfg)) as [[ip subnet]|] eqn:Hs.
  2: { split; [done|]. intros [-> [_ (? & ? & ? & ? & _ & _ & ? & _) _]]. congruence. }
  unfold parseCIDR. rewrite Hs.
  destruct (is_v4 (net_IP subnet)) eqn:Hv, (Contains subnet gw) eqn:Hc; cbn [negb];
    try (split; [done|]; intros [-> [_ (gw' & ip' & v4' & sn' & Hg' & _ & Hs' & Hv' & Hc' & _) _]]; congruence).
  destruct (To4 ip) as [v4|] eqn:H4; cbn [try_bind fail].
  2: { split; [done|]. intros [-> [_ (gw' & ip' & v4' & sn' & _ & _ & Hs' & _ & _ & H4' & _) _]]. congruence. }
  destruct (NewSubnet v4 (net_Mask subnet)) eqn:Hn; cbn [try_bind fail ret].
  2: { split; [done|]. intros [-> [_ (gw' & ip' & v4' & sn' & _ & _ & Hs' & _ & _ & H4' & Hn') _]]. congruence. }
  destruct (forallb _ (ExcludeIP cfg)) eqn:He.
  - apply forallb_v4 in He. split; [|by intros [-> _]]. intros [= <-]. split; [done|]. split; [lia| |done].
    exists gw, ip, v4, subnet. split_and!; try done. by exists g4.
  - split; [done|]. intros [-> [_ _ He'%forallb_v4]]. congruence.
Qed.

(** A TUN configuration that [Create] accepts can be set up.  Its MTU is in range,
    its gateway is an IPv4 address inside its subnet, the subnet is one the network
    stack takes, every excluded address is IPv4; checking it again changes nothing;
    and once a physical gateway is known, or nothing is excluded, [setupRoutes]
    reaches its last command. *)
Theorem accepted_tun_config NewSubnet cfg cfg' :
  Create_config NewSubnet cfg = ret cfg' →
  accepted NewSubnet cfg' ∧ Create_config NewSubnet cfg' = ret cfg' ∧
  ∀ ifName gw, (gw ≠ [] ∨ ExcludeIP cfg = []) →
    (setupRoutes cfg' ifName gw).2 = true ∧
    len (setupRoutes cfg' ifName gw).1 = 3 + len (ExcludeIP cfg).
Proof.
  intros [-> Ha]%Create_config_iff. split_and!; [done| |].
  - apply Create_config_iff. by rewrite fill_config_idem.
  - intros ifName gw Hgw. destruct (a_net _ _ Ha) as (? & ip & ? & subnet & _ & _ & Hs & _).
    unfold setupRoutes. rewrite Hs.
    change (ExcludeIP (fill_config cfg)) with (ExcludeIP cfg).
    assert (negb (bool_decide (ExcludeIP cfg = [])) && bool_decide (gw = []) = false) as ->.
    { destruct Hgw as [Hgw|Hgw]; [by rewrite (bool_decide_eq_false_2 (gw = [])), andb_false_r|].
      by rewrite (bool_decide_eq_true_2 (ExcludeIP cfg = [])). }
    split; [done|]. cbn [fst]. unfold len. cbn [length]. rewrite length_app, !length_map. cbn [length halves words map]. lia.
Qed.

(** ** Routes *)

Lemma run_commands_subset cs ok : (run_commands cs ok).1 ⊆ cs.
Proof.
  induction cs as [|c cs IH]; [done|]. cbn [run_commands]. destruct (ok c); [|set_solver].
  destruct (run_commands cs ok). cbn in *. set_solver.
Qed.

Lemma add_route_inj d m g d' m' g' : add_route d m g = add_route d' m' g' → d = d' ∧ m = m' ∧ g = g'.
Proof. unfold add_route, words. cbn [map app]. by intros [= -> -> ->]. Qed.

Lemma add_route_not_address d m g n a k : add_route d m g ≠ set_address n a k.
Proof. unfold add_route, set_address, words. cbn [map app]. intros H. by injection H. Qed.

(** However far the set-up got, [teardownRoutes] deletes the routes it added. *)
Lemma added_routes_deleted cfg ifName gw ok d m g :
  add_route d m g ∈ (run_commands (setupRoutes cfg ifName gw).1 ok).1 →
  (g = Gateway cfg ∧ delete_route d m [] ∈ teardownRoutes cfg ifName gw) ∨
  (g = gw ∧ gw ≠ [] ∧ delete_route d m [gw] ∈ teardownRoutes cfg ifName gw).
Proof.
  unfold teardownRoutes, setupRoutes. intros Hin. apply run_commands_subset in Hin.
  destruct (ParseCIDR (Subnet cfg)) as [[ip subnet]|]; cbn [fst] in Hin; [|by apply elem_of_nil in Hin].
  destruct (negb (bool_decide (ExcludeIP cfg = [])) && bool_decide (gw = [])) eqn:Hgw; cbn [fst] in Hin.
  { apply list_elem_of_singleton in Hin. by apply add_route_not_address in Hin. }
  apply elem_of_cons in Hin as [Hin|Hin]; [by apply add_route_not_address in Hin|].
  apply elem_of_app in Hin as [Hin|Hin].
  + apply list_elem_of_fmap in Hin as (x & (-> & -> & ->)%add_route_inj & Hx). right.
    assert (gw ≠ []) as Hne.
    { intros ->. rewrite (bool_decide_eq_false_2 (ExcludeIP cfg = [])) in Hgw; [done|]. intros He. rewrite He in Hx.
      by apply elem_of_nil in Hx. }
    split_and!; [done|done|]. rewrite (bool_decide_eq_false_2 (gw = [])) by done.
    apply elem_of_app; right. apply elem_of_app; left.
    apply (list_elem_of_fmap_2 (λ ip, delete_route ip (bytes "255.255.255.255") [gw])). done.
  + apply list_elem_of_fmap in Hin as (h & Heq & Hh). left. destruct (half_parts h) as [hip hm] eqn:Hp.
    apply add_route_inj in Heq as (-> & -> & ->). split; [done|]. apply elem_of_app; left.
    apply list_elem_of_fmap. exists h. by rewrite Hp.
Qed.

(** The routes are taken down as they were put up.  However far [setupRoutes] got,
    and whichever commands of it failed, every route it added is deleted by
    [teardownRoutes] with the same destination and mask, and for the excluded
    servers the same gateway when the physical gateway is still the one it was;
    and [teardownRoutes] deletes no route but those [setupRoutes] adds. *)
Theorem teardown_matches_setup cfg ifName gw ok :
  (∀ d m g, add_route d m g ∈ (run_commands (setupRoutes cfg ifName gw).1 ok).1 →
     (g = Gateway cfg ∧ delete_route d m [] ∈ teardownRoutes cfg ifName gw) ∨
     (g = gw ∧ gw ≠ [] ∧ delete_route d m [gw] ∈ teardownRoutes cfg ifName gw)) ∧
  (∀ d m l, delete_route d m l ∈ teardownRoutes cfg ifName gw → (setupRoutes cfg ifName gw).2 = true →
     ∃ g, (l = [] ∨ l = [g]) ∧ add_route d m g ∈ (setupRoutes cfg ifName gw).1).
Proof.
  split; [intros d m g; apply added_routes_deleted|].
  unfold teardownRoutes, setupRoutes.
  intros d m l Hin Hok.
  destruct (ParseCIDR (Subnet cfg)) as [[ip subnet]|]; [|done].
  destruct (negb (bool_decide (ExcludeIP cfg = [])) && bool_decide (gw = [])) eqn:Hgw; [done|]. cbn [fst].
  rewrite !elem_of_app in Hin. destruct Hin as [Hin|[Hin|Hin]].
  + apply list_elem_of_fmap in Hin as (h & Heq & Hh). destruct (half_parts h) as [hip hm] eqn:Hp.
    unfold delete_route, words in Heq. cbn [map app] in Heq. injection Heq as -> -> ->. exists (Gateway cfg). split; [by left|].
    apply elem_of_cons; right. apply elem_of_app; right. apply list_elem_of_fmap. exists h. by rewrite Hp.
  + destruct (bool_decide (gw = [])); [by apply elem_of_nil in Hin|].
    apply list_elem_of_fmap in Hin as (x & Heq & Hx). unfold delete_route, words in Heq. cbn [map app] in Heq.
    injection Heq as -> -> ->. exists gw. split; [by right|].
    apply elem_of_cons; right. apply elem_of_app; left.
    apply (list_elem_of_fmap_2 (λ ip, add_route ip (bytes "255.255.255.255") gw)). done.
  + apply list_elem_of_singleton in Hin. unfold delete_route, words in Hin. cbn [map app] in Hin. by injection Hin.
Qed.

(** ** Packets and names *)

(** A packet is handed on whole, as the protocol its first four bits say. *)
Lemma inboundPacket_spec buf size :
  returns (inboundPacket buf size) (λ r,
    match r with
    | Some (p, proto) => 0 < size <= len buf ∧ p = take (Z.to_nat size) buf ∧
        ∃ b rest, buf = b :: rest ∧ Z.shiftr b 4 = (match proto with IPv4 => 4 | IPv6 => 6 end)
    | None => True
    end).
Proof.
  unfold inboundPacket. destruct (Z.leb_spec size 0); [by apply returns_ok|].
  destruct (Z.ltb_spec (len buf) size); [by apply returns_ok|]. cbn [orb].
  destruct buf as [|b rest]; [unfold len in *; cbn in *; lia|].
  assert (slice_get (b :: rest) 0 = Ok b) as -> by done. cbn [mbind result_bind].
  assert (∀ A (k : list Z → result A) P, returns (k (take (Z.to_nat size) (b :: rest))) P →
    returns (slice_to (b :: rest) size ≫= k) P) as Hslice.
  { intros A k P Hk. unfold slice_to. destruct (Z.leb_spec 0 size); [|lia].
    destruct (Z.leb_spec size (len (b :: rest))); [|lia]. exact Hk. }
  destruct (Z.eqb_spec (Z.shiftr b 4) 4); [apply Hslice, returns_ok; split_and!; [lia|lia|done|by exists b, rest]|].
  destruct (Z.eqb_spec (Z.shiftr b 4) 6); [apply Hslice, returns_ok; split_and!; [lia|lia|done|by exists b, rest]|].
  by apply returns_ok.
Qed.

(** A response cannot carry more addresses than its count says. *)
Lemma answersLoop_len n pkt : ∀ off acc ips, Dns.answersLoop n pkt off acc = Ok ips → len ips <= Z.of_nat n + len acc.
Proof.
  induction n as [|n IH]; intros off acc ips; cbn [Dns.answersLoop]; [intros [= <-]; lia|].
  pose proof (len_nonneg acc).
  destruct (negb _); [intros [= <-]; lia|]. destruct (len pkt <=? off); [intros [= <-]; lia|].
  intros (b & _ & Hrun)%bind_ok_inv. apply bind_ok_inv in Hrun as (off1 & _ & Hrun).
  destruct (len pkt <? off1 + 10); [injection Hrun as <-; lia|].
  apply bind_ok_inv in Hrun as (s1 & _ & Hrun). apply bind_ok_inv in Hrun as (typ & _ & Hrun).
  apply bind_ok_inv in Hrun as (s2 & _ & Hrun). apply bind_ok_inv in Hrun as (rdlen & _ & Hrun).
  destruct (len pkt <? _); [injection Hrun as <-; lia|].
  apply bind_ok_inv in Hrun as (acc1 & Hacc & Hrun). apply IH in Hrun.
  assert (len acc1 <= len acc + 1) as Hl; [|lia].
  destruct (_ && _); [apply bind_ok_inv in Hacc as (ip & _ & [= <-]); rewrite len_app; unfold len; cbn; lia|].
  destruct (_ && _); [apply bind_ok_inv in Hacc as (ip & _ & [= <-]); rewrite len_app; unfold len; cbn; lia|].
  injection Hacc as <-. lia.
Qed.

Lemma parseAnswers_count pkt ips : packet pkt → Dns.parseAnswers pkt = ret ips → len ips < 65536.
Proof.
  unfold Dns.parseAnswers. intros Hp Hrun. destruct (Z.ltb_spec (len pkt) 12) as [|Hlen]; [done|].
  pose proof Hp as Hb. do 12 (destruct pkt as [|? pkt]; [unfold len in *; cbn in *; lia|]).
  do 12 (apply Forall_cons in Hb as [? Hb]).
  erewrite (read_bytes _ [z; z0; z1; z2; z3; z4] z5 z6) in Hrun by done.
  destruct (Dns.skipQuestion _ _ _) as [[e|off]| |]; try done. cbn [try_bind] in Hrun.
  apply bind_ok_inv in Hrun as (l & Hl & Hrun). apply answersLoop_len in Hl.
  destruct (len l =? 0); [done|]. injection Hrun as <-. unfold byte_ok in *. unfold len at 2 in Hl. cbn in Hl. lia.
Qed.

(** The addresses an endpoint gives: it answers, with status 200, and the body (its
    first 64 KiB) is a response with addresses. *)
Definition addresses_of (r : endpoint) : option (list (list Z)) :=
  match r with
  | Some (status, body) =>
      if decide (status = 200) then
        match Dns.parseAnswers (take (Z.to_nat 65536) body) with Ok (inr ips) => Some ips | _ => None end
      else None
  | None => None
  end.

(** Those of the first endpoint that gives any, none if no endpoint does. *)
Definition resolved (rs : list endpoint) : list (list Z) := default [] (head (omap addresses_of rs)).

Lemma lookupOnce_returns r : match r with Some (_, body) => packet body | None => True end →
  returns (lookupOnce r) (ok_with (λ ips, len ips < 65536)).
Proof.
  unfold lookupOnce. destruct r as [[status body]|]; intros Hb; [|by apply returns_ok].
  destruct (negb _); [by apply returns_ok|].
  assert (packet (take (Z.to_nat 65536) body)) as Hp by by apply Forall_take.
  destruct (parseAnswers_returns (take (Z.to_nat 65536) body)) as (x & Hx & _); [done|].
  exists x. split; [done|]. destruct x as [e|ips]; [done|]. by apply parseAnswers_count in Hx.
Qed.

Definition bodies_ok (rs : list endpoint) : Prop :=
  Forall (λ r, match r with Some (_, body) => packet body | None => True end) rs.

Lemma lookup_returns rs e : bodies_ok rs → returns (lookup rs e) (ok_with (λ ips, len ips < 65536)).
Proof.
  intros Hrs. revert e. induction Hrs as [|r rs Hr _ IH]; intros e; cbn [lookup].
  - destruct e; by apply returns_ok.
  - eapply returns_bind; [by apply lookupOnce_returns|]. intros [e'|ips] Hips; [apply IH|by apply returns_ok].
Qed.

Lemma lookupOnce_addresses r x : lookupOnce r = Ok x →
  addresses_of r = match x with inr ips => Some ips | inl _ => None end.
Proof.
  unfold lookupOnce, addresses_of. destruct r as [[status body]|]; [|by intros [= <-]].
  destruct (Z.eqb_spec status 200) as [->|Hs]; cbn [negb].
  - rewrite decide_True by done. intros ->. by destruct x.
  - rewrite decide_False by done. by intros [= <-].
Qed.

Lemma lookup_resolved rs : ∀ e x, lookup rs e = Ok x → match x with inr ips => ips | inl _ => [] end = resolved rs.
Proof.
  induction rs as [|r rs IH]; intros e x; cbn [lookup]; [by destruct e; intros [= <-]|].
  intros (y & Hy & Hx)%bind_ok_inv. apply lookupOnce_addresses in Hy. unfold resolved. cbn [omap list_omap]. rewrite Hy.
  destruct y as [e'|ips]; [by apply IH in Hx|by injection Hx as <-].
Qed.


(** ** Witnesses *)

Module Demo.

(** A stack that takes a subnet when the address has no bits outside the mask. *)
Definition NewSubnet (a m : list Z) : bool := (len a =? len m) && bool_decide (and_bytes a m = a).

Definition profile : Config := mkConfig [] [] 0 [] [bytes "203.0.113.10"].

Lemma accepted_tun_config_witness :
  (setupRoutes (fill_config profile) (bytes "naivereal") (bytes "192.168.1.1")).2 = true.
Proof.
  destruct (accepted_tun_config NewSubnet profile (fill_config profile)) as (_ & _ & H); [vm_compute; reflexivity|].
  apply H. left. discriminate.
Defined.

Lemma teardown_matches_setup_witness :
  delete_route (bytes "203.0.113.10") (bytes "255.255.255.255") [bytes "192.168.1.1"] ∈
    teardownRoutes (fill_config profile) (bytes "naivereal") (bytes "192.168.1.1").
Proof.
  destruct (teardown_matches_setup (fill_config profile) (bytes "naivereal") (bytes "192.168.1.1") (λ _, true)) as [H _].
  destruct (H (bytes "203.0.113.10") (bytes "255.255.255.255") (bytes "192.168.1.1")) as [[Hg _]|(_ & _ & Hin)].
  - apply (bool_decide_eq_true_1 _). vm_compute. reflexivity.
  - discriminate Hg.
  - exact Hin.
Defined.

(** A query for [ab.], one endpoint that is down and one that answers. *)
Definition query : list Z := [18; 52; 1; 0; 0; 1; 0; 0; 0; 0; 0; 0; 2; 97; 98; 0; 0; 1; 0; 1].
Definition answer : list Z :=
  [0; 0; 129; 128; 0; 1; 0; 1; 0; 0; 0; 0; 2; 97; 98; 0; 0; 1; 0; 1; 192; 12; 0; 1; 0; 1; 0; 0; 0; 60; 0; 4; 1; 2; 3; 4].

Lemma bytes_packet l : forallb (λ b, (0 <=? b) && (b <? 256)) l = true → packet l.
Proof. intros H. apply Forall_forall. intros b Hb%list_elem_of_In. rewrite forallb_forall in H. specialize (H b Hb). unfold byte_ok. lia. Qed.


End Demo.
