(* ===== verification/App.v ===== *)
(** * The client session (tui/app.go, tui/app_tun_windows.go, tui/main.go)

    The program's messages are handled one at a time by [Update]; connecting starts
    the core, the listeners, the TUN device and the system proxy, disconnecting
    stops them.  The objects these calls create outlive the fields that point to
    them, so the session keeps every manager, device and context it has made, next
    to the fields of the model.  The core is used through what its manager
    promises, the class [Core]. *)

From stdpp Require Import gmap.
From S2P Require Import Prelude GoIP GoText GoNet GoHttp GoUrl ClientConfig ShareLink SysProxy EntryMgr Tun.

(** What the session needs of the core manager: [Start] with the result of writing the
    configuration, [Stop], the cancellation of a context, and the steps its
    goroutines take by themselves. *)
Class Core (C : Type) := {
  bg : Type;
  core_new : C;
  core_running : C → bool;
  core_start : C → nat → bool → bool * C;
  core_stop : C → C;
  core_cancel : C → nat → C;
  core_bg : C → bg → option C
}.

Class CoreLaws (C : Type) `{!Core C} := {
  core_new_idle : core_running core_new = false;
  core_start_spec c x files :
    if core_running c || negb files then core_start c x files = (false, c)
    else (core_start c x files).1 = true ∧ core_running (core_start c x files).2 = true;
  core_stop_idle c : core_running (core_stop c) = false;
  core_cancel_idle c x : core_running c = false → core_running (core_cancel c x) = false;
  core_bg_idle c e c' : core_bg c e = Some c' → core_running c = false → core_running c' = false
}.

Module App.

Import ClientConfig.

Section app.
Context {C : Type} `{!Core C} {R : Type} `{!Registry R}.
(** The text field's own handling of a key; the network stack's check of a subnet. *)
Context (input_update : string → string → string) (NewSubnet : list Z → list Z → bool).

Record model := mkModel {
  store : Store;
  core : C;
  entry : option nat;
  tun : option nat;
  cancel : option nat;
  state : string;
  err : string;
  tab : Z;
  logs : list string;
  cursor : Z;
  editing : bool;
  input : string;
  prevSP : SysProxy.State;
  spOn : bool;
  width : Z;
  height : Z;
  msg : string;
  quit : bool;
  (** the entry managers, open TUN devices and contexts made so far *)
  managers : list EntryMgr.Manager;
  devices : gset nat;
  next_ctx : nat;
  registry : R
}.

#[export] Instance eta_model : Eta model := fun m =>
  mkModel (store m) (core m) (entry m) (tun m) (cancel m) (state m) (err m) (tab m) (logs m) (cursor m)
    (editing m) (input m) (prevSP m) (spOn m) (width m) (height m) (msg m) (quit m) (managers m) (devices m)
    (next_ctx m) (registry m).

Implicit Types m : model.

Definition no_proxy : SysProxy.State := SysProxy.mkState false "" "".
Definition empty_store : Store := mkStore "" [] "" "" "".

(** [newModel], with the result of [config.Load]. *)
Definition newModel (loaded : option Store) (r : R) : model :=
  let m := mkModel empty_store core_new None None None "disconnected" "" 0 [] 0 false "" no_proxy false 0 0 ""
             false [] ∅ 0 r in
  match loaded with
  | None => m <| state := "error" |> <| err := "load config" |>
  | Some s => m <| store := s |>
  end.

(** What the outside world answers to the calls of one message: whether files could
    be written, the sockets bound, the addresses of the server, the TUN device, and
    whether the clipboard took a text. *)
Record outcome := mkOutcome {
  files_ok : bool;
  socks_bound : option nat;
  http_bound : option nat;
  lookup : option (list (list Z));
  device : option nat;
  clipboard_ok : bool
}.

Definition is_state m (s : string) : bool := bool_decide (state m = s).
Definition log m (l : string) : model := m <| logs := logs m ++ [l] |>.

(** ** The TUN device (app_tun_windows.go) *)

(** The IPv4 addresses of the server; [None] is an error. *)
Definition resolveServerIPv4 (server : text) (found : option (list (list Z))) : option (list text) :=
  match ParseIP server with
  | Some ip => match To4 ip with Some v4 => Some [IPString v4] | None => Some [] end
  | None =>
      match found with
      | None => None
      | Some ips =>
          match omap (λ ip, IPString <$> To4 ip) ips with
          | [] => None
          | out => Some out
          end
      end
  end.

(** [exclude] with the addresses of the server that it does not have yet. *)
Definition exclude_servers (exclude serverIPs : list text) : list text :=
  foldl (λ acc ip, if bool_decide (ip ∈ acc) then acc else acc ++ [ip]) exclude serverIPs.

Definition startTUN (o : outcome) (p : Profile) (t : TUNConfig) m : bool * model :=
  match resolveServerIPv4 (bytes (Server p)) (lookup o) with
  | None => (false, m)
  | Some serverIPs =>
      let exclude := exclude_servers (map bytes (ExcludeIP t)) serverIPs in
      let cfg := Tun.mkConfig (bytes (Gateway t)) (bytes (Subnet t)) (MTU t) (map bytes (DoH t)) exclude in
      match Tun.Create_config NewSubnet cfg, device o with
      | Ok (inr _), Some d => (true, log (m <| tun := Some d |> <| devices := {[ d ]} ∪ devices m |>) "tun: up")
      | _, _ => (false, m)
      end
  end.

Definition stopTUN m : model :=
  match tun m with
  | Some d => log (m <| devices := devices m ∖ {[ d ]} |> <| tun := None |>) "tun: down"
  | None => m
  end.

(** ** Connecting and disconnecting *)

(** A listener is asked for when its address is not empty. *)
Definition asked (addr : string) (r : option nat) : EntryMgr.bind_result :=
  if bool_decide (addr = "") then EntryMgr.NotAsked
  else match r with Some l => EntryMgr.Bound l | None => EntryMgr.BindFails end.

Definition entry_start (o : outcome) (p : Profile) (i : nat) m : bool * model :=
  match managers m !! i with
  | Some mg =>
      let '(ok, mg) := EntryMgr.Start mg (asked (LocalSocks p) (socks_bound o)) (asked (LocalHTTP p) (http_bound o)) in
      (ok, m <| managers := <[i := mg]> (managers m) |>)
  | None => (false, m)
  end.

Definition connect_tun (o : outcome) (p : Profile) m : model :=
  match TUN p with
  | Some t => if TUNEnabled t then let '(ok, m) := startTUN o p t m in if ok then m else log m "tun: error" else m
  | None => m
  end.

Definition connect_proxy (p : Profile) m : model :=
  match SystemProxy p with
  | Some sp =>
      if SysProxyEnabled sp then
        let '(prev, r) := SysProxy.Enable (registry m) (LocalSocks p) (Bypass sp) in
        let m := m <| registry := r |> in
        match prev with
        | None => log m "sysproxy: error"
        | Some prev => m <| prevSP := prev |> <| spOn := true |>
        end
      else m
  | None => m
  end.

Definition connect (o : outcome) m : model :=
  if is_state m "connected" || is_state m "connecting" then m
  else
    match Active (store m) with
    | None => m <| err := "no profile configured" |> <| state := "error" |>
    | Some p =>
        let x := next_ctx m in
        let i := length (managers m) in
        let m := m <| next_ctx := S x |> <| cancel := Some x |>
                   <| managers := managers m ++ [EntryMgr.NewManager] |> <| entry := Some i |>
                   <| state := "connecting" |> <| err := "" |> <| msg := "" |> in
        let '(ok, c) := core_start (core m) x (files_ok o) in
        let m := m <| core := c |> in
        if negb ok then m <| err := "core" |> <| state := "error" |>
        else
          let '(ok, m) := entry_start o p i m in
          if negb ok then
            let m := m <| err := "listen" |> <| state := "error" |> in
            m <| core := core_stop (core m) |>
          else
            let m := connect_proxy p (connect_tun o p m) in
            log (m <| state := "connected" |>) ("connected: " +:+ Name p)
    end.

Definition disconnect m : model :=
  let m := match cancel m with
           | Some x => m <| core := core_cancel (core m) x |> <| cancel := None |>
           | None => m
           end in
  let m := m <| core := core_stop (core m) |> in
  let m := match entry m with
           | Some i => m <| managers := alter EntryMgr.Stop i (managers m) |> <| entry := None |>
           | None => m
           end in
  let m := stopTUN m in
  let m := if spOn m
           then m <| registry := (SysProxy.Restore (registry m) (prevSP m)).2 |> <| spOn := false |>
           else m in
  if negb (is_state m "disconnected") && negb (is_state m "") then m <| state := "disconnected" |> else m.

(** ** Messages *)

Definition importLink (o : outcome) m : result model :=
  let link := TrimSpace (input m) in
  if bool_decide (link = "") then Ok m
  else
    r ← ShareLink.Parse link;
    match r with
    | inl e => Ok (m <| msg := "import: " +:+ e |>)
    | inr p =>
        let s := (store m) <| Profiles := Profiles (store m) ++ [p] |> in
        let s := if bool_decide (ActiveProfile s = "") then s <| ActiveProfile := Name p |> else s in
        let m := m <| store := s |> in
        if negb (files_ok o) then Ok (m <| msg := "save" |>) else Ok (m <| msg := "imported: " +:+ Name p |>)
    end.

Definition copyLink (o : outcome) m : result model :=
  match Active (store m) with
  | None => Ok (m <| msg := "no profile" |>)
  | Some p =>
      r ← ShareLink.Build p;
      match r with
      | inl e => Ok (m <| msg := "build link: " +:+ e |>)
      | inr _ => if negb (clipboard_ok o) then Ok (m <| msg := "clipboard" |>)
                 else Ok (m <| msg := "share link copied" |>)
      end
  end.

Definition activate (o : outcome) m : result model :=
  p ← slice_get (Profiles (store m)) (cursor m);
  let m := m <| store := (store m) <| ActiveProfile := Name p |> |> in
  if negb (files_ok o) then Ok (m <| msg := "save" |>) else Ok (m <| msg := "activated: " +:+ Name p |>).

Inductive message :=
  | WindowSizeMsg (w h : Z)
  | KeyMsg (key : string)
  | TickMsg
  | CoreExitMsg (reason : string)
  | CoreLogMsg (line : string).

(** At most 200 log lines are kept. *)
Definition append_log m (l : string) : model :=
  let ls := logs m ++ [l] in
  m <| logs := if 200 <? len ls then drop (Z.to_nat (len ls - 200)) ls else ls |>.

Definition edit_key (o : outcome) (key : string) m : result model :=
  if bool_decide (key = "enter") then
    m ← importLink o m; Ok (m <| editing := false |> <| input := "" |>)
  else if bool_decide (key = "esc") then Ok (m <| editing := false |> <| input := "" |>)
  else Ok (m <| input := input_update key (input m) |>).

Definition key (o : outcome) (k : string) m : result model :=
  let profiles := len (Profiles (store m)) in
  if bool_decide (k ∈ ["ctrl+c"; "q"]) then Ok ((disconnect m) <| quit := true |>)
  else if bool_decide (k = "tab") then Ok (m <| tab := Z.rem (tab m + 1) 3 |>)
  else if bool_decide (k = "c") then Ok (connect o m)
  else if bool_decide (k = "d") then Ok (disconnect m)
  else if bool_decide (k = "a") then Ok (if tab m =? 1 then m <| editing := true |> else m)
  else if bool_decide (k = "x") then copyLink o m
  else if bool_decide (k ∈ ["up"; "k"]) then
    Ok (if (tab m =? 1) && (0 <? cursor m) then m <| cursor := cursor m - 1 |> else m)
  else if bool_decide (k ∈ ["down"; "j"]) then
    Ok (if (tab m =? 1) && (cursor m <? profiles - 1) then m <| cursor := cursor m + 1 |> else m)
  else if bool_decide (k = "enter") then
    if (tab m =? 1) && (0 <? profiles) then activate o m else Ok m
  else Ok m.

Definition Update (o : outcome) (ms : message) m : result model :=
  match ms with
  | WindowSizeMsg w h => Ok (m <| width := w |> <| height := h |>)
  | KeyMsg k => if editing m then edit_key o k m else key o k m
  | TickMsg => Ok m
  | CoreExitMsg reason =>
      if bool_decide (reason = "") then Ok m
      else
        let m := if is_state m "connected" || is_state m "connecting" then m <| state := "reconnecting" |> else m in
        Ok (append_log m ("core exited: " +:+ reason +:+ " (restarting)"))
  | CoreLogMsg line => if bool_decide (line = "") then Ok m else Ok (append_log m line)
  end.

(** ** The session *)

(** The sockets and devices of a message are new. *)
Definition fresh_outcome (o : outcome) m : bool :=
  match socks_bound o with Some l => negb (bool_decide (http_bound o = Some l)) | None => true end &&
  match device o with Some d => negb (bool_decide (d ∈ devices m)) | None => true end.

(** A goroutine of a listener or of the core takes a step. *)
Definition goroutine (e : EntryMgr.event) : bool :=
  match e with EntryMgr.EStart _ _ | EntryMgr.EStop => false | _ => true end.

Inductive event :=
  | EMessage (o : outcome) (ms : message)
  | ECore (e : bg)
  | EEntry (i : nat) (e : EntryMgr.event).

Definition step m (e : event) : option model :=
  match e with
  | EMessage o ms =>
      if negb (quit m) && fresh_outcome o m
      then match Update o ms m with Ok m => Some m | _ => None end else None
  | ECore e => c ← core_bg (core m) e; Some (m <| core := c |>)
  | EEntry i e =>
      if goroutine e then
        mg ← managers m !! i;
        mg ← EntryMgr.step mg e;
        Some (m <| managers := <[i := mg]> (managers m) |>)
      else None
  end.

Fixpoint run (es : list event) m : option model :=
  match es with
  | [] => Some m
  | e :: es => m' ← step m e; run es m'
  end.

End app.

End App.
