(* ===== verification/AppCore.v ===== *)
(** * The core manager as the session uses it

    [CoreMgr] provides what the class [Core] asks for: a start is the two critical
    sections around the writing of the configuration, a stop is the critical
    section and the kill. *)

From stdpp Require Import gmap.
From S2P Require Import Prelude CoreMgr App.

Import CoreMgr.

Definition start_core (c : state) (x : nat) (files : bool) : bool * state :=
  let t := fresh (dom (starting c)) in
  let l := fresh (dom (loops c)) in
  match StartCheck c t x with
  | None => (false, c)
  | Some c1 =>
      if running c then (false, c1)
      else if negb files then (false, default c1 (StartAbort c1 t))
      else match StartCommit c1 t l with Some c2 => (true, c2) | None => (false, c1) end
  end.

Definition stop_core (c : state) : state :=
  let t := fresh (dom (stopping c)) in
  default c (c1 ← StopLock c t; StopKill c1 t).

(** A step of a goroutine or of a process. *)
Definition background (e : event) : bool :=
  match e with
  | ELoopTop _ _ | ELoopRun _ _ | EProcessEnds _ | ERunReturns _ | ELoopAfter _ | ELoopTimer _
  | ELoopCtxDone _ | ELoopLeave _ => true
  | _ => false
  end.

#[export] Instance core_manager : Core state := {
  bg := event;
  core_new := NewManager;
  core_running := running;
  core_start := start_core;
  core_stop := stop_core;
  core_cancel := Cancel;
  core_bg c e := if background e then step c e else None
}.

Lemma fresh_none {A} (m : gmap nat A) : m !! fresh (dom m) = None.
Proof. apply not_elem_of_dom, is_fresh. Qed.

Lemma background_idle c e c' : background e = true → step c e = Some c' → running c = false → running c' = false.
Proof.
  intros He Hs Hr. destruct e; try done; cbn [step] in Hs;
    unfold LoopTop, LoopRun, ProcessEnds, RunReturns, LoopAfter, LoopTimer, LoopCtxDone, LoopLeave in Hs;
    apply bind_Some in Hs as (lp & _ & Hs); repeat case_match; try done; injection Hs as <-; try done;
    unfold set_pc; cbn; by repeat case_match.
Qed.

#[export] Instance core_manager_laws : CoreLaws state.
Proof.
  split; cbn [core_running core_new core_start core_stop core_cancel core_bg core_manager].
  - done.
  - intros c x files. unfold start_core, StartCheck. rewrite fresh_none.
    destruct (running c) eqn:Hr; cbn [orb]; [done|]. destruct files; cbn [negb].
    + unfold StartCommit. cbn. rewrite lookup_insert_eq. cbn. rewrite Hr, fresh_none. done.
    + unfold StartAbort. cbn. rewrite lookup_insert_eq. cbn. f_equal.
      rewrite delete_insert_id by apply fresh_none. by destruct c.
  - intros c. unfold stop_core, StopLock. rewrite fresh_none. cbn. unfold StopKill. cbn. rewrite lookup_insert_eq. cbn.
    by repeat case_match.
  - done.
  - intros c e c'. destruct (background e) eqn:He; [|done]. by apply background_idle.
Qed.
