(* ===== verification/AppSpec.v ===== *)
(** * Theorems about the client session

    Disconnecting undoes connecting; the handlers of messages never panic; and a
    connection attempt while the core restarts loses the open listeners. *)

From stdpp Require Import gmap.
From S2P Require Import Prelude GoIP GoText GoNet GoHttp GoUrl ClientConfig ClientConfigSpec ShareLink SysProxy SysProxySpec CoreMgr EntryMgr EntryMgrSpec Tun App AppCore.

Import ClientConfig App.

(** ** Calls that always return *)

Lemma try_total {A B} (m : fallible A) (f : A → fallible B) :
  returns m (λ _, True) → (∀ a, returns (f a) (λ _, True)) → returns (try_bind m f) (λ _, True).
Proof. intros (r & -> & _) Hf. destruct r as [e|a]; cbn; [by apply returns_ok|apply Hf]. Qed.

Lemma validatePublicKey_total s : returns (ShareLink.validatePublicKey s) (λ _, True).
Proof. unfold ShareLink.validatePublicKey. repeat case_match; by apply returns_ok. Qed.

Lemma validateShortID_total s : returns (ShareLink.validateShortID s) (λ _, True).
Proof. unfold ShareLink.validateShortID. repeat case_match; by apply returns_ok. Qed.

Lemma Parse_total link : returns (ShareLink.Parse link) (λ _, True).
Proof.
  unfold ShareLink.Parse. destruct (url_Parse _) as [u|]; [|by apply returns_ok]. cbn zeta.
  destruct (_ && _); [by apply returns_ok|].
  apply try_total; [unfold ShareLink.link_port; repeat case_match; by apply returns_ok|]. intros port.
  case_bool_decide; [by apply returns_ok|].
  destruct (bool_decide (ToLower (of_bytes (Scheme u)) = "naivereal")); [|by apply returns_ok].
  apply try_total; [|intros; by apply returns_ok]. unfold ShareLink.link_reality. cbn zeta.
  case_bool_decide; [by apply returns_ok|].
  apply try_total; [apply validatePublicKey_total|]. intros _.
  apply try_total; [apply validateShortID_total|]. intros _. by apply returns_ok.
Qed.

Lemma Build_total p : returns (ShareLink.Build p) (λ _, True).
Proof.
  unfold ShareLink.Build. case_bool_decide; [by apply returns_ok|]. cbn zeta.
  destruct (_ || _); [by apply returns_ok|]. destruct (Reality p) as [r|]; [|by apply returns_ok].
  case_bool_decide; [by apply returns_ok|].
  apply try_total; [apply validatePublicKey_total|]. intros _.
  apply try_total; [apply validateShortID_total|]. intros _. by apply returns_ok.
Qed.

Section session.
Context {C : Type} `{!Core C} `{!CoreLaws C} {R : Type} `{!Registry R} `{!RegistryLaws R}.
Context (input_update : string → string → string) (NewSubnet : list Z → list Z → bool).
Implicit Types (m : @model C R) (o : outcome) (es : list (@event C _)).

Abbreviation Update := (App.Update input_update NewSubnet).
Abbreviation step := (App.step input_update NewSubnet).
Abbreviation run := (App.run input_update NewSubnet).
Abbreviation connect := (App.connect NewSubnet).

(** ** The cursor *)

Definition cursor_ok m : Prop := 0 <= cursor m ∧ (cursor m = 0 ∨ cursor m < len (Profiles (store m))).

(** What a message leaves of the profiles: none is removed. *)
Definition keeps_profiles m m' : Prop :=
  cursor m' = cursor m ∧ ∃ l, Profiles (store m') = Profiles (store m) ++ l.

Lemma keeps_same m m' : cursor m' = cursor m → store m' = store m → keeps_profiles m m'.
Proof. intros Hc Hs. split; [done|]. exists []. by rewrite Hs, app_nil_r. Qed.

Lemma keeps_cursor m m' : keeps_profiles m m' → cursor_ok m → cursor_ok m'.
Proof.
  intros [Hc [l Hl]] [? ?]. unfold cursor_ok. rewrite Hc, Hl, len_app. pose proof (len_nonneg l). lia.
Qed.

(** Leaving the program changes nothing else. *)
Lemma cursor_quit m : cursor_ok m → cursor_ok (m <| quit := true |>).
Proof. by destruct m. Qed.

(** *** What connecting and disconnecting change *)

Lemma connect_tun_shape o p m : ∃ t d l,
  connect_tun NewSubnet o p m = m <| tun := t |> <| devices := d |> <| logs := l |> ∧
  (t = tun m ∧ d = devices m ∨ ∃ x, device o = Some x ∧ t = Some x ∧ d = {[ x ]} ∪ devices m).
Proof.
  assert (∀ l, ∃ t d l', m <| logs := l |> = m <| tun := t |> <| devices := d |> <| logs := l' |> ∧
    (t = tun m ∧ d = devices m ∨ ∃ x, device o = Some x ∧ t = Some x ∧ d = {[ x ]} ∪ devices m)) as Hsame
    by (intros l; exists (tun m), (devices m), l; split; [by destruct m|by left]).
  pose proof (Hsame (logs m)) as Hid.
  assert (m <| logs := logs m |> = m) as Heq by by destruct m. rewrite Heq in Hid. clear Heq.
  unfold connect_tun. destruct (TUN p) as [t|]; [|exact Hid]. destruct (TUNEnabled t); [|exact Hid].
  unfold startTUN. destruct (resolveServerIPv4 _ _) as [ips|]; [|apply Hsame]. cbn zeta.
  destruct (Tun.Create_config _ _) as [[e|cfg]| |]; try apply Hsame.
  destruct (device o) as [d|] eqn:Hd; [|apply Hsame].
  exists (Some d), ({[ d ]} ∪ devices m), (logs m ++ ["tun: up"]). split; [done|right; by exists d].
Qed.

Lemma connect_proxy_shape p m : ∃ r q on l,
  connect_proxy p m = m <| registry := r |> <| prevSP := q |> <| spOn := on |> <| logs := l |> ∧
  (r = registry m ∧ q = prevSP m ∧ on = spOn m ∨
   ∃ a b st, SysProxy.Enable (registry m) a b = (st, r) ∧
     match st with Some prev => q = prev ∧ on = true | None => q = prevSP m ∧ on = spOn m end).
Proof.
  assert (m = m <| registry := registry m |> <| prevSP := prevSP m |> <| spOn := spOn m |> <| logs := logs m |>) as Hid
    by by destruct m.
  unfold connect_proxy. destruct (SystemProxy p) as [sp|]; [destruct (SysProxyEnabled sp)|].
  2,3: exists (registry m), (prevSP m), (spOn m), (logs m); split; [exact Hid|by left].
  destruct (SysProxy.Enable _ _ _) as [[prev|] r] eqn:He.
  - exists r, prev, true, (logs m). split; [by destruct m|]. right. by eexists _, _, _.
  - exists r, (prevSP m), (spOn m), (logs m ++ ["sysproxy: error"]). split; [by destruct m|]. right. by eexists _, _, _.
Qed.

(** What stays the same in all of [connect] after its first lines. *)
Record connected_from m m' : Prop := {
  cf_cursor : cursor m' = cursor m;
  cf_store : store m' = store m;
  cf_editing : editing m' = editing m;
  cf_quit : quit m' = quit m;
  cf_entry : entry m' = Some (length (managers m))
}.

Definition failed_connect m m' : Prop :=
  state m' = "error" ∧ tun m' = tun m ∧ devices m' = devices m ∧ registry m' = registry m ∧
  spOn m' = spOn m ∧ prevSP m' = prevSP m ∧
  (core m' = core m ∨ ∃ c, core m' = core_stop c).

Definition made_connect o m m' : Prop :=
  state m' = "connected" ∧ (∃ d l, core_start (core m) d l = (true, core m')) ∧
  (tun m' = tun m ∧ devices m' = devices m ∨ ∃ x, device o = Some x ∧ tun m' = Some x ∧ devices m' = {[ x ]} ∪ devices m) ∧
  (registry m' = registry m ∧ prevSP m' = prevSP m ∧ spOn m' = spOn m ∨
   ∃ a b st, SysProxy.Enable (registry m) a b = (st, registry m') ∧
     match st with Some prev => prevSP m' = prev ∧ spOn m' = true | None => prevSP m' = prevSP m ∧ spOn m' = spOn m end).

Lemma core_start_failed (c c' : C) x f : core_start c x f = (false, c') → c' = c.
Proof.
  intros H. pose proof (core_start_spec c x f) as Hs. rewrite H in Hs. destruct (_ || _); [by injection Hs|].
  by destruct Hs.
Qed.

(** [Start] of a new entry manager. *)
Definition start_entry o (p : Profile) : bool * EntryMgr.Manager :=
  EntryMgr.Start EntryMgr.NewManager (asked (LocalSocks p) (socks_bound o)) (asked (LocalHTTP p) (http_bound o)).

Lemma connect_spec o m p :
  Active (store m) = Some p → is_state m "connected" || is_state m "connecting" = false →
  connected_from m (connect o m) ∧
  ∃ mg, managers (connect o m) = managers m ++ [mg] ∧
    ((failed_connect m (connect o m) ∧ (mg = EntryMgr.NewManager ∨ start_entry o p = (false, mg))) ∨
     (made_connect o m (connect o m) ∧ start_entry o p = (true, mg))).
Proof.
  intros Hp Hs. unfold App.connect. rewrite Hs, Hp. cbn zeta.
  set (m1 := m <| next_ctx := _ |> <| cancel := _ |> <| managers := _ |> <| entry := _ |> <| state := _ |>
    <| err := _ |> <| msg := _ |>).
  change (core m1) with (core m). change (next_ctx m1) with (S (next_ctx m)).
  destruct (core_start (core m) (next_ctx m) (files_ok o)) as [[] c] eqn:Hc; cbn [negb].
  2: { apply core_start_failed in Hc as ->. split; [by split|].
       exists EntryMgr.NewManager. split; [done|].
       left. split; [|by left]. split_and!; try done. by left. }
  unfold entry_start. change (managers (m1 <| core := c |>)) with (managers m ++ [EntryMgr.NewManager]).
  rewrite list_lookup_middle by done.
  fold (start_entry o p). destruct (start_entry o p) as [[] mg] eqn:He; cbn [negb].
  2: { split; [by split|]. exists mg. split; [cbn; by rewrite insert_app_r_alt, Nat.sub_diag by done|].
       left. split; [|by right]. split_and!; try done. right. by eexists. }
  set (m2 := m1 <| core := c |> <| managers := _ |>).
  destruct (connect_tun_shape o p m2) as (t & d & l & -> & Ht).
  set (m3 := m2 <| tun := t |> <| devices := d |> <| logs := l |>).
  destruct (connect_proxy_shape p m3) as (r & q & on & l' & -> & Hr).
  split; [by split|]. exists mg. split.
  - cbn. rewrite insert_app_r_alt, Nat.sub_diag by done. done.
  - right. split; [|done]. split_and!; [done|by eexists _, _|exact Ht|exact Hr].
Qed.

Record disconnected_from m m' : Prop := {
  df_cursor : cursor m' = cursor m;
  df_store : store m' = store m;
  df_entry : entry m' = None;
  df_cancel : cancel m' = None;
  df_tun : tun m' = None;
  df_devices : devices m' = match tun m with Some d => devices m ∖ {[ d ]} | None => devices m end;
  df_core : ∃ c, core m' = core_stop c;
  df_managers : managers m' = match entry m with Some i => alter EntryMgr.Stop i (managers m) | None => managers m end;
  df_proxy : spOn m' = false;
  df_registry : registry m' = if spOn m then (SysProxy.Restore (registry m) (prevSP m)).2 else registry m;
  df_state : state m' = (if bool_decide (state m = "") then "" else "disconnected")
}.

(** The last lines of [disconnect]. *)
Lemma disconnect_tail m k :
  entry k = None → cancel k = None → cursor k = cursor m → store k = store m → tun k = tun m →
  devices k = devices m → (∃ c, core k = core_stop c) →
  managers k = match entry m with Some i => alter EntryMgr.Stop i (managers m) | None => managers m end →
  spOn k = spOn m → prevSP k = prevSP m → registry k = registry m → state k = state m →
  let k := stopTUN k in
  let k := if spOn k then k <| registry := (SysProxy.Restore (registry k) (prevSP k)).2 |> <| spOn := false |> else k in
  disconnected_from m (if negb (is_state k "disconnected") && negb (is_state k "") then k <| state := "disconnected" |> else k).
Proof.
  intros He Hx Hcu Hst Ht Hd Hco Hm Hon Hq Hr Hs. cbn zeta.
  assert (tun (stopTUN k) = None ∧ devices (stopTUN k) = match tun m with Some d => devices m ∖ {[ d ]} | None => devices m end ∧
    ∃ l, stopTUN k = k <| tun := None |> <| devices := devices (stopTUN k) |> <| logs := l |>) as (H1 & H2 & l & ->).
  { unfold stopTUN, log. rewrite Ht, <- Hd. destruct (tun m) eqn:E; [|].
    - split_and!; [done|done|]. by eexists.
    - split_and!; [done|done|]. exists (logs k). destruct k. cbn in *. by rewrite Ht. }
  clear H1. set (k2 := k <| tun := None |> <| devices := devices (stopTUN k) |> <| logs := l |>).
  set (k3 := if spOn k2 then _ else k2).
  assert (cursor k3 = cursor m ∧ store k3 = store m ∧ entry k3 = None ∧ cancel k3 = None ∧ tun k3 = None ∧
    devices k3 = devices (stopTUN k) ∧ core k3 = core k ∧ managers k3 = managers k ∧ spOn k3 = false ∧
    registry k3 = (if spOn m then (SysProxy.Restore (registry m) (prevSP m)).2 else registry m) ∧ state k3 = state m)
    as (E1 & E2 & E3 & E4 & E5 & E6 & E7 & E8 & E9 & E10 & E11).
  { subst k3. change (spOn k2) with (spOn k). rewrite <- Hon, <- Hr, <- Hq.
    destruct (spOn k) eqn:E; split_and!; try done. }
  clearbody k3. clear k2. rewrite H2 in E6.
  unfold is_state. rewrite E11.
  destruct (bool_decide (state m = "")) eqn:Hemp.
  - rewrite andb_false_r. split; try done; [by rewrite E7|by rewrite E8|].
    rewrite Hemp, E11. by apply bool_decide_eq_true in Hemp.
  - cbn [negb]. rewrite andb_true_r.
    destruct (bool_decide (state m = "disconnected")) eqn:Hdis; cbn [negb]; split; cbn; rewrite ?E7, ?E8; try done.
    + rewrite Hemp, E11. by apply bool_decide_eq_true in Hdis.
    + by rewrite Hemp.
Qed.

Lemma disconnect_spec m : disconnected_from m (disconnect m).
Proof.
  unfold disconnect. destruct (cancel m) eqn:Hc, (entry m) eqn:He; apply disconnect_tail; cbn; rewrite ?He; try done;
    by eexists.
Qed.

(** *** The other messages *)

(** They leave every object alone; the core's exit may turn the state. *)
Record quiet m m' : Prop := {
  q_entry : entry m' = entry m;
  q_cancel : cancel m' = cancel m;
  q_tun : tun m' = tun m;
  q_devices : devices m' = devices m;
  q_managers : managers m' = managers m;
  q_core : core m' = core m;
  q_registry : registry m' = registry m;
  q_proxy : spOn m' = spOn m ∧ prevSP m' = prevSP m;
  q_quit : quit m' = quit m;
  q_state : state m' = state m ∨ (state m = "connected" ∨ state m = "connecting") ∧ state m' = "reconnecting";
  q_cursor : cursor_ok m → cursor_ok m'
}.

Lemma quiet_refl m : quiet m m.
Proof. split; try done. by left. Qed.

Lemma quiet_trans m1 m2 m3 : quiet m1 m2 → quiet m2 m3 → quiet m1 m3.
Proof.
  intros [] []. split; try congruence; [destruct q_proxy0, q_proxy1; split; congruence| |auto].
  destruct q_state0 as [H|[H H']], q_state1 as [K|[K K']]; rewrite ?H in *; rewrite ?H' in *; auto.
Qed.

Ltac quiet_step := (split; try done; [by left|try (intros ?; done)]).

Lemma quiet_msg m s : quiet m (m <| msg := s |>).
Proof. split; try done. by left. Qed.

Lemma importLink_quiet o m : returns (importLink o m) (quiet m).
Proof.
  unfold importLink. cbn zeta. case_bool_decide; [apply returns_ok, quiet_refl|].
  eapply returns_bind; [apply Parse_total|]. intros [e|p] _; [apply returns_ok, quiet_msg|].
  set (s := if bool_decide (ActiveProfile _ = "") then _ else _).
  assert (Profiles s = Profiles (store m) ++ [p]) as Hs by (unfold s; by case_bool_decide).
  assert (quiet m (m <| store := s |>)) as Hq.
  { split; try done; [by left|]. apply keeps_cursor. split; [done|]. exists [p]. exact Hs. }
  destruct (negb _); apply returns_ok; (eapply quiet_trans; [exact Hq|apply quiet_msg]).
Qed.

Lemma copyLink_quiet o m : returns (copyLink o m) (quiet m).
Proof.
  unfold copyLink. destruct (Active (store m)) as [p|]; [|apply returns_ok, quiet_msg].
  eapply returns_bind; [apply Build_total|]. intros [e|l] _; [apply returns_ok, quiet_msg|].
  destruct (negb _); apply returns_ok, quiet_msg.
Qed.

Lemma activate_quiet o m : 0 < len (Profiles (store m)) → cursor_ok m → returns (activate o m) (quiet m).
Proof.
  intros Hl [H0 Hc]. unfold activate.
  destruct (slice_get_returns (Profiles (store m)) (cursor m)) as (p & Hp & _); [lia|]. rewrite Hp. cbn [mbind result_bind].
  assert (quiet m (m <| store := (store m) <| ActiveProfile := Name p |> |>)) as Hq by (split; try done; by left).
  destruct (negb _); apply returns_ok; (eapply quiet_trans; [exact Hq|apply quiet_msg]).
Qed.

Lemma append_log_quiet m l : quiet m (append_log m l).
Proof. split; try done. by left. Qed.

Lemma edit_key_quiet o k m : returns (edit_key input_update o k m) (quiet m).
Proof.
  unfold edit_key. case_bool_decide.
  - eapply returns_bind; [apply importLink_quiet|]. intros m' Hm. apply returns_ok.
    eapply quiet_trans; [exact Hm|]. split; try done. by left.
  - case_bool_decide; apply returns_ok; split; try done; by left.
Qed.

(** What a message does: it connects, disconnects, or is quiet. *)
Inductive effect o (ms : message) m m' : Prop :=
  | connects : editing m = false → ms = KeyMsg "c" → m' = connect o m → effect o ms m m'
  | disconnects : m' = disconnect m ∨ m' = (disconnect m) <| quit := true |> → effect o ms m m'
  | is_quiet : quiet m m' → effect o ms m m'.

Lemma key_effect o k m : editing m = false → cursor_ok m → returns (key NewSubnet o k m) (effect o (KeyMsg k) m).
Proof.
  intros He Hc. unfold key. cbn zeta.
  case_bool_decide; [apply returns_ok, disconnects; by right|].
  case_bool_decide; [apply returns_ok, is_quiet; split; try done; by left|].
  case_bool_decide; [subst k; by apply returns_ok, connects|].
  case_bool_decide; [apply returns_ok, disconnects; by left|].
  case_bool_decide; [apply returns_ok, is_quiet; destruct (tab m =? 1); split; try done; by left|].
  case_bool_decide; [eapply returns_mono; [apply copyLink_quiet|apply is_quiet]|].
  case_bool_decide.
  { apply returns_ok, is_quiet. destruct (tab m =? 1); cbn [andb]; [|apply quiet_refl].
    destruct (Z.ltb_spec 0 (cursor m)); [|apply quiet_refl]. split; try done; [by left|].
    unfold cursor_ok. cbn. lia. }
  case_bool_decide.
  { apply returns_ok, is_quiet. destruct (tab m =? 1); cbn [andb]; [|apply quiet_refl].
    destruct (Z.ltb_spec (cursor m) (len (Profiles (store m)) - 1)); [|apply quiet_refl]. split; try done; [by left|].
    unfold cursor_ok. cbn. lia. }
  case_bool_decide; [|apply returns_ok, is_quiet, quiet_refl].
  destruct (tab m =? 1); cbn [andb]; [|apply returns_ok, is_quiet, quiet_refl].
  destruct (Z.ltb_spec 0 (len (Profiles (store m)))); [|apply returns_ok, is_quiet, quiet_refl].
  eapply returns_mono; [by apply activate_quiet|apply is_quiet].
Qed.

Lemma Update_effect o ms m : cursor_ok m → returns (Update o ms m) (effect o ms m).
Proof.
  intros Hc. destruct ms as [w h|k| |reason|line]; cbn [App.Update].
  - apply returns_ok, is_quiet. split; try done. by left.
  - destruct (editing m) eqn:He; [|by apply key_effect].
    eapply returns_mono; [apply edit_key_quiet|apply is_quiet].
  - apply returns_ok, is_quiet, quiet_refl.
  - case_bool_decide; [apply returns_ok, is_quiet, quiet_refl|].
    apply returns_ok, is_quiet. eapply quiet_trans; [|apply append_log_quiet].
    destruct (is_state m "connected" || is_state m "connecting") eqn:E; [|apply quiet_refl].
    split; try done. right. split; [|done]. unfold is_state in E.
    apply orb_true_iff in E as [E%bool_decide_eq_true|E%bool_decide_eq_true]; auto.
  - case_bool_decide; apply returns_ok, is_quiet; [apply quiet_refl|apply append_log_quiet].
Qed.

(** ** Reachable sessions *)

Lemma goroutine_keeps mg e mg' : goroutine e = true → EntryMgr.step mg e = Some mg' →
  EntryMgr.closed mg' = EntryMgr.closed mg ∧ EntryMgr.open_listeners mg' = EntryMgr.open_listeners mg ∧
  mg ≠ EntryMgr.NewManager.
Proof.
  intros Hg Hs. destruct e as [| | | | | |]; try done; cbn [EntryMgr.step] in Hs.
  - unfold EntryMgr.AcceptConn in Hs. destruct (EntryMgr.loops mg !! l) as [[]|] eqn:Hl, (EntryMgr.handlers mg !! c); try done.
    destruct (_ && _); [|done]. injection Hs as <-. split_and!; try done. by intros ->.
  - unfold EntryMgr.AcceptFails in Hs. destruct (EntryMgr.loops mg !! l) as [[]|] eqn:Hl; try done.
    injection Hs as <-. split_and!; try done. by intros ->.
  - unfold EntryMgr.Track in Hs. destruct (EntryMgr.loops mg !! l) as [[]|] eqn:Hl; try done.
    destruct (EntryMgr.closed mg) eqn:Hc; injection Hs as <-; split_and!; try done; by intros ->.
  - unfold EntryMgr.HandlerReturns in Hs. case_decide as Hh; [|done]. injection Hs as <-. split_and!; try done. by intros ->.
  - unfold EntryMgr.Untrack in Hs. case_decide as Hh; [|done]. injection Hs as <-. split_and!; try done. by intros ->.
Qed.

(** The UI part of a step. *)
Lemma step_message o ms m m' : step m (EMessage o ms) = Some m' →
  quit m = false ∧ fresh_outcome o m = true ∧ Update o ms m = Ok m'.
Proof.
  cbn [App.step]. destruct (quit m); [done|]. cbn [negb andb]. destruct (fresh_outcome o m); [|done].
  destruct (Update o ms m) as [m1| |]; try done. by intros [= ->].
Qed.

Lemma step_cursor m e m' : cursor_ok m → step m e = Some m' → cursor_ok m'.
Proof.
  intros Hc. destruct e as [o ms|e|i e].
  - intros (_ & _ & Hu)%step_message. destruct (Update_effect o ms m Hc) as (m1 & H1 & He).
    rewrite H1 in Hu. injection Hu as ->. destruct He as [_ _ ->|Hd|Hq]; [| |by apply Hq].
    + destruct (is_state m "connected" || is_state m "connecting") eqn:Hs; [unfold App.connect; by rewrite Hs|].
      destruct (Active (store m)) as [p|] eqn:Hp; [|unfold App.connect; by rewrite Hs, Hp].
      destruct (connect_spec o m p Hp Hs) as [[] _]. unfold cursor_ok in *. by rewrite cf_cursor0, cf_store0.
    + assert (cursor_ok (disconnect m)) as Hok
        by (destruct (disconnect_spec m); unfold cursor_ok in *; by rewrite df_cursor0, df_store0).
      destruct Hd as [-> | ->]; [exact Hok|by apply cursor_quit].
  - cbn [App.step]. intros (c & _ & [= <-])%bind_Some. done.
  - cbn [App.step]. destruct (goroutine e); [|done]. intros (mg & _ & Hs)%bind_Some.
    apply bind_Some in Hs as (mg' & _ & [= <-]). done.
Qed.

Lemma run_keeps (P : @model C R → Prop) es m m' :
  (∀ m e m', P m → step m e = Some m' → P m') → P m → run es m = Some m' → P m'.
Proof.
  intros Hstep. revert m. induction es as [|e es IH]; intros m Hm; cbn [App.run]; [by intros [= <-]|].
  intros (m1 & H1 & Hrun)%bind_Some. by eapply IH; [eapply Hstep|].
Qed.

(** The session never panics.  From the start of the program on, whatever messages
    came and whatever files, sockets, devices and the core did in between, handling
    one more message returns, and the cursor of the profile list points at a
    profile whenever there is one. *)
Theorem update_never_panics loaded r0 es m :
  run es (newModel loaded r0) = Some m →
  (∀ o ms, ∃ m', Update o ms m = Ok m') ∧
  0 <= cursor m ∧ (cursor m = 0 ∨ cursor m < len (Profiles (store m))).
Proof.
  intros Hrun. assert (cursor_ok m) as Hc.
  { eapply run_keeps; [by apply step_cursor| |exact Hrun]. destruct loaded; (split; [done|by left]). }
  split; [|exact Hc]. intros o ms. destruct (Update_effect o ms m Hc) as (m' & Hm & _). by exists m'.
Qed.

(** ** Losing the listeners *)

(** A manager the session no longer points to, with an open listener. *)
Definition lost (i : nat) (l : nat) m : Prop :=
  entry m ≠ Some i ∧ ∃ mg, managers m !! i = Some mg ∧ l ∈ EntryMgr.open_listeners mg.

Lemma lost_quit i l m : lost i l m → lost i l (m <| quit := true |>).
Proof. by destruct m. Qed.

Lemma lost_connect i l o m : lost i l m → lost i l (connect o m).
Proof.
  intros (He & mg & Hi & Hl).
  destruct (is_state m "connected" || is_state m "connecting") eqn:Hs; [unfold App.connect; by rewrite Hs; split; [|exists mg]|].
  destruct (Active (store m)) as [p|] eqn:Hp; [|unfold App.connect; rewrite Hs, Hp; by split; [|exists mg]].
  destruct (connect_spec o m p Hp Hs) as [[] (mg' & Hm & _)]. split.
  - rewrite cf_entry0. intros [= <-]. apply lookup_lt_Some in Hi. lia.
  - exists mg. rewrite Hm. split; [by apply lookup_app_l_Some|done].
Qed.

Lemma lost_disconnect i l m : lost i l m → lost i l (disconnect m).
Proof.
  intros (He & mg & Hi & Hl). destruct (disconnect_spec m). split; [by rewrite df_entry0|].
  exists mg. split; [|done]. rewrite df_managers0. destruct (entry m) as [j|]; [|done].
  by rewrite list_lookup_alter_ne by congruence.
Qed.

Lemma lost_step i l m e m' : cursor_ok m ∧ lost i l m → step m e = Some m' → cursor_ok m' ∧ lost i l m'.
Proof.
  intros [Hc Hlost] Hs. split; [by eapply step_cursor|]. destruct e as [o ms|e|j e].
  - apply step_message in Hs as (_ & _ & Hu). destruct (Update_effect o ms m Hc) as (m1 & H1 & He).
    rewrite H1 in Hu. injection Hu as ->. destruct He as [_ _ ->|[-> | ->]|[]].
    + by apply lost_connect.
    + by apply lost_disconnect.
    + by apply lost_quit, lost_disconnect.
    + destruct Hlost as (He & mg & Hi & Hl). split; [by rewrite q_entry0|]. exists mg. by rewrite q_managers0.
  - cbn [App.step] in Hs. apply bind_Some in Hs as (c & _ & [= <-]). exact Hlost.
  - cbn [App.step] in Hs. destruct (goroutine e) eqn:Hg; [|done].
    apply bind_Some in Hs as (mg & Hj & Hs). apply bind_Some in Hs as (mg' & Hs & [= <-]).
    destruct Hlost as (He & mg0 & Hi & Hl). split; [done|]. cbn.
    destruct (decide (i = j)) as [->|Hne].
    + exists mg'. rewrite list_lookup_insert_eq by by eapply lookup_lt_Some. split; [done|].
      rewrite Hj in Hi. injection Hi as ->. apply goroutine_keeps in Hs as (_ & -> & _); done.
    + exists mg0. by rewrite list_lookup_insert_ne by done.
Qed.

(** Connecting while the core restarts loses the listeners.  When the core exits
    by itself the session's state becomes "reconnecting", in which [connect] is not
    refused: it makes a new entry manager over the pointer to the running one.
    From then on, whatever the user does, the old manager's listeners stay open:
    no disconnect or quit ever closes them, and their addresses stay taken. *)
Theorem reconnect_loses_listeners loaded r0 es0 m i mg l o m1 es m' :
  run es0 (newModel loaded r0) = Some m →
  state m = "reconnecting" → editing m = false → Active (store m) ≠ None →
  entry m = Some i → managers m !! i = Some mg → l ∈ EntryMgr.open_listeners mg →
  step m (EMessage o (KeyMsg "c")) = Some m1 → run es m1 = Some m' →
  entry m' ≠ Some i ∧ ∃ mg', managers m' !! i = Some mg' ∧ l ∈ EntryMgr.open_listeners mg'.
Proof.
  intros Hrun0 Hst Hed Hact He Hi Hl Hs Hrun.
  assert (cursor_ok m) as Hc.
  { eapply run_keeps; [by apply step_cursor| |exact Hrun0]. destruct loaded; (split; [done|by left]). }
  assert (cursor_ok m1) as Hc1 by by eapply step_cursor.
  apply step_message in Hs as (_ & _ & Hu). cbn [App.Update] in Hu. rewrite Hed in Hu. injection Hu as <-.
  destruct (Active (store m)) as [p|] eqn:Hp; [|done].
  assert (is_state m "connected" || is_state m "connecting" = false) as Hns by (unfold is_state; by rewrite Hst).
  destruct (connect_spec o m p Hp Hns) as [[] (mg' & Hm & _)].
  assert (lost i l (connect o m)) as Hlost.
  { split; [rewrite cf_entry0; intros [= <-]; apply lookup_lt_Some in Hi; lia|].
    exists mg. rewrite Hm. split; [by apply lookup_app_l_Some|done]. }
  by destruct (run_keeps (λ m, cursor_ok m ∧ lost i l m) es _ m' (λ m e m', lost_step i l m e m') (conj Hc1 Hlost) Hrun).
Qed.

(** ** Disconnecting *)

(** The message that [reconnect_loses_listeners] is about. *)
Definition reconnects m (e : @event C _) : bool :=
  match e with
  | EMessage _ (KeyMsg k) => bool_decide (k = "c") && negb (editing m) && is_state m "reconnecting"
  | _ => false
  end.

Fixpoint run_without_reconnect es m : option model :=
  match es with
  | [] => Some m
  | e :: es => if reconnects m e then None else m' ← step m e; run_without_reconnect es m'
  end.

Definition live m : Prop := state m = "connected" ∨ state m = "reconnecting".

Record orderly (r0 : R) m : Prop := {
  o_cursor : cursor_ok m;
  o_state : state m ∈ ["disconnected"; "error"; "connected"; "reconnecting"];
  o_idle : ¬ live m → tun m = None ∧ spOn m = false ∧ core_running (core m) = false;
  o_gone : state m = "disconnected" → entry m = None ∧ cancel m = None;
  o_devices : devices m = match tun m with Some d => {[ d ]} | None => ∅ end;
  o_open : OpenKey (registry m) QUERY_VALUE = OpenKey r0 QUERY_VALUE;
  o_proxy : if spOn m then SysProxy.Get r0 = Some (prevSP m) else SysProxy.Get (registry m) = SysProxy.Get r0;
  o_managers : ∀ i mg, managers m !! i = Some mg → EntryMgrSpec.inv mg ∧
    (EntryMgr.closed mg = true ∨ mg = EntryMgr.NewManager ∨ entry m = Some i ∧ live m)
}.

Lemma orderly_quit r0 m : orderly r0 m → orderly r0 (m <| quit := true |>).
Proof. intros []. by split. Qed.

Lemma new_orderly loaded r0 : orderly r0 (newModel loaded r0).
Proof.
  pose proof core_new_idle as Hidle.
  destruct loaded; split; cbn; try done; try (split; [done|by left]).
  - by left.
  - by right; left.
Qed.

(** Nothing else changes the registry. *)
Lemma write_open (r : R) e s s' (b : bool) r' : SysProxy.write r e s s' = (b, r') → ∀ a, OpenKey r' a = OpenKey r a.
Proof.
  unfold SysProxy.write. destruct (negb _); [by intros [= _ <-]|].
  destruct (SetDWordValue r _ e) as [r1|] eqn:H1; [apply set_dword in H1 as (_ & _ & _ & H1)|by intros [= _ <-]].
  destruct (SetStringValue r1 _ s) as [r2|] eqn:H2; [apply set_string in H2 as (_ & _ & _ & H2)|by intros [= _ <-]].
  destruct (SetStringValue r2 _ s') as [r3|] eqn:H3; [apply set_string in H3 as (_ & _ & _ & H3)|];
    intros [= _ <-] a; rewrite ?H3, ?H2, ?H1; done.
Qed.

Lemma Enable_open (r : R) a b st r' : SysProxy.Enable r a b = (st, r') → ∀ x, OpenKey r' x = OpenKey r x.
Proof.
  unfold SysProxy.Enable. destruct (SysProxy.Get r); [|by intros [= _ <-]].
  destruct (SysProxy.write r 1 a b) as [ok r1] eqn:Hw. intros [= _ <-]. by eapply write_open.
Qed.

(** The registry takes every write. *)
Definition writable : Prop := ∀ (r : R) e s s', ∃ r', SysProxy.write r e s s' = (true, r').

Lemma start_entry_inv o p ok mg :
  EntryMgr.fresh_bind EntryMgr.NewManager (asked (LocalSocks p) (socks_bound o)) (asked (LocalHTTP p) (http_bound o)) = true →
  start_entry o p = (ok, mg) → EntryMgrSpec.inv mg ∧ (ok = false → mg = EntryMgr.NewManager).
Proof.
  intros Hf Hs. split.
  - pose proof (start_keeps EntryMgr.NewManager _ _ new_manager_inv Hf) as Hi.
    fold (start_entry o p) in Hi. by rewrite Hs in Hi.
  - intros ->. eapply failed_start_unchanged; [apply new_manager_inv|exact Hf|exact Hs].
Qed.

Lemma asked_fresh o m p : fresh_outcome o m = true →
  EntryMgr.fresh_bind EntryMgr.NewManager (asked (LocalSocks p) (socks_bound o)) (asked (LocalHTTP p) (http_bound o)) = true.
Proof.
  intros [Hf _]%andb_true_iff. unfold EntryMgr.fresh_bind. rewrite andb_true_iff, !bool_decide_eq_true.
  split; [|by intros l _]. unfold asked.
  case_bool_decide; [set_solver|]. destruct (socks_bound o) as [l|]; [|set_solver].
  apply negb_true_iff, bool_decide_eq_false in Hf.
  case_bool_decide; [set_solver|]. destruct (http_bound o) as [l'|]; cbn; set_solver.
Qed.

Lemma orderly_connect r0 o m :
  writable → fresh_outcome o m = true → state m ≠ "reconnecting" → orderly r0 m → orderly r0 (connect o m).
Proof.
  intros Hw Hf Hne Ho.
  destruct (is_state m "connected" || is_state m "connecting") eqn:Hs; [unfold App.connect; by rewrite Hs|].
  assert (¬ live m) as Hnl.
  { intros [H|H]; [|done]. unfold is_state in Hs. by rewrite (bool_decide_eq_true_2 _ H) in Hs. }
  destruct (o_idle _ _ Ho Hnl) as (Htun & Hsp & Hcore). pose proof (o_proxy _ _ Ho) as Hpr. rewrite Hsp in Hpr.
  destruct (Active (store m)) as [p|] eqn:Hp.
  2: { unfold App.connect. rewrite Hs, Hp. destruct Ho. split; cbn; try done.
       - by right; left.
       - intros i mg Hi. destruct (o_managers0 i mg Hi) as [? [?|[?|[_ ?]]]]; auto; done. }
  destruct (connect_spec o m p Hp Hs) as [[] (mg & Hm & Hcase)].
  assert (cursor_ok (connect o m)) as Hcur by (unfold cursor_ok; rewrite cf_cursor0, cf_store0; apply Ho).
  assert (∀ i mg', managers m !! i = Some mg' → EntryMgrSpec.inv mg' ∧ (EntryMgr.closed mg' = true ∨ mg' = EntryMgr.NewManager)) as Hold.
  { intros i mg' Hi. destruct (o_managers _ _ Ho i mg' Hi) as [? [?|[?|[_ ?]]]]; auto; done. }
  assert (∀ b1 : Prop, EntryMgrSpec.inv mg → (mg = EntryMgr.NewManager ∨ b1) → ∀ i mg', managers (connect o m) !! i = Some mg' →
    EntryMgrSpec.inv mg' ∧ (EntryMgr.closed mg' = true ∨ mg' = EntryMgr.NewManager ∨ entry (connect o m) = Some i ∧ b1)) as Hall.
  { intros b1 Hi Hb i mg'. rewrite Hm, lookup_snoc_Some. intros [[_ H]|[-> <-]].
    - destruct (Hold i mg' H) as [? [?|?]]; auto.
    - split; [done|]. destruct Hb; auto. }
  pose proof (asked_fresh o m p Hf) as Hfresh.
  destruct Hcase as [[(He & H1 & H2 & H3 & H4 & H5 & H6) Hmg]|[(Hst & (d & l & Hc) & Ht & Hr) Hmg]].
  - assert (mg = EntryMgr.NewManager) as ->.
    { destruct Hmg as [|Hmg]; [done|]. by apply (start_entry_inv o p false mg Hfresh Hmg). }
    split; try done.
    + rewrite He. set_solver.
    + intros _. rewrite H1, H4. split_and!; try done. destruct H6 as [->|[c ->]]; [done|apply core_stop_idle].
    + by rewrite He.
    + rewrite H2, H1. apply Ho.
    + rewrite H3. apply Ho.
    + rewrite H4, Hsp, H3. exact Hpr.
    + apply Hall; [apply new_manager_inv|by left].
  - assert (live (connect o m)) as Hlive by by left.
    split; try done.
    + rewrite Hst. set_solver.
    + by rewrite Hst.
    + destruct Ht as [[-> ->]|(x & _ & -> & ->)]; [apply Ho|].
      pose proof (o_devices _ _ Ho) as Hd. rewrite Htun in Hd. rewrite Hd. set_solver.
    + destruct Hr as [(-> & _)|(a & b & st & He & _)]; [apply Ho|].
      by rewrite (Enable_open _ _ _ _ _ He), (o_open _ _ Ho).
    + destruct Hr as [(-> & -> & ->)|(a & b & [prev|] & He & Hq)]; [by rewrite Hsp| |].
      * destruct Hq as [-> ->]. apply Enable_Get in He as [He _]. by rewrite <- Hpr.
      * destruct Hq as [-> ->]. rewrite Hsp. unfold SysProxy.Enable in He.
        destruct (SysProxy.Get (registry m)) as [prev|] eqn:Hg; [|injection He as He; by rewrite <- He, Hg].
        destruct (Hw (registry m) 1 a b) as [r' Hr']. by rewrite Hr' in He.
    + apply Hall; [by apply (start_entry_inv o p true mg)|by right].
Qed.

Lemma orderly_disconnect r0 m : writable → orderly r0 m → orderly r0 (disconnect m) ∧ state (disconnect m) = "disconnected".
Proof.
  intros Hw Ho. destruct (disconnect_spec m).
  assert (state (disconnect m) = "disconnected") as Hs.
  { rewrite df_state0. rewrite bool_decide_eq_false_2; [done|]. intros He. pose proof (o_state _ _ Ho) as Hin.
    rewrite He in Hin. by apply (bool_decide_eq_true_2 _) in Hin. }
  split; [|done]. split.
  - unfold cursor_ok. rewrite df_cursor0, df_store0. apply Ho.
  - rewrite Hs. by left.
  - intros _. split_and!; try done. destruct df_core0 as [c ->]. apply core_stop_idle.
  - done.
  - rewrite df_devices0, df_tun0, (o_devices _ _ Ho). destruct (tun m); [set_solver|done].
  - rewrite df_registry0. destruct (spOn m); [|apply Ho].
    destruct (SysProxy.Restore (registry m) (prevSP m)) as [b r'] eqn:Hr. rewrite <- (o_open _ _ Ho).
    by eapply write_open.
  - rewrite df_proxy0, df_registry0. pose proof (o_proxy _ _ Ho) as Hp. destruct (spOn m); [|done].
    rewrite Hp. destruct (Hw (registry m) (if SysProxy.Enabled (prevSP m) then 1 else 0) (SysProxy.Server (prevSP m))
      (SysProxy.Override (prevSP m))) as [r' Hr'].
    fold (SysProxy.Restore (registry m) (prevSP m)) in Hr'. rewrite Hr'. cbn [snd].
    eapply Restore_Get; [|exact Hr']. rewrite (o_open _ _ Ho). by eapply Get_opens.
  - intros i mg. rewrite df_managers0. destruct (entry m) as [j|] eqn:He.
    + destruct (decide (i = j)) as [->|Hne].
      * rewrite list_lookup_alter_eq. intros (mg0 & Hi & ->)%fmap_Some.
        destruct (o_managers _ _ Ho j mg0 Hi) as [Hinv _]. split; [|by left].
        by apply (entry_step_inv mg0 EntryMgr.EStop).
      * rewrite list_lookup_alter_ne by done. intros Hi.
        destruct (o_managers _ _ Ho i mg Hi) as [Hinv [?|[?|[? _]]]]; [by split; auto..|congruence].
    + intros Hi. destruct (o_managers _ _ Ho i mg Hi) as [Hinv [?|[?|[? _]]]]; [by split; auto..|congruence].
Qed.

Lemma quiet_live r0 m m' : quiet m m' → orderly r0 m → live m' ↔ live m.
Proof.
  intros Hq Ho. unfold live. destruct (q_state _ _ Hq) as [->|[[H|H] H']]; [done|rewrite H, H'; naive_solver|].
  pose proof (o_state _ _ Ho) as Hin. rewrite H in Hin. by apply (bool_decide_eq_true_2 _) in Hin.
Qed.

Lemma orderly_quiet r0 m m' : quiet m m' → orderly r0 m → orderly r0 m'.
Proof.
  intros Hq Ho. pose proof (quiet_live r0 m m' Hq Ho) as Hlive. pose proof (q_state _ _ Hq) as Hst. destruct Hq.
  split.
  - by apply q_cursor0, Ho.
  - destruct Hst as [->|[_ ->]]; [apply Ho|by right; right; right; left].
  - rewrite Hlive, q_tun0, (proj1 q_proxy0), q_core0. apply Ho.
  - rewrite q_entry0, q_cancel0. destruct Hst as [->|[_ ->]]; [apply Ho|done].
  - rewrite q_devices0, q_tun0. apply Ho.
  - rewrite q_registry0. apply Ho.
  - destruct q_proxy0 as [-> ->]. rewrite q_registry0. apply Ho.
  - intros i mg. rewrite q_managers0, q_entry0, Hlive. apply Ho.
Qed.

Lemma orderly_core r0 m c e : core_bg (core m) e = Some c → orderly r0 m → orderly r0 (m <| core := c |>).
Proof.
  intros He [? ? Hidle ? ? ? ? ?]. split; try done. intros Hl. destruct (Hidle Hl) as (? & ? & ?). split_and!; try done.
  by eapply core_bg_idle.
Qed.

Lemma orderly_entry r0 m i mg mg' e :
  goroutine e = true → managers m !! i = Some mg → EntryMgr.step mg e = Some mg' →
  orderly r0 m → orderly r0 (m <| managers := <[i := mg']> (managers m) |>).
Proof.
  intros Hg Hi Hs [? ? ? ? ? ? ? Hm]. split; try done. cbn. intros j mgj.
  destruct (decide (i = j)) as [->|Hne]; [|by rewrite list_lookup_insert_ne; [apply Hm|]].
  rewrite list_lookup_insert_eq by by eapply lookup_lt_Some. intros [= <-].
  destruct (Hm j mg Hi) as [Hinv Hc]. split; [by eapply entry_step_inv|].
  destruct (goroutine_keeps mg e mg' Hg Hs) as (-> & _ & Hn). tauto.
Qed.

Lemma orderly_step r0 m e m' : writable → reconnects m e = false → step m e = Some m' → orderly r0 m → orderly r0 m'.
Proof.
  intros Hw Hr Hs Ho. destruct e as [o ms|e|i e].
  - apply step_message in Hs as (_ & Hf & Hu).
    destruct (Update_effect o ms m (o_cursor _ _ Ho)) as (m1 & H1 & He). rewrite H1 in Hu. injection Hu as ->.
    destruct He as [Hed -> ->|[-> | ->]|Hq].
    + apply orderly_connect; try done. cbn in Hr. rewrite Hed in Hr. cbn in Hr. by apply bool_decide_eq_false in Hr.
    + by apply orderly_disconnect.
    + apply orderly_quit. by apply orderly_disconnect.
    + by eapply orderly_quiet.
  - cbn [App.step] in Hs. apply bind_Some in Hs as (c & Hc & [= <-]). by eapply orderly_core.
  - cbn [App.step] in Hs. destruct (goroutine e) eqn:Hg; [|done].
    apply bind_Some in Hs as (mg & Hi & Hs). apply bind_Some in Hs as (mg' & Hs & [= <-]). by eapply orderly_entry.
Qed.

Lemma orderly_run r0 es m m' : writable → run_without_reconnect es m = Some m' → orderly r0 m → orderly r0 m'.
Proof.
  intros Hw. revert m. induction es as [|e es IH]; intros m; cbn [run_without_reconnect]; [by intros [= <-]|].
  destruct (reconnects m e) eqn:Hr; [done|]. intros (m1 & H1 & Hrun)%bind_Some Ho.
  by eapply IH; [|eapply orderly_step].
Qed.

(** Nothing of a connection is left. *)
Record all_closed (r0 : R) m : Prop := {
  c_fields : entry m = None ∧ cancel m = None ∧ tun m = None ∧ spOn m = false;
  c_core : core_running (core m) = false;
  c_devices : devices m = ∅;
  c_proxy : SysProxy.Get (registry m) = SysProxy.Get r0;
  c_listeners : ∀ i mg, managers m !! i = Some mg →
    EntryMgr.open_listeners mg = ∅ ∧ ∀ l c, EntryMgr.AcceptConn mg l c = None
}.

Lemma orderly_closed r0 m : orderly r0 m → state m = "disconnected" → all_closed r0 m.
Proof.
  intros Ho Hs. assert (¬ live m) as Hl by (unfold live; rewrite Hs; naive_solver).
  destruct (o_idle _ _ Ho Hl) as (Ht & Hsp & Hc). destruct (o_gone _ _ Ho Hs) as [He Hx]. split; try done.
  - rewrite (o_devices _ _ Ho), Ht. done.
  - pose proof (o_proxy _ _ Ho) as Hp. by rewrite Hsp in Hp.
  - intros i mg Hi. destruct (o_managers _ _ Ho i mg Hi) as [Hinv [Hcl|[->|[? _]]]]; [|done|congruence].
    assert (EntryMgr.open_listeners mg = ∅) as Hopen.
    { destruct (e_closed _ Hinv Hcl) as [Hls _]. pose proof (e_listeners _ Hinv). set_solver. }
    split; [done|]. intros l c. unfold EntryMgr.AcceptConn.
    destruct (EntryMgr.loops mg !! l) as [[]|], (EntryMgr.handlers mg !! c); try done.
    rewrite bool_decide_eq_false_2; [done|]. rewrite Hopen. set_solver.
Qed.

(** C26. Disconnecting leaves nothing behind.  In a session in which nobody connects
    while the core restarts, whenever the state is "disconnected", and after a
    disconnect in any state, no core is kept running, no entry manager has an open
    listener or can accept, no TUN device is open, and the system proxy reads as it
    did when the program started, provided the registry took the writes. *)
Theorem disconnect_leaves_nothing loaded r0 es m :
  writable → run_without_reconnect es (newModel loaded r0) = Some m →
  (state m = "disconnected" → all_closed r0 m) ∧
  state (disconnect m) = "disconnected" ∧ all_closed r0 (disconnect m).
Proof.
  intros Hw Hrun. pose proof (orderly_run r0 es _ m Hw Hrun (new_orderly loaded r0)) as Ho.
  destruct (orderly_disconnect r0 m Hw Ho) as [Ho' Hs].
  split_and!; [by apply orderly_closed|done|by apply orderly_closed].
Qed.

End session.

(** ** Witnesses *)

Module Demo.

(** A registry that takes every write. *)
Record memory := mkMemory { dwords : gmap string Z; strings : gmap string string }.

#[export] Instance open_registry : Registry memory := {
  OpenKey _ _ := true;
  GetIntegerValue r n := match dwords r !! n with Some v => Found v | None => Absent end;
  GetStringValue r n := match strings r !! n with Some v => Found v | None => Absent end;
  SetDWordValue r n v := Some (mkMemory (<[n := v]> (dwords r)) (strings r));
  SetStringValue r n v := Some (mkMemory (dwords r) (<[n := v]> (strings r)))
}.

#[export] Instance open_registry_laws : RegistryLaws memory.
Proof.
  split; cbn; intros r n v r' [= <-]; cbn; rewrite lookup_insert_eq; split_and!; try done;
    intros m Hm; by rewrite lookup_insert_ne.
Qed.

Lemma always_writable : writable (R := memory).
Proof. intros r e s s'. by eexists. Qed.

Definition before : memory := mkMemory {[ "ProxyEnable" := 0 ]} {[ "ProxyServer" := "old:1" ]}.

(** A profile with a listener, the system proxy and a TUN device. *)
Definition home : Profile :=
  mkProfile "home" "203.0.113.10" 443 "u" "p" 1 None None "127.0.0.1:1080" ""
    (Some (mkSysProxy true "<local>")) (Some (mkTUN true "" "" 0 [] [])).

Definition stored : Store := mkStore "home" [home] "" "" "info".

Definition typed (k s : string) : string := s +:+ k.
Definition subnet (a m : list Z) : bool := (len a =? len m) && bool_decide (and_bytes a m = a).

Definition yes (l d : nat) : outcome := mkOutcome true (Some l) None None (Some d) true.

Definition start : @model CoreMgr.state memory := newModel (Some stored) before.
Definition connected : list (@event CoreMgr.state _) := [EMessage (yes 1 1) (KeyMsg "c")].
Definition dropped : list (@event CoreMgr.state _) := connected ++ [EMessage (yes 2 2) (CoreExitMsg "exit")].
Definition again : list (@event CoreMgr.state _) := dropped ++ [EMessage (yes 2 2) (KeyMsg "c")].
Definition up : @model CoreMgr.state memory := default start (run typed subnet connected start).
Definition waiting : @model CoreMgr.state memory := default start (run typed subnet dropped start).
Definition twice : @model CoreMgr.state memory := default start (run typed subnet again start).

#[local] Existing Instance SysProxy.State_eq_dec.

Example connecting_opens :
  (state up, EntryMgr.open_listeners <$> managers up, devices up, core_running (core up),
    SysProxy.Get (registry up))
  = ("connected", [{[1%nat]}], {[1%nat]}, true, Some (SysProxy.mkState true "127.0.0.1:1080" "<local>")).
Proof. apply (bool_decide_eq_true_1 _). vm_compute. reflexivity. Qed.

Lemma update_never_panics_witness : ∃ m', Update typed subnet (yes 2 2) (KeyMsg "enter") up = Ok m'.
Proof.
  destruct (update_never_panics typed subnet (Some stored) before connected up) as [H _]; [vm_compute; reflexivity|].
  apply H.
Defined.

Lemma disconnect_leaves_nothing_witness :
  devices (disconnect up) = ∅ ∧ SysProxy.Get (registry (disconnect up)) = SysProxy.Get before ∧
  ∀ mg, managers (disconnect up) !! 0%nat = Some mg → EntryMgr.open_listeners mg = ∅.
Proof.
  destruct (disconnect_leaves_nothing typed subnet (Some stored) before connected up always_writable)
    as (_ & _ & H); [vm_compute; reflexivity|].
  destruct H as [_ _ Hd Hp Hl]. split; [exact Hd|split; [exact Hp|]]. intros mg Hm. apply (Hl 0%nat mg Hm).
Defined.

(** The first listener survives the disconnect that follows the second connection. *)
Lemma reconnect_loses_listeners_witness :
  ∃ mg, managers (disconnect twice) !! 0%nat = Some mg ∧ 1%nat ∈ EntryMgr.open_listeners mg.
Proof.
  destruct (reconnect_loses_listeners typed subnet (Some stored) before dropped waiting 0
              (default EntryMgr.NewManager (managers waiting !! 0%nat)) 1 (yes 2 2) twice
              [EMessage (yes 3 3) (KeyMsg "d")] (disconnect twice)) as (_ & mg & Hm & Hl).
  - vm_compute. reflexivity.
  - vm_compute. reflexivity.
  - vm_compute. reflexivity.
  - vm_compute. discriminate.
  - vm_compute. reflexivity.
  - vm_compute. reflexivity.
  - apply (bool_decide_eq_true_1 _). vm_compute. reflexivity.
  - vm_compute. reflexivity.
  - vm_compute. reflexivity.
  - exists mg. split; [exact Hm|exact Hl].
Defined.

End Demo.
