(* ===== verification/CoreLog.v ===== *)
(** * The logs of the core (tui/internal/coremgr/coremgr.go, tui/app.go)

    The restart goroutine and the two writers of every command send to the
    channels [Logs] and [Exits] without waiting; the session receives one value
    of each at a time.  The manager of [CoreMgr] runs inside this system: a
    goroutine takes its next step once it has made the sends its last step left
    it with, and everything else interleaves with these sends. *)

From stdpp Require Import gmap strings.
From S2P Require Import Prelude GoText GoNet CoreMgr App.

Module CoreLog.

(** ** A buffered channel *)

Record chan (A : Type) := mkChan { cap : Z; queue : list A }.
Arguments mkChan {A} _ _.
Arguments cap {A} _.
Arguments queue {A} _.

Definition make_chan {A} (n : Z) : chan A := mkChan n [].

(** [select { case c <- v: default: }] *)
Definition select_send {A} (c : chan A) (v : A) : chan A :=
  if len (queue c) <? cap c then mkChan (cap c) (queue c ++ [v]) else c.

(** [<-c]; [None] while it waits. *)
Definition recv {A} (c : chan A) : option (A * chan A) :=
  match queue c with
  | [] => None
  | v :: q => Some (v, mkChan (cap c) q)
  end.

(** ** The state *)

Inductive stream := Stdout | Stderr.

#[export] Instance stream_eq_dec : EqDecision stream.
Proof. solve_decision. Defined.

#[export] Instance stream_countable : Countable stream.
Proof.
  refine (inj_countable' (λ st, if st is Stdout then true else false) (λ b : bool, if b then Stdout else Stderr) _).
  by intros [].
Defined.

(** A send a goroutine has yet to make. *)
Inductive send := ToLogs (line : string) | ToExits (reason : string).

(** The manager, its channels, the sends left to each goroutine and the
    unfinished line of each writer. *)
Record state := mkState {
  mgr : CoreMgr.state;
  Logs : chan string;
  Exits : chan string;
  pending : gmap CoreMgr.loopid (list send);
  buffers : gmap (CoreMgr.cmdid * stream) (list Z)
}.

#[export] Instance eta_state : Eta state := fun s =>
  mkState (mgr s) (Logs s) (Exits s) (pending s) (buffers s).

Definition NewManager : state := mkState CoreMgr.NewManager (make_chan 512) (make_chan 4) ∅ ∅.

Definition todo (s : state) (l : CoreMgr.loopid) : list send := default [] (pending s !! l).

(** Who offers a line to the log. *)
Inductive source := FromLoop | FromCore (c : CoreMgr.cmdid) (st : stream).

#[export] Instance source_eq_dec : EqDecision source.
Proof. solve_decision. Defined.

(** What is seen of a step: a byte the core writes, a line offered to [Logs], a
    reason offered to [Exits], a message the session receives. *)
Inductive output :=
  | Said (c : CoreMgr.cmdid) (st : stream) (b : Z)
  | Offered (src : source) (line : string)
  | Reported (reason : string)
  | Received (ms : App.message).

Definition emit (s : state) (line : string) : state := s <| Logs := select_send (Logs s) line |>.

Section log.
(** The path of the executable and of its configuration. *)
Context (CorePath cfgPath : string).

(** A delay as the code prints it: a whole number of seconds below a minute. *)
Definition print_delay (d : Z) : string := of_bytes (Itoa (d / Second)) +:+ "s".

(** [fmt.Sprintf("%v", err)] *)
Definition print_error (err : option string) : string := default "<nil>" err.

(** ** The sends of the restart goroutine *)

(** What a step of the manager leaves its goroutine to send, from the place it
    is at after the step; [err] is the error of [cmd.Run]. *)
Definition leaves (m : CoreMgr.state) (e : CoreMgr.event) (err : option string) : list send :=
  match e with
  | CoreMgr.ELoopTop l _ =>
      match CoreMgr.pc <$> CoreMgr.loops m !! l with
      | Some (CoreMgr.Launching _) => [ToLogs ("core: starting " +:+ CorePath +:+ " " +:+ cfgPath)]
      | _ => []
      end
  | CoreMgr.ELoopAfter l =>
      match CoreMgr.loops m !! l with
      | Some (CoreMgr.mkLoop _ _ d CoreMgr.Sleeping) =>
          [ToExits (print_error err);
           ToLogs ("core exited (" +:+ print_error err +:+ "), restart in " +:+ print_delay d)]
      | _ => []
      end
  | _ => []
  end.

(** The goroutine that takes a step. *)
Definition actor (e : CoreMgr.event) : option CoreMgr.loopid :=
  match e with
  | CoreMgr.ELoopTop l _ | CoreMgr.ELoopRun l _ | CoreMgr.ERunReturns l | CoreMgr.ELoopAfter l
  | CoreMgr.ELoopTimer l | CoreMgr.ELoopCtxDone l | CoreMgr.ELoopLeave l => Some l
  | _ => None
  end.

(** A step of the manager; a goroutine with sends left takes none. *)
Definition manage (s : state) (e : CoreMgr.event) (err : option string) : option state :=
  match actor e with
  | None => m ← CoreMgr.step (mgr s) e; Some (s <| mgr := m |>)
  | Some l =>
      match todo s l with
      | _ :: _ => None
      | [] =>
          m ← CoreMgr.step (mgr s) e;
          Some (s <| mgr := m |> <| pending := <[l := leaves m e err]> (pending s) |>)
      end
  end.

(** The goroutine makes its next send. *)
Definition Send (s : state) (l : CoreMgr.loopid) : option (list output * state) :=
  match todo s l with
  | [] => None
  | x :: xs =>
      let s := s <| pending := <[l := xs]> (pending s) |> in
      match x with
      | ToLogs line => Some ([Offered FromLoop line], emit s line)
      | ToExits reason => Some ([Reported reason], s <| Exits := select_send (Exits s) reason |>)
      end
  end.

(** ** The writers *)

(** One round of the loop of [Write], for a command that [cmd.Run] waits for. *)
Definition WriteByte (s : state) (l : CoreMgr.loopid) (st : stream) (b : Z) : option (list output * state) :=
  lp ← CoreMgr.loops (mgr s) !! l;
  match CoreMgr.pc lp with
  | CoreMgr.Waiting c =>
      let '(lines, buf) := CoreMgr.writeByte ([], default [] (buffers s !! (c, st))) b in
      let s := s <| buffers := <[(c, st) := buf]> (buffers s) |> in
      let text := map (λ line, of_bytes (map byte line)) lines in
      Some (Said c st b :: map (Offered (FromCore c st)) text, foldl emit s text)
  | _ => None
  end.

(** ** The session's side *)

Definition waitLog (s : state) : option (list output * state) :=
  '(line, c) ← recv (Logs s); Some ([Received (App.CoreLogMsg line)], s <| Logs := c |>).

Definition waitExit (s : state) : option (list output * state) :=
  '(reason, c) ← recv (Exits s); Some ([Received (App.CoreExitMsg reason)], s <| Exits := c |>).

(** ** The system *)

Inductive event :=
  | EManager (e : CoreMgr.event) (err : option string)
  | ESend (l : CoreMgr.loopid)
  | EWriteByte (l : CoreMgr.loopid) (st : stream) (b : Z)
  | EWaitLog
  | EWaitExit.

Definition step (s : state) (e : event) : option (list output * state) :=
  match e with
  | EManager e err => s ← manage s e err; Some ([], s)
  | ESend l => Send s l
  | EWriteByte l st b => WriteByte s l st b
  | EWaitLog => waitLog s
  | EWaitExit => waitExit s
  end.

Fixpoint run (es : list event) (s : state) : option (list output * state) :=
  match es with
  | [] => Some ([], s)
  | e :: es =>
      '(out, s) ← step s e;
      '(outs, s) ← run es s;
      Some (out ++ outs, s)
  end.

End log.

End CoreLog.
