(* ===== verification/CoreLogSpec.v ===== *)
(** * Theorems about the logs of the core

    What the session receives of what the core says, and that saying it never
    holds the supervisor up. *)

From stdpp Require Import gmap strings.
From S2P Require Import Prelude GoText CoreMgr CoreMgrSpec App CoreLog.

Import CoreLog.

(** ** What a run shows *)

(** The lines offered to the log, those of one writer, the bytes given to it, and
    the lines the session receives. *)
Definition offered (outs : list output) : list string :=
  omap (λ o, if o is Offered _ line then Some line else None) outs.

Definition offered_by (src : source) (outs : list output) : list string :=
  omap (λ o, if o is Offered src' line then if decide (src' = src) then Some line else None else None) outs.

Definition said (c : CoreMgr.cmdid) (st : stream) (outs : list output) : list Z :=
  omap (λ o, if o is Said c' st' b then if decide ((c', st') = (c, st)) then Some b else None else None) outs.

Definition received (outs : list output) : list string :=
  omap (λ o, if o is Received (App.CoreLogMsg line) then Some line else None) outs.

Definition reported (outs : list output) : list string :=
  omap (λ o, if o is Reported r then Some r else None) outs.

Definition told (outs : list output) : list string :=
  omap (λ o, if o is Received (App.CoreExitMsg r) then Some r else None) outs.

(** ** Channels *)

(** What happens to a channel: a value is offered, with no wait, or taken. *)
Inductive use := Put (v : string) | Take (v : string) | Other.

Definition puts (us : list use) : list string := omap (λ u, if u is Put v then Some v else None) us.
Definition takes (us : list use) : list string := omap (λ u, if u is Take v then Some v else None) us.

Inductive used : chan string → list use → chan string → Prop :=
  | used_nil c : used c [] c
  | used_put c v us c' : used (select_send c v) us c' → used c (Put v :: us) c'
  | used_take c v c1 us c' : recv c = Some (v, c1) → used c1 us c' → used c (Take v :: us) c'
  | used_other c us c' : used c us c' → used c (Other :: us) c'.

Lemma used_app c1 us1 c2 us2 c3 : used c1 us1 c2 → used c2 us2 c3 → used c1 (us1 ++ us2) c3.
Proof. induction 1; [done|..]; intros; cbn; econstructor; eauto. Qed.

Lemma select_send_cases (c : chan string) v :
  (len (queue c) < cap c ∧ select_send c v = mkChan (cap c) (queue c ++ [v])) ∨
  (cap c <= len (queue c) ∧ select_send c v = c).
Proof. unfold select_send. destruct (Z.ltb_spec (len (queue c)) (cap c)); [by left|by right]. Qed.

Lemma recv_cases (c : chan string) v c1 :
  recv c = Some (v, c1) → queue c = v :: queue c1 ∧ cap c1 = cap c.
Proof. unfold recv. destruct c as [n [|x q]]; [done|]. intros [= -> <-]. done. Qed.

(** A channel never grows over its capacity. *)
Lemma used_bounded c us c' : used c us c' → cap c' = cap c ∧ (len (queue c) <= cap c → len (queue c') <= cap c).
Proof.
  induction 1 as [c|c v us c' _ [IHc IHl]|c v c1 us c' Hr _ [IHc IHl]|]; [done|..|done].
  - destruct (select_send_cases c v) as [[Hlt Hs]|[Hge Hs]]; rewrite Hs in *; cbn in *; [|done].
    split; [done|]. intros _. apply IHl. rewrite len_app. unfold len. cbn. unfold len in *. lia.
  - apply recv_cases in Hr as [Hq Hc]. rewrite Hc in *. split; [done|]. intros Hl. apply IHl.
    rewrite Hq, len_cons in Hl. lia.
Qed.

(** What comes out went in, in this order. *)
Lemma used_in_order c us c' : used c us c' → takes us ++ queue c' `sublist_of` queue c ++ puts us.
Proof.
  induction 1 as [c|c v us c' _ IH|c v c1 us c' Hr _ IH|]; cbn; [by rewrite app_nil_r|..|done].
  - destruct (select_send_cases c v) as [[_ Hs]|[_ Hs]]; rewrite Hs in IH; cbn in IH.
    + by rewrite <- app_assoc in IH.
    + etrans; [exact IH|]. apply sublist_app; [done|]. by apply sublist_cons.
  - apply recv_cases in Hr as [Hq _]. rewrite Hq. cbn. by apply sublist_skip.
Qed.

(** All of it does while no more than the capacity waits. *)
Lemma used_lossless c us c' :
  used c us c' →
  (∀ pre, pre `prefix_of` us → len (queue c) + len (puts pre) - len (takes pre) <= cap c) →
  takes us ++ queue c' = queue c ++ puts us.
Proof.
  induction 1 as [c|c v us c' _ IH|c v c1 us c' Hr _ IH|c us c' _ IH]; intros Hlag.
  - cbn. by rewrite app_nil_r.
  - destruct (select_send_cases c v) as [[_ Hs]|[Hge _]].
    + rewrite Hs in IH. etrans; [apply IH|symmetry; apply (app_assoc _ [v])]. intros pre Hp.
      specialize (Hlag (Put v :: pre) ltac:(by apply prefix_cons)).
      change (len (queue c) + len (v :: puts pre) - len (takes pre) <= cap c) in Hlag.
      rewrite len_cons in Hlag. cbn [queue cap]. rewrite len_app. change (len [v]) with 1. lia.
    + specialize (Hlag [Put v] ltac:(apply prefix_cons, prefix_nil)).
      change (len (queue c) + 1 - 0 <= cap c) in Hlag. lia.
  - apply recv_cases in Hr as [Hq Hc]. rewrite Hq. cbn. f_equal. apply IH. intros pre Hp.
    specialize (Hlag (Take v :: pre) ltac:(by apply prefix_cons)).
    change (len (queue c) + len (puts pre) - len (v :: takes pre) <= cap c) in Hlag.
    rewrite Hq, !len_cons in Hlag. lia.
  - apply IH. intros pre Hp. apply (Hlag (Other :: pre)). by apply prefix_cons.
Qed.

(** ** Runs *)

Section log.
Context (CorePath cfgPath : string).

Abbreviation step := (step CorePath cfgPath).
Abbreviation run := (run CorePath cfgPath).

Implicit Types (s : state) (outs : list output) (es : list event).

(** The two channels as the outputs use them. *)
Definition log_use (o : output) : use :=
  match o with
  | Offered _ line => Put line
  | Received (App.CoreLogMsg line) => Take line
  | _ => Other
  end.

Definition exit_use (o : output) : use :=
  match o with
  | Reported r => Put r
  | Received (App.CoreExitMsg r) => Take r
  | _ => Other
  end.

Lemma puts_log outs : puts (map log_use outs) = offered outs.
Proof. induction outs as [|[| | |[]] outs IH]; cbn; [done|..]; first [by f_equal|apply IH]. Qed.
Lemma takes_log outs : takes (map log_use outs) = received outs.
Proof. induction outs as [|[| | |[]] outs IH]; cbn; [done|..]; first [by f_equal|apply IH]. Qed.
Lemma puts_exit outs : puts (map exit_use outs) = reported outs.
Proof. induction outs as [|[| | |[]] outs IH]; cbn; [done|..]; first [by f_equal|apply IH]. Qed.
Lemma takes_exit outs : takes (map exit_use outs) = told outs.
Proof. induction outs as [|[| | |[]] outs IH]; cbn; [done|..]; first [by f_equal|apply IH]. Qed.

(** A byte ends at most one line. *)
Lemma writeByte_lines buf b ls buf' :
  CoreMgr.writeByte ([], buf) b = (ls, buf') → ls = [] ∨ ∃ l, ls = [l].
Proof. unfold CoreMgr.writeByte. destruct (b =? CoreMgr.newline); intros [= <- <-]; eauto. Qed.

Ltac inv_step H :=
  repeat match type of H with
  | Some _ = Some _ => injection H as <- <-
  | None = Some _ => discriminate H
  | (_ ≫= _) = Some _ => apply bind_Some in H as (? & ? & H)
  | (let '(_, _) := ?x in _) = Some _ => destruct x eqn:?
  | (match ?x with _ => _ end) = Some _ => destruct x eqn:?
  end.

Lemma manage_keeps s e err s' :
  manage CorePath cfgPath s e err = Some s' →
  CoreMgr.step (mgr s) e = Some (mgr s') ∧ Logs s' = Logs s ∧ Exits s' = Exits s ∧ buffers s' = buffers s.
Proof.
  unfold manage. intros H. destruct (actor e) as [l|]; [destruct (todo s l); [|done]|];
    apply bind_Some in H as (m & Hm & [= <-]); by split_and!.
Qed.

(** Every step uses the channels as its outputs say. *)
Lemma step_used s e out s' :
  step s e = Some (out, s') →
  used (Logs s) (map log_use out) (Logs s') ∧ used (Exits s) (map exit_use out) (Exits s').
Proof.
  destruct e as [e err|l|l st b| |]; cbn [CoreLog.step].
  - intros H. apply bind_Some in H as (s1 & Hm%manage_keeps & [= <- <-]).
    destruct Hm as (_ & -> & -> & _). split; constructor.
  - unfold Send. intros H. inv_step H; cbn; split; repeat constructor.
  - unfold WriteByte. intros H. inv_step H.
    destruct (writeByte_lines _ _ _ _ ltac:(eassumption)) as [->|[line ->]]; cbn; split; repeat constructor.
  - unfold waitLog. intros H. inv_step H. cbn. split; [eapply used_take; [eassumption|]|]; repeat constructor.
  - unfold waitExit. intros H. inv_step H. cbn. split; [|eapply used_take; [eassumption|]]; repeat constructor.
Qed.

Lemma run_used es : ∀ s outs s', run es s = Some (outs, s') →
  used (Logs s) (map log_use outs) (Logs s') ∧ used (Exits s) (map exit_use outs) (Exits s').
Proof.
  induction es as [|e es IH]; intros s outs s' H; cbn in H; [injection H as <- <-; split; constructor|].
  apply bind_Some in H as ([out s1] & Hs%step_used & H). apply bind_Some in H as ([outs1 s2] & Hr%IH & [= <- <-]).
  rewrite !map_app. split; eapply used_app; naive_solver.
Qed.

(** ** Lines *)

Definition line_text (line : list Z) : string := of_bytes (map byte line).

Lemma Write_from p : ∀ pre buf,
  CoreMgr.Write (pre, buf) p = (pre ++ fst (CoreMgr.Write ([], buf) p), snd (CoreMgr.Write ([], buf) p)).
Proof.
  unfold CoreMgr.Write. induction p as [|b p IH]; intros pre buf; [by rewrite app_nil_r|].
  cbn [foldl]. unfold CoreMgr.writeByte at 2 4 6. destruct (b =? CoreMgr.newline).
  - rewrite (IH (pre ++ [buf])), (IH ([] ++ [buf])). cbn. by rewrite <- app_assoc.
  - by rewrite (IH pre).
Qed.

(** What a writer has emitted and holds is its input, split into lines. *)
Definition writer_did c st s outs s' : Prop := ∃ ls,
  offered_by (FromCore c st) outs = map line_text ls ∧
  CoreMgr.Write ([], default [] (buffers s !! (c, st))) (said c st outs) = (ls, default [] (buffers s' !! (c, st))).

Lemma writer_idle c st s outs s' :
  said c st outs = [] → offered_by (FromCore c st) outs = [] → buffers s' !! (c, st) = buffers s !! (c, st) →
  writer_did c st s outs s'.
Proof. intros Hs Ho Hb. exists []. by rewrite Hs, Ho, Hb. Qed.

Lemma writer_app c st s1 out1 s2 out2 s3 :
  writer_did c st s1 out1 s2 → writer_did c st s2 out2 s3 → writer_did c st s1 (out1 ++ out2) s3.
Proof.
  intros (l1 & Ho1 & Hw1) (l2 & Ho2 & Hw2). exists (l1 ++ l2).
  unfold offered_by, said in *. rewrite !omap_app, Ho1, Ho2, map_app. split; [done|].
  unfold CoreMgr.Write in *. rewrite foldl_app, Hw1. fold (CoreMgr.Write (l1, default [] (buffers s2 !! (c, st)))
    (omap (λ o, if o is Said c' st' b then if decide ((c', st') = (c, st)) then Some b else None else None) out2)).
  rewrite Write_from. unfold CoreMgr.Write. by rewrite Hw2.
Qed.

Lemma emit_buffers ls : ∀ s, buffers (foldl emit s ls) = buffers s ∧ mgr (foldl emit s ls) = mgr s ∧
  pending (foldl emit s ls) = pending s.
Proof. induction ls as [|l ls IH]; intros s; cbn; [done|]. by destruct (IH (emit s l)) as (-> & -> & ->). Qed.

Lemma offered_by_source src src' ls :
  offered_by src (map (Offered src') ls) = if decide (src' = src) then ls else [].
Proof.
  unfold offered_by. induction ls as [|l ls IH]; cbn; [by case_decide|].
  destruct (decide (src' = src)); [by f_equal|done].
Qed.

Lemma said_no_line c st src ls : said c st (map (Offered src) ls) = [].
Proof. by induction ls. Qed.

Lemma WriteByte_lines c st s l st1 b out s' : WriteByte s l st1 b = Some (out, s') → writer_did c st s out s'.
Proof.
  unfold WriteByte. intros H. apply bind_Some in H as (lp & _ & H).
  destruct (CoreMgr.pc lp) as [| |c1| | |]; try done.
  destruct (CoreMgr.writeByte _ b) as [ls buf] eqn:Hw. injection H as <- <-. exists (if decide (FromCore c1 st1 = FromCore c st) then ls else []).
  rewrite (proj1 (emit_buffers _ _)). cbn [buffers]. split.
  - change (offered_by (FromCore c st) (map (Offered (FromCore c1 st1)) (map line_text ls)) =
      map line_text (if decide (FromCore c1 st1 = FromCore c st) then ls else [])).
    rewrite offered_by_source. by case_decide.
  - pose proof (said_no_line c st (FromCore c1 st1) (map line_text ls)) as Hn.
    unfold said, line_text in *. cbn. rewrite Hn. case_decide as Heq; case_decide as Hne; try congruence.
    + injection Heq as -> ->. rewrite lookup_insert_eq. done.
    + rewrite lookup_insert_ne by congruence. done.
Qed.

Lemma step_lines c st s e out s' : step s e = Some (out, s') → writer_did c st s out s'.
Proof.
  destruct e as [e err|l|l st1 b| |]; cbn [CoreLog.step].
  - intros H. apply bind_Some in H as (s1 & Hm%manage_keeps & [= <- <-]).
    apply writer_idle; [done..|]. by destruct Hm as (_ & _ & _ & ->).
  - unfold Send. intros H. inv_step H; by apply writer_idle.
  - apply WriteByte_lines.
  - unfold waitLog. intros H. inv_step H. by apply writer_idle.
  - unfold waitExit. intros H. inv_step H. by apply writer_idle.
Qed.

Lemma run_lines c st es : ∀ s outs s', run es s = Some (outs, s') → writer_did c st s outs s'.
Proof.
  induction es as [|e es IH]; intros s outs s' H; cbn in H; [injection H as <- <-; by apply writer_idle|].
  apply bind_Some in H as ([out s1] & Hs & H). apply bind_Some in H as ([outs1 s2] & Hr & [= <- <-]).
  eapply writer_app; [by eapply step_lines|by apply IH].
Qed.

(** C15. The session is told what the core says.  Whatever the manager, the
    writers and the session do and in whatever order: the two channels hold at
    most 512 lines and 4 reasons; the lines the session has received, then those
    waiting, are lines offered to the log, in that order; none is missing if
    there were never more than 512 lines the session had not yet taken; and the
    lines a stream of a command offers are its complete lines, cut at the
    newlines whatever the pieces the core writes, its last line being kept back
    until its newline comes. *)
Theorem session_receives_the_log es outs s :
  run es NewManager = Some (outs, s) →
  len (queue (Logs s)) <= 512 ∧ len (queue (Exits s)) <= 4 ∧
  received outs ++ queue (Logs s) `sublist_of` offered outs ∧
  told outs ++ queue (Exits s) `sublist_of` reported outs ∧
  ((∀ pre, pre `prefix_of` outs → len (offered pre) - len (received pre) <= 512) →
   received outs ++ queue (Logs s) = offered outs) ∧
  ∀ c st, ∃ lines rest,
    offered_by (FromCore c st) outs = map line_text lines ∧
    said c st outs = concat (map (λ line, line ++ [CoreMgr.newline]) lines) ++ rest ∧
    Forall (λ line, CoreMgr.newline ∉ line) (rest :: lines).
Proof.
  intros Hrun. destruct (run_used _ _ _ _ Hrun) as [HL HE]. split_and!.
  - apply used_bounded in HL as [_ HL]. apply HL. done.
  - apply used_bounded in HE as [_ HE]. apply HE. done.
  - rewrite <- takes_log, <- puts_log. apply (used_in_order _ _ _ HL).
  - rewrite <- takes_exit, <- puts_exit. apply (used_in_order _ _ _ HE).
  - intros Hlag. rewrite <- takes_log, <- puts_log. apply (used_lossless _ _ _ HL).
    intros us (tail & Heq). apply map_eq_app in Heq as (pre & rest & -> & <- & _).
    rewrite puts_log, takes_log. cbn. apply Hlag. by eexists.
  - intros c st. destruct (run_lines c st _ _ _ _ Hrun) as (lines & Ho & Hw). cbn in Hw. rewrite lookup_empty in Hw. cbn [default from_option] in Hw.
    exists lines, (default [] (buffers s !! (c, st))). split; [done|].
    destruct (Write_written (said c st outs) ([], [])) as [Hwr Hn]. rewrite Hw in Hwr, Hn.
    split; [exact (eq_sym Hwr)|]. apply Hn. repeat constructor. set_solver.
Qed.

(** A full log keeps its first lines: until the session takes one, nothing that
    happens changes what waits. *)
Theorem full_log_keeps_the_oldest es s outs s' :
  run es s = Some (outs, s') → cap (Logs s) <= len (queue (Logs s)) → received outs = [] → Logs s' = Logs s.
Proof.
  intros [Hu _]%run_used Hfull Hr. rewrite <- takes_log in Hr. revert Hfull Hr.
  induction Hu as [|c v us c' _ IH|c v c1 us c' _ _ IH|]; [done| |done|done].
  intros Hfull Hr. destruct (select_send_cases c v) as [[? _]|[_ Hs]]; [lia|]. rewrite Hs in IH. by apply IH.
Qed.

(** ** The manager inside *)

(** The steps of the manager in a run, with the errors of [cmd.Run]. *)
Definition manager_steps (es : list event) : list (CoreMgr.event * option string) :=
  omap (λ e, if e is EManager e err then Some (e, err) else None) es.

(** The session takes nothing, the core writes nothing. *)
Definition unattended (e : event) : Prop := if e is EManager _ _ then True else if e is ESend _ then True else False.

Lemma Send_keeps s l out s' : Send s l = Some (out, s') → mgr s' = mgr s.
Proof. unfold Send. intros H. by inv_step H. Qed.

Lemma WriteByte_keeps s l st b out s' : WriteByte s l st b = Some (out, s') → mgr s' = mgr s.
Proof.
  unfold WriteByte. intros H. apply bind_Some in H as (lp & _ & H). destruct (CoreMgr.pc lp); try done.
  destruct (CoreMgr.writeByte _ b). injection H as <- <-. by rewrite (proj1 (proj2 (emit_buffers _ _))).
Qed.

(** Only the manager's own steps change the manager. *)
Lemma step_manager s e out s' :
  step s e = Some (out, s') → CoreMgr.run (map fst (manager_steps [e])) (mgr s) = Some (mgr s').
Proof.
  destruct e as [e err|l|l st b| |]; cbn.
  - intros H. apply bind_Some in H as (s1 & (-> & _)%manage_keeps & [= <- <-]). done.
  - by intros ->%Send_keeps.
  - by intros ->%WriteByte_keeps.
  - unfold waitLog. intros H. by inv_step H.
  - unfold waitExit. intros H. by inv_step H.
Qed.

Lemma run_manager es : ∀ s outs s',
  run es s = Some (outs, s') → CoreMgr.run (map fst (manager_steps es)) (mgr s) = Some (mgr s').
Proof.
  induction es as [|e es IH]; intros s outs s' H; cbn [CoreLog.run] in H; [by injection H as <- <-|].
  apply bind_Some in H as ([out s1] & Hs%step_manager & H). apply bind_Some in H as ([outs1 s2] & Hr%IH & [= <- <-]).
  change (e :: es) with ([e] ++ es). unfold manager_steps in *.
  by rewrite omap_app, map_app, Supervisor.run_app, Hs.
Qed.

Lemma log_run_app es1 : ∀ es2 s out1 s1 out2 s2,
  run es1 s = Some (out1, s1) → run es2 s1 = Some (out2, s2) → run (es1 ++ es2) s = Some (out1 ++ out2, s2).
Proof.
  induction es1 as [|e es1 IH]; intros es2 s out1 s1 out2 s2 H1 H2; cbn in H1; [by injection H1 as <- <-|].
  apply bind_Some in H1 as ([out s3] & Hs & H1). apply bind_Some in H1 as ([outs1 s4] & Hr & [= <- <-]).
  cbn. rewrite Hs. cbn. rewrite (IH _ _ _ _ _ _ Hr H2). cbn. by rewrite <- app_assoc.
Qed.

(** A goroutine makes the sends it has left. *)
Lemma sends_return l xs : ∀ s, todo s l = xs → ∃ es outs s',
  run es s = Some (outs, s') ∧ mgr s' = mgr s ∧ todo s' l = [] ∧ manager_steps es = [] ∧ Forall unattended es.
Proof.
  induction xs as [|x xs IH]; intros s Ht; [by exists [], [], s|].
  assert (∃ out s1, Send s l = Some (out, s1) ∧ todo s1 l = xs) as (out & s1 & Hs & Ht1).
  { unfold Send. rewrite Ht. destruct x; eexists _, _; (split; [done|]); unfold todo; cbn; by rewrite lookup_insert_eq. }
  destruct (IH s1 Ht1) as (es & outs & s2 & Hr & Hm & Ht2 & He & Hu).
  exists (ESend l :: es), (out ++ outs), s2. cbn. rewrite Hs. cbn. rewrite Hr.
  split_and!; [done|by rewrite Hm, (Send_keeps _ _ _ _ Hs)|done..|by constructor].
Qed.

(** A step of the manager can be taken after the sends of its goroutine. *)
Lemma manager_step_taken s e err m : CoreMgr.step (mgr s) e = Some m → ∃ es outs s',
  run es s = Some (outs, s') ∧ mgr s' = m ∧ manager_steps es = [(e, err)] ∧ Forall unattended es.
Proof.
  intros Hm. assert (∃ es outs s1 s2, run es s = Some (outs, s1) ∧ mgr s1 = mgr s ∧ manager_steps es = [] ∧
    Forall unattended es ∧ manage CorePath cfgPath s1 e err = Some s2 ∧ mgr s2 = m)
    as (es & outs & s1 & s2 & Hr & _ & He & Hu & Hg & Hm2).
  { destruct (actor e) as [l|] eqn:Ha.
    - destruct (sends_return l _ s eq_refl) as (es & outs & s1 & Hr & Hm1 & Ht & He & Hu).
      exists es, outs, s1. unfold manage. rewrite Ha, Ht, Hm1, Hm. by eexists.
    - exists [], [], s. unfold manage. rewrite Ha, Hm. by eexists. }
  exists (es ++ [EManager e err]), (outs ++ []), s2. split_and!; [|done| |].
  - eapply log_run_app; [exact Hr|]. cbn. by rewrite Hg.
  - unfold manager_steps in *. by rewrite omap_app, He.
  - apply Forall_app. split; [done|by repeat constructor].
Qed.

(** Logging never holds the supervisor up.  The manager inside the system
    with its channels takes exactly the steps of the manager alone: every run
    contains a run of it, and every run of the manager, from any state, is
    contained in one in which the session takes nothing and the goroutines only
    send what they have to.  A command that runs can always write. *)
Theorem logging_is_transparent s :
  (∀ es outs s', run es s = Some (outs, s') →
     CoreMgr.run (map fst (manager_steps es)) (mgr s) = Some (mgr s')) ∧
  (∀ ms m, CoreMgr.run (map fst ms) (mgr s) = Some m →
     ∃ es outs s', run es s = Some (outs, s') ∧ mgr s' = m ∧ manager_steps es = ms ∧ Forall unattended es) ∧
  (∀ l lp c st b, CoreMgr.loops (mgr s) !! l = Some lp → CoreMgr.pc lp = CoreMgr.Waiting c →
     is_Some (step s (EWriteByte l st b))).
Proof.
  split_and!; [intros es outs s'; apply run_manager| |].
  2: { intros l lp c st b Hl Hpc. cbn. unfold WriteByte. rewrite Hl. cbn. rewrite Hpc. case_match. by eexists. }
  intros ms. revert s. induction ms as [|[e err] ms IH]; intros s m H; cbn in H; [injection H as <-; by exists [], [], s|].
  apply bind_Some in H as (m1 & Hm & H). destruct (manager_step_taken s e err m1 Hm) as (es & outs & s1 & Hr & <- & He & Hu).
  destruct (IH s1 m H) as (es2 & outs2 & s2 & Hr2 & Hm2 & He2 & Hu2).
  exists (es ++ es2), (outs ++ outs2), s2. unfold manager_steps in *. rewrite omap_app, He, He2, Forall_app.
  split_and!; [by eapply log_run_app|done..].
Qed.

End log.

Lemma offered_length outs : len (offered outs) <= len outs.
Proof.
  induction outs as [|o outs IH]; [done|]. rewrite len_cons.
  destruct o; cbn; fold (offered outs); rewrite ?len_cons; lia.
Qed.

Module Demo.

Abbreviation drive := (run "naive" "core-config.json").

(** A core is started, says two lines and the start of a third, and exits; the
    session takes what the log holds. *)
Definition launched : list event :=
  [EManager (CoreMgr.EStartCheck 0 7) None; EManager (CoreMgr.EStartCommit 0 1) None;
   EManager (CoreMgr.ELoopTop 1 0) None; ESend 1; EManager (CoreMgr.ELoopRun 1 true) None].
Definition speaks : list event := map (EWriteByte 1 Stdout) [104; 105; 10; 10; 63].
Definition exits : list event :=
  [EManager (CoreMgr.EProcessEnds 0) None; EManager (CoreMgr.ERunReturns 1) None;
   EManager (CoreMgr.ELoopAfter 1) (Some "exit status 1"); ESend 1; ESend 1].
Definition session : list event := launched ++ speaks ++ exits ++ [EWaitLog; EWaitLog; EWaitExit].

Definition shown (es : list event) : option (list string * list string * list string) :=
  '(outs, s) ← drive es NewManager; Some (received outs, told outs, queue (Logs s)).

Example session_shown : shown session =
  Some (["core: starting naive core-config.json"; "hi"], ["exit status 1"],
        [""; "core exited (exit status 1), restart in 1s"]).
Proof. vm_compute. reflexivity. Qed.

Lemma session_receives_the_log_witness : ∃ outs s,
  drive session NewManager = Some (outs, s) ∧
  received outs ++ queue (Logs s) = offered outs ∧ length (offered outs) = 4%nat.
Proof.
  eexists _, _. split; [vm_compute; reflexivity|]. split; [|reflexivity].
  refine (proj1 (proj2 (proj2 (proj2 (proj2 (session_receives_the_log "naive" "core-config.json" session _ _ _))))) _).
  - vm_compute. reflexivity.
  - intros pre Hp. apply prefix_length in Hp. cbn in Hp.
    pose proof (offered_length pre). pose proof (len_nonneg (received pre)). unfold len in *. lia.
Defined.

Lemma logging_is_transparent_witness : ∃ es outs s',
  drive es NewManager = Some (outs, s') ∧ CoreMgr.running (mgr s') = true ∧ Forall unattended es.
Proof.
  destruct (proj1 (proj2 (logging_is_transparent "naive" "core-config.json" NewManager))
    [(CoreMgr.EStartCheck 0 7, None); (CoreMgr.EStartCommit 0 1, None); (CoreMgr.ELoopTop 1 0, None);
     (CoreMgr.ELoopRun 1 true, None)] _ eq_refl) as (es & outs & s' & Hr & Hm & _ & Hu).
  exists es, outs, s'. by rewrite Hm.
Defined.

End Demo.
