(* ===== verification/CoreFiles.v ===== *)
(** * The configuration file of the core (tui/internal/coremgr/coremgr.go)

    Between its two critical sections [Start] writes the configuration of the
    profile to a temporary file and renames it; the commands of its goroutine are
    given the path and read the file when they come up.  The calls of [Start], the
    goroutines, [Stop] and the processes interleave at every operation. *)

From stdpp Require Import gmap strings.
From S2P Require Import Prelude CoreMgr ClientConfig ShareLink.

Module CoreFiles.

Import ClientConfig.

Abbreviation callid := nat.

(** A call of [Start] between its critical sections: its profile, the entry of the
    core and the file operations it has left. *)
Record start := mkStart { profile : Profile; socks : string; ops : list fsop }.

(** The manager, the files, the calls, and what each goroutine was started for. *)
Record state := mkState {
  mgr : CoreMgr.state;
  files : fs;
  starts : gmap callid start;
  served : gmap CoreMgr.loopid (Profile * string)
}.

#[export] Instance eta_start : Eta start := fun c => mkStart (profile c) (socks c) (ops c).
#[export] Instance eta_state : Eta state := fun s => mkState (mgr s) (files s) (starts s) (served s).

Definition init (f : fs) : state := mkState CoreMgr.NewManager f ∅ ∅.

Section files.
(** [json.MarshalIndent] of a configuration, the directory and the path of the file. *)
Context (Marshal : ShareLink.coreConfig → content) (dir cfgPath : string).

Definition tmpPath : string := cfgPath +:+ ".tmp".

Definition config_of (p : Profile) (internalSocks : string) : content :=
  Marshal (ShareLink.BuildCoreConfig p internalSocks).

Definition config_ops (p : Profile) (internalSocks : string) : list fsop :=
  [MkdirAll dir; WriteFile tmpPath (config_of p internalSocks); Rename tmpPath cfgPath].

(** [Start] up to the files: the first critical section. *)
Definition Begin (s : state) (t : callid) (x : CoreMgr.ctxid) (p : Profile) (internalSocks : string) : option state :=
  match starts s !! t with
  | Some _ => None
  | None =>
      m ← CoreMgr.StartCheck (mgr s) t x;
      Some (if CoreMgr.running (mgr s) then s <| mgr := m |>
            else s <| mgr := m |> <| starts := <[t := mkStart p internalSocks (config_ops p internalSocks)]> (starts s) |>)
  end.

(** [Dir] or [json.MarshalIndent] fails: nothing is written. *)
Definition Refuse (s : state) (t : callid) : option state :=
  c ← starts s !! t;
  if len (ops c) =? 3
  then m ← CoreMgr.StartAbort (mgr s) t; Some (s <| mgr := m |> <| starts := delete t (starts s) |>)
  else None.

(** A file that is not there cannot be renamed. *)
Definition possible (f : fs) (o : fsop) : bool :=
  if o is Rename old _ then bool_decide (is_Some (f !! old)) else true.

(** The next operation succeeds. *)
Definition FileOp (s : state) (t : callid) : option state :=
  c ← starts s !! t;
  match ops c with
  | [] => None
  | o :: os =>
      if possible (files s) o
      then Some (s <| files := exec (files s) o |> <| starts := <[t := c <| ops := os |>]> (starts s) |>)
      else None
  end.

(** It fails, and after a write or a rename the temporary file is removed, if
    [removed] tells that this succeeds. *)
Definition FileOpFails (s : state) (t : callid) (i : interruption) (removed : bool) : option state :=
  c ← starts s !! t;
  match ops c with
  | [] => None
  | o :: _ =>
      let f := exec_partly (files s) o i in
      let f := if o is MkdirAll _ then f else if removed then delete tmpPath f else f in
      m ← CoreMgr.StartAbort (mgr s) t;
      Some (s <| mgr := m |> <| files := f |> <| starts := delete t (starts s) |>)
  end.

(** The second critical section; [l] is the goroutine it spawns, if it does. *)
Definition Commit (s : state) (t : callid) (l : CoreMgr.loopid) : option state :=
  c ← starts s !! t;
  match ops c with
  | _ :: _ => None
  | [] =>
      m ← CoreMgr.StartCommit (mgr s) t l;
      let s' := s <| mgr := m |> <| starts := delete t (starts s) |> in
      Some (if CoreMgr.running (mgr s) then s' else s' <| served := <[l := (profile c, socks c)]> (served s) |>)
  end.

(** Any other step of the manager. *)
Definition Manage (s : state) (e : CoreMgr.event) : option state :=
  match e with
  | CoreMgr.EStartCheck _ _ | CoreMgr.EStartAbort _ | CoreMgr.EStartCommit _ _ => None
  | _ => m ← CoreMgr.step (mgr s) e; Some (s <| mgr := m |>)
  end.

(** What a command reads when it comes up. *)
Definition read_config (s : state) : option content := files s !! cfgPath.

Inductive event :=
  | EBegin (t : callid) (x : CoreMgr.ctxid) (p : Profile) (internalSocks : string)
  | ERefuse (t : callid)
  | EFileOp (t : callid)
  | EFileOpFails (t : callid) (i : interruption) (removed : bool)
  | ECommit (t : callid) (l : CoreMgr.loopid)
  | EManager (e : CoreMgr.event).

(** One step; with [alone] a call of [Start] begins when no other is under way. *)
Definition step (alone : bool) (s : state) (e : event) : option state :=
  match e with
  | EBegin t x p internalSocks =>
      if alone && negb (bool_decide (starts s = ∅)) then None else Begin s t x p internalSocks
  | ERefuse t => Refuse s t
  | EFileOp t => FileOp s t
  | EFileOpFails t i removed => FileOpFails s t i removed
  | ECommit t l => Commit s t l
  | EManager e => Manage s e
  end.

Fixpoint run (alone : bool) (es : list event) (s : state) : option state :=
  match es with
  | [] => Some s
  | e :: es => s ← step alone s e; run alone es s
  end.

End files.

End CoreFiles.
