(* ===== verification/CoreFilesSpec.v ===== *)
(** * Theorems about the configuration file of the core

    While a profile is served its configuration is the one in the file, if the
    calls of [Start] do not overlap; a start that fails leaves the file alone. *)

From stdpp Require Import gmap strings.
From S2P Require Import Prelude CoreMgr CoreMgrSpec ClientConfig ClientConfigSpec ShareLink CoreFiles.

Import ClientConfig CoreFiles.

(** ** Steps of the manager *)

(** The goroutines after a step were there before it, with their generation; none
    starts to run by itself, and [Stop] alone moves the generation. *)
Record no_start (m m' : CoreMgr.state) : Prop := {
  n_loops l lp' : CoreMgr.loops m' !! l = Some lp' →
    ∃ lp, CoreMgr.loops m !! l = Some lp ∧ CoreMgr.gen lp = CoreMgr.gen lp';
  n_running : CoreMgr.running m' = true → CoreMgr.running m = true ∧ CoreMgr.generation m' = CoreMgr.generation m;
  n_starting : CoreMgr.starting m' = CoreMgr.starting m
}.

Lemma no_start_same m m' :
  CoreMgr.loops m' = CoreMgr.loops m → CoreMgr.running m' = CoreMgr.running m →
  CoreMgr.generation m' = CoreMgr.generation m → CoreMgr.starting m' = CoreMgr.starting m → no_start m m'.
Proof. intros Hl Hr Hg Hs. split; rewrite ?Hl, ?Hr, ?Hg; eauto. Qed.

Lemma no_start_pc m m' l lp lp' :
  CoreMgr.loops m !! l = Some lp → CoreMgr.gen lp' = CoreMgr.gen lp →
  CoreMgr.loops m' = <[l := lp']> (CoreMgr.loops m) → CoreMgr.running m' = CoreMgr.running m →
  CoreMgr.generation m' = CoreMgr.generation m → CoreMgr.starting m' = CoreMgr.starting m → no_start m m'.
Proof.
  intros Hl Hlp Hm Hr Hg Hs. split; rewrite ?Hm, ?Hr, ?Hg; eauto.
  intros l1 lp1 [[<- <-]|[_ ?]]%lookup_insert_Some; eauto.
Qed.

Lemma other_step_no_start m e m' :
  match e with
  | CoreMgr.EStartCheck _ _ | CoreMgr.EStartAbort _ | CoreMgr.EStartCommit _ _ => False
  | _ => True
  end →
  CoreMgr.step m e = Some m' → no_start m m'.
Proof.
  intros He H. destruct e; try done; cbn [CoreMgr.step] in H;
    unfold CoreMgr.LoopTop, CoreMgr.LoopRun, CoreMgr.ProcessEnds, CoreMgr.RunReturns, CoreMgr.LoopAfter,
      CoreMgr.LoopTimer, CoreMgr.LoopCtxDone, CoreMgr.LoopLeave, CoreMgr.StopLock, CoreMgr.StopKill, CoreMgr.Cancel in H;
    Supervisor.inv_option H;
    try (by apply no_start_same);
    try (by eapply no_start_pc; [eassumption| |cbn; reflexivity|..]).
  - destruct (CoreMgr.generation m =? CoreMgr.gen x); by eapply no_start_pc; [eassumption| |cbn; reflexivity|..].
  - destruct (CoreMgr.generation m =? CoreMgr.gen x); by eapply no_start_pc; [eassumption| |cbn; reflexivity|..].
  - by eapply no_start_pc; [eassumption| |cbn; reflexivity|..]; case_match.
  - destruct (CoreMgr.generation m =? CoreMgr.gen x); split; try done;
      cbn; intros l1 lp1 [_ Hl1]%lookup_delete_Some; by exists lp1.
  - split; [|done|done]. cbn. eauto.
Qed.

(** ** Calls that do not overlap *)

Section files.
Context (Marshal : ShareLink.coreConfig → content) (dir cfgPath : string).

Abbreviation step := (step Marshal dir cfgPath).
Abbreviation run := (run Marshal dir cfgPath).
Abbreviation tmpPath := (tmpPath cfgPath).
Abbreviation config_of := (config_of Marshal).
Abbreviation config_ops := (config_ops Marshal dir cfgPath).

(** The file at the start. *)
Context (old : option content).

Implicit Types (s : state) (t : callid) (m : CoreMgr.state).

(** How far the files are when the operations [os] are left. *)
Definition files_at (f : fs) (c : start) : Prop :=
  ops c = config_ops (profile c) (socks c) ∨
  ops c = drop 1 (config_ops (profile c) (socks c)) ∨
  (ops c = drop 2 (config_ops (profile c) (socks c)) ∧ f !! tmpPath = Some (config_of (profile c) (socks c))) ∨
  (ops c = [] ∧ f !! cfgPath = Some (config_of (profile c) (socks c))).

(** The file is the old one or a whole configuration. *)
Definition whole (f : fs) : Prop := f !! cfgPath = old ∨ ∃ p w, f !! cfgPath = Some (config_of p w).

(** The one call there is writes while nothing is served; what is served is in the
    file. *)
Record served_inv (n : Z) s : Prop := {
  v_manager : Supervisor.inv n (mgr s);
  v_one t1 t2 c1 c2 : starts s !! t1 = Some c1 → starts s !! t2 = Some c2 → t1 = t2;
  v_idle t c : starts s !! t = Some c → CoreMgr.running (mgr s) = false;
  v_files t c : starts s !! t = Some c → files_at (files s) c;
  v_current l lp : CoreMgr.loops (mgr s) !! l = Some lp → CoreMgr.gen lp = CoreMgr.generation (mgr s) →
    ∃ p w, served s !! l = Some (p, w) ∧ files s !! cfgPath = Some (config_of p w);
  v_whole : whole (files s)
}.

Lemma not_running_no_current n m l lp :
  Supervisor.inv n m → CoreMgr.running m = false → CoreMgr.loops m !! l = Some lp →
  CoreMgr.gen lp ≠ CoreMgr.generation m.
Proof.
  intros Hi Hr Hl Hg. assert (CoreMgr.running m = true) by (apply (Supervisor.i_run _ _ Hi); eauto). congruence.
Qed.

Lemma no_call {A} t (c : A) : (∅ : gmap callid A) !! t = Some c → False.
Proof. by rewrite lookup_empty. Qed.

Ltac no_call := intros; exfalso; by eapply no_call.

Lemma delete_only {A} (cs : gmap callid A) t c :
  (∀ t1 t2 c1 c2, cs !! t1 = Some c1 → cs !! t2 = Some c2 → t1 = t2) → cs !! t = Some c → delete t cs = ∅.
Proof.
  intros Hone Ht. apply map_empty. intros t1. destruct (delete t cs !! t1) eqn:H; [|done].
  apply lookup_delete_Some in H as [Hne H]. by destruct Hne; eapply Hone.
Qed.

(** An operation gets the files further. *)
Lemma files_at_next f c o os :
  files_at f c → ops c = o :: os → possible f o = true → files_at (exec f o) (c <| ops := os |>).
Proof.
  unfold files_at. intros Hf Ho _. rewrite Ho in Hf.
  destruct Hf as [[= -> ->]|[[= -> ->]|[[[= -> ->] Ht]|[? _]]]]; [..|done]; cbn.
  - by right; left.
  - right; right; left. split; [done|]. by rewrite lookup_insert_eq.
  - right; right; right. rewrite Ht. by rewrite lookup_insert_eq.
Qed.

Lemma files_at_writes f c o os : files_at f c → ops c = o :: os →
  o = MkdirAll dir ∨ (∃ d, o = WriteFile tmpPath d) ∨
  (o = Rename tmpPath cfgPath ∧ f !! tmpPath = Some (config_of (profile c) (socks c))).
Proof.
  unfold files_at. intros Hf Ho. rewrite Ho in Hf.
  destruct Hf as [[= -> ->]|[[= -> ->]|[[[= -> ->] Ht]|[? _]]]]; [by left|right; left; by eexists|by right; right|done].
Qed.

Lemma exec_whole f c o os : files_at f c → ops c = o :: os → whole f → whole (exec f o).
Proof.
  intros Hf Ho Hw. destruct (files_at_writes _ _ _ _ Hf Ho) as [->|[[d ->]|[-> Ht]]]; unfold whole in *; cbn.
  - done.
  - by rewrite lookup_insert_ne by apply not_eq_sym, tmp_path.
  - rewrite Ht, lookup_insert_eq. right. by eexists _, _.
Qed.

Lemma exec_partly_keeps f c o os i : files_at f c → ops c = o :: os → exec_partly f o i !! cfgPath = f !! cfgPath.
Proof.
  intros Hf Ho. destruct (files_at_writes _ _ _ _ Hf Ho) as [->|[[d ->]|[-> Ht]]]; destruct i; cbn; try done.
  by rewrite lookup_insert_ne by apply not_eq_sym, tmp_path.
Qed.

Lemma begin_served n s t x p w s' :
  served_inv n s → n + 1 < 18446744073709551616 → starts s = ∅ → Begin Marshal dir cfgPath s t x p w = Some s' →
  served_inv (n + 1) s'.
Proof.
  intros [Hi _ _ _ Hc Hw] Hn He H. unfold Begin in H. rewrite He in H. rewrite lookup_empty in H.
  apply bind_Some in H as (m & Hm & [= <-]).
  pose proof (Supervisor.step_inv _ _ (CoreMgr.EStartCheck t x) _ Hi Hn Hm) as Hi'.
  unfold CoreMgr.StartCheck in Hm. destruct (CoreMgr.starting (mgr s) !! t); [done|]. injection Hm as <-.
  destruct (CoreMgr.running (mgr s)) eqn:Hr; split; cbn; rewrite ?He; try done; try no_call.
  - intros t1 t2 c1 c2. rewrite !lookup_insert_Some, lookup_empty. naive_solver.
  - intros t1 c [[<- <-]|[_ H]]%lookup_insert_Some; [by left|by apply no_call in H].
Qed.

Lemma file_op_served n s t s' : served_inv n s → FileOp s t = Some s' → served_inv n s'.
Proof.
  intros [Hi Hone Hidle Hf Hc Hw] H. unfold FileOp in H. apply bind_Some in H as (c & Ht & H).
  destruct (ops c) as [|o os] eqn:Ho; [done|]. destruct (possible (files s) o) eqn:Hp; [|done]. injection H as <-.
  split; cbn; [done|..].
  - intros t1 t2 c1 c2 H1 H2. apply lookup_insert_Some in H1 as [[<- <-]|[_ H1]], H2 as [[<- <-]|[_ H2]];
      first [done|by eapply Hone].
  - intros t1 c1 [[<- <-]|[_ ?]]%lookup_insert_Some; by eapply Hidle.
  - intros t1 c1 [[<- <-]|[Hne H1]]%lookup_insert_Some; [|by destruct Hne; eapply Hone].
    apply (files_at_next _ _ o); eauto.
  - intros l lp Hl Hg. by destruct (not_running_no_current _ _ _ _ Hi (Hidle _ _ Ht) Hl).
  - by apply (exec_whole _ c _ os); eauto.
Qed.

(** A call gives up: nothing was served and no call is left. *)
Lemma abort_served n s t m f :
  served_inv n s → n + 1 < 18446744073709551616 → CoreMgr.StartAbort (mgr s) t = Some m → is_Some (starts s !! t) →
  f !! cfgPath = files s !! cfgPath →
  served_inv (n + 1) (s <| mgr := m |> <| files := f |> <| starts := delete t (starts s) |>).
Proof.
  intros [Hi Hone Hidle Hf Hc Hw] Hn Hm [c Ht] Hsame.
  pose proof (Supervisor.step_inv _ _ (CoreMgr.EStartAbort t) _ Hi Hn Hm) as Hi'.
  assert (CoreMgr.running m = false) as Hr.
  { unfold CoreMgr.StartAbort in Hm. apply bind_Some in Hm as (x & _ & [= <-]). by apply (Hidle t c). }
  split; cbn; rewrite ?(delete_only _ _ _ Hone Ht); [done|no_call..| |].
  - intros l lp Hl Hg. by destruct (not_running_no_current _ _ _ _ Hi' Hr Hl).
  - unfold whole. by rewrite Hsame.
Qed.

Lemma commit_served n s t l s' :
  served_inv n s → n + 1 < 18446744073709551616 → Commit s t l = Some s' → served_inv (n + 1) s'.
Proof.
  intros [Hi Hone Hidle Hf Hc Hw] Hn H. unfold Commit in H. apply bind_Some in H as (c & Ht & H).
  destruct (ops c) eqn:Ho; [|done]. apply bind_Some in H as (m & Hm & [= <-]).
  pose proof (Supervisor.step_inv _ _ (CoreMgr.EStartCommit t l) _ Hi Hn Hm) as Hi'.
  rewrite (Hidle _ _ Ht). split; cbn; rewrite ?(delete_only _ _ _ Hone Ht); [done|no_call..| |exact Hw].
  intros l1 lp1 Hl1 Hg1.
  assert (∃ lp, CoreMgr.loops m !! l = Some lp ∧ CoreMgr.gen lp = CoreMgr.generation m) as (lp & Hl & Hg).
  { unfold CoreMgr.StartCommit in Hm. apply bind_Some in Hm as (x & _ & Hm). cbn in Hm.
    rewrite (Hidle _ _ Ht) in Hm. destruct (CoreMgr.loops (mgr s) !! l); [done|]. injection Hm as <-.
    eexists. cbn. rewrite lookup_insert_eq. by split. }
  rewrite (Supervisor.i_uniq _ _ Hi' l1 l lp1 lp) by congruence. rewrite lookup_insert_eq.
  exists (profile c), (socks c). split; [done|].
  destruct (Hf _ _ Ht) as [Hx|[Hx|[[Hx _]|[_ Hx]]]]; [by rewrite Ho in Hx..|done].
Qed.

Lemma manage_served n s e s' :
  served_inv n s → n + 1 < 18446744073709551616 → Manage s e = Some s' → served_inv (n + 1) s'.
Proof.
  intros [Hi Hone Hidle Hf Hc Hw] Hn H.
  assert (∃ m, CoreMgr.step (mgr s) e = Some m ∧ s' = s <| mgr := m |> ∧ no_start (mgr s) m) as (m & Hm & -> & Hs).
  { destruct e; try done; cbn [Manage] in H; apply bind_Some in H as (m & Hm & [= <-]);
      exists m; (split_and!; [done|done|by eapply other_step_no_start, Hm]). }
  pose proof (Supervisor.step_inv _ _ e _ Hi Hn Hm) as Hi'. split; cbn; try done.
  - intros t c Ht. destruct (CoreMgr.running m) eqn:Hr; [|done].
    apply (n_running _ _ Hs) in Hr as [Hr _]. by rewrite (Hidle _ _ Ht) in Hr.
  - intros l lp' Hl Hg. assert (CoreMgr.running m = true) as Hr by (apply (Supervisor.i_run _ _ Hi'); eauto).
    destruct (n_loops _ _ Hs l lp' Hl) as (lp & Hl0 & Hg0). apply (Hc l lp Hl0).
    destruct (n_running _ _ Hs Hr) as [_ Hgen]. congruence.
Qed.

Lemma step_served n s e s' :
  served_inv n s → n + 1 < 18446744073709551616 → step true s e = Some s' → served_inv (n + 1) s'.
Proof.
  intros Hv Hn H. destruct e as [t x p w|t|t|t i removed|t l|e]; cbn in H.
  - case_bool_decide; [|done]. cbn in H; by apply (begin_served n s t x p w).
  - unfold Refuse in H. apply bind_Some in H as (c & Ht & H). destruct (len (ops c) =? 3); [|done].
    apply bind_Some in H as (m & Hm & [= <-]). apply (abort_served n s t m (files s)); by eauto.
  - eapply file_op_served in H; [|done]. destruct H. split; try done. eapply Supervisor.inv_mono; [|done]. lia.
  - unfold FileOpFails in H. apply bind_Some in H as (c & Ht & H). destruct (ops c) as [|f os] eqn:Ho; [done|].
    apply bind_Some in H as (m & Hm & [= <-]). apply abort_served; [done..|by eexists|].
    rewrite <- (exec_partly_keeps (files s) c f os i (v_files _ _ Hv _ _ Ht) Ho).
    destruct f, removed; try done; by rewrite lookup_delete_ne by apply not_eq_sym, tmp_path.
  - by eapply commit_served.
  - by eapply manage_served.
Qed.

Lemma run_served es : ∀ n s s',
  served_inv n s → n + len es < 18446744073709551616 → run true es s = Some s' → served_inv (n + len es) s'.
Proof.
  induction es as [|e es IH]; intros n s s' Hv Hn H; cbn in H.
  - injection H as <-. unfold len. cbn. by rewrite Z.add_0_r.
  - apply bind_Some in H as (s1 & Hs & H). rewrite len_cons in *. pose proof (len_nonneg es).
    replace (n + (len es + 1)) with (n + 1 + len es) by lia. apply (IH _ s1); [|lia|done].
    apply (step_served n s e); [done|lia|done].
Qed.

Lemma init_served f : f !! cfgPath = old → served_inv 0 (init f).
Proof.
  split; cbn; try done; [apply Supervisor.inv_new|by left].
Qed.

End files.

(** C14. A core reads the profile it was started for.  When calls of [Start] do not
    overlap, then however they, [Stop], the goroutines, the processes and the
    failures of the files interleave: the configuration file is at every moment
    the one there was before or the whole configuration of a profile; and while
    the manager is running, no call of [Start] is writing and the file holds the
    configuration of the profile whose [Start] spawned the current goroutine, so
    every command it starts or restarts reads this one. *)
Theorem core_reads_its_profile Marshal dir cfgPath f es s :
  len es < 18446744073709551616 →
  run Marshal dir cfgPath true es (init f) = Some s →
  (files s !! cfgPath = f !! cfgPath ∨ ∃ p w, files s !! cfgPath = Some (config_of Marshal p w)) ∧
  (CoreMgr.running (mgr s) = true →
   starts s = ∅ ∧
   ∃ l lp p w,
     CoreMgr.loops (mgr s) !! l = Some lp ∧ CoreMgr.gen lp = CoreMgr.generation (mgr s) ∧
     served s !! l = Some (p, w) ∧
     read_config cfgPath s = Some (Marshal (ShareLink.BuildCoreConfig p w))).
Proof.
  intros Hn Hrun.
  destruct (run_served Marshal dir cfgPath (f !! cfgPath) es 0 (init f) s (init_served _ _ _ _ _ eq_refl) Hn Hrun)
    as [Hi _ Hidle _ Hc Hw].
  split; [exact Hw|]. intros Hr. split.
  - apply map_empty. intros t. destruct (starts s !! t) eqn:Ht; [|done]. by rewrite (Hidle _ _ Ht) in Hr.
  - apply (Supervisor.i_run _ _ Hi) in Hr as (l & lp & Hl & Hg). destruct (Hc l lp Hl Hg) as (p & w & Hs & Hf).
    by exists l, lp, p, w.
Qed.

Module Demo.

Definition profile_of (host : string) : Profile := mkProfile "" host 443 "" "" 1 None None "" "" None None.
(** A stand-in for the JSON text: the bytes of the proxy address. *)
Definition marshal (c : ShareLink.coreConfig) : content := map GoText.code (GoText.bytes (ShareLink.Proxy c)).

Abbreviation drive := (run marshal "/home" "/home/core-config.json").

Definition writes (t : callid) : list event := [EFileOp t; EFileOp t; EFileOp t].
Definition restarted : list event :=
  EBegin 0 7 (profile_of "a.example") "127.0.0.1:1" :: writes 0 ++
  [ECommit 0 1; EManager (CoreMgr.ELoopTop 1 0); EManager (CoreMgr.ELoopRun 1 true);
   EManager (CoreMgr.EStopLock 0); EManager (CoreMgr.EStopKill 0);
   EBegin 0 8 (profile_of "b.example") "127.0.0.1:1"; EFileOp 0; EFileOpFails 0 (Partway 3) true;
   EBegin 0 8 (profile_of "c.example") "127.0.0.1:1"] ++ writes 0 ++ [ECommit 0 2].

Lemma core_reads_its_profile_witness : ∃ s,
  drive true restarted (init ∅) = Some s ∧ CoreMgr.running (mgr s) = true ∧ starts s = ∅.
Proof.
  eexists. split; [vm_compute; reflexivity|]. split; [reflexivity|].
  refine (proj1 (proj2 (core_reads_its_profile marshal "/home" "/home/core-config.json" ∅ restarted _ _ _) _)).
  - unfold len. cbn. lia.
  - vm_compute. reflexivity.
  - reflexivity.
Defined.

(** Two calls that overlap: the second finds the manager running, returns its
    error, and has replaced the configuration of the first. *)
Definition overlapping : list event :=
  [EBegin 0 7 (profile_of "a.example") "127.0.0.1:1"; EBegin 1 8 (profile_of "b.example") "127.0.0.1:1"] ++
  writes 0 ++ [ECommit 0 1] ++ writes 1 ++ [ECommit 1 2].

Lemma refused_start_replaces_the_config : ∃ s,
  drive false overlapping (init ∅) = Some s ∧ CoreMgr.running (mgr s) = true ∧
  served s !! 1%nat = Some (profile_of "a.example", "127.0.0.1:1") ∧ served s !! 2%nat = None ∧
  read_config "/home/core-config.json" s = Some (config_of marshal (profile_of "b.example") "127.0.0.1:1").
Proof. eexists. split; [vm_compute; reflexivity|]. by split_and!. Qed.

End Demo.
