(* ===== verification/TunFlow.v ===== *)
(** * A TCP flow of the TUN device (tui/internal/tun/tun_windows.go, splice)

    Two goroutines copy a direction each, as in the tunnels of [Splice]; the flow
    itself waits for one of them or for the context of the device, closes both
    connections, and waits for the goroutines that are left. *)

From S2P Require Import Prelude Splice.

Module TunFlow.

Import Splice.

(** [splice(ctx, a, b)]: [a], the flow taken from the stack, is the client, and
    [b], the connection through the core, the upstream. *)
Definition goroutines : program :=
  mkProgram [Copy Upstream Client; Send] [Copy Client Upstream; Send] [].

(** Where the flow is: at its [select], before [b.Close()], before [a.Close()], in the
    loop that waits, or returned. *)
Inductive phase := Selecting | ClosingB | ClosingA | Waiting | Finished.

#[export] Instance phase_eq_dec : EqDecision phase.
Proof. solve_decision. Defined.

Record flow := mkFlow {
  io : Splice.state;
  ctx_done : bool;
  completed : Z;
  pc : phase
}.

#[export] Instance eta_flow : Eta flow := fun f => mkFlow (io f) (ctx_done f) (completed f) (pc f).

Definition start : flow := mkFlow (Splice.start goroutines) false 0 Selecting.

(** Receive from [done], if a message waits. *)
Definition receive (f : flow) : option flow :=
  if 0 <? done_len (io f)
  then Some (f <| io := (io f) <| done_len := done_len (io f) - 1 |> |> <| completed := completed f + 1 |>)
  else None.

Definition close (f : flow) (x : side) : flow :=
  f <| io := set (io f) x ((get (io f) x) <| closed := true |>) |>.

(** The case of the [select] that is taken when it is ready: the context's or the
    channel's. *)
Definition select (f : flow) (ctx : bool) : option flow :=
  if bool_decide (pc f = Selecting) then
    if ctx then (if ctx_done f then Some (f <| pc := ClosingB |>) else None)
    else f ← receive f; Some (f <| pc := ClosingB |>)
  else None.

Definition main_step (f : flow) : option flow :=
  match pc f with
  | ClosingB => Some ((close f Upstream) <| pc := ClosingA |>)
  | ClosingA => Some ((close f Client) <| pc := Waiting |>)
  | Waiting => if completed f <? 2 then receive f else Some (f <| pc := Finished |>)
  | Selecting | Finished => None
  end.

Inductive event :=
  | Select (ctx : bool)
  | Main
  | Copying (x : side) (n : nat)
  | CopyFails (x : side)
  | Cancel
  | PeerSends (x : side) (l : list Z)
  | PeerCloses (x : side).

(** The goroutine that copies from a side. *)
Definition copier (x : side) : thread := match x with Client => Up | Upstream => Down end.

Definition step (f : flow) (e : event) : option flow :=
  match e with
  | Select ctx => select f ctx
  | Main => main_step f
  | Copying x n => s ← exec_stmt (io f) (copier x) n; Some (f <| io := s |>)
  | CopyFails x => s ← copy_fails (io f) (copier x); Some (f <| io := s |>)
  | Cancel => Some (f <| ctx_done := true |>)
  | PeerSends x l => s ← peer_sends (io f) x l; Some (f <| io := s |>)
  | PeerCloses x => Some (f <| io := peer_closes (io f) x |>)
  end.

Fixpoint run (es : list event) (f : flow) : option flow :=
  match es with
  | [] => Some f
  | e :: es => f' ← step f e; run es f'
  end.

End TunFlow.
