(* ===== verification/TunFlowSpec.v ===== *)
(** * Theorems about the flows of the TUN device

    A flow ends when its context does or when one direction is over, and leaves
    neither a connection nor a goroutine. *)

From S2P Require Import Prelude Splice SpliceSpec TunFlow.

Import Splice TunFlow.

Lemma copier_reader x : copier x = reader x.
Proof. by destruct x. Qed.

(** What the goroutines still have to run. *)
Definition both_left (s : Splice.state) : Prop :=
  up s `suffix_of` up_body goroutines ∧ down s `suffix_of` down_body goroutines.

Definition both_closed (s : Splice.state) : Prop := ∀ x, Splice.closed (get s x) = true.

Definition phase_ok (f : flow) : Prop :=
  match pc f with
  | Selecting => completed f = 0
  | ClosingB => completed f <= 1
  | ClosingA => completed f <= 1 ∧ Splice.closed (get (io f) Upstream) = true
  | Waiting => both_closed (io f)
  | Finished => both_closed (io f) ∧ completed f = 2
  end.

Record flow_inv (f : flow) : Prop := {
  i_dirs : ∀ x, direction_ok x (io f);
  i_left : both_left (io f);
  i_count : pending (io f) + completed f = 2;
  i_done : 0 <= done_len (io f) ∧ 0 <= completed f;
  i_phase : phase_ok f
}.

Lemma start_flow_inv : flow_inv TunFlow.start.
Proof.
  split; [|by split|done|done|done].
  intros []; (split; cbn; [|lia|done|done]); eexists [Send]; (split; [by repeat constructor|by left]).
Qed.

(** A step of the goroutines or of the peers keeps it. *)
Lemma io_step_inv f s :
  flow_inv f → pumped (io f) s → both_left s → (∀ y, Splice.closed (get (io f) y) = true → Splice.closed (get s y) = true) →
  flow_inv (f <| io := s |>).
Proof.
  intros [Hd Hl Hc [H0 H1] Hp] [Hd' _ Hpend Hdone] Hl' Hclosed. split; cbn; [done|done|lia|lia|].
  unfold phase_ok, both_closed in *. cbn -[get]. destruct (pc f); [done|done|destruct Hp; by auto|by auto|destruct Hp; by auto].
Qed.

Lemma io_event_inv f e s : flow_inv f → pumped (io f) s → Splice.step (io f) e = Some s → flow_inv (f <| io := s |>).
Proof.
  intros Hi Hp Hs. apply io_step_inv; [done|done| |].
  - destruct (i_left _ Hi) as [Hu Hd].
    split; [transitivity (up (io f)); [|done]|transitivity (down (io f)); [|done]];
      [apply (left_suffix _ _ _ Up Hs)|apply (left_suffix _ _ _ Down Hs)].
  - intros y. by apply (side_closed_stays _ e).
Qed.

(** So do receiving and closing. *)
Lemma receive_spec f f' : receive f = Some f' →
  0 < done_len (io f) ∧ f' = f <| io := (io f) <| done_len := done_len (io f) - 1 |> |> <| completed := completed f + 1 |>.
Proof. unfold receive. destruct (Z.ltb_spec 0 (done_len (io f))); [|done]. by intros [= <-]. Qed.

Lemma dirs_same_conns s s' :
  (∀ x, direction_ok x s) → (∀ t, left s' t = left s t) →
  (∀ y, sent (get s' y) = sent (get s y) ∧ nread (get s' y) = nread (get s y) ∧ wrote (get s' y) = wrote (get s y)) →
  ∀ x, direction_ok x s'.
Proof. intros Hd Hl Hs x. by apply (direction_conn x s). Qed.

Lemma main_inv f f' : flow_inv f → main_step f = Some f' → flow_inv f'.
Proof.
  intros [Hd Hl Hc [H0 H1] Hp] Hs. unfold main_step, phase_ok in *.
  destruct (pc f) eqn:Hpc; [done|injection Hs as <-..| |done].
  - split; [apply (dirs_same_conns (io f)); [done|by intros []|by intros []]|done|done|done|].
    unfold phase_ok. cbn. split; [done|done].
  - destruct Hp as [Hp Hcl].
    split; [apply (dirs_same_conns (io f)); [done|by intros []|by intros []]|done|done|done|].
    unfold phase_ok, both_closed. intros []; [done|exact Hcl].
  - destruct (Z.ltb_spec (completed f) 2).
    + apply receive_spec in Hs as [Hlt ->]. unfold pending in *.
      split; cbn; [apply (dirs_same_conns (io f)); [done|by intros []|by intros []]|done|unfold pending; cbn; lia|lia|].
      unfold phase_ok. cbn. rewrite Hpc. intros x. specialize (Hp x). by destruct x.
    + injection Hs as <-. split; try done. unfold phase_ok. cbn. split; [done|].
      unfold pending in Hc. pose proof (sends_nonneg (up (io f))). pose proof (sends_nonneg (down (io f))). lia.
Qed.

Lemma select_inv f ctx f' : flow_inv f → select f ctx = Some f' → flow_inv f'.
Proof.
  intros [Hd Hl Hc [H0 H1] Hp]. unfold select, phase_ok in *.
  destruct (bool_decide (pc f = Selecting)) eqn:Hpc; [|done]. apply bool_decide_eq_true in Hpc. rewrite Hpc in Hp.
  destruct ctx.
  - destruct (ctx_done f); [|done]. intros [= <-]. split; try done. unfold phase_ok. cbn. lia.
  - intros (f1 & Hr & [= <-])%bind_Some. apply receive_spec in Hr as [Hlt ->].
    unfold pending in *.
    split; cbn; [apply (dirs_same_conns (io f)); [done|by intros []|by intros []]|done|unfold pending; cbn; lia|lia|].
    unfold phase_ok. cbn. lia.
Qed.

Lemma flow_step_inv f e f' : flow_inv f → TunFlow.step f e = Some f' → flow_inv f'.
Proof.
  intros Hi. destruct e as [ctx| |x n|x| |x l|x]; cbn [TunFlow.step].
  - by apply select_inv.
  - by apply main_inv.
  - intros (s & Hs & [= <-])%bind_Some. rewrite copier_reader in Hs.
    apply (io_event_inv f (Exec (reader x) n)); [done|by eapply exec_pump; [apply Hi|]|done].
  - intros (s & Hs & [= <-])%bind_Some. rewrite copier_reader in Hs.
    apply (io_event_inv f (Splice.CopyFails (reader x))); [done|by eapply copy_fails_pumped; [apply Hi|]|done].
  - intros [= <-]. by destruct Hi.
  - intros (s & Hs & [= <-])%bind_Some.
    apply (io_event_inv f (Splice.PeerSends x l)); [done|by eapply peer_sends_pumped; [apply Hi|]|done].
  - intros [= <-]. apply (io_event_inv f (Splice.PeerCloses x)); [done|apply peer_closes_pumped, Hi|done].
Qed.

Lemma flow_run_inv es f f' : flow_inv f → TunFlow.run es f = Some f' → flow_inv f'.
Proof.
  revert f. induction es as [|e es IH]; intros f Hi; cbn [TunFlow.run]; [by intros [= <-]|].
  intros (f1 & H1 & Hrun)%bind_Some. by eapply IH; [eapply flow_step_inv|].
Qed.

(** ** Ending *)

Definition thread_event (e : TunFlow.event) : bool :=
  match e with Select _ | TunFlow.Main | Copying _ _ | TunFlow.CopyFails _ => true | _ => false end.

(** What the threads of a flow that waits have left to do. *)
Definition remaining (f : flow) : Z :=
  len (up (io f)) + len (down (io f)) + (2 - completed f) + (if bool_decide (pc f = Finished) then 0 else 1).

Lemma pop_remaining f s x i rest :
  left (io f) (reader x) = i :: rest → (∀ t, left s t = left (io f) t) →
  remaining (f <| io := set_left s (reader x) rest |>) = remaining f - 1.
Proof.
  intros Hl Hs. pose proof (Hs Up) as Hu. pose proof (Hs Down) as Hd. cbn in Hu, Hd. unfold remaining. cbn -[len].
  destruct x; cbn -[len] in *; rewrite ?Hu, ?Hd, Hl, len_cons; lia.
Qed.

(** A goroutine that is left has its message to send. *)
Lemma copying_left f x : flow_inv f → left (io f) (reader x) ≠ [] →
  left (io f) (reader x) = [Copy (other x) x; Send] ∨ left (io f) (reader x) = [Send].
Proof.
  intros Hi Hne. destruct (i_left _ Hi) as [Hu Hw].
  destruct x; cbn [reader left other] in *;
    [apply suffixes_complete in Hu; cbn in Hu|apply suffixes_complete in Hw; cbn in Hw]; set_solver.
Qed.

Lemma done_room f x : flow_inv f → left (io f) (reader x) ≠ [] → done_len (io f) < 2.
Proof.
  intros Hi Hne. pose proof (i_count _ Hi) as Hc. destruct (i_done _ Hi) as [_ H1].
  assert (1 <= sends (left (io f) (reader x))) as Hs by (destruct (copying_left f x Hi Hne) as [-> | ->]; by vm_compute).
  unfold pending in Hc. pose proof (sends_nonneg (up (io f))). pose proof (sends_nonneg (down (io f))).
  destruct x; cbn in Hs; lia.
Qed.

(** The steps of the flow itself. *)
Lemma receive_remaining f f' : pc f = Waiting → receive f = Some f' → remaining f' = remaining f - 1 ∧ pc f' = Waiting.
Proof.
  intros Hpc [_ ->]%receive_spec. split; [|done]. unfold remaining. cbn -[len]. rewrite Hpc. lia.
Qed.

Lemma finish_remaining f : pc f = Waiting → remaining (f <| pc := Finished |>) = remaining f - 1.
Proof.
  intros Hpc. unfold remaining. cbn -[len]. rewrite Hpc, (bool_decide_eq_true_2 (Finished = Finished)) by done.
  rewrite (bool_decide_eq_false_2 (Waiting = Finished)) by done. lia.
Qed.

(** With both connections closed every goroutine that is left moves on. *)
Lemma copying_moves f x n :
  flow_inv f → both_closed (io f) →
  left (io f) (reader x) ≠ [] →
  ∃ s, exec_stmt (io f) (copier x) n = Some s ∧ remaining (f <| io := s |>) = remaining f - 1.
Proof.
  intros Hi Hcl Hne. rewrite copier_reader. unfold exec_stmt. pose proof (done_room f x Hi Hne) as Hd.
  destruct (copying_left f x Hi Hne) as [Hl|Hl]; rewrite Hl.
  - unfold copy_step. rewrite (Hcl x). eexists. split; [done|]. by eapply pop_remaining.
  - rewrite (proj2 (Z.ltb_lt _ _) Hd). eexists. split; [done|]. eapply pop_remaining; [done|by intros []].
Qed.

Lemma waiting_moves f : flow_inv f → pc f = Waiting →
  ∃ e f', thread_event e = true ∧ TunFlow.step f e = Some f' ∧ remaining f' = remaining f - 1 ∧
    (pc f' = Waiting ∨ pc f' = Finished).
Proof.
  intros Hi Hpc. pose proof (i_phase _ Hi) as Hcl. unfold phase_ok in Hcl. rewrite Hpc in Hcl.
  pose proof (i_count _ Hi) as Hcount. destruct (i_done _ Hi) as [H0 H1]. unfold pending in Hcount.
  destruct (decide (2 <= completed f)); [|destruct (decide (0 < done_len (io f)))].
  - exists TunFlow.Main, (f <| pc := Finished |>). cbn [TunFlow.step]. unfold main_step. rewrite Hpc.
    rewrite (proj2 (Z.ltb_ge _ _)) by lia. split_and!; [done|done|by apply finish_remaining|by right].
  - destruct (receive f) as [f'|] eqn:Hr.
    + destruct (receive_remaining f f' Hpc Hr). exists TunFlow.Main, f'. cbn [TunFlow.step]. unfold main_step. rewrite Hpc.
      rewrite (proj2 (Z.ltb_lt (completed f) 2)) by lia. split_and!; [done|done|done|by left].
    + unfold receive in Hr. by rewrite (proj2 (Z.ltb_lt 0 _)) in Hr by lia.
  - assert (∃ x, left (io f) (reader x) ≠ []) as [x Hx].
    { destruct (up (io f)) eqn:Hu; [|exists Client; cbn; by rewrite Hu].
      destruct (down (io f)) eqn:Hd; [|exists Upstream; cbn; by rewrite Hd]. cbn in Hcount.
      change (sends []) with 0 in Hcount. lia. }
    destruct (copying_moves f x 0 Hi Hcl Hx) as (s & Hs & Hr).
    exists (Copying x 0), (f <| io := s |>). cbn [TunFlow.step]. rewrite Hs. split_and!; [done|done|done|by left].
Qed.

Lemma remaining_nonneg f : flow_inv f → 0 <= remaining f ∧ (pc f ≠ Finished → 0 < remaining f) ∧ remaining f <= 7.
Proof.
  intros Hi. pose proof (i_count _ Hi) as Hc. destruct (i_done _ Hi) as [H0 H1]. unfold pending, remaining in *.
  pose proof (sends_nonneg (up (io f))). pose proof (sends_nonneg (down (io f))).
  pose proof (len_nonneg (up (io f))). pose proof (len_nonneg (down (io f))).
  destruct (i_left _ Hi) as [[pu Hu] [pd Hd]]. apply (f_equal len) in Hu, Hd. rewrite len_app in Hu, Hd.
  pose proof (len_nonneg pu). pose proof (len_nonneg pd). unfold len in Hu at 1. unfold len in Hd at 1. cbn in Hu, Hd.
  split_and!; [case_bool_decide; lia|intros; rewrite bool_decide_eq_false_2 by done; lia|case_bool_decide; lia].
Qed.

Lemma waiting_ends k f : flow_inv f → pc f = Waiting → remaining f <= Z.of_nat k →
  ∃ es f', Forall (λ e, thread_event e = true) es ∧ (length es <= k)%nat ∧ TunFlow.run es f = Some f' ∧ pc f' = Finished.
Proof.
  revert f. induction k as [|k IH]; intros f Hi Hpc Hr.
  { destruct (remaining_nonneg f Hi) as (_ & Hpos & _). rewrite Hpc in Hpos. specialize (Hpos ltac:(done)). lia. }
  destruct (waiting_moves f Hi Hpc) as (e & f1 & He & Hs & Hr1 & [Hpc1|Hpc1]).
  - destruct (IH f1) as (es & f' & Hes & Hl & Hrun & Hf); [by eapply flow_step_inv|done|lia|].
    exists (e :: es), f'. cbn [TunFlow.run]. rewrite Hs. split_and!; [by constructor|cbn; lia|done|done].
  - exists [e], f1. cbn [TunFlow.run]. rewrite Hs. split_and!; [by constructor|cbn; lia|done|done].
Qed.

(** From the end of its [select] a flow closes both connections and waits. *)
Lemma closing_ends f : flow_inv f → pc f ≠ Selecting →
  ∃ es f', Forall (λ e, thread_event e = true) es ∧ (length es <= 9)%nat ∧ TunFlow.run es f = Some f' ∧ pc f' = Finished.
Proof.
  intros Hi Hpc.
  assert (∀ g, flow_inv g → pc g = Waiting → ∃ es f', Forall (λ e, thread_event e = true) es ∧ (length es <= 7)%nat ∧
    TunFlow.run es g = Some f' ∧ pc f' = Finished) as Hwait.
  { intros g Hg Hp. destruct (remaining_nonneg g Hg) as (_ & _ & H7). by apply waiting_ends. }
  assert (∀ g g', flow_inv g → main_step g = Some g' → flow_inv g') as Hstep by (intros; by eapply main_inv).
  destruct (pc f) eqn:Hp; [done|..].
  - set (f1 := (close f Upstream) <| pc := ClosingA |>). set (f2 := (close f1 Client) <| pc := Waiting |>).
    assert (main_step f = Some f1) as H1 by (unfold main_step; by rewrite Hp).
    destruct (Hwait f2) as (es & f' & Hes & Hl & Hrun & Hf); [by eapply (Hstep f1); [eapply Hstep|]|done|].
    exists (TunFlow.Main :: TunFlow.Main :: es), f'. cbn [TunFlow.run TunFlow.step]. rewrite H1. cbn [mbind option_bind].
    split_and!; [by repeat constructor|cbn; lia|exact Hrun|done].
  - set (f2 := (close f Client) <| pc := Waiting |>).
    assert (main_step f = Some f2) as H2 by (unfold main_step; by rewrite Hp).
    destruct (Hwait f2) as (es & f' & Hes & Hl & Hrun & Hf); [by eapply Hstep|done|].
    exists (TunFlow.Main :: es), f'. cbn [TunFlow.run TunFlow.step]. rewrite H2. cbn [mbind option_bind].
    split_and!; [by constructor|cbn; lia|exact Hrun|done].
  - destruct (Hwait f Hi Hp) as (es & f' & ? & ? & ? & ?). exists es, f'. split_and!; try done. lia.
  - exists [], f. split_and!; [done|cbn; lia|done|done].
Qed.

(** Every step of a thread of a flow that waits brings its end nearer. *)
Lemma waiting_decreases f e f' : flow_inv f → pc f = Waiting → thread_event e = true →
  TunFlow.step f e = Some f' → remaining f' = remaining f - 1.
Proof.
  intros Hi Hpc He Hs. pose proof (i_phase _ Hi) as Hcl. unfold phase_ok in Hcl. rewrite Hpc in Hcl.
  destruct e as [ctx| |x n|x| | |]; try done; cbn [TunFlow.step] in Hs.
  - unfold select in Hs. by rewrite Hpc in Hs.
  - unfold main_step in Hs. rewrite Hpc in Hs. destruct (Z.ltb_spec (completed f) 2).
    + by apply receive_remaining.
    + injection Hs as <-. by apply finish_remaining.
  - apply bind_Some in Hs as (s & Hs & [= <-]).
    assert (left (io f) (reader x) ≠ []) as Hne by (intros Hl; rewrite copier_reader in Hs; unfold exec_stmt in Hs; by rewrite Hl in Hs).
    destruct (copying_moves f x n Hi Hcl Hne) as (s1 & Hs1 & Hr). rewrite Hs in Hs1. by injection Hs1 as ->.
  - apply bind_Some in Hs as (s & Hs & [= <-]). rewrite copier_reader in Hs. unfold copy_fails in Hs.
    destruct (left (io f) (reader x)) as [|[] rest] eqn:Hl; try done. injection Hs as <-. by eapply pop_remaining.
Qed.

(** One direction over means a message for the [select]. *)
Lemma select_ready f : flow_inv f → pc f = Selecting → ctx_done f = true ∨ up (io f) = [] ∨ down (io f) = [] →
  ∃ ctx f', select f ctx = Some f' ∧ pc f' = ClosingB.
Proof.
  intros Hi Hpc Hr. pose proof (i_phase _ Hi) as Hc0. unfold phase_ok in Hc0. rewrite Hpc in Hc0.
  unfold select. rewrite Hpc, bool_decide_eq_true_2 by done. destruct Hr as [Hr|Hr].
  { exists true. rewrite Hr. by eexists. }
  exists false. pose proof (i_count _ Hi) as Hc. unfold pending in Hc.
  assert (∀ x, sends (left (io f) (reader x)) <= 1) as Hle.
  { intros x. destruct (decide (left (io f) (reader x) = [])) as [->|Hne]; [by vm_compute|].
    destruct (copying_left f x Hi Hne) as [-> | ->]; destruct x; by vm_compute. }
  pose proof (Hle Client) as H1. pose proof (Hle Upstream) as H2. cbn [reader left] in H1, H2.
  unfold receive. rewrite (proj2 (Z.ltb_lt 0 _)); [by eexists|].
  destruct Hr as [Hr|Hr]; rewrite Hr in Hc; change (sends []) with 0 in Hc; lia.
Qed.

(** C32. A TCP flow of the TUN device leaves nothing behind.  Whatever the interleaving:
    when the device's context is done or one direction is over, the flow returns
    by at most ten steps of its own threads; from the close of its connections on,
    every step of a thread brings that end nearer; when it has returned, both
    connections are closed and both copying goroutines are over; and what was
    written to a side is at any time a prefix of what the other sent. *)
Theorem tun_flow_ends es f :
  TunFlow.run es TunFlow.start = Some f →
  (ctx_done f = true ∨ up (io f) = [] ∨ down (io f) = [] →
     ∃ es' f', Forall (λ e, thread_event e = true) es' ∧ (length es' <= 10)%nat ∧
       TunFlow.run es' f = Some f' ∧ pc f' = Finished) ∧
  (pc f = Waiting → ∀ e f', thread_event e = true → TunFlow.step f e = Some f' → 0 <= remaining f' < remaining f) ∧
  (pc f = Finished → both_closed (io f) ∧ up (io f) = [] ∧ down (io f) = []) ∧
  (∀ x, wrote (get (io f) (other x)) `prefix_of` sent (get (io f) x)).
Proof.
  intros Hrun. pose proof (flow_run_inv es _ f start_flow_inv Hrun) as Hi. split_and!.
  - intros Hr. destruct (decide (pc f = Selecting)) as [Hpc|Hpc].
    + destruct (select_ready f Hi Hpc Hr) as (ctx & f1 & Hs & Hp1).
      destruct (closing_ends f1) as (es' & f' & Hes & Hl & Hrun' & Hf); [by eapply select_inv|by rewrite Hp1|].
      exists (Select ctx :: es'), f'. cbn [TunFlow.run TunFlow.step]. rewrite Hs.
      split_and!; [by constructor|cbn; lia|done|done].
    + destruct (closing_ends f Hi Hpc) as (es' & f' & ? & ? & ? & ?). exists es', f'. split_and!; try done. lia.
  - intros Hpc e f' He Hs. rewrite (waiting_decreases f e f' Hi Hpc He Hs).
    destruct (remaining_nonneg f' (flow_step_inv f e f' Hi Hs)) as (H0 & _).
    rewrite (waiting_decreases f e f' Hi Hpc He Hs) in H0. lia.
  - intros Hpc. pose proof (i_phase _ Hi) as Hp. unfold phase_ok in Hp. rewrite Hpc in Hp. destruct Hp as [Hcl H2].
    pose proof (i_count _ Hi) as Hc. destruct (i_done _ Hi) as [H0 _]. unfold pending in Hc.
    assert (∀ x, left (io f) (reader x) ≠ [] → 1 <= sends (left (io f) (reader x))) as Hs
      by (intros x Hne; destruct (copying_left f x Hi Hne) as [-> | ->]; destruct x; by vm_compute).
    pose proof (sends_nonneg (up (io f))). pose proof (sends_nonneg (down (io f))).
    split; [done|]. split; [destruct (up (io f)) eqn:Hu|destruct (down (io f)) eqn:Hd]; try done; exfalso.
    + specialize (Hs Client). cbn [reader left] in Hs. rewrite Hu in Hs. specialize (Hs ltac:(done)). lia.
    + specialize (Hs Upstream). cbn [reader left] in Hs. rewrite Hd in Hs. specialize (Hs ltac:(done)). lia.
  - intros x. apply (d_prefix _ _ (i_dirs _ Hi x)).
Qed.

(** ** Witness *)

Module Demo.

(** A flow in use when the device is closed. *)
Definition in_use : list TunFlow.event :=
  [TunFlow.PeerSends Client [1; 2]; Copying Client 7; TunFlow.PeerSends Upstream [3]; Cancel].

Definition after : flow := default TunFlow.start (TunFlow.run in_use TunFlow.start).

Lemma tun_flow_ends_witness : ∃ es' f', TunFlow.run es' after = Some f' ∧ pc f' = Finished.
Proof.
  destruct (tun_flow_ends in_use after) as (H & _); [vm_compute; reflexivity|].
  destruct H as (es' & f' & _ & _ & Hrun & Hf); [left; vm_compute; reflexivity|].
  exists es', f'. split; [exact Hrun|exact Hf].
Defined.

End Demo.
