(* ===== verification/TunDevice.v ===== *)
(** * The TUN device (tui/internal/tun/tun_windows.go, Create, Close and the pumps)

    [Create] makes an adapter, a network stack and routes, and undoes what it has
    done when a later call fails; [Close] undoes all of it once.  The adapters, the
    stacks and the commands that were run are the world the device lives in. *)

From stdpp Require Import gmap.
From S2P Require Import Prelude GoIP GoText GoNet Tun.

Module TunDevice.

Import Tun.

Record world := mkWorld {
  adapters : gset nat;
  stacks : gset nat;
  ran : list (list text)
}.

Record Device := mkDevice {
  dev : nat;
  stk : option nat;
  ctx_done : bool;
  closed : bool;
  ifName : text;
  cfg : Config
}.

#[export] Instance eta_world : Eta world := fun w => mkWorld (adapters w) (stacks w) (ran w).
#[export] Instance eta_Device : Eta Device := fun d =>
  mkDevice (dev d) (stk d) (ctx_done d) (closed d) (ifName d) (cfg d).

(** What the libraries and the system answer: the adapter and its name, the new
    stack and whether it takes the NIC and the address, the commands that succeed,
    and what [route print] shows when the routes are set up. *)
Record outcome := mkOutcome {
  adapter : option nat;
  name : option text;
  new_stack : nat;
  nic_ok : bool;
  address_ok : bool;
  cmd_ok : list text → bool;
  routes : option text
}.

Section device.
Context (NewSubnet : list Z → list Z → bool).

(** The stack is kept in the device at the end only. *)
Definition setupStack (o : outcome) (d : Device) (w : world) : result (bool * Device * world) :=
  let w := w <| stacks := {[ new_stack o ]} ∪ stacks w |> in
  if negb (nic_ok o) then Ok (false, d, w)
  else
    r ← parseCIDR NewSubnet (Subnet (cfg d));
    match r with
    | inl _ => Ok (false, d, w)
    | inr _ =>
        match ipv4_address (Gateway (cfg d)) with
        | None => Panic IndexOutOfRange
        | Some _ =>
            if negb (address_ok o) then Ok (false, d, w) else Ok (true, d <| stk := Some (new_stack o) |>, w)
        end
    end.

Definition run_setup (o : outcome) (d : Device) (w : world) : bool * world :=
  let '(cs, ok) := setupRoutes (cfg d) (ifName d) (physicalGateway (routes o)) in
  let '(done, all) := run_commands cs (cmd_ok o) in
  (ok && all, w <| ran := ran w ++ done |>).

(** [gw] is what [route print] shows now. *)
Definition Close (gw : option text) (d : Device) (w : world) : Device * world :=
  if closed d then (d, w)
  else
    let d := d <| closed := true |> <| ctx_done := true |> in
    let w := w <| ran := ran w ++ teardownRoutes (cfg d) (ifName d) (physicalGateway gw) |> in
    let w := match stk d with Some s => w <| stacks := stacks w ∖ {[ s ]} |> | None => w end in
    (d, w <| adapters := adapters w ∖ {[ dev d ]} |>).

(** [gw] is what [route print] shows when [Create] has to close the device again. *)
Definition Create (o : outcome) (gw : option text) (c : Config) (w : world) : result ((string + Device) * world) :=
  r ← Create_config NewSubnet c;
  match r with
  | inl e => Ok (inl e, w)
  | inr c =>
      match adapter o with
      | None => Ok (inl "create wintun device", w)
      | Some a =>
          let w := w <| adapters := {[ a ]} ∪ adapters w |> in
          match name o with
          | None => Ok (inl "name", w <| adapters := adapters w ∖ {[ a ]} |>)
          | Some n =>
              let d := mkDevice a None false false n c in
              r ← setupStack o d w;
              let '(ok, d, w) := r in
              if negb ok then Ok (inl "stack", (Close gw d w).2)
              else
                let '(ok, w) := run_setup o d w in
                if negb ok then Ok (inl "setup routes", (Close gw d w).2) else Ok (inr d, w)
          end
      end
  end.

(** ** The pumps *)

(** The inbound pump: each read is an error or buffers with sizes; the packets it
    injects into the stack. *)
Fixpoint inject (bufs : list (list Z * Z)) : result (list (list Z * protocol)) :=
  match bufs with
  | [] => Ok []
  | (b, n) :: bufs =>
      p ← inboundPacket b n;
      ps ← inject bufs;
      Ok (match p with Some p => p :: ps | None => ps end)
  end.

Fixpoint pump_in (reads : list (option (list (list Z * Z)))) : result (list (list Z * protocol)) :=
  match reads with
  | [] | None :: _ => Ok []
  | Some bufs :: reads => ps ← inject bufs; rest ← pump_in reads; Ok (ps ++ rest)
  end.

(** The outbound pump: the packets read from the stack, [None] when the context is
    done, with whether the device takes them; the packets it writes. *)
Fixpoint pump_out (pkts : list (option (list Z) * bool)) : list (list Z) :=
  match pkts with
  | [] | (None, _) :: _ => []
  | (Some [], _) :: pkts => pump_out pkts
  | (Some view, ok) :: pkts => if ok then view :: pump_out pkts else []
  end.

(** ** TCP flows *)

Inductive tcp_action :=
  | Complete (reset : bool)
  | DialTCP (target : text)
  | SpliceFlow
  | CloseUp
  | CloseConn.

(** [local] is the address as the stack prints it. *)
Definition handleTCP (created dialled : bool) (local : text) (port : Z) : list tcp_action :=
  if negb created then [Complete true]
  else
    [Complete false; DialTCP (JoinHostPort local (Itoa port))] ++
    (if dialled then [SpliceFlow; CloseUp; CloseConn] else [CloseConn]).

End device.

End TunDevice.
