(* ===== verification/TunDeviceSpec.v ===== *)
(** * Theorems about the TUN device

    Creating and closing a device: what is made is undone, whatever fails on the
    way, except for a stack whose set-up fails. *)

From stdpp Require Import gmap.
From S2P Require Import Prelude GoIP GoText GoNet GoNetFacts Tun TunSpec TunDevice.

Import Tun TunDevice.

Section device.
Context (NewSubnet : list Z → list Z → bool).
Implicit Types (o : outcome) (w : world) (d : Device).

Lemma Create_config_total c : returns (Create_config NewSubnet c) (λ r, ∀ c', r = inr c' → accepted NewSubnet c').
Proof.
  assert (returns (Create_config NewSubnet c) (λ _, True)) as (r & Hr & _).
  { unfold Create_config, parseCIDR. cbn zeta. repeat (case_match; try by apply returns_ok);
      simplify_eq; try by apply returns_ok. }
  exists r. split; [done|]. intros c' ->. by apply Create_config_iff in Hr as [_ ?].
Qed.

(** The stack is set up unless the library refuses the NIC or the address. *)
Lemma setupStack_accepted o d w : accepted NewSubnet (cfg d) →
  setupStack NewSubnet o d w =
    let w := w <| stacks := {[ new_stack o ]} ∪ stacks w |> in
    if nic_ok o && address_ok o then Ok (true, d <| stk := Some (new_stack o) |>, w) else Ok (false, d, w).
Proof.
  intros [_ (gw & ip & v4 & subnet & Hgw & [g4 Hg] & Hs & Hv & Hc & H4 & Hn) _].
  unfold setupStack, parseCIDR. cbn zeta. destruct (nic_ok o); cbn [negb andb]; [|done].
  rewrite Hs, H4, Hn, Hg. cbn. by destruct (address_ok o).
Qed.

(** ** The routing table *)

(** A route: destination, mask and gateway. *)
Definition route : Type := text * text * text.

(** What a command does to the table: [route add] adds a route, [route delete] removes
    the one with the gateway it names, or those with any gateway when it names none;
    other commands leave the table alone. *)
Definition exec_route (t : list route) (c : list text) : list route :=
  match c with
  | [r; v; d; k; m; g; _; _] =>
      if decide (r = bytes "route" ∧ v = bytes "add" ∧ k = bytes "mask") then (d, m, g) :: t else t
  | [r; v; d; k; m] =>
      if decide (r = bytes "route" ∧ v = bytes "delete" ∧ k = bytes "mask")
      then filter (λ x, x.1 ≠ (d, m)) t else t
  | [r; v; d; k; m; g] =>
      if decide (r = bytes "route" ∧ v = bytes "delete" ∧ k = bytes "mask")
      then filter (λ x, x ≠ (d, m, g)) t else t
  | _ => t
  end.

Definition table (t : list route) (cs : list (list text)) : list route := foldl exec_route t cs.

Lemma exec_add t (d m g : text) : exec_route t (add_route d m g) = (d, m, g) :: t.
Proof. unfold exec_route, add_route, words. cbn [map app]. by rewrite decide_True. Qed.
Lemma exec_delete_any t (d m : text) : exec_route t (delete_route d m []) = filter (λ x, x.1 ≠ (d, m)) t.
Proof. unfold exec_route, delete_route, words. cbn [map app]. by rewrite decide_True. Qed.
Lemma exec_delete t (d m g : text) : exec_route t (delete_route d m [g]) = filter (λ x, x ≠ (d, m, g)) t.
Proof. unfold exec_route, delete_route, words. cbn [map app]. by rewrite decide_True. Qed.
Lemma exec_set_address t n a m : exec_route t (set_address n a m) = t.
Proof. done. Qed.

(** A set-up leaves the routes there were and those it adds; a table only shrinks in
    a teardown. *)
Lemma setup_commands cfg n gw c : c ∈ (setupRoutes cfg n gw).1 →
  (∃ a m, c = set_address n a m) ∨
  (∃ d m : text, c = add_route d m (Gateway cfg) ∧ (d, m) ∈ map half_parts halves) ∨
  (∃ d : text, c = add_route d (bytes "255.255.255.255") gw ∧ d ∈ ExcludeIP cfg ∧ gw ≠ []).
Proof.
  unfold setupRoutes. destruct (ParseCIDR (Subnet cfg)) as [[ip subnet]|]; cbn [fst]; [|by intros ?%elem_of_nil].
  destruct (negb (bool_decide (ExcludeIP cfg = [])) && bool_decide (gw = [])) eqn:Hgw; cbn [fst].
  { intros ->%list_elem_of_singleton. left. by eexists _, _. }
  intros [->|[Hin|Hin]%elem_of_app]%elem_of_cons; [left; by eexists _, _|right; right|right; left].
  - apply list_elem_of_fmap in Hin as (x & -> & Hx). exists x. split_and!; [done|done|]. intros ->.
    rewrite (bool_decide_eq_false_2 (ExcludeIP cfg = [])) in Hgw; [done|]. intros He. rewrite He in Hx. by apply elem_of_nil in Hx.
  - apply list_elem_of_fmap in Hin as (h & -> & Hh). destruct (half_parts h) as [d m] eqn:Hp. exists d, m.
    split; [done|]. apply list_elem_of_fmap. by exists h.
Qed.

Lemma teardown_commands cfg n gw c : c ∈ teardownRoutes cfg n gw →
  (∃ d m : text, c = delete_route d m [] ∧ (d, m) ∈ map half_parts halves) ∨
  (∃ d : text, c = delete_route d (bytes "255.255.255.255") [gw] ∧ d ∈ ExcludeIP cfg) ∨
  (∀ t, exec_route t c = t).
Proof.
  unfold teardownRoutes. rewrite !elem_of_app. intros [Hin|[Hin|Hin]].
  - left. apply list_elem_of_fmap in Hin as (h & -> & Hh). destruct (half_parts h) as [d m] eqn:Hp. exists d, m.
    split; [done|]. apply list_elem_of_fmap. by exists h.
  - right; left. destruct (bool_decide _); [by apply elem_of_nil in Hin|].
    apply list_elem_of_fmap in Hin as (x & -> & Hx). by exists x.
  - right; right. apply list_elem_of_singleton in Hin as ->. done.
Qed.

Lemma table_setup cfg n gw cs t r : cs ⊆ (setupRoutes cfg n gw).1 → r ∈ table t cs →
  r ∈ t ∨ (r.1 ∈ map half_parts halves ∧ r.2 = Gateway cfg) ∨
  (r.1.1 ∈ ExcludeIP cfg ∧ r.1.2 = bytes "255.255.255.255" ∧ r.2 = gw ∧ gw ≠ []).
Proof.
  revert t. induction cs as [|c cs IH]; intros t Hcs Hr; [by left|]. cbn in Hr.
  assert (c ∈ (setupRoutes cfg n gw).1) as Hc by (apply Hcs; by left).
  destruct (IH (exec_route t c) (λ x Hx, Hcs x (list_elem_of_further _ _ _ Hx)) Hr) as [Hin|?]; [|by right].
  destruct (setup_commands _ _ _ _ Hc) as [(a & m & ->)|[(d & m & -> & Hd)|(d & -> & Hd & Hg)]].
  - by left.
  - rewrite exec_add in Hin. apply elem_of_cons in Hin as [->|Hin]; [right; by left|by left].
  - rewrite exec_add in Hin. apply elem_of_cons in Hin as [->|Hin]; [by right; right|by left].
Qed.

Lemma table_setup_keeps cfg n gw cs t r : cs ⊆ (setupRoutes cfg n gw).1 → r ∈ t → r ∈ table t cs.
Proof.
  revert t. induction cs as [|c cs IH]; intros t Hcs Hr; [done|]. cbn.
  apply IH; [intros x Hx; apply Hcs; by right|]. assert (c ∈ (setupRoutes cfg n gw).1) as Hc by (apply Hcs; by left).
  destruct (setup_commands _ _ _ _ Hc) as [(a & m & ->)|[(d & m & -> & _)|(d & -> & _)]]; [done|..];
    rewrite exec_add; by right.
Qed.

Lemma table_setup_adds cfg n gw cs t (d m g : text) : cs ⊆ (setupRoutes cfg n gw).1 → add_route d m g ∈ cs → (d, m, g) ∈ table t cs.
Proof.
  intros Hcs Hin. apply list_elem_of_split in Hin as (c1 & c2 & ->). unfold table. rewrite foldl_app. cbn [foldl].
  rewrite exec_add. eapply table_setup_keeps; [|by left]. intros x Hx. apply Hcs. set_solver.
Qed.

(** A table after commands that are each of a teardown. *)
Lemma table_teardown cfg n gw cs t r : cs ⊆ teardownRoutes cfg n gw →
  r ∈ table t cs ↔ r ∈ t ∧ (delete_route r.1.1 r.1.2 [] ∉ cs) ∧ (delete_route r.1.1 r.1.2 [r.2] ∉ cs).
Proof.
  revert t. induction cs as [|c cs IH]; intros t Hcs.
  { cbn. split; [intros ?; split_and!; [done|by intros ?%elem_of_nil..]|by intros [? _]]. }
  cbn [table foldl]. rewrite (IH (exec_route t c)) by (intros x Hx; apply Hcs; by right).
  assert (c ∈ teardownRoutes cfg n gw) as Hc by (apply Hcs; by left).
  rewrite !not_elem_of_cons.
  destruct r as [[rd rm] rg]. cbn [fst snd].
  assert (∀ (d m d' m' : text) l l', delete_route d m l = delete_route d' m' l' ↔ d = d' ∧ m = m' ∧ l = l') as Hinj.
  { intros. unfold delete_route, words. cbn [map app]. split; [by intros [= -> -> ->]|by intros (-> & -> & ->)]. }
  destruct (teardown_commands _ _ _ _ Hc) as [(d & m & -> & _)|[(d & -> & _)|Hid]].
  - rewrite exec_delete_any, list_elem_of_filter, !Hinj. cbn [fst]. naive_solver congruence.
  - rewrite exec_delete, list_elem_of_filter, !Hinj. naive_solver congruence.
  - rewrite Hid. assert (∀ (d m : text) l, l = [] ∨ (∃ g, l = [g]) → delete_route d m l ≠ c) as Hne.
    { intros d m l Hl <-. destruct Hl as [->|[g ->]].
      - specialize (Hid [(d, m, [])]). rewrite exec_delete_any, filter_cons_False in Hid by (cbn; naive_solver). done.
      - specialize (Hid [(d, m, g)]). rewrite exec_delete, filter_cons_False in Hid by naive_solver. done. }
    pose proof (Hne rd rm [] ltac:(by left)). pose proof (Hne rd rm [rg] ltac:(right; by eexists)). tauto.
Qed.

(** The two halves of the address space, and the mask of a single address. *)
Definition half_routes : list (text * text) :=
  [(bytes "0.0.0.0", bytes "128.0.0.0"); (bytes "128.0.0.0", bytes "128.0.0.0")].

Definition host_mask : text := bytes "255.255.255.255".

Lemma halves_routes : map half_parts halves = half_routes.
Proof. vm_compute. reflexivity. Qed.

(** The commands run after [w] leave no route that was not there before, but those
    to the excluded servers when the physical gateway has changed from [gw0] to
    [gw1]; and they remove none but those of the halves and, through the gateway
    there is now, those to the excluded servers. *)
Definition restored (c : Config) (gw0 gw1 : text) w w' : Prop :=
  ∃ cs, ran w' = ran w ++ cs ∧ ∀ t (d m g : text),
    ((d, m, g) ∈ table t cs →
       (d, m, g) ∈ t ∨ (gw0 ≠ gw1 ∧ d ∈ ExcludeIP c ∧ m = host_mask ∧ g = gw0)) ∧
    ((d, m, g) ∈ t →
       (d, m, g) ∈ table t cs ∨ (d, m) ∈ half_routes ∨ (d ∈ ExcludeIP c ∧ m = host_mask ∧ g = gw1)).

(** The commands run after [w] add the routes of the device to any table. *)
Definition installed (c : Config) (gw0 : text) w w' : Prop :=
  ∃ cs, ran w' = ran w ++ cs ∧ ∀ t,
    (∀ d m : text, (d, m) ∈ half_routes → (d, m, Gateway c) ∈ table t cs) ∧
    (∀ d : text, d ∈ ExcludeIP c → (d, host_mask, gw0) ∈ table t cs).

Lemma teardown_half c n gw (d m : text) : (d, m) ∈ half_routes → delete_route d m [] ∈ teardownRoutes c n gw.
Proof.
  rewrite <- halves_routes. intros (h & Hp & Hh)%list_elem_of_fmap. unfold teardownRoutes. apply elem_of_app; left.
  apply list_elem_of_fmap. exists h. by rewrite <- Hp.
Qed.

Lemma teardown_excluded c n gw (d : text) : d ∈ ExcludeIP c → gw ≠ [] → delete_route d host_mask [gw] ∈ teardownRoutes c n gw.
Proof.
  intros Hd Hgw. unfold teardownRoutes. rewrite bool_decide_eq_false_2 by done.
  apply elem_of_app; right. apply elem_of_app; left. apply (list_elem_of_fmap_2 (λ ip, delete_route ip host_mask [gw])). done.
Qed.

(** A teardown after a part of a set-up. *)
Lemma setup_torn_down c n gw0 gw1 ups w w' :
  ups ⊆ (setupRoutes c n gw0).1 → ran w' = ran w ++ ups ++ teardownRoutes c n gw1 → restored c gw0 gw1 w w'.
Proof.
  intros Hups Hran. exists (ups ++ teardownRoutes c n gw1). split; [done|]. intros t d m g.
  unfold table. rewrite foldl_app. fold (table t ups). fold (table (table t ups) (teardownRoutes c n gw1)).
  rewrite (table_teardown c n gw1) by done. cbn [fst snd]. split.
  - intros (Hin & Hd1 & Hd2). apply (table_setup c n gw0) in Hin as [Hin|[[Hh Hg]|(Hx & Hm & Hg & Hne)]]; [by left|exfalso|right|done].
    + apply Hd1, teardown_half. by rewrite <- halves_routes.
    + cbn in *. subst m g. split_and!; try done. intros <-. by apply Hd2, teardown_excluded.
  - intros Hin. apply (table_setup_keeps c n gw0 ups) in Hin; [|done].
    destruct (decide (delete_route d m [] ∈ teardownRoutes c n gw1)) as [Hd1|Hd1].
    { right; left. apply teardown_commands in Hd1 as [(d' & m' & Heq & Hh)|[(d' & Heq & _)|Hid]].
      - unfold delete_route, words in Heq. cbn [map app] in Heq. injection Heq as <- <-. by rewrite <- halves_routes.
      - by unfold delete_route, words in Heq.
      - specialize (Hid [(d, m, [])]). rewrite exec_delete_any, filter_cons_False in Hid by (cbn; naive_solver). done. }
    destruct (decide (delete_route d m [g] ∈ teardownRoutes c n gw1)) as [Hd2|Hd2]; [|by left].
    right; right. apply teardown_commands in Hd2 as [(d' & m' & Heq & _)|[(d' & Heq & Hx)|Hid]].
    + by unfold delete_route, words in Heq.
    + unfold delete_route, words in Heq. cbn [map app] in Heq. by injection Heq as <- -> ->.
    + specialize (Hid [(d, m, g)]). rewrite exec_delete, filter_cons_False in Hid by naive_solver. done.
Qed.

Lemma restored_none c gw0 gw1 w w' : ran w' = ran w → restored c gw0 gw1 w w'.
Proof. intros H. exists []. split; [by rewrite H, app_nil_r|]. intros t d m g. split; intros; by left. Qed.

Lemma Close_ran gw d w : closed d = false →
  ran (Close gw d w).2 = ran w ++ teardownRoutes (cfg d) (ifName d) (physicalGateway gw).
Proof. intros Hcl. unfold Close. rewrite Hcl. by destruct (stk _). Qed.

(** [Close] before the set-up of the routes, and after one that ran some of its
    commands. *)
Lemma restored_unset d w w1 gw0 gw : ran w1 = ran w → closed d = false →
  restored (cfg d) gw0 (physicalGateway gw) w (Close gw d w1).2.
Proof.
  intros H1 Hcl. apply (setup_torn_down _ (ifName d) _ _ []); [apply list_subseteq_nil|]. by rewrite Close_ran, H1.
Qed.

Lemma run_setup_restored o d w w0 w1 b gw :
  ran w0 = ran w → run_setup o d w0 = (b, w1) → closed d = false →
  restored (cfg d) (physicalGateway (routes o)) (physicalGateway gw) w (Close gw d w1).2.
Proof.
  intros H0 Hr Hcl. unfold run_setup in Hr.
  destruct (setupRoutes (cfg d) (ifName d) (physicalGateway (routes o))) as [cs ok] eqn:Hs.
  destruct (run_commands cs (cmd_ok o)) as [done all] eqn:Hc. injection Hr as <- <-.
  apply (setup_torn_down _ (ifName d) _ _ done).
  - rewrite Hs. cbn [fst]. pose proof (run_commands_subset cs (cmd_ok o)) as Hsub. by rewrite Hc in Hsub.
  - rewrite Close_ran by done. cbn. by rewrite H0, <- (assoc_L (++)).
Qed.

Lemma run_commands_all cs ok : (run_commands cs ok).2 = true → (run_commands cs ok).1 = cs.
Proof.
  induction cs as [|c cs IH]; [done|]. cbn [run_commands]. destruct (ok c); [|done].
  destruct (run_commands cs ok). cbn in *. intros H. by rewrite IH.
Qed.

Lemma setup_complete c n gw : (setupRoutes c n gw).2 = true →
  (∀ d m : text, (d, m) ∈ half_routes → add_route d m (Gateway c) ∈ (setupRoutes c n gw).1) ∧
  (∀ d : text, d ∈ ExcludeIP c → add_route d host_mask gw ∈ (setupRoutes c n gw).1).
Proof.
  unfold setupRoutes. destruct (ParseCIDR (Subnet c)) as [[ip subnet]|]; [|done]. destruct (_ && _); [done|].
  intros _. cbn [fst]. split.
  - intros d m Hh. rewrite <- halves_routes in Hh. apply list_elem_of_fmap in Hh as (h & Hp & Hh).
    apply elem_of_cons; right. apply elem_of_app; right. apply list_elem_of_fmap. exists h. by rewrite <- Hp.
  - intros d Hx. apply elem_of_cons; right. apply elem_of_app; left.
    apply (list_elem_of_fmap_2 (λ ip, add_route ip host_mask gw)). done.
Qed.

Lemma run_setup_installed o d w w0 w1 :
  ran w0 = ran w → run_setup o d w0 = (true, w1) → installed (cfg d) (physicalGateway (routes o)) w w1.
Proof.
  intros H0 Hr. unfold run_setup in Hr.
  destruct (setupRoutes (cfg d) (ifName d) (physicalGateway (routes o))) as [cs ok] eqn:Hs.
  pose proof (run_commands_all cs (cmd_ok o)) as Hall. destruct (run_commands cs (cmd_ok o)) as [done all].
  injection Hr as [-> ->]%andb_true_iff <-. cbn in Hall. rewrite (Hall eq_refl).
  exists cs. split; [cbn; by rewrite H0|]. intros t.
  assert (cs ⊆ (setupRoutes (cfg d) (ifName d) (physicalGateway (routes o))).1) as Hsub by by rewrite Hs.
  destruct (setup_complete (cfg d) (ifName d) (physicalGateway (routes o))) as [Hh Hx]; [by rewrite Hs|].
  rewrite Hs in Hh, Hx. split; intros; apply (table_setup_adds _ _ _ _ _ _ _ _ Hsub); auto.
Qed.

Lemma run_setup_world o d w : adapters (run_setup o d w).2 = adapters w ∧ stacks (run_setup o d w).2 = stacks w.
Proof. unfold run_setup. destruct (setupRoutes _ _ _), (run_commands _ _). done. Qed.

(** What a device is made of in the world. *)
Record opened w d w' : Prop := {
  op_open : closed d = false;
  op_adapters : adapters w' = {[ dev d ]} ∪ adapters w;
  op_stacks : stacks w' = match stk d with Some s => {[ s ]} ∪ stacks w | None => stacks w end
}.

Lemma close_undoes w d w' gw :
  dev d ∉ adapters w → (∀ s, stk d = Some s → s ∉ stacks w) → opened w d w' →
  adapters (Close gw d w').2 = adapters w ∧ stacks (Close gw d w').2 = stacks w ∧
  ctx_done (Close gw d w').1 = true ∧ ∀ gw', Close gw' (Close gw d w').1 (Close gw d w').2 = Close gw d w'.
Proof.
  intros Ha Hn [Hop Had Hsk]. unfold Close. rewrite Hop.
  change (stk (d <| closed := true |> <| ctx_done := true |>)) with (stk d).
  destruct (stk d) as [s|]; cbn; rewrite Had, Hsk; split_and!; try done; try set_solver.
Qed.

Lemma Create_config_excluded c c' : Create_config NewSubnet c = ret c' → ExcludeIP c' = ExcludeIP c.
Proof. by intros [-> _]%Create_config_iff. Qed.

(** C31. A TUN device leaves nothing behind.  [Create] returns.  If it fails, wherever
    it does, the adapter it made is gone, and so is the stack, unless it is the one
    that could not be set up.  If it succeeds, traffic is routed to the device in two
    halves and to the excluded servers through the physical gateway, and [Close]
    removes the adapter and the stack, ends the device's context, and can be called
    again without effect.  Either way the commands that were run leave no route in
    the system's table that was not there before, except those to the excluded
    servers if the physical gateway has changed since; and they take no route away
    but those of the two halves and those to the excluded servers through the
    present gateway.  (A command that deletes a route is taken to succeed.) *)
Theorem device_leaves_nothing o gw c w :
  (∀ a, adapter o = Some a → a ∉ adapters w) → new_stack o ∉ stacks w →
  let gw0 := physicalGateway (routes o) in
  returns (Create NewSubnet o gw c w) (λ '(r, w'),
    match r with
    | inl _ =>
        adapters w' = adapters w ∧
        (stacks w' = stacks w ∨ nic_ok o && address_ok o = false ∧ stacks w' = {[ new_stack o ]} ∪ stacks w) ∧
        restored c gw0 (physicalGateway gw) w w'
    | inr d =>
        accepted NewSubnet (cfg d) ∧ ExcludeIP (cfg d) = ExcludeIP c ∧ installed (cfg d) gw0 w w' ∧
        adapters w' = {[ dev d ]} ∪ adapters w ∧ stacks w' = {[ new_stack o ]} ∪ stacks w ∧
        ∀ gw', adapters (Close gw' d w').2 = adapters w ∧ stacks (Close gw' d w').2 = stacks w ∧
          ctx_done (Close gw' d w').1 = true ∧
          (∀ gw'', Close gw'' (Close gw' d w').1 (Close gw' d w').2 = Close gw' d w') ∧
          restored c gw0 (physicalGateway gw') w (Close gw' d w').2
    end).
Proof.
  intros Ha Hn gw0. unfold Create. destruct (Create_config_total c) as (r & Hc & Hacc). rewrite Hc. cbn [mbind result_bind].
  destruct r as [e|c1]; [apply returns_ok; split_and!; [done|by left|by apply restored_none]|].
  specialize (Hacc c1 eq_refl). apply Create_config_excluded in Hc.
  assert (∀ g1 w1, restored c1 gw0 g1 w w1 → restored c gw0 g1 w w1) as Hsame by (unfold restored; by rewrite Hc).
  destruct (adapter o) as [a|] eqn:Had; [|apply returns_ok; split_and!; [done|by left|by apply restored_none]].
  cbn zeta. destruct (name o) as [n|].
  2: { apply returns_ok. specialize (Ha a eq_refl). split_and!; [cbn; set_solver|by left|by apply restored_none]. }
  set (w1 := w <| adapters := {[ a ]} ∪ adapters w |>). set (d := mkDevice a None false false n c1).
  rewrite (setupStack_accepted o d w1 Hacc). cbn zeta.
  set (w2 := w1 <| stacks := {[ new_stack o ]} ∪ stacks w1 |>).
  destruct (nic_ok o && address_ok o) eqn:Hok; cbn [mbind result_bind negb].
  2: { apply returns_ok. specialize (Ha a eq_refl). split_and!; [unfold Close; cbn; set_solver|by right|].
       apply Hsame. exact (restored_unset d w w2 gw0 gw eq_refl eq_refl). }
  set (d1 := d <| stk := Some (new_stack o) |>). destruct (run_setup_world o d1 w2) as [Hra Hrs].
  destruct (run_setup o d1 w2) as [ok w3] eqn:Hrun. cbn [fst snd] in Hra, Hrs.
  assert (opened w d1 w3) as Hopen by (split; [done|by rewrite Hra|by rewrite Hrs]).
  assert (∀ gw', restored c gw0 (physicalGateway gw') w (Close gw' d1 w3).2) as Hdel
    by (intros gw'; apply Hsame; by apply (run_setup_restored o d1 w w2 w3 ok gw' eq_refl Hrun)).
  assert (dev d1 ∉ adapters w) as Hfa by by apply Ha.
  assert (∀ s, stk d1 = Some s → s ∉ stacks w) as Hfs by by intros s [= <-].
  pose proof (λ gw', close_undoes w d1 w3 gw' Hfa Hfs Hopen) as Hclose.
  destruct ok; cbn [negb]; apply returns_ok.
  - split_and!; [done|done|by apply (run_setup_installed o d1 w w2)|by rewrite Hra|by rewrite Hrs|].
    intros gw'. destruct (Hclose gw') as (? & ? & ? & ?). split_and!; try done.
  - destruct (Hclose gw) as (? & ? & _). split_and!; [done|by left|apply Hdel].
Qed.

End device.

(** ** The pumps *)

(** The packet in a buffer, if it holds one. *)
Definition packet_in (b : list Z * Z) : option (list Z * protocol) :=
  match inboundPacket b.1 b.2 with Ok p => p | _ => None end.

Fixpoint until_error {A} (reads : list (option A)) : list A :=
  match reads with Some a :: reads => a :: until_error reads | _ => [] end.

(** The inbound pump injects every packet read before the first error, in order and
    whole, and nothing else. *)
Theorem pump_in_injects_packets reads :
  pump_in reads = Ok (omap packet_in (concat (until_error reads))).
Proof.
  induction reads as [|[bufs|] reads IH]; [done| |done]. cbn [pump_in until_error concat].
  assert (inject bufs = Ok (omap packet_in bufs)) as ->.
  { induction bufs as [|[b n] bufs IHb]; [done|]. cbn [inject].
    destruct (inboundPacket_spec b n) as (p & Hp & _). rewrite Hp. cbn [mbind result_bind]. rewrite IHb.
    assert (packet_in (b, n) = p) as Hb by (unfold packet_in; cbn [fst snd]; by rewrite Hp).
    change (omap packet_in ((b, n) :: bufs)) with
      (match packet_in (b, n) with Some y => y :: omap packet_in bufs | None => omap packet_in bufs end).
    by rewrite Hb. }
  cbn [mbind result_bind]. rewrite IH. cbn [mbind result_bind]. by rewrite omap_app.
Qed.

(** ** Witness *)

Module Demo.

Definition net (a m : list Z) : bool := (len a =? len m) && bool_decide (and_bytes a m = a).

Definition home_config : Config := mkConfig [] [] 0 [] [bytes "203.0.113.10"].

Definition default_print : option text := Some (bytes "0.0.0.0 0.0.0.0 192.168.1.1 192.168.1.7 25").

(** Everything is answered, or the stack refuses the address. *)
Definition all_well : outcome := mkOutcome (Some 7%nat) (Some (bytes "naivereal")) 3 true true (λ _, true) default_print.
Definition no_address : outcome := mkOutcome (Some 7%nat) (Some (bytes "naivereal")) 3 true false (λ _, true) default_print.

Definition empty_world : world := mkWorld ∅ ∅ [].

Lemma device_leaves_nothing_witness :
  ∃ d w, Create net all_well default_print home_config empty_world = Ok (inr d, w) ∧
    stacks w = {[ 3%nat ]} ∧ stacks (Close default_print d w).2 = ∅ ∧
    table [] (ran (Close default_print d w).2) = [].
Proof.
  destruct (device_leaves_nothing net all_well default_print home_config empty_world) as ([r w] & Hr & H).
  - intros a _. apply not_elem_of_empty.
  - apply not_elem_of_empty.
  - assert (match Create net all_well default_print home_config empty_world with Ok (inr _, w) => stacks w = {[ 3%nat ]} | _ => False end) as Hc.
    { vm_compute. reflexivity. }
    rewrite Hr in Hc. destruct r as [e|d]; [destruct Hc|]. exists d, w.
    destruct H as (_ & _ & _ & _ & _ & H). destruct (H default_print) as (_ & Hs & _ & _ & cs & Hran & Hd).
    split; [exact Hr|split; [exact Hc|split; [exact Hs|]]].
    rewrite Hran. destruct (table [] ([] ++ cs)) as [|[[dst m] g] t] eqn:Ht; [exact Ht|].
    destruct (Hd [] dst m g) as [Hin _]. destruct Hin as [Hin|[Hne _]].
    + change ((dst, m, g) ∈ table [] ([] ++ cs)). rewrite Ht. left.
    + destruct (not_elem_of_nil _ Hin).
    + destruct (Hne eq_refl).
Defined.

(** What the table holds in between. *)
Example routes_in_between :
  match Create net all_well default_print home_config empty_world with
  | Ok (inr _, w) => table [] (ran w)
  | _ => []
  end = [(bytes "128.0.0.0", bytes "128.0.0.0", bytes "198.18.0.1");
         (bytes "0.0.0.0", bytes "128.0.0.0", bytes "198.18.0.1");
         (bytes "203.0.113.10", bytes "255.255.255.255", bytes "192.168.1.1")].
Proof. vm_compute. reflexivity. Qed.

(** The stack whose address was refused stays. *)
Example refused_stack_stays :
  ∃ w, Create net no_address default_print home_config empty_world = Ok (inl "stack", w) ∧
    stacks w = {[ 3%nat ]} ∧ adapters w = ∅.
Proof. eexists. split; [vm_compute; reflexivity|by split]. Qed.

End Demo.
