(* ===== verification/H3Serve.v ===== *)
(** * The HTTP/3 frontend's server (h3frontend/main.go)

    The command line, the start of the listeners with the deferred closes, and the
    accept loop with the goroutines that run beside it: the website's, the one that
    waits for the context, and one for each connection.  The certificate, the
    sockets and QUIC are libraries whose answers are arguments. *)

From stdpp Require Import gmap.
From S2P Require Import Prelude Float64 QuicGo GoText GoHttp GoTime Bbr FrontendConfig H3Config.

Module H3Serve.

Import FrontendConfig (one_of).
Import H3Config.

(** ** The command line *)

Inductive command :=
  | Serve (path : string)
  | CheckOnly (path : string)
  | Usage (code : Z).

(** [os.Args[1:]] *)
Definition parse_args (args : list string) : command :=
  match args with
  | [] => Serve "h3frontend.toml"
  | a :: rest =>
      if bool_decide (a = "check") then
        match rest with
        | [path] => CheckOnly path
        | _ => Usage 2
        end
      else if one_of a ["-h"; "--help"] then Usage 0
      else if bool_decide (a = "genkey") then Usage 1
      else Serve a
  end.

Inductive level := LevelDebug | LevelInfo | LevelWarn | LevelError.

Definition setLogLevel (l : string) : level :=
  if bool_decide (l = "debug") then LevelDebug
  else if bool_decide (l = "warn") then LevelWarn
  else if bool_decide (l = "error") then LevelError
  else LevelInfo.

(** The settings handed to QUIC. *)
Record quicConfig := mkQuicConfig {
  q_InitialPacketSize : Z;
  q_InitialStreamReceiveWindow : Z;
  q_MaxStreamReceiveWindow : Z;
  q_InitialConnectionReceiveWindow : Z;
  q_MaxConnectionReceiveWindow : Z;
  q_MaxIdleTimeout : Z;
  q_MaxIncomingStreams : Z;
  q_DisablePathMTUDiscovery : bool;
  q_DisablePathManager : bool;
  q_Allow0RTT : bool
}.

Definition quicConf (q : QUICConfig) (maxIdle : Z) : quicConfig :=
  mkQuicConfig (InitialPacketSize q) (InitialStreamReceiveWindow q) (MaxStreamReceiveWindow q)
    (InitialConnectionReceiveWindow q) (MaxConnectionReceiveWindow q) maxIdle (MaxIncomingStreams q)
    (DisablePathMTUDiscovery q) (DisablePathManager q) false.

(** ** The server *)

Inductive resource := UDPConn | Transport | Listener | WebRoot | H3Server | TCPListener | WebServer.

#[export] Instance resource_eq_dec : EqDecision resource.
Proof. solve_decision. Defined.

(** The goroutine of the website: at [ServeTLS], about to send its error, about to
    cancel, or over. *)
Inductive website_pc := NoWebsite | Serving | Sending (e : string) | Cancelling | WebsiteOver.

Inductive main_pc := Accepting | Returned (err : option string) | Crashed.

Record outcome := mkOutcome {
  keypair_ok : bool;
  qlog_ok : bool;
  resolve_ok : bool;
  udp_ok : bool;
  quic_listen_ok : bool;
  root_ok : bool;
  tcp_ok : bool
}.

Section serve.
Context {Q : QuicGo} `{!Platform}.

(** A connection: served with the controller that was installed, if any; closed
    because none could be; or over. *)
Inductive conn := Served (cc : option Bbr.bbrSender) | Refused | ConnOver.

Record server := mkServer {
  open : list resource;
  deferred : list resource;
  parent_done : bool;
  ctx_done : bool;
  websiteErr : list string;
  website : website_pc;
  watching : bool;
  conns : gmap nat conn;
  settings : option quicConfig;
  pc : main_pc
}.

#[export] Instance eta_server : Eta server := fun s =>
  mkServer (open s) (deferred s) (parent_done s) (ctx_done s) (websiteErr s) (website s) (watching s) (conns s)
    (settings s) (pc s).

(** [parent] says whether the context given to [serve] is done already. *)
Definition new_server (parent : bool) : server :=
  mkServer [] [] parent parent [] NoWebsite false ∅ None Accepting.

Definition close (s : server) (r : resource) : server := s <| open := filter (.≠ r) (open s) |>.

(** A resource is made, and its close deferred. *)
Definition acquire (s : server) (r : resource) : server :=
  s <| open := r :: open s |> <| deferred := r :: deferred s |>.

(** Return, running the deferred calls; the last one cancels the context. *)
Definition leave (s : server) (err : option string) : server :=
  (foldl close s (deferred s)) <| deferred := [] |> <| ctx_done := true |> <| pc := Returned err |>.

Definition start_website (o : outcome) (cfg : Config) (s : server) : server :=
  if bool_decide (Mode cfg = "origin") && negb (bool_decide (TCPListen (Origin cfg) = "")) then
    if negb (tcp_ok o) then leave s (Some "origin tcp listen")
    else (acquire (acquire s TCPListener) WebServer) <| website := Serving |> <| watching := true |>
  else s <| watching := true |>.

(** [serve] up to its accept loop. *)
Definition start (o : outcome) (cfg : Config) (parent : bool) : server :=
  let s := new_server parent in
  if negb (one_of (Mode cfg) ["origin"; "tls"]) then leave s (Some "unsupported mode")
  else if negb (keypair_ok o) then leave s (Some "load cert")
  else
    match ParseDuration (MaxIdleTimeout (QUIC cfg)) with
    | None => leave s (Some "idle timeout")
    | Some maxIdle =>
        if negb (qlog_ok o) then leave s (Some "qlog")
        else
          let s := s <| settings := Some (quicConf (QUIC cfg) maxIdle) |> in
          if negb (resolve_ok o) then leave s (Some "resolve listen")
          else if negb (udp_ok o) then leave s (Some "listen udp")
          else
            let s := acquire (acquire s UDPConn) Transport in
            if negb (quic_listen_ok o) then leave s (Some "quic listen")
            else
              let s := acquire s Listener in
              if bool_decide (Mode cfg = "origin") then
                if negb (root_ok o) then leave s (Some "open origin website")
                else start_website o cfg (acquire (acquire s WebRoot) H3Server)
              else start_website o cfg (acquire s H3Server)
    end.

Inductive event :=
  | ParentDone
  | WebsiteFails (e : string)
  | WebsiteCloses
  | WebsiteSends
  | WebsiteCancels
  | WatcherCloses
  | AcceptConn (c : nat) (now packetSize : Z)
  | AcceptFails
  | ConnEnds (c : nat).

(** The controller is replaced before the connection is served. *)
Definition accept (cfg : Config) (s : server) (c : nat) (now packetSize : Z) : server :=
  if bool_decide (Type_ (Congestion cfg) = "bbr") then
    match UseBBR now packetSize true (BBRProfile (Congestion cfg)) with
    | Ok (inr b) => s <| conns := <[c := Served (Some b)]> (conns s) |>
    | Ok (inl _) => s <| conns := <[c := Refused]> (conns s) |>
    | _ => s <| pc := Crashed |>
    end
  else s <| conns := <[c := Served None]> (conns s) |>.

Definition accept_fails (s : server) : server :=
  match websiteErr s with
  | e :: _ => leave (s <| websiteErr := [] |>) (Some ("origin website: " +:+ e))
  | [] => if ctx_done s then leave s None else leave s (Some "accept")
  end.

Definition accepting (s : server) : bool := match pc s with Accepting => true | _ => false end.

Definition step (cfg : Config) (s : server) (e : event) : option server :=
  match e with
  | ParentDone => Some (s <| parent_done := true |> <| ctx_done := true |>)
  | WebsiteFails e =>
      match website s with Serving => Some (s <| website := Sending e |>) | _ => None end
  | WebsiteCloses =>
      match website s with
      | Serving => if bool_decide (WebServer ∈ open s) then None else Some (s <| website := WebsiteOver |>)
      | _ => None
      end
  | WebsiteSends =>
      match website s with
      | Sending e => if len (websiteErr s) <? 1
                     then Some (s <| websiteErr := websiteErr s ++ [e] |> <| website := Cancelling |>) else None
      | _ => None
      end
  | WebsiteCancels =>
      match website s with
      | Cancelling => Some (s <| ctx_done := true |> <| website := WebsiteOver |>)
      | _ => None
      end
  | WatcherCloses =>
      if watching s && ctx_done s then Some ((close (close s Listener) UDPConn) <| watching := false |>) else None
  | AcceptConn c now packetSize =>
      if accepting s && bool_decide (Listener ∈ open s) && negb (bool_decide (is_Some (conns s !! c)))
      then Some (accept cfg s c now packetSize) else None
  | AcceptFails => if accepting s then Some (accept_fails s) else None
  | ConnEnds c =>
      match conns s !! c with
      | Some (Served _) => Some (s <| conns := <[c := ConnOver]> (conns s) |>)
      | _ => None
      end
  end.

Fixpoint run (cfg : Config) (es : list event) (s : server) : option server :=
  match es with
  | [] => Some s
  | e :: es => s' ← step cfg s e; run cfg es s'
  end.

(** ** The program *)

(** Its exit code, once [serve] has returned. *)
Definition serve_code (s : server) : option Z :=
  match pc s with
  | Returned (Some _) => Some (if parent_done s then 0 else 1)
  | Returned None => Some 0
  | _ => None
  end.

(** The exit codes of the other commands. *)
Definition check_code (loaded : fallible Config) (o : outcome) : Z :=
  match loaded with
  | Ok (inr _) => if keypair_ok o then 0 else 1
  | _ => 1
  end.

End serve.

End H3Serve.
