(* ===== verification/H3ServeSpec.v ===== *)
(** * Theorems about the HTTP/3 frontend's server

    Whatever stops it, the server leaves nothing open and no goroutine behind, and
    an accepted configuration is served with the controller it names. *)

From stdpp Require Import gmap.
From S2P Require Import Prelude Float64 QuicGo GoText GoHttp GoTime Bbr BbrFacts BbrSpec FrontendConfig FrontendConfigSpec H3Config H3ConfigSpec H3Serve.

Import FrontendConfig (one_of).
Import H3Config H3Serve.

Section serve.
Context {Q : QuicGo} `{!Platform}.
Implicit Types (s : server) (cfg : Config) (o : outcome).

(** ** The resources *)

Lemma leave_open s err r : r ∈ open (leave s err) ↔ r ∈ open s ∧ r ∉ deferred s.
Proof.
  unfold leave. cbn. generalize (deferred s). intros l. revert s. induction l as [|x l IH]; intros s; cbn [foldl].
  - set_solver.
  - rewrite IH. cbn. rewrite list_elem_of_filter. set_solver.
Qed.

Lemma foldl_close_rest l s :
  foldl close s l = s <| open := open (foldl close s l) |>.
Proof. revert s. induction l as [|r l IH]; intros s; cbn; [by destruct s|]. by rewrite IH. Qed.

(** What holds of a server while it runs and after. *)
Record serve_inv s : Prop := {
  i_open : match pc s with Returned _ => open s = [] | _ => ∀ r, r ∈ open s → r ∈ deferred s end;
  i_ctx : ctx_done s = true → parent_done s = true ∨ websiteErr s ≠ [] ∨ ∃ err, pc s = Returned err;
  i_parent : parent_done s = true → ctx_done s = true;
  i_returned : ∀ err, pc s = Returned err → ctx_done s = true ∧ (err = None → parent_done s = true);
  i_website : match website s with
              | NoWebsite | Serving | Sending _ => websiteErr s = []
              | Cancelling => websiteErr s ≠ [] ∨ ∃ err, pc s = Returned err
              | WebsiteOver => True
              end
}.

Lemma leave_inv s err :
  accepting s = true → (∀ r, r ∈ open s → r ∈ deferred s) → (err = None → parent_done s = true) →
  match website s with NoWebsite | Serving | Sending _ => websiteErr s = [] | _ => True end →
  serve_inv (leave s err).
Proof.
  intros Ha Ho He Hw.
  assert (open (leave s err) = []) as Hopen.
  { apply elem_of_nil_inv. intros r [Hr Hn]%leave_open. by apply Hn, Ho. }
  unfold leave in *. rewrite foldl_close_rest in *. split; cbn in *; [done|intros _; right; right; by eexists|done|..].
  - by intros ? [= <-].
  - destruct (website s); try done. right. by eexists.
Qed.

(** ** The start *)

Record starting s : Prop := {
  t_pc : pc s = Accepting;
  t_open : ∀ r, r ∈ open s → r ∈ deferred s;
  t_ctx : ctx_done s = parent_done s;
  t_website : websiteErr s = [] ∧ website s = NoWebsite
}.

Lemma new_starting parent : starting (new_server parent).
Proof. by split. Qed.

Lemma acquire_starting s r : starting s → starting (acquire s r).
Proof. intros [? Ho ? ?]. split; try done. cbn. set_solver. Qed.

Lemma settings_starting s q : starting s → starting (s <| settings := q |>).
Proof. intros []. by split. Qed.

Lemma fail_inv s e : starting s → serve_inv (leave s (Some e)).
Proof.
  intros [Hp Ho _ [He Hw]]. apply leave_inv; [by unfold accepting; rewrite Hp|done|done|by rewrite Hw].
Qed.

Lemma started_inv s w b : starting s → w = NoWebsite ∨ w = Serving →
  serve_inv (s <| website := w |> <| watching := b |>).
Proof.
  intros [Hp Ho Hc [He _]] Hw. split; cbn; rewrite ?Hp; [done|rewrite Hc; by left|by rewrite Hc|done|].
  by destruct Hw as [-> | ->].
Qed.

Create HintDb serve discriminated.
#[local] Hint Resolve new_starting acquire_starting settings_starting fail_inv : serve.

Lemma start_website_inv o cfg s : starting s → serve_inv (start_website o cfg s).
Proof.
  intros Hs. unfold start_website. destruct (_ && _).
  - destruct (tcp_ok o); cbn [negb]; [|by apply fail_inv]. apply started_inv; [auto with serve|by right].
  - assert (s <| watching := true |> = s <| website := website s |> <| watching := true |>) as -> by by destruct s.
    apply started_inv; [done|]. rewrite (proj2 (t_website _ Hs)). by left.
Qed.

Lemma serve_start_inv o cfg parent : serve_inv (start o cfg parent).
Proof.
  unfold start. cbn zeta. destruct (one_of _ _); cbn [negb]; [|auto with serve].
  destruct (keypair_ok o); cbn [negb]; [|auto with serve].
  destruct (ParseDuration _) as [d|]; [|auto with serve].
  destruct (qlog_ok o); cbn [negb]; [|auto with serve].
  destruct (resolve_ok o); cbn [negb]; [|auto with serve].
  destruct (udp_ok o); cbn [negb]; [|auto with serve].
  destruct (quic_listen_ok o); cbn [negb]; [|auto 7 with serve].
  case_bool_decide; [destruct (root_ok o); cbn [negb]; [|auto 8 with serve]|];
    apply start_website_inv; auto 9 with serve.
Qed.

(** ** The steps *)

Lemma accept_inv cfg s c now n : accepting s = true → serve_inv s → serve_inv (accept cfg s c now n).
Proof.
  intros Ha [Ho Hc Hp Hr Hw]. unfold accept, accepting in *. destruct (pc s) eqn:Hpc; try done.
  assert (∀ m, serve_inv (s <| conns := m |>)) as Hm by (intros m; split; cbn; rewrite ?Hpc; done).
  case_bool_decide; [|apply Hm].
  destruct (UseBBR _ _ _ _) as [[e|b]| |]; [apply Hm|apply Hm|..];
    (split; cbn; [done| |done|done|];
      [intros Hd; destruct (Hc Hd) as [?|[?|[? ?]]]; [by left|by right; left|done]|
       destruct (website s); try done; destruct Hw as [?|[? ?]]; [by left|done]]).
Qed.

Lemma accept_fails_inv s : accepting s = true → serve_inv s → serve_inv (accept_fails s).
Proof.
  intros Ha [Ho Hc Hp Hr Hw]. unfold accept_fails. pose proof Ha as Ha'. unfold accepting in Ha'.
  destruct (pc s) eqn:Hpc; try done. destruct (websiteErr s) as [|e l] eqn:He.
  - destruct (ctx_done s) eqn:Hd; apply leave_inv; try done.
    1: by intros _; destruct (Hc eq_refl) as [?|[?|[? ?]]].
    all: rewrite He; by destruct (website s).
  - apply leave_inv; try done; cbn. by destruct (website s).
Qed.

Lemma h3_step_inv cfg s e s' : step cfg s e = Some s' → serve_inv s → serve_inv s'.
Proof.
  intros Hs Hi. destruct e as [|e| | | | |c now n| |c]; cbn [step] in Hs.
  - injection Hs as <-. destruct Hi as [Ho Hc Hp Hr Hw]. split; cbn; [done|by left|done| |done].
    intros err Herr. by destruct (Hr err Herr).
  - destruct (website s) eqn:Hweb; try done. injection Hs as <-. destruct Hi as [? ? ? ? Hw]. rewrite Hweb in Hw. by split.
  - destruct (website s) eqn:Hweb; try done. case_bool_decide; [done|]. injection Hs as <-.
    destruct Hi as [? ? ? ? Hw]. by split.
  - destruct (website s) as [| |e| |] eqn:Hweb; try done. destruct (_ <? _); [|done]. injection Hs as <-.
    destruct Hi as [Ho Hc Hp Hr Hw]. split; cbn; try done. intros _. right. left. by destruct (websiteErr s). left. by destruct (websiteErr s).
  - destruct (website s) eqn:Hweb; try done. injection Hs as <-.
    destruct Hi as [Ho Hc Hp Hr Hw]. rewrite Hweb in Hw. split; cbn; [done|by right|done| |done].
    intros err Herr. by destruct (Hr err Herr).
  - destruct (watching s && ctx_done s) eqn:Hd; [|done]. injection Hs as <-. destruct Hi as [Ho Hc Hp Hr Hw].
    split; cbn; [|done..].
    destruct (pc s); [|by rewrite Ho|]; intros r [_ [_ Hin]%list_elem_of_filter]%list_elem_of_filter; by apply Ho.
  - destruct (accepting s) eqn:Ha; [|done]. destruct (_ && _); [|done]. injection Hs as <-. by apply accept_inv.
  - destruct (accepting s) eqn:Ha; [|done]. injection Hs as <-. by apply accept_fails_inv.
  - destruct (conns s !! c) as [[]|]; try done. injection Hs as <-. by destruct Hi.
Qed.

Lemma h3_run_inv cfg es s s' : run cfg es s = Some s' → serve_inv s → serve_inv s'.
Proof.
  revert s. induction es as [|e es IH]; intros s; cbn [run]; [by intros [= <-]|].
  intros (s1 & H1 & Hrun)%bind_Some Hi. by eapply IH; [|eapply h3_step_inv].
Qed.

(** ** After the return *)

Definition goroutine (e : event) : bool :=
  match e with WebsiteCloses | WebsiteSends | WebsiteCancels | WatcherCloses => true | _ => false end.

(** The website's goroutine runs to its end. *)
Lemma website_ends cfg s err : serve_inv s → pc s = Returned err →
  ∃ es s', Forall (λ e, goroutine e = true) es ∧ (length es <= 2)%nat ∧ run cfg es s = Some s' ∧
    (website s' = NoWebsite ∨ website s' = WebsiteOver) ∧ watching s' = watching s ∧ ctx_done s' = true ∧
    pc s' = pc s ∧ conns s' = conns s.
Proof.
  intros [Ho Hc Hp Hr Hw] Hpc. destruct (Hr err Hpc) as [Hd _]. rewrite Hpc in Ho.
  destruct (website s) as [| |e| |] eqn:Hweb.
  - exists [], s. split_and!; [done|cbn; lia|done|by left|done..].
  - exists [WebsiteCloses], (s <| website := WebsiteOver |>). cbn [run step]. rewrite Hweb, Ho.
    split_and!; [by constructor|cbn; lia|done|by right|done..].
  - exists [WebsiteSends; WebsiteCancels]. eexists. cbn [run step]. rewrite Hweb, Hw. cbn.
    split_and!; [by repeat constructor|lia|reflexivity|by right|done..].
  - exists [WebsiteCancels]. eexists. cbn [run step]. rewrite Hweb.
    split_and!; [by constructor|cbn; lia|reflexivity|by right|done..].
  - exists [], s. split_and!; [done|cbn; lia|done|by right|done..].
Qed.

(** C33. The HTTP/3 server leaves nothing behind.  However its start and its accept loop
    end, [serve] returns with every socket, listener, server and directory closed
    and its context done; it returns no error only when its caller's context is
    done, so the program exits with 0 only then and with 1 otherwise; and its two
    goroutines end by at most three steps of their own. *)
Theorem serve_leaves_nothing cfg o parent es s err :
  run cfg es (start o cfg parent) = Some s → pc s = Returned err →
  open s = [] ∧ ctx_done s = true ∧ (err = None → parent_done s = true) ∧
  serve_code s = Some (if parent_done s then 0 else 1) ∧
  ∃ es' s', Forall (λ e, goroutine e = true) es' ∧ (length es' <= 3)%nat ∧ run cfg es' s = Some s' ∧
    (website s' = NoWebsite ∨ website s' = WebsiteOver) ∧ watching s' = false ∧ pc s' = pc s.
Proof.
  intros Hrun Hpc. pose proof (h3_run_inv _ _ _ _ Hrun (serve_start_inv o cfg parent)) as Hi.
  destruct (i_returned _ Hi err Hpc) as [Hd He]. pose proof (i_open _ Hi) as Ho. rewrite Hpc in Ho.
  split_and!; [done|done|done| |].
  - unfold serve_code. rewrite Hpc. destruct err; [done|]. by rewrite (He eq_refl).
  - destruct (website_ends cfg s err Hi Hpc) as (es1 & s1 & Hes & Hl & Hrun1 & Hw & Hwt & Hd1 & Hp1 & _).
    destruct (watching s1) eqn:Hwatch.
    + exists (es1 ++ [WatcherCloses]), ((close (close s1 Listener) UDPConn) <| watching := false |>).
      split_and!; [apply Forall_app; split; [done|by constructor]|rewrite length_app; cbn; lia| |done|done|done].
      clear -Hrun1 Hwatch Hd1. revert s Hrun1. induction es1 as [|e es IH]; intros s; cbn [run app].
      * intros [= ->]. cbn [step]. by rewrite Hwatch, Hd1.
      * intros (s2 & -> & Hrun)%bind_Some. by apply IH.
    + exists es1, s1. split_and!; try done. lia.
Qed.

(** ** Accepted configurations *)

(** The controller of a connection. *)
Definition conn_ok cfg (k : conn) : Prop :=
  match k with
  | Served (Some b) => Type_ (Congestion cfg) = "bbr" ∧ ∀ r, in_i64 r → inv (Bbr.SetRTTStatsProvider b r)
  | Served None => Type_ (Congestion cfg) = "cubic"
  | Refused => False
  | ConnOver => True
  end.

Definition conns_ok cfg s : Prop := pc s ≠ Crashed ∧ ∀ c k, conns s !! c = Some k → conn_ok cfg k.

Lemma conns_ok_same cfg s s' : conns_ok cfg s → conns s' = conns s → pc s' ≠ Crashed → conns_ok cfg s'.
Proof. intros [_ Hk] Hc Hp. split; [done|]. by rewrite Hc. Qed.

Lemma leave_conns s err : conns (leave s err) = conns s ∧ pc (leave s err) = Returned err.
Proof. unfold leave. by rewrite foldl_close_rest. Qed.

Lemma conns_ok_insert cfg s c k : conns_ok cfg s → conn_ok cfg k → conns_ok cfg (s <| conns := <[c := k]> (conns s) |>).
Proof. intros [Hp Ho] Hk. split; [done|]. cbn. intros c0 k0 [[_ <-]|[_ ?]]%lookup_insert_Some; [done|by eapply Ho]. Qed.

Lemma start_conns o cfg parent : conns (start o cfg parent) = ∅ ∧ pc (start o cfg parent) ≠ Crashed.
Proof.
  assert (∀ s err, conns s = ∅ → conns (leave s err) = ∅ ∧ pc (leave s err) ≠ Crashed) as Hl
    by (intros s err; destruct (leave_conns s err) as [-> ->]; done).
  assert (∀ s, conns s = ∅ → pc s ≠ Crashed → conns (start_website o cfg s) = ∅ ∧ pc (start_website o cfg s) ≠ Crashed) as Hw.
  { intros s Hc Hp. unfold start_website. destruct (_ && _); [destruct (tcp_ok o); [|by apply Hl]|]; by split. }
  unfold start. cbn zeta. repeat match goal with
  | |- context [if ?b then _ else _] => destruct b; [..|] 
  | |- context [match ParseDuration ?x with _ => _ end] => destruct (ParseDuration x)
  end; try (by apply Hl); by apply Hw.
Qed.

Lemma leave_settings s err : settings (leave s err) = settings s.
Proof. unfold leave. by rewrite foldl_close_rest. Qed.

Lemma start_settings o cfg parent q :
  settings (start o cfg parent) = Some q →
  ∃ d, ParseDuration (MaxIdleTimeout (QUIC cfg)) = Some d ∧ q = quicConf (QUIC cfg) d.
Proof.
  assert (∀ s, settings (start_website o cfg s) = settings s) as Hw.
  { intros s. unfold start_website. destruct (_ && _); [destruct (tcp_ok o)|]; cbn [negb]; by rewrite ?leave_settings. }
  unfold start. cbn zeta. destruct (one_of _ _), (keypair_ok o); cbn [negb]; rewrite ?leave_settings; try done.
  destruct (ParseDuration _) as [d|]; rewrite ?leave_settings; [|done].
  intros Hq. exists d. split; [done|]. revert Hq.
  destruct (qlog_ok o), (resolve_ok o), (udp_ok o), (quic_listen_ok o); cbn [negb]; rewrite ?leave_settings; cbn; try done;
    try (by intros [= <-]).
  case_bool_decide; [destruct (root_ok o); cbn [negb]|]; rewrite ?leave_settings, ?Hw; cbn; by intros [= <-].
Qed.

(** It accepts only with settings. *)
Lemma accepting_settings o cfg parent :
  pc (start o cfg parent) = Accepting → ∃ q, settings (start o cfg parent) = Some q.
Proof.
  assert (∀ s err, pc (leave s err) = Accepting → False) as Hl by (intros s err; by rewrite (proj2 (leave_conns s err))).
  assert (∀ s q, settings s = Some q → ∃ q, settings (start_website o cfg s) = Some q) as Hw.
  { intros s q Hs. exists q. unfold start_website. destruct (_ && _); [destruct (tcp_ok o)|]; cbn [negb];
      rewrite ?leave_settings; done. }
  unfold start. cbn zeta. repeat match goal with
  | |- context [if ?b then _ else _] => destruct b
  | |- context [match ParseDuration ?x with _ => _ end] => destruct (ParseDuration x)
  end; intros Hp; try (by destruct (Hl _ _ Hp)); by eapply Hw.
Qed.

(** What a transport section of a file asks for, its defaults written out: a number
    that is zero and a timeout that is empty are left to the default. *)
Definition unless_zero (v def : Z) : Z := if decide (v = 0) then def else v.

Definition asked_for (g : QUICConfig) (q : quicConfig) : Prop :=
  q_InitialPacketSize q = unless_zero (InitialPacketSize g) 1200 ∧
  q_InitialStreamReceiveWindow q = unless_zero (InitialStreamReceiveWindow g) 8388608 ∧
  q_MaxStreamReceiveWindow q = unless_zero (MaxStreamReceiveWindow g) 8388608 ∧
  q_InitialConnectionReceiveWindow q = unless_zero (InitialConnectionReceiveWindow g) 20971520 ∧
  q_MaxConnectionReceiveWindow q = unless_zero (MaxConnectionReceiveWindow g) 20971520 ∧
  ParseDuration (if decide (MaxIdleTimeout g = "") then "30s" else MaxIdleTimeout g) = Some (q_MaxIdleTimeout q) ∧
  q_MaxIncomingStreams q = unless_zero (MaxIncomingStreams g) 1024 ∧
  q_DisablePathMTUDiscovery q = DisablePathMTUDiscovery g ∧
  q_DisablePathManager q = DisablePathManager g ∧
  q_Allow0RTT q = false.

Section accepted.
Context `{!QuicGoLaws Q} (Stat : string → option bool) (given cfg : Config).
Hypothesis accepted : validateAndFill Stat given = ret cfg.

Lemma accept_ok s c now n : accepting s = true → conns_ok cfg s → conns_ok cfg (accept cfg s c now n).
Proof.
  intros Ha Hok. apply h3_accepted_inv in accepted as (_ & _ & _ & _ & _ & Ht & Hp). unfold accept.
  case_bool_decide as Htype.
  - destruct (UseBBR_installs (BBRProfile (Congestion cfg)) now n Hp) as (b & -> & _ & _ & Hb).
    by apply conns_ok_insert.
  - apply conns_ok_insert; [done|]. cbn. unfold one_of in Ht. rewrite bool_decide_eq_true in Ht. set_solver.
Qed.

Lemma conns_step s e s' : step cfg s e = Some s' → conns_ok cfg s → conns_ok cfg s'.
Proof.
  intros Hs Hok. destruct e as [|e| | | | |c now n| |c]; cbn [step] in Hs.
  1: injection Hs as <-; exact Hok.
  1-4: destruct (website s); try done; try case_bool_decide; try destruct (_ <? _); try done; injection Hs as <-; exact Hok.
  - destruct (_ && _); [|done]. injection Hs as <-. exact Hok.
  - destruct (accepting s) eqn:Ha; [|done]. destruct (_ && _); [|done]. injection Hs as <-. by apply accept_ok.
  - destruct (accepting s); [|done]. injection Hs as <-. unfold accept_fails.
    destruct (websiteErr s), (ctx_done s); (eapply conns_ok_same; [exact Hok|..]);
      rewrite ?(proj1 (leave_conns _ _)), ?(proj2 (leave_conns _ _)); done.
  - destruct (conns s !! c) as [[]|]; try done. injection Hs as <-. by apply conns_ok_insert.
Qed.

Lemma conns_run es s s' : run cfg es s = Some s' → conns_ok cfg s → conns_ok cfg s'.
Proof.
  revert s. induction es as [|e es IH]; intros s; cbn [run]; [by intros [= <-]|].
  intros (s1 & H1 & Hrun)%bind_Some Hi. by eapply IH; [|eapply conns_step].
Qed.

Lemma setWindow_value v def w : setWindow v def = ret w → w = unless_zero v def.
Proof.
  unfold setWindow, unless_zero. destruct (Z.eqb_spec v 0), (decide (v = 0)); try done; [by intros <-%ret_inj|].
  destruct (v <? 16384); [done|]. by intros <-%ret_inj.
Qed.

Lemma settings_asked_for d :
  ParseDuration (MaxIdleTimeout (QUIC cfg)) = Some d → asked_for (QUIC given) (quicConf (QUIC cfg) d).
Proof.
  intros Hd. destruct (h3_filled_QUIC Stat given cfg accepted) as (ips & isw & msw & icw & mcw & Hips & H1 & H2 & H3 & H4 & Hq).
  apply setWindow_value in H1, H2, H3, H4. unfold asked_for, quicConf. rewrite Hq in Hd |- *. cbn in Hd |- *.
  split_and!; try done.
  - unfold unless_zero. destruct (Z.eqb_spec (InitialPacketSize (QUIC given)) 0), (decide _); try done; [by apply ret_inj in Hips|].
    destruct (_ <? _); [done|]. by apply ret_inj in Hips.
  - unfold FrontendConfig.or_default in Hd. by case_bool_decide; destruct (decide _).
  - unfold FrontendConfig.or_default_int, unless_zero. by destruct (Z.eqb_spec (MaxIncomingStreams (QUIC given)) 0), (decide _).
Qed.

(** C34. An accepted configuration is served as it says.  The server's own checks never
    refuse it: when the certificate, the sockets and the directory are there, it
    starts; the settings it hands to QUIC then have 0-RTT off, and each of the packet
    size, the four receive windows, the idle timeout, the limit of streams and the
    two switches of path discovery is the file's own value, or its default when
    the file leaves it out, with windows of at least 16384 bytes, packets of at least
    1200 and at least 8 streams; it never crashes; and no connection is refused or
    served with another controller: each is served by BBR with its invariant when
    the configuration says bbr, and by the library's controller when it says cubic. *)
Theorem accepted_config_is_served o parent :
  (pc (start o cfg parent) = Accepting ∧ is_Some (settings (start o cfg parent)) ∨
   keypair_ok o && qlog_ok o && resolve_ok o && udp_ok o && quic_listen_ok o && root_ok o && tcp_ok o = false) ∧
  (∀ q, settings (start o cfg parent) = Some q →
     asked_for (QUIC given) q ∧ 1200 <= q_InitialPacketSize q ∧
     16384 <= q_InitialStreamReceiveWindow q ∧ 16384 <= q_MaxStreamReceiveWindow q ∧
     16384 <= q_InitialConnectionReceiveWindow q ∧ 16384 <= q_MaxConnectionReceiveWindow q ∧
     8 <= q_MaxIncomingStreams q) ∧
  ∀ es s, run cfg es (start o cfg parent) = Some s →
    pc s ≠ Crashed ∧ ∀ c k, conns s !! c = Some k → conn_ok cfg k.
Proof.
  pose proof accepted as (_ & _ & (Hmode & _) & _ & [Hpkt (Hi1 & Hw1 & Hi2 & Hw2) [_ [d Hd]] Hs] & _)%h3_accepted_inv.
  assert (one_of (Mode cfg) ["origin"; "tls"] = true) as Hm
    by (unfold one_of in *; rewrite bool_decide_eq_true in *; set_solver).
  split_and!.
  - assert (pc (start o cfg parent) = Accepting ∨
      keypair_ok o && qlog_ok o && resolve_ok o && udp_ok o && quic_listen_ok o && root_ok o && tcp_ok o = false) as [Ha|Hf];
      [|left; split; [done|]; destruct (accepting_settings _ _ _ Ha) as [q ->]; done|by right].
    unfold start. cbn zeta. rewrite Hm, Hd. cbn [negb].
    destruct (keypair_ok o), (qlog_ok o), (resolve_ok o), (udp_ok o), (quic_listen_ok o); cbn [negb andb]; try by right.
    unfold start_website. destruct (root_ok o), (tcp_ok o); cbn [negb andb]; try by right.
    left. by destruct (bool_decide (Mode cfg = "origin")), (bool_decide (TCPListen (Origin cfg) = "")).
  - intros q (d' & Hd' & ->)%start_settings. split; [by apply settings_asked_for|]. by cbn.
  - intros es s Hrun. destruct (start_conns o cfg parent) as [Hc Hp].
    destruct (conns_run es _ s Hrun); [split; [done|by rewrite Hc]|done].
Qed.

End accepted.

End serve.

(** ** Witnesses *)

Module Demo.

#[local] Existing Instance amd64.
#[local] Existing Instance sample_quic.
#[local] Existing Instance sample_quic_laws.

Definition all_well : outcome := mkOutcome true true true true true true true.

(** The configuration of the other file's witness, with a website listener. *)
Definition given : Config :=
  mkConfig "" "" "" (mkTLS "cert.pem" "key.pem") (mkOrigin "www" "user" "pass" "127.0.0.1:8443")
    (mkQUIC 0 0 0 0 0 "" 0 false false false) (mkCongestion "" "") "".

Definition filled : Config :=
  match validateAndFill H3ConfigSpec.Demo.disk given with Ok (inr c) => c | _ => given end.

(** The website's listener fails while a connection is served. *)
Definition failing : list event :=
  [AcceptConn 1 5 1350; WebsiteFails "broken"; WebsiteSends; WebsiteCancels; AcceptFails].

Definition failed : server := default (new_server false) (run filled failing (start all_well filled false)).

Lemma serve_leaves_nothing_witness :
  pc failed = Returned (Some "origin website: broken") ∧ open failed = [] ∧ serve_code failed = Some 1.
Proof.
  assert (pc failed = Returned (Some "origin website: broken")) as Hpc by (vm_compute; reflexivity).
  destruct (serve_leaves_nothing filled all_well false failing failed (Some "origin website: broken"))
    as (Ho & _ & _ & Hc & _); [vm_compute; reflexivity|exact Hpc|].
  split; [exact Hpc|split; [exact Ho|]]. rewrite Hc. vm_compute. reflexivity.
Defined.

Lemma accepted_config_is_served_witness :
  ∃ q, settings (start all_well filled false) = Some q ∧ pc (start all_well filled false) = Accepting ∧
    q_MaxStreamReceiveWindow q = 8388608 ∧ q_MaxConnectionReceiveWindow q = 20971520 ∧ q_MaxIdleTimeout q = 30 * Second.
Proof.
  destruct (accepted_config_is_served H3ConfigSpec.Demo.disk given filled) with (o := all_well) (parent := false)
    as ([[H [q Hq]]|H] & Hset & _); [vm_compute; reflexivity| |discriminate H].
  exists q. split; [exact Hq|]. split; [exact H|].
  destruct (Hset q Hq) as [(_ & _ & H1 & _ & H2 & H3 & _) _]. split; [exact H1|]. split; [exact H2|].
  apply (inj Some). rewrite <- H3. vm_compute. reflexivity.
Defined.

End Demo.
