(* ===== verification/Float64Facts.v ===== *)
(** * Facts about float64

    Sums, products and quotients of floats that are not negative are not negative
    and not NaN, and integers of 64 bits convert to finite floats. *)

From Stdlib Require Import SpecFloat.
From S2P Require Import Prelude Float64.

(** Neither negative nor NaN; an infinity is allowed. *)
Definition nonneg (f : float64) : Prop :=
  match f with
  | S754_zero s | S754_infinity s | S754_finite s _ _ => s = false
  | S754_nan => False
  end.

Definition positive (f : float64) : Prop :=
  match f with S754_infinity s | S754_finite s _ _ => s = false | _ => False end.

Definition infinite (f : float64) : Prop := match f with S754_infinity _ => True | _ => False end.

Lemma positive_nonneg f : positive f → nonneg f.
Proof. by destruct f. Qed.

(** ** Rounding *)

Lemma shr_1_bounds m : 0 <= shr_m m → 0 <= shr_m (shr_1 m) <= shr_m m.
Proof. destruct m as [[|[p|p|]|p] r s]; cbn; lia. Qed.

Lemma iter_shr_bounds p m : 0 <= shr_m m → 0 <= shr_m (SpecFloat.iter_pos shr_1 p m) <= shr_m m.
Proof.
  revert m. induction p as [p IH|p IH|]; intros m Hm; cbn [SpecFloat.iter_pos].
  - pose proof (shr_1_bounds m Hm). pose proof (IH (shr_1 m) ltac:(lia)).
    pose proof (IH (SpecFloat.iter_pos shr_1 p (shr_1 m)) ltac:(lia)). lia.
  - pose proof (IH m Hm). pose proof (IH (SpecFloat.iter_pos shr_1 p m) ltac:(lia)). lia.
  - by apply shr_1_bounds.
Qed.

Abbreviation fexp64 := (fexp 53 1024).

Lemma shr_fexp_bounds m e l :
  0 <= m → 0 <= shr_m (shr_fexp 53 1024 m e l).1 <= m ∧
  (shr_fexp 53 1024 m e l).2 = Z.max e (fexp64 (Zdigits2 m + e)).
Proof.
  intros Hm. unfold shr_fexp, shr. assert (shr_m (shr_record_of_loc m l) = m) as Hl by by destruct l as [|[]].
  destruct (fexp64 (Zdigits2 m + e) - e) as [|p|p] eqn:Hd; cbn [fst snd].
  - rewrite Hl. lia.
  - pose proof (iter_shr_bounds p (shr_record_of_loc m l)) as H. rewrite Hl in H. specialize (H Hm). lia.
  - rewrite Hl. lia.
Qed.

Lemma round_nearest_even_bounds m l : 0 <= m → m <= round_nearest_even m l <= m + 1.
Proof. intros Hm. destruct l as [|[]]; cbn; [lia| |lia|lia]. destruct (Z.even m); lia. Qed.

(** Rounding keeps the sign. *)
Lemma round_aux_sign s m e l : 0 <= m → ∃ f, binary_round_aux 53 1024 s m e l = f ∧
  match f with S754_zero s' | S754_infinity s' | S754_finite s' _ _ => s' = s | S754_nan => False end.
Proof.
  intros Hm. eexists. split; [done|]. unfold binary_round_aux.
  pose proof (shr_fexp_bounds m e l Hm) as [[H1 _] _]. destruct (shr_fexp 53 1024 m e l) as [mrs e1]. cbn [fst] in H1.
  pose proof (round_nearest_even_bounds (shr_m mrs) (loc_of_shr_record mrs) H1) as [H2 _].
  set (m2 := round_nearest_even _ _) in *.
  pose proof (shr_fexp_bounds m2 e1 loc_Exact ltac:(lia)) as [[H3 _] _].
  destruct (shr_fexp 53 1024 m2 e1 loc_Exact) as [mrs2 e2]. cbn [fst] in H3.
  destruct (shr_m mrs2) as [|p|p]; [done| |lia]. by destruct (_ <=? _).
Qed.

Lemma round_aux_nonneg m e l : 0 <= m → nonneg (binary_round_aux 53 1024 false m e l).
Proof. intros Hm. destruct (round_aux_sign false m e l Hm) as (f & -> & Hf). by destruct f. Qed.

Lemma normalize_nonneg m e : 0 <= m → nonneg (binary_normalize 53 1024 m e false).
Proof.
  destruct m as [|p|p]; cbn; [done| |lia]. intros _. unfold binary_round.
  destruct (shl_align _ _ _) as [mz ez]. by apply round_aux_nonneg.
Qed.

(** ** Integers *)

Lemma Zdigits2_log2 p : Zdigits2 (Zpos p) = Z.log2 (Zpos p) + 1.
Proof.
  assert (digits2_pos p = Pos.size p) as Hd by (induction p as [p IH|p IH|]; cbn; [by rewrite IH..|done]).
  cbn [Zdigits2]. rewrite Hd. destruct p; cbn; lia.
Qed.

Lemma Zdigits2_bound m k : 0 <= m < 2 ^ k → 0 <= k → Zdigits2 m <= k.
Proof.
  intros Hm Hk. destruct m as [|p|p]; [done| |lia]. rewrite Zdigits2_log2.
  pose proof (Z.log2_lt_pow2 (Zpos p) k ltac:(lia)). lia.
Qed.

(** A rounded integer below [2^64], with an exponent that is not positive. *)
Lemma round_aux_finite m e : 0 <= m < 2 ^ 64 → e <= 0 → ¬ infinite (binary_round_aux 53 1024 false m e loc_Exact).
Proof.
  intros Hm He. unfold binary_round_aux.
  pose proof (shr_fexp_bounds m e loc_Exact ltac:(lia)) as [H1 E1].
  destruct (shr_fexp 53 1024 m e loc_Exact) as [mrs e1]. cbn [fst snd] in H1, E1.
  pose proof (round_nearest_even_bounds (shr_m mrs) (loc_of_shr_record mrs) ltac:(lia)) as H2.
  set (m2 := round_nearest_even _ _) in *.
  pose proof (shr_fexp_bounds m2 e1 loc_Exact ltac:(lia)) as [H3 E2].
  destruct (shr_fexp 53 1024 m2 e1 loc_Exact) as [mrs2 e2]. cbn [fst snd] in H3, E2.
  pose proof (Zdigits2_bound m 64 ltac:(lia) ltac:(lia)). pose proof (Zdigits2_bound m2 65 ltac:(lia) ltac:(lia)).
  unfold fexp, emin in E1, E2.
  destruct (shr_m mrs2) as [|p|p]; [by intros []| |by intros []].
  destruct (Z.leb_spec e2 (1024 - 53)); [by intros []|lia].
Qed.

Lemma iter_xO p k : Zpos (Pos.iter xO p k) = Zpos p * 2 ^ Zpos k.
Proof.
  induction k as [|k IH] using Pos.peano_ind; [cbn; lia|].
  rewrite Pos.iter_succ, Pos2Z.inj_succ, Z.pow_succ_r, Pos2Z.inj_xO, IH by lia. lia.
Qed.

Lemma of_int_nonneg z : 0 <= z → nonneg (f64_of_int z).
Proof. apply normalize_nonneg. Qed.

Lemma of_int_finite z : 0 <= z < 2 ^ 64 → ¬ infinite (f64_of_int z).
Proof.
  intros Hz. unfold f64_of_int, binary_normalize. destruct z as [|p|p]; [by intros []| |lia]. unfold binary_round.
  pose proof (Zdigits2_bound (Zpos p) 64 ltac:(lia) ltac:(lia)) as Hd. cbn [Zdigits2] in Hd.
  unfold shl_align, fexp, emin. set (k := Z.max _ _ - 0).
  destruct k as [|q|q] eqn:Hk; [by apply round_aux_finite; lia..|].
  apply round_aux_finite; [|lia]. rewrite iter_xO.
  assert (Zpos (digits2_pos p) + Zpos q = 53 ∨ Zpos q <= 53 - Zpos (digits2_pos p)) as Hq by lia.
  pose proof (Zdigits2_log2 p) as Hl. cbn [Zdigits2] in Hl.
  pose proof (Z.log2_spec (Zpos p) ltac:(lia)) as [_ Hlt]. replace (Z.succ (Z.log2 (Zpos p))) with (Zpos (digits2_pos p)) in Hlt by lia.
  split; [lia|]. apply Z.lt_le_trans with (2 ^ Zpos (digits2_pos p) * 2 ^ Zpos q); [apply Z.mul_lt_mono_pos_r; lia|].
  rewrite <- Z.pow_add_r by lia. apply Z.pow_le_mono_r; lia.
Qed.

(** ** Arithmetic *)

Lemma mul_nonneg a b : nonneg a → nonneg b → ¬ infinite a ∨ positive b → ¬ infinite b → nonneg (f64_mul a b).
Proof.
  intros Ha Hb Hi Hb'. destruct a as [s|s| |s m e], b as [s'|s'| |s' m' e']; cbn in *; subst; try done; try tauto.
  by apply round_aux_nonneg.
Qed.

Lemma add_nonneg a b : nonneg a → nonneg b → nonneg (f64_add a b).
Proof.
  intros Ha Hb. destruct a as [s|s| |s m e], b as [s'|s'| |s' m' e']; cbn in *; subst; try done.
  apply normalize_nonneg, Z.add_nonneg_nonneg; apply Pos2Z.is_nonneg.
Qed.

Lemma div_nonneg a b : nonneg a → ¬ infinite a → positive b → nonneg (f64_div a b).
Proof.
  intros Ha Hi Hb. destruct a as [s|s| |s m e], b as [s'|s'| |s' m' e']; cbn in *; subst; try done.
  unfold SFdiv_core_binary. cbv zeta.
  match goal with |- context [Z.div_eucl ?x _] => set (m1 := x) end.
  assert (0 <= m1) as Hm1 by (unfold m1; destruct (_ - _); [lia|apply Z.shiftl_nonneg; lia|lia]). clearbody m1.
  pose proof (Z_div_mod m1 (Zpos m') ltac:(lia)) as Hdm. destruct (Z.div_eucl m1 (Zpos m')) as [q r].
  apply round_aux_nonneg. nia.
Qed.

(** A float above a half. *)
Lemma above_half_positive f : f64_ltb (f64_const 1 2) f = true → positive f.
Proof.
  unfold f64_ltb. assert (f64_const 1 2 = S754_finite false 4503599627370496 (-53)) as -> by (vm_compute; reflexivity).
  destruct f as [s|s| |s m e]; cbn; try done; by destruct s.
Qed.
