(* ===== verification/Stats.v ===== *)
(** * Traffic statistics of the client (tui/internal/stats/stats.go)

    Two atomic counters, and rates smoothed over samples taken under a mutex.  The
    counters are added to outside of the mutex, so a call of [Add] is a sequence
    of steps that interleaves with the other calls. *)

From stdpp Require Import gmap.
From Stdlib Require Import SpecFloat.
From S2P Require Import Prelude Float64.

(** [time.Time.Sub] saturates. *)
Definition time_sub (a b : Z) : Z := Z.max (-9223372036854775808) (Z.min 9223372036854775807 (a - b)).

(** [Duration.Seconds] *)
Definition Seconds (d : Z) : float64 :=
  f64_add (f64_of_int (Z.quot d Second)) (f64_div (f64_of_int (Z.rem d Second)) (f64_of_int Second)).

Module Stats.

(** Where a call of [Add] is, after its atomic addition: before the mutex, before it
    reads the clock, and before each access under the mutex. *)
Inductive add_pc :=
  | Locking
  | Reading
  | RateUp (now : Z) (dt : float64)
  | RateDown (now : Z) (dt : float64)
  | SetLast (now : Z)
  | SetLastUp
  | SetLastDown
  | Unlocking.

(** [last] is [None] for the zero time. *)
Record Stats := mkStats {
  UpBytes : Z;
  DownBytes : Z;
  mu : option nat;
  upRate : float64;
  downRate : float64;
  last : option Z;
  lastUp : Z;
  lastDown : Z;
  calls : gmap nat add_pc
}.

#[export] Instance eta_Stats : Eta Stats := fun s =>
  mkStats (UpBytes s) (DownBytes s) (mu s) (upRate s) (downRate s) (last s) (lastUp s) (lastDown s) (calls s).

Definition new : Stats := mkStats 0 0 None (S754_zero false) (S754_zero false) None 0 0 ∅.

(** A call begins with its atomic addition. *)
Definition Add (s : Stats) (t : nat) (up : bool) (n : Z) : option Stats :=
  match calls s !! t with
  | Some _ => None
  | None =>
      let s := if up then s <| UpBytes := i64 (UpBytes s + n) |> else s <| DownBytes := i64 (DownBytes s + n) |> in
      Some (s <| calls := <[t := Locking]> (calls s) |>)
  end.

(** [rate*0.7 + float64(bytes)/dt*0.3] *)
Definition smooth (rate : float64) (bytes : Z) (dt : float64) : float64 :=
  f64_add (f64_mul rate (f64_const 7 10)) (f64_mul (f64_div (f64_of_int bytes) dt) (f64_const 3 10)).

Definition goto (s : Stats) (t : nat) (pc : add_pc) : Stats := s <| calls := <[t := pc]> (calls s) |>.

(** The next step of a call; [clock] is what [time.Now] returns. *)
Definition advance (s : Stats) (t : nat) (clock : Z) : option Stats :=
  match calls s !! t with
  | None => None
  | Some Locking => match mu s with None => Some (goto (s <| mu := Some t |>) t Reading) | Some _ => None end
  | Some Reading =>
      match last s with
      | None => Some (goto s t (SetLast clock))
      | Some l =>
          if l <? clock then
            let dt := Seconds (time_sub clock l) in
            Some (goto s t (if f64_ltb (f64_const 1 2) dt then RateUp clock dt else Unlocking))
          else Some (goto s t Unlocking)
      end
  | Some (RateUp now dt) =>
      Some (goto (s <| upRate := smooth (upRate s) (i64 (UpBytes s - lastUp s)) dt |>) t (RateDown now dt))
  | Some (RateDown now dt) =>
      Some (goto (s <| downRate := smooth (downRate s) (i64 (DownBytes s - lastDown s)) dt |>) t (SetLast now))
  | Some (SetLast now) => Some (goto (s <| last := Some now |>) t SetLastUp)
  | Some SetLastUp => Some (goto (s <| lastUp := UpBytes s |>) t SetLastDown)
  | Some SetLastDown => Some (goto (s <| lastDown := DownBytes s |>) t Unlocking)
  | Some Unlocking => Some (s <| mu := None |> <| calls := delete t (calls s) |>)
  end.

Definition Rates (s : Stats) : option (float64 * float64) :=
  match mu s with None => Some (upRate s, downRate s) | Some _ => None end.

Inductive event :=
  | EAdd (t : nat) (up : bool) (n : Z)
  | EAdvance (t : nat) (clock : Z).

Definition step (s : Stats) (e : event) : option Stats :=
  match e with
  | EAdd t up n => Add s t up n
  | EAdvance t clock => advance s t clock
  end.

Fixpoint run (es : list event) (s : Stats) : option Stats :=
  match es with
  | [] => Some s
  | e :: es => s' ← step s e; run es s'
  end.

(** ** Counting connections *)

Record CountingConn := mkCountingConn { countUp : bool }.

Definition NewCountingConn (countUp : bool) : CountingConn := mkCountingConn countUp.

(** The call of [Add] a [Read] or a [Write] of [n] bytes makes. *)
Definition Read (c : CountingConn) (n : Z) : option (bool * Z) := if 0 <? n then Some (countUp c, n) else None.
Definition Write (c : CountingConn) (n : Z) : option (bool * Z) := if 0 <? n then Some (negb (countUp c), n) else None.

End Stats.
