(* ===== verification/StatsSpec.v ===== *)
(** * Theorems about the traffic statistics

    The counters are exact however the calls interleave, and the rates are neither
    negative nor NaN; a rate can miss bytes that its sample should have counted. *)

From stdpp Require Import gmap.
From Stdlib Require Import SpecFloat.
From S2P Require Import Prelude Float64 Float64Facts Stats.

Import Stats.

(** The bytes added in a direction. *)
Fixpoint added (up : bool) (es : list event) : Z :=
  match es with
  | [] => 0
  | EAdd _ u n :: es => (if Bool.eqb u up then n else 0) + added up es
  | EAdvance _ _ :: es => added up es
  end.

Definition amounts_ok (es : list event) : Prop :=
  Forall (λ e, match e with EAdd _ _ n => 0 <= n | EAdvance _ _ => True end) es.

Lemma added_nonneg up es : amounts_ok es → 0 <= added up es.
Proof. induction 1 as [|[t u n|t c] es Hn Hes IH]; cbn; [lia| |done]. destruct (Bool.eqb u up); lia. Qed.

(** The float of a sample's length. *)
Definition pc_ok (pc : add_pc) : Prop :=
  match pc with RateUp _ dt | RateDown _ dt => positive dt | _ => True end.

Record stats_inv (s : Stats) : Prop := {
  s_mutex : ∀ t, mu s = Some t ↔ ∃ pc, calls s !! t = Some pc ∧ pc ≠ Locking;
  s_pcs : ∀ t pc, calls s !! t = Some pc → pc_ok pc;
  s_up : 0 <= lastUp s <= UpBytes s;
  s_down : 0 <= lastDown s <= DownBytes s;
  s_rates : nonneg (upRate s) ∧ nonneg (downRate s)
}.

Lemma new_stats_inv : stats_inv new.
Proof. split; cbn; try done. intros t. split; [done|]. by intros (pc & Hpc & _). Qed.

(** ** Steps *)

(** The smoothed rate of a sample. *)
Lemma smooth_nonneg rate n dt : nonneg rate → 0 <= n < 2 ^ 63 → positive dt → nonneg (smooth rate n dt).
Proof.
  intros Hr Hn Hdt. unfold smooth.
  assert (f64_const 7 10 = S754_finite false 6305039478318694 (-53)) as E7 by (vm_compute; reflexivity).
  assert (f64_const 3 10 = S754_finite false 5404319552844595 (-54)) as E3 by (vm_compute; reflexivity).
  rewrite E7, E3. apply add_nonneg; (apply mul_nonneg; [|done|by right|by intros []]); [done|].
  apply div_nonneg; [apply of_int_nonneg; lia|apply of_int_finite; lia|done].
Qed.

(** Who is at which step, after one call has moved. *)
Lemma goto_mutex s t pc0 pc :
  calls s !! t = Some pc0 → pc0 ≠ Locking → pc ≠ Locking →
  (∀ u, mu s = Some u ↔ ∃ p, calls s !! u = Some p ∧ p ≠ Locking) →
  ∀ u, mu s = Some u ↔ ∃ p, <[t := pc]> (calls s) !! u = Some p ∧ p ≠ Locking.
Proof.
  intros Ht H0 H1 Hm u. rewrite Hm. destruct (decide (t = u)) as [->|Hne].
  - rewrite lookup_insert_eq. split; intros _; [by exists pc|by exists pc0].
  - by rewrite lookup_insert_ne.
Qed.

Lemma goto_pcs s t pc : (∀ u p, calls s !! u = Some p → pc_ok p) → pc_ok pc →
  ∀ u p, <[t := pc]> (calls s) !! u = Some p → pc_ok p.
Proof. intros Hs Hp u p [[_ <-]|[_ ?]]%lookup_insert_Some; [done|by eapply Hs]. Qed.

Lemma Add_inv s t (up : bool) n s' :
  stats_inv s → 0 <= n → (if up then UpBytes s else DownBytes s) + n < 2 ^ 63 → Add s t up n = Some s' →
  stats_inv s' ∧ UpBytes s' = UpBytes s + (if up then n else 0) ∧ DownBytes s' = DownBytes s + (if up then 0 else n).
Proof.
  intros [Hm Hp Hu Hd Hr] Hn Hb. unfold Add. destruct (calls s !! t) eqn:Ht; [done|].
  assert (∀ u, mu s = Some u ↔ ∃ p, <[t := Locking]> (calls s) !! u = Some p ∧ p ≠ Locking) as Hm'.
  { intros u. rewrite Hm. destruct (decide (t = u)) as [->|Hne]; [|by rewrite lookup_insert_ne].
    rewrite lookup_insert_eq, Ht. split; [by intros (q & Hq & _)|]. by intros (q & [= <-] & Hq). }
  destruct up; intros [= <-]; cbn; rewrite i64_id by (unfold in_i64; lia).
  - split; [|lia]. split; cbn; [done|by apply goto_pcs|lia|lia|done].
  - split; [|lia]. split; cbn; [done|by apply goto_pcs|lia|lia|done].
Qed.

Lemma advance_inv s t c s' :
  stats_inv s → UpBytes s < 2 ^ 63 → DownBytes s < 2 ^ 63 → advance s t c = Some s' →
  stats_inv s' ∧ UpBytes s' = UpBytes s ∧ DownBytes s' = DownBytes s.
Proof.
  intros [Hm Hp Hu Hd [Hru Hrd]] Hbu Hbd. unfold advance. destruct (calls s !! t) as [pc|] eqn:Ht; [|done].
  pose proof (Hp t pc Ht) as Hpc.
  assert (∀ p pc', pc = p → p ≠ Locking → pc' ≠ Locking → pc_ok pc' →
    (∀ u, mu s = Some u ↔ ∃ q, <[t := pc']> (calls s) !! u = Some q ∧ q ≠ Locking) ∧
    (∀ u q, <[t := pc']> (calls s) !! u = Some q → pc_ok q)) as Hgo.
  { intros p pc' -> Hl Hl' Hok. split; [by eapply goto_mutex|by apply goto_pcs]. }
  destruct pc as [| |now dt|now dt|now| | |].
  - destruct (mu s) eqn:Hmu; [done|]. intros [= <-]. split; [|done]. split; cbn; [|by apply goto_pcs|done..].
    intros u. split.
    + intros [= <-]. exists Reading. by rewrite lookup_insert_eq.
    + intros (q & [[-> _]|[_ Hq]]%lookup_insert_Some & Hne); [done|]. assert (None = Some u) as [=] by (apply Hm; by exists q).
  - assert (∀ pc', pc' ≠ Locking → pc_ok pc' → stats_inv (goto s t pc')) as Hg.
    { intros pc' Hl Hok. destruct (Hgo Reading pc') as [? ?]; [done..|by split]. }
    destruct (last s) as [l|]; [destruct (l <? c)|]; intros [= <-]; (split; [|done]).
    + destruct (f64_ltb _ _) eqn:Hlt; [|by apply Hg]. apply Hg; [done|]. by apply above_half_positive.
    + by apply Hg.
    + by apply Hg.
  - intros [= <-]. split; [|done]. destruct (Hgo (RateUp now dt) (RateDown now dt)) as [? ?]; [done..|].
    split; cbn; try done. split; [|done]. apply smooth_nonneg; [done| |done]. rewrite i64_id by (unfold in_i64; lia). lia.
  - intros [= <-]. split; [|done]. destruct (Hgo (RateDown now dt) (SetLast now)) as [? ?]; [done..|].
    split; cbn; try done. split; [done|]. apply smooth_nonneg; [done| |done]. rewrite i64_id by (unfold in_i64; lia). lia.
  - intros [= <-]. split; [|done]. destruct (Hgo (SetLast now) SetLastUp) as [? ?]; [done..|by split].
  - intros [= <-]. split; [|done]. destruct (Hgo SetLastUp SetLastDown) as [? ?]; [done..|]. split; cbn; try done; lia.
  - intros [= <-]. split; [|done]. destruct (Hgo SetLastDown Unlocking) as [? ?]; [done..|]. split; cbn; try done; lia.
  - intros [= <-]. split; [|done]. split; cbn; try done.
    + intros u. split; [done|]. intros (q & [Hne Hq]%lookup_delete_Some & Hl).
      assert (mu s = Some u) as H1 by (apply Hm; by exists q). assert (mu s = Some t) as H2 by (apply Hm; by exists Unlocking).
      congruence.
    + intros u q [_ Hq]%lookup_delete_Some. by eapply Hp.
Qed.

Lemma stats_run_inv es s s' :
  run es s = Some s' → stats_inv s → amounts_ok es →
  UpBytes s + added true es < 2 ^ 63 → DownBytes s + added false es < 2 ^ 63 →
  stats_inv s' ∧ UpBytes s' = UpBytes s + added true es ∧ DownBytes s' = DownBytes s + added false es.
Proof.
  revert s. induction es as [|e es IH]; intros s; cbn [run added]; [intros [= <-]; cbn; intros; split; [done|lia]|].
  intros (s1 & H1 & Hrun)%bind_Some Hi [Hn Hes]%Forall_cons Hbu Hbd.
  pose proof (added_nonneg true es Hes). pose proof (added_nonneg false es Hes).
  pose proof (s_up _ Hi). pose proof (s_down _ Hi).
  destruct e as [t u n|t c]; cbn [step] in H1.
  - apply Add_inv in H1 as (Hi1 & E1 & E2); [|done|done|].
    + destruct (IH s1 Hrun Hi1 Hes) as (? & ? & ?); [destruct u; cbn in *; lia..|].
      split; [done|]. destruct u; cbn in *; lia.
    + destruct u; cbn in *; lia.
  - apply advance_inv in H1 as (Hi1 & E1 & E2); [|done|lia|lia].
    destruct (IH s1 Hrun Hi1 Hes) as (? & ? & ?); [lia|lia|]. split; [done|lia].
Qed.

(** Some call can always move: the one that holds the mutex, or any other. *)
Lemma some_call_moves s : stats_inv s → calls s ≠ ∅ → ∃ t, ∀ clock, is_Some (advance s t clock).
Proof.
  intros Hi (t & pc & Ht)%map_choose. destruct (mu s) as [u|] eqn:Hmu.
  - exists u. intros clock. apply (s_mutex _ Hi) in Hmu as (q & Hq & Hne). unfold advance. rewrite Hq.
    destruct q as [| |now dt|now dt|now| | |]; try done. destruct (last s) as [l|]; [destruct (l <? clock)|]; by eexists.
  - exists t. intros clock. unfold advance. rewrite Ht.
    destruct pc as [| |now dt|now dt|now| | |]; try by eexists.
    + rewrite Hmu. by eexists.
    + destruct (last s) as [l|]; [destruct (l <? clock)|]; by eexists.
Qed.

(** C35. The traffic counters are exact, and the rates are numbers.  However the calls of
    [Add] interleave, while fewer than 2^63 bytes were counted in a direction: the
    counter of a direction is the sum of the bytes added to it; the bytes at the
    last sample are among them; the smoothed rates are neither negative nor NaN; at
    most one call is past the mutex; and as long as a call is under way one of them
    can move. *)
Theorem stats_are_sound es s :
  run es new = Some s → amounts_ok es → added true es < 2 ^ 63 → added false es < 2 ^ 63 →
  UpBytes s = added true es ∧ DownBytes s = added false es ∧
  (0 <= lastUp s <= UpBytes s) ∧ (0 <= lastDown s <= DownBytes s) ∧
  nonneg (upRate s) ∧ nonneg (downRate s) ∧
  (∀ t u p q, calls s !! t = Some p → calls s !! u = Some q → p ≠ Locking → q ≠ Locking → t = u) ∧
  (calls s ≠ ∅ → ∃ t, ∀ clock, is_Some (advance s t clock)).
Proof.
  intros Hrun Ha Hu Hd. destruct (stats_run_inv es new s Hrun new_stats_inv Ha) as (Hi & E1 & E2); [cbn; lia..|].
  split_and!; [exact E1|exact E2|apply Hi..| |by apply some_call_moves].
  intros t u p q Ht Hq Hp Hq'.
  assert (mu s = Some t) as H1 by (apply (s_mutex _ Hi); by exists p).
  assert (mu s = Some u) as H2 by (apply (s_mutex _ Hi); by exists q). congruence.
Qed.

(** ** Witness *)

Module Demo.

(** A first call, and a second one a second later. *)
Definition two_calls : list event :=
  EAdd 1 true 5 :: repeat (EAdvance 1 100) 6 ++ EAdd 2 true 100 :: repeat (EAdvance 2 1000000100) 8.

Definition after : Stats := default new (run two_calls new).

Lemma stats_are_sound_witness : UpBytes after = 105 ∧ nonneg (upRate after).
Proof.
  destruct (stats_are_sound two_calls after) as (Hu & _ & _ & _ & Hr & _);
    [vm_compute; reflexivity|repeat constructor; lia|vm_compute; reflexivity..|].
  split; [rewrite Hu; vm_compute; reflexivity|exact Hr].
Defined.

(** The 1000 bytes another goroutine adds between the two reads of [UpBytes] are
    marked as sampled, but the rate of the sample does not have them. *)
Definition interleaved : list event :=
  EAdd 1 true 5 :: repeat (EAdvance 1 100) 6 ++
  EAdd 2 true 100 :: repeat (EAdvance 2 1000000100) 3 ++ EAdd 3 true 1000 :: repeat (EAdvance 2 1000000100) 5.

Example sample_misses_bytes :
  (λ s, (upRate s, lastUp s, mu s)) <$> run interleaved new = Some (f64_mul (f64_of_int 100) (f64_const 3 10), 1105, None) ∧
  (λ s, (upRate s, lastUp s, mu s)) <$> run two_calls new = Some (f64_mul (f64_of_int 100) (f64_const 3 10), 105, None).
Proof. split; vm_compute; reflexivity. Qed.

End Demo.
