(* ===== verification/Qlog.v ===== *)
(** * Sampled qlogs (h3frontend/qlog_trace.go)

    The tracer keeps the events about losses and congestion and samples the metrics
    ten times a second.  The qlog writer is a library: what reaches it is the list
    of the events recorded, and what it writes goes through a buffer to the file of
    the connection, which Close flushes and closes. *)

From S2P Require Import Prelude Stats.

Module Qlog.

(** An empty directory turns tracing off; [made] is whether the directory exists or
    could be created. *)
Definition newSampledQLogTracerFactory (dir : string) (made : bool) : fallible (option string) :=
  if bool_decide (dir = "") then ret None
  else if negb made then fail "create qlog dir"
  else ret (Some dir).

(** The file of a connection, in the directory of the factory. *)
Definition trace_file (connID : string) (isClient : bool) : string :=
  connID +:+ "_" +:+ (if isClient then "client" else "server") +:+ ".sqlog".

(** The qlog writer of the library and whether it knows a schema. *)
Section trace.
Context {T : Type} (NewConnectionFileSeq : string → bool → string → T) (supports : T → string → bool).

(** [Tracer] opens the file for appending, if it can. *)
Definition Tracer (opened : bool) (connID : string) (isClient : bool) : option T :=
  if negb opened then None else Some (NewConnectionFileSeq (trace_file connID isClient) isClient connID).

(** A nil trace knows no schema. *)
Definition SupportsSchemas (t : option T) (schema : string) : bool :=
  match t with None => false | Some inner => supports inner schema end.

End trace.

Definition metricsSamplePeriod : Z := 100 * Millisecond.

(** [inner] is whether there is a recorder to hand events to; [lastSample] is in
    nanoseconds. *)
Record sampledRecorder := mkRecorder { inner : bool; lastSample : Z }.

Definition AddProducer (trace inner : bool) : option sampledRecorder :=
  if negb trace then None else Some (mkRecorder inner 0).

Definition metrics : string := "recovery:metrics_updated".

Definition kept : list string :=
  ["recovery:packet_lost"; "recovery:congestion_state_updated"; "recovery:mtu_updated";
   "transport:packet_dropped"; "transport:connection_started"; "transport:connection_closed";
   "transport:parameters_set"].

(** The recorder after an event of a name, and whether the event was handed on; [None]
    is a nil event. *)
Definition RecordEvent (r : sampledRecorder) (now : Z) (e : option string) : sampledRecorder * bool :=
  match e with
  | None => (r, false)
  | Some name =>
      if negb (inner r) then (r, false)
      else if bool_decide (name = metrics) then
        if time_sub now (lastSample r) <? metricsSamplePeriod then (r, false)
        else (mkRecorder (inner r) (i64 now), true)
      else if bool_decide (name ∈ kept) then (r, true)
      else (r, false)
  end.

(** [sampledRecorder.Close]; [ok] is whether the inner recorder closes. *)
Definition closeRecorder (r : option sampledRecorder) (ok : bool) : bool :=
  match r with None => true | Some r => if negb (inner r) then true else ok end.

(** The events of a connection in order, with the clock at each. *)
Fixpoint record_all (r : sampledRecorder) (es : list (Z * option string)) : list (Z * string) :=
  match es with
  | [] => []
  | (now, e) :: es =>
      let '(r, handed) := RecordEvent r now e in
      match e, handed with
      | Some name, true => (now, name) :: record_all r es
      | _, _ => record_all r es
      end
  end.

(** ** The buffered file

    [bufio.NewWriterSize(fh, 1<<16)]: the bytes in the file, those in the buffer, and
    whether a write to the file has failed, after which nothing more is written. *)

Definition size : Z := Z.shiftl 1 16.

Record bufWriter := mkWriter { file : list Z; buf : list Z; failed : bool; closed : bool }.

Section writer.
(** A write to the file that holds [l]: it fails after the first [n] bytes of the
    data, or succeeds. *)
Context (fails : list Z → list Z → option nat).

Definition file_write (w : bufWriter) (p : list Z) : bufWriter :=
  match fails (file w) p with
  | Some n => mkWriter (file w ++ take n p) (buf w) true (closed w)
  | None => mkWriter (file w ++ p) (buf w) (failed w) (closed w)
  end.

(** [Flush] keeps what it could not write. *)
Definition Flush (w : bufWriter) : bufWriter :=
  if failed w then w
  else if len (buf w) =? 0 then w
  else
    match fails (file w) (buf w) with
    | Some n => mkWriter (file w ++ take n (buf w)) (drop n (buf w)) true (closed w)
    | None => mkWriter (file w ++ buf w) [] false (closed w)
    end.

(** The loop of [bufio.Writer.Write]: a piece larger than the room left fills the
    buffer, or goes to the file at once when the buffer is empty. *)
Fixpoint write_loop (fuel : nat) (w : bufWriter) (p : list Z) : bufWriter * list Z :=
  match fuel with
  | O => (w, p)
  | S fuel =>
      let room := size - len (buf w) in
      if (room <? len p) && negb (failed w) then
        if len (buf w) =? 0 then write_loop fuel (file_write w p) []
        else
          let n := Z.to_nat room in
          write_loop fuel (Flush (mkWriter (file w) (buf w ++ take n p) (failed w) (closed w))) (drop n p)
      else (w, p)
  end.

(** [flushWriteCloser.Write], and whether it returned nil. *)
Definition Write (w : bufWriter) (p : list Z) : bool * bufWriter :=
  let '(w, p) := write_loop 3 w p in
  if failed w then (false, w) else (true, mkWriter (file w) (buf w ++ p) (failed w) (closed w)).

(** [flushWriteCloser.Close]: [errors.Join] runs both. *)
Definition Close (w : bufWriter) (closes : bool) : bool * bufWriter :=
  let w := Flush w in
  (negb (failed w) && closes, mkWriter (file w) (buf w) (failed w) true).

(** Whether every one of the writes of a connection returned nil. *)
Fixpoint write_all (w : bufWriter) (ps : list (list Z)) : bool * bufWriter :=
  match ps with
  | [] => (true, w)
  | p :: ps =>
      let '(ok, w) := Write w p in
      let '(oks, w) := write_all w ps in
      (ok && oks, w)
  end.

End writer.

End Qlog.

Import Qlog.

(** The times of the metrics among events. *)
Definition samples (l : list (Z * string)) : list Z := fst <$> filter (λ e, e.2 = metrics) l.

(** Each time is a period or more after the one before it. *)
Fixpoint spaced (last : Z) (ts : list Z) : Prop :=
  match ts with [] => True | t :: ts => metricsSamplePeriod <= t - last ∧ spaced t ts end.

Definition clock_ok (es : list (Z * option string)) : Prop := Forall (λ e, 0 <= e.1 < 9223372036854775808) es.

Lemma metrics_not_kept : metrics ∉ kept.
Proof. intros H. by apply (bool_decide_eq_true_2 _) in H. Qed.

(** The qlogs are sampled.  For every sequence of events of a connection: the
    metrics that are handed on are at least a tenth of a second apart; every event
    about losses, congestion and the connection's life is handed on, in order; no
    other event is; and without a recorder nothing is. *)
Theorem metrics_are_sampled es r :
  clock_ok es → 0 <= lastSample r < 9223372036854775808 →
  spaced (lastSample r) (samples (record_all r es)) ∧
  (inner r = true →
     filter (λ e, e.2 ∈ kept) (record_all r es)
     = omap (λ e, match e.2 with Some n => if bool_decide (n ∈ kept) then Some (e.1, n) else None | None => None end) es) ∧
  Forall (λ e, e.2 = metrics ∨ e.2 ∈ kept) (record_all r es) ∧
  (inner r = false → record_all r es = []).
Proof.
  intros Hes. revert r. induction Hes as [|[now e] es Hnow Hes IH]; intros r Hr; [done|].
  cbn [record_all]. unfold RecordEvent. cbn [fst] in Hnow.
  destruct e as [name|].
  2: { destruct (IH r Hr) as (? & ? & ? & ?). split_and!; done. }
  destruct (inner r) eqn:Hin; cbn [negb].
  2: { destruct (IH r Hr) as (? & ? & ? & ?). split_and!; try done; by auto. }
  case_bool_decide as Hname.
  - subst name. destruct (Z.ltb_spec (time_sub now (lastSample r)) metricsSamplePeriod) as [Hlt|Hge].
    + destruct (IH r Hr) as (? & Hk & ? & ?). split_and!; try done. intros _. rewrite Hk by done. cbn.
      by rewrite (bool_decide_eq_false_2 _ metrics_not_kept).
    + assert (i64 now = now) as Enow by (apply i64_id; unfold in_i64; lia).
      destruct (IH (mkRecorder true (i64 now))) as (Hs & Hk & Hf & _); [cbn; rewrite Enow; lia|]. cbn [lastSample inner] in *.
      rewrite Enow in *. split_and!; [| |constructor; [by left|done]|done].
      * unfold samples in *. rewrite filter_cons_True by done. cbn. split; [|done]. unfold time_sub in Hge. unfold metricsSamplePeriod, Millisecond in *. lia.
      * intros _. rewrite filter_cons_False by apply metrics_not_kept. rewrite Hk by done. cbn.
        by rewrite (bool_decide_eq_false_2 _ metrics_not_kept).
  - case_bool_decide as Hkept; destruct (IH r Hr) as (Hs & Hk & Hf & _).
    + split_and!; [| |constructor; [by right|done]|done].
      * unfold samples. by rewrite filter_cons_False.
      * intros _. rewrite filter_cons_True by done. rewrite Hk by done. cbn. by rewrite bool_decide_eq_true_2.
    + split_and!; try done. intros _. rewrite Hk by done. cbn. by rewrite bool_decide_eq_false_2.
Qed.

(** ** The file *)

Section writer.
Context (fails : list Z → list Z → option nat).

(** What has come: the file and the buffer hold it all unless a write has failed;
    then the file holds its beginning. *)
Definition wrote (old : list Z) (w : bufWriter) (p : list Z) : Prop :=
  len (buf w) <= size ∧ (∃ rest, old ++ p = file w ++ rest) ∧ (failed w = false → old ++ p = file w ++ buf w).

Lemma Flush_wrote old w p : wrote old w p →
  wrote old (Flush fails w) p ∧ (failed (Flush fails w) = false → buf (Flush fails w) = []) ∧
  closed (Flush fails w) = closed w.
Proof.
  intros (Hl & [rest Hr] & Hb). unfold Flush. destruct (failed w) eqn:Hf.
  { split; [|split; [by rewrite Hf|done]]. split_and!; [done|by eexists|by rewrite Hf]. }
  specialize (Hb eq_refl). destruct (Z.eqb_spec (len (buf w)) 0) as [H0|H0].
  { split; [split_and!; [done|by eexists|done]|]. split; [|done]. intros _. by apply len_nil_inv. }
  destruct (fails (file w) (buf w)) as [n|]; unfold wrote; cbn [buf file failed closed]; split_and!; try done.
  - unfold len in *. rewrite length_drop. lia.
  - exists (drop n (buf w)). by rewrite <- app_assoc, take_drop.
  - exists []. by rewrite Hb, app_nil_r.
  - intros _. by rewrite Hb, app_nil_r.
Qed.

Lemma file_write_wrote old w q p : wrote old w q → failed w = false → buf w = [] →
  wrote old (file_write fails w p) (q ++ p) ∧ buf (file_write fails w p) = [] ∧ closed (file_write fails w p) = closed w.
Proof.
  intros (Hl & _ & Hb) Hf He. specialize (Hb Hf). rewrite He, app_nil_r in Hb. unfold file_write, wrote.
  destruct (fails (file w) p) as [n|]; cbn; rewrite He, ?Hf; split_and!; try done; rewrite app_assoc, Hb.
  - exists (drop n p). by rewrite <- app_assoc, take_drop.
  - exists []. by rewrite app_nil_r.
  - intros _. by rewrite app_nil_r.
Qed.

(** What the loop leaves of a piece fits in the buffer, unless the file failed. *)
Definition consumed (old : list Z) (w : bufWriter) (q p : list Z) (r : bufWriter * list Z) : Prop :=
  (∃ c, p = c ++ r.2 ∧ wrote old r.1 (q ++ c)) ∧ (failed r.1 = true ∨ len r.2 <= size - len (buf r.1)) ∧
  closed r.1 = closed w.

Lemma consumed_none old w q p : wrote old w q → failed w = true ∨ len p <= size - len (buf w) → consumed old w q p (w, p).
Proof. intros Hw Hf. split_and!; [|done|done]. exists []. by rewrite app_nil_r. Qed.

Lemma write_loop_S fuel w p : write_loop fails (S fuel) w p =
  let room := size - len (buf w) in
  if (room <? len p) && negb (failed w) then
    if len (buf w) =? 0 then write_loop fails fuel (file_write fails w p) []
    else
      write_loop fails fuel (Flush fails (mkWriter (file w) (buf w ++ take (Z.to_nat room) p) (failed w) (closed w)))
        (drop (Z.to_nat room) p)
  else (w, p).
Proof. done. Qed.

Lemma write_loop_nil fuel w : len (buf w) <= size → write_loop fails fuel w [] = (w, []).
Proof.
  intros Hl. destruct fuel as [|fuel]; [done|]. rewrite write_loop_S. cbn zeta. change (len []) with 0.
  by destruct (Z.ltb_spec (size - len (buf w)) 0); [lia|].
Qed.

Lemma write_loop_empty fuel old w q p : wrote old w q → buf w = [] → consumed old w q p (write_loop fails (S fuel) w p).
Proof.
  intros Hw He. rewrite write_loop_S, He. cbn zeta. change (len []) with 0. rewrite Z.sub_0_r, Z.eqb_refl.
  destruct (Z.ltb_spec size (len p)), (failed w) eqn:Hf; cbn [andb negb];
    try (apply consumed_none; [done|first [by left|right; rewrite He; change (len []) with 0; lia]]).
  destruct (file_write_wrote old w q p Hw Hf He) as (Hw' & He' & Hc).
  rewrite write_loop_nil by (by rewrite He'). split_and!; [|right; cbn; by rewrite He'|done]. exists p. by rewrite app_nil_r.
Qed.

Lemma write_loop_spec old w q p : wrote old w q → consumed old w q p (write_loop fails 3 w p).
Proof.
  intros Hw. destruct (decide (buf w = [])) as [He|He]; [by apply write_loop_empty|].
  rewrite write_loop_S. cbn zeta.
  destruct (Z.ltb_spec (size - len (buf w)) (len p)) as [Hlt|], (failed w) eqn:Hf; cbn [andb negb];
    try (apply consumed_none; [done|first [by left|right; lia]]).
  destruct (Z.eqb_spec (len (buf w)) 0) as [H0|_]; [by destruct He; apply len_nil_inv|].
  set (n := Z.to_nat (size - len (buf w))). set (w1 := mkWriter (file w) (buf w ++ take n p) false (closed w)).
  assert (wrote old w1 (q ++ take n p)) as Hw1.
  { destruct Hw as (Hl & _ & Hb). specialize (Hb Hf). unfold wrote, w1; cbn.
    rewrite (app_assoc old), Hb. split_and!; [|exists (buf w ++ take n p)|]; rewrite ?app_assoc; try done.
    rewrite len_app. unfold len in *. rewrite length_take. unfold n. lia. }
  destruct (Flush_wrote old w1 _ Hw1) as (Hw2 & Hbuf & Hc). destruct (failed (Flush fails w1)) eqn:Hf2.
  - rewrite write_loop_S. cbn zeta. rewrite Hf2, andb_false_r. split_and!; [|by left|done].
    exists (take n p). cbn [fst snd]. by rewrite take_drop.
  - destruct (write_loop_empty 1 old (Flush fails w1) (q ++ take n p) (drop n p) Hw2 (Hbuf eq_refl)) as ((c & Hd & Hwc) & Hfit & Hcl).
    split_and!; [|done|by rewrite Hcl]. exists (take n p ++ c). rewrite <- app_assoc, <- Hd, take_drop.
    split; [done|]. by rewrite app_assoc.
Qed.

Lemma Write_wrote old w q p : wrote old w q →
  wrote old (Write fails w p).2 (q ++ p) ∧ closed (Write fails w p).2 = closed w.
Proof.
  intros Hw. unfold Write. destruct (write_loop_spec old w q p Hw) as ((c & Hp & Hwc) & Hfit & Hcl).
  destruct (write_loop fails 3 w p) as [w' p']. cbn in *. destruct Hwc as (Hl & (rest & Hr) & Hb).
  destruct (failed w') eqn:Hf; cbn; (split; [|done]).
  - split_and!; [done| |by rewrite Hf]. exists (rest ++ p'). rewrite Hp, (app_assoc q), app_assoc, Hr. by rewrite <- app_assoc.
  - destruct Hfit as [|Hfit]; [done|]. specialize (Hb eq_refl). rewrite Hp.
    assert (old ++ q ++ c ++ p' = file w' ++ buf w' ++ p') as Heq by (by rewrite (app_assoc q), app_assoc, Hb, <- app_assoc).
    split_and!; cbn; [rewrite len_app; lia|by exists (buf w' ++ p')|done].
Qed.

(** The file of a connection is complete.  Whatever the sizes of the pieces the qlog
    writer gives it, the file is closed by Close and holds at the end, after what it
    held before, a beginning of what was written; and all of it if Close returned
    nil. *)
Theorem qlog_file_is_complete old ps closes :
  let w := (write_all fails (mkWriter old [] false false) ps).2 in
  closed (Close fails w closes).2 = true ∧
  file (Close fails w closes).2 `prefix_of` old ++ concat ps ∧
  ((Close fails w closes).1 = true → file (Close fails w closes).2 = old ++ concat ps).
Proof.
  assert (∀ w q, wrote old w q → wrote old (write_all fails w ps).2 (q ++ concat ps)) as Hall.
  { induction ps as [|p ps' IH]; intros w q Hw; cbn; [by rewrite app_nil_r|].
    destruct (Write_wrote old w q p Hw) as [Hp _]. destruct (Write fails w p) as [ok w1].
    specialize (IH w1 (q ++ p) Hp). destruct (write_all fails w1 ps'). by rewrite <- app_assoc in IH. }
  cbn zeta. set (w := (write_all fails (mkWriter old [] false false) ps).2).
  assert (wrote old w (concat ps)) as Hw.
  { apply (Hall _ []). split_and!; [done|by exists []|done]. }
  destruct (Flush_wrote old w _ Hw) as ((_ & [rest Hr] & Hb) & Hbuf & _). unfold Close. cbn. split_and!; [done|by eexists|].
  intros [Hf _]%andb_true_iff. apply negb_true_iff in Hf. by rewrite Hb, Hbuf, app_nil_r.
Qed.

End writer.

(** ** Witness *)

Module Demo.

Definition burst : list (Z * option string) :=
  [(200000000, Some metrics); (250000000, Some metrics); (260000000, Some "recovery:packet_lost");
   (270000000, Some "transport:packet_sent"); (310000000, Some metrics)].

Lemma metrics_are_sampled_witness :
  spaced 0 (samples (record_all (mkRecorder true 0) burst)) ∧
  record_all (mkRecorder true 0) burst
  = [(200000000, metrics); (260000000, "recovery:packet_lost"); (310000000, metrics)].
Proof.
  split; [|vm_compute; reflexivity].
  apply (metrics_are_sampled burst (mkRecorder true 0)); [repeat constructor; cbn; lia|cbn; lia].
Defined.

End Demo.
