(* ===== verification/GoFmt.v ===== *)
(** * Printing floats (the verb %.2f of the Go library)

    A finite float is printed as the decimal with two places nearest to its exact
    value, a tie going to the even digit. *)

From Stdlib Require Import SpecFloat.
From S2P Require Import Prelude Float64 Float64Facts GoText GoNet.

(** The integer nearest to [n / d], a tie going to the even one. *)
Definition round_half_even (n d : Z) : Z :=
  let q := n / d in
  let r := n mod d in
  if 2 * r <? d then q else if d <? 2 * r then q + 1 else if Z.even q then q else q + 1.

(** A number of hundredths with two places; a float has at most 309 digits. *)
Definition hundredths (q : Z) : string :=
  of_bytes (digits 320 (q / 100) ++ "."%char :: byte (48 + q / 10 mod 10) :: [byte (48 + q mod 10)]).

Definition format_f2 (f : float64) : string :=
  match f with
  | S754_zero s => (if s then "-" else "") +:+ "0.00"
  | S754_infinity s => if s then "-Inf" else "+Inf"
  | S754_nan => "NaN"
  | S754_finite s m e =>
      let q := if 0 <=? e then 100 * Zpos m * 2 ^ e else round_half_even (100 * Zpos m) (2 ^ (- e)) in
      (if s then "-" else "") +:+ hundredths q
  end.

Example print_exact : format_f2 (f64_const 1 8) = "0.12". Proof. vm_compute. reflexivity. Qed.
Example print_up : format_f2 (f64_const 3 8) = "0.38". Proof. vm_compute. reflexivity. Qed.
Example print_large : format_f2 (f64_of_int 1234567) = "1234567.00". Proof. vm_compute. reflexivity. Qed.

Lemma round_half_even_spec n d : 0 < d → -d <= 2 * (n - round_half_even n d * d) <= d.
Proof.
  intros Hd. unfold round_half_even. pose proof (Z.div_mod n d ltac:(lia)). pose proof (Z.mod_pos_bound n d Hd).
  destruct (Z.ltb_spec (2 * (n mod d)) d), (Z.ltb_spec d (2 * (n mod d))), (Z.even (n / d)); nia.
Qed.

(** Scaling both sides changes nothing. *)
Lemma round_half_even_scale n d k : 0 < d → 0 < k → round_half_even (n * k) (d * k) = round_half_even n d.
Proof.
  intros Hd Hk. unfold round_half_even. rewrite Z.div_mul_cancel_r, Z.mul_mod_distr_r by lia.
  assert (∀ a b, (a * k <? b * k) = (a <? b)) as Hlt by (intros a b; destruct (Z.ltb_spec a b); [apply Z.ltb_lt|apply Z.ltb_ge]; nia).
  by rewrite (Z.mul_assoc 2), !Hlt.
Qed.

(** ** Exact operations *)

(** What a float of 53 bits stands for. *)
Definition represents (f : float64) (m e : Z) : Prop :=
  match f with S754_finite false p k => Zpos p = m ∧ k = e | _ => False end.

(** A mantissa that fits is not rounded. *)
Lemma round_aux_exact p e :
  Zdigits2 (Zpos p) <= 53 → -1074 <= e <= 971 →
  binary_round_aux 53 1024 false (Zpos p) e loc_Exact = S754_finite false p e.
Proof.
  intros Hd He. unfold binary_round_aux, shr_fexp.
  assert (∀ z, z <= 0 → ∀ r x, shr r x z = (r, x)) as Hshr by (intros [|q|q] Hz r x; [done|lia|done]).
  assert (fexp64 (Zdigits2 (Zpos p) + e) - e <= 0) as Hz by (unfold fexp, emin; lia).
  rewrite (Hshr _ Hz). cbn [shr_m shr_record_of_loc loc_of_shr_record round_nearest_even].
  rewrite (Hshr _ Hz). cbn [shr_m shr_record_of_loc]. by destruct (Z.leb_spec e (1024 - 53)); [|lia].
Qed.

(** The same with one more bit that is zero. *)
Lemma round_aux_exact_even p e :
  Zdigits2 (Zpos p) = 53 → -1074 <= e < 971 →
  binary_round_aux 53 1024 false (Zpos (xO p)) e loc_Exact = S754_finite false p (e + 1).
Proof.
  intros Hd He. unfold binary_round_aux, shr_fexp.
  assert (Zdigits2 (Zpos (xO p)) = 54) as Hd' by (cbn [Zdigits2 digits2_pos] in *; lia).
  rewrite Hd'. assert (fexp64 (54 + e) - e = 1) as -> by (unfold fexp, emin; lia).
  cbn [shr SpecFloat.iter_pos shr_record_of_loc shr_1 orb shr_m loc_of_shr_record round_nearest_even].
  rewrite Hd. assert (fexp64 (53 + (e + 1)) - (e + 1) = 0) as -> by (unfold fexp, emin; lia).
  cbn [shr shr_m shr_record_of_loc]. by destruct (Z.leb_spec (e + 1) (1024 - 53)); [|lia].
Qed.

(** An integer below [2^53] is converted exactly, to a mantissa of 53 bits. *)
Lemma of_int_exact n : 0 < n < 2 ^ 53 →
  ∃ p e, f64_of_int n = S754_finite false p e ∧ Zdigits2 (Zpos p) = 53 ∧ -52 <= e <= 0 ∧ Zpos p = n * 2 ^ (- e) ∧
    e = Z.log2 n - 52.
Proof.
  intros Hn. destruct n as [|n|n]; [lia| |lia]. pose proof (Zdigits2_log2 n) as Hl. cbn [Zdigits2] in Hl.
  assert (0 <= Z.log2 (Zpos n) < 53) as Hb by (split; [apply Z.log2_nonneg|apply Z.log2_lt_pow2; lia]).
  unfold f64_of_int, binary_normalize, binary_round, shl_align, fexp, emin.
  destruct (decide (Z.log2 (Zpos n) = 52)) as [H52|H52].
  - replace (Z.max (Zpos (digits2_pos n) + 0 - 53) (3 - 1024 - 53) - 0) with 0 by lia.
    exists n, 0. rewrite round_aux_exact by (cbn [Zdigits2]; lia). split_and!; try done; [cbn [Zdigits2]; lia|lia|lia].
  - replace (Z.max (Zpos (digits2_pos n) + 0 - 53) (3 - 1024 - 53)) with (Z.log2 (Zpos n) - 52) by lia.
    destruct (Z.log2 (Zpos n) - 52 - 0) as [|k|k] eqn:Hk; [lia..|].
    assert (Zpos (Pos.iter xO n k) = Zpos n * 2 ^ (52 - Z.log2 (Zpos n))) as Hv
      by (rewrite iter_xO; do 2 f_equal; lia).
    assert (Zdigits2 (Zpos (Pos.iter xO n k)) = 53) as Hd.
    { rewrite Zdigits2_log2, Hv, Z.log2_mul_pow2 by lia. lia. }
    exists (Pos.iter xO n k), (Z.log2 (Zpos n) - 52).
    rewrite round_aux_exact by lia. split_and!; try done; [lia|lia|]. rewrite Hv. do 2 f_equal. lia.
Qed.

(** Dividing by a power of two. *)
Lemma div_pow2_exact p e k :
  Zdigits2 (Zpos p) = 53 → 0 <= k <= 52 → -900 <= e <= 900 →
  f64_div (S754_finite false p e) (S754_finite false 4503599627370496 (k - 52)) = S754_finite false p (e - k).
Proof.
  intros Hp Hk He. unfold f64_div, SFdiv, SFdiv_core_binary. cbv zeta. rewrite Hp.
  change (Zdigits2 4503599627370496) with 53.
  assert (Z.min (fexp64 (53 + e - (53 + (k - 52)))) (e - (k - 52)) = e - k - 1) as -> by (unfold fexp, emin; lia).
  assert (e - (k - 52) - (e - k - 1) = 53) as -> by lia.
  rewrite Z.shiftl_mul_pow2 by lia. change (2 ^ 53) with (2 * 4503599627370496).
  assert (Z.div_eucl (Zpos p * (2 * 4503599627370496)) 4503599627370496 = (2 * Zpos p, 0)) as ->.
  { pose proof (Z_div_mod (Zpos p * (2 * 4503599627370496)) 4503599627370496 ltac:(lia)) as H.
    destruct (Z.div_eucl _ _) as [q r]. f_equal; lia. }
  change (2 * Zpos p) with (Zpos p~0). change (new_location 4503599627370496 0) with loc_Exact. cbn [xorb].
  rewrite round_aux_exact_even by lia. f_equal. lia.
Qed.
