(* ===== verification/View.v ===== *)
(** * The client's screen (tui/app.go, View and humanBytes)

    What is shown of a session: the text of each tab, and byte counts in the unit
    that fits. *)

From stdpp Require Import gmap.
From Stdlib Require Import SpecFloat.
From S2P Require Import Prelude Float64 GoText GoNet GoFmt ClientConfig SysProxy App Stats.

Module View.

Import ClientConfig App.

(** [f >= 1<<k] *)
Definition at_least (f : float64) (k : Z) : bool := f64_leb (f64_of_int (2 ^ k)) f.

Definition humanBytes (n : Z) : string :=
  let f := f64_of_int n in
  let unit k := format_f2 (f64_div f (f64_of_int (2 ^ k))) in
  if at_least f 30 then unit 30 +:+ " GB"
  else if at_least f 20 then unit 20 +:+ " MB"
  else if at_least f 10 then unit 10 +:+ " KB"
  else of_bytes (Itoa n) +:+ " B".

Definition newline : string := of_bytes [byte 10].
Definition show_bool (b : bool) : string := if b then "true" else "false".
Definition is_set {A} (o : option A) : bool := match o with Some _ => true | None => false end.

Section view.
Context {C : Type} {R : Type} `{!Platform}.
(** The text field's own picture. *)
Context (input_view : string → string).
Implicit Types (m : @model C R) (p : Profile).

Definition proxied p : bool := match SystemProxy p with Some sp => SysProxyEnabled sp | None => false end.

Definition view_status m (st : Stats.Stats) (rates : float64 * float64) : string :=
  "up:   " +:+ humanBytes (Stats.UpBytes st) +:+ " (" +:+ humanBytes (f64_to_i64 rates.1) +:+ "/s)" +:+ newline +:+
  "down: " +:+ humanBytes (Stats.DownBytes st) +:+ " (" +:+ humanBytes (f64_to_i64 rates.2) +:+ "/s)" +:+ newline +:+
  match Active (store m) with
  | Some p =>
      "server: " +:+ Server p +:+ ":" +:+ of_bytes (Itoa (Port p)) +:+ "  username: " +:+ Username p +:+
      "  reality: " +:+ show_bool (is_set (Reality p)) +:+ "  sysproxy: " +:+ show_bool (proxied p) +:+ newline +:+
      "socks: " +:+ LocalSocks p +:+ "  http: " +:+ LocalHTTP p +:+ newline
  | None => ""
  end +:+
  (if bool_decide (err m = "") then "" else "error: " +:+ err m +:+ newline).

(** One line of the list of profiles. *)
Definition profile_line m (i : nat) (p : Profile) : string :=
  let mark := if bool_decide (Name p = ActiveProfile (store m)) then "*" else " " in
  let mark := if Z.of_nat i =? cursor m then ">" else mark in
  mark +:+ " " +:+ Name p +:+ "  " +:+ Server p +:+ ":" +:+ of_bytes (Itoa (Port p)) +:+
  (if is_set (Reality p) then " [reality]" else "") +:+ newline.

Definition view_profiles m : string :=
  "--- profiles (enter=activate, a=import link, x=copy link) ---" +:+ newline +:+
  String.concat "" (imap (profile_line m) (Profiles (store m))) +:+
  (if len (Profiles (store m)) =? 0 then "(empty - press a and paste a share link)" +:+ newline else "").

(** The last thirty log lines. *)
Definition view_logs m : result string :=
  let first := if 30 <? len (logs m) then len (logs m) - 30 else 0 in
  ls ← slice_from (logs m) first;
  Ok ("--- logs ---" +:+ newline +:+ String.concat "" (map (λ l, l +:+ newline) ls)).

Definition View m (st : Stats.Stats) (rates : float64 * float64) : result string :=
  let name := match Active (store m) with Some p => Name p | None => "(none)" end in
  body ← (if tab m =? 0 then Ok (view_status m st rates)
          else if tab m =? 1 then Ok (view_profiles m)
          else if tab m =? 2 then view_logs m
          else Ok "");
  Ok ("naivereal TUI  profile: " +:+ name +:+ "  state: " +:+ state m +:+ newline +:+ newline +:+ body +:+
      (if editing m then newline +:+ input_view (input m) +:+ newline else "") +:+
      (if bool_decide (msg m = "") then "" else "msg: " +:+ msg m +:+ newline) +:+
      newline +:+ "[c] connect  [d] disconnect  [tab] switch  [q] quit" +:+ newline).

End view.

Example human_kb : humanBytes 1536 = "1.50 KB". Proof. vm_compute. reflexivity. Qed.
Example human_b : humanBytes 1023 = "1023 B". Proof. vm_compute. reflexivity. Qed.
Example human_gb : humanBytes 5000000000 = "4.66 GB". Proof. vm_compute. reflexivity. Qed.

End View.
