(* ===== verification/ViewSpec.v ===== *)
(** * Theorems about the client's screen

    Byte counts are rounded to the nearest hundredth of their unit; a reachable
    session can always be shown. *)

From stdpp Require Import gmap.
From Stdlib Require Import SpecFloat.
From S2P Require Import Prelude Float64 Float64Facts GoText GoNet GoFmt ClientConfig SysProxy App Stats View.

Import View.

(** ** Byte counts *)

Lemma unit_float k : k = 10 ∨ k = 20 ∨ k = 30 → f64_of_int (2 ^ k) = S754_finite false 4503599627370496 (k - 52).
Proof. intros [->|[->| ->]]; vm_compute; reflexivity. Qed.

Lemma at_least_exact n k : 0 <= n < 2 ^ 53 → k = 10 ∨ k = 20 ∨ k = 30 → at_least (f64_of_int n) k = (2 ^ k <=? n).
Proof.
  intros Hn Hk. unfold at_least. rewrite unit_float by done. unfold f64_leb.
  destruct (decide (n = 0)) as [->|Hne].
  { symmetry. apply Z.leb_gt. apply Z.pow_pos_nonneg; lia. }
  destruct (of_int_exact n) as (p & e & -> & Hp & He & Hv & Hl); [lia|].
  rewrite Zdigits2_log2 in Hp. pose proof (Z.log2_spec (Zpos p) ltac:(lia)) as [Hlo _].
  replace (Z.log2 (Zpos p)) with 52 in Hlo by lia.
  assert (k <= Z.log2 n ↔ 2 ^ k <= n) as Hiff by (rewrite <- Z.log2_le_pow2 by lia; done).
  unfold SFleb, SFcompare. destruct (Z.compare_spec (k - 52) e) as [Hc|Hc|Hc].
  - assert (2 ^ k <= n) as Hle by (apply Hiff; lia). rewrite (proj2 (Z.leb_le _ _) Hle).
    change (Pos.compare_cont Eq 4503599627370496 p) with (4503599627370496 ?= p)%positive.
    assert (Zpos 4503599627370496 <= Zpos p) as Hge by exact Hlo. unfold Z.le in Hge.
    change (Zpos 4503599627370496 ?= Zpos p) with (4503599627370496 ?= p)%positive in Hge.
    by destruct (4503599627370496 ?= p)%positive.
  - assert (2 ^ k <= n) as Hle by (apply Hiff; lia). by rewrite (proj2 (Z.leb_le _ _) Hle).
  - assert (n < 2 ^ k) as Hlt by (apply Z.nle_gt; rewrite <- Hiff; lia). by rewrite (proj2 (Z.leb_gt _ _) Hlt).
Qed.

Lemma unit_format n k : 0 < n < 2 ^ 53 → k = 10 ∨ k = 20 ∨ k = 30 →
  format_f2 (f64_div (f64_of_int n) (f64_of_int (2 ^ k))) = hundredths (round_half_even (100 * n) (2 ^ k)).
Proof.
  intros Hn Hk. rewrite unit_float by done.
  destruct (of_int_exact n Hn) as (p & e & -> & Hp & He & Hv & Hl).
  rewrite div_pow2_exact by lia. unfold format_f2. destruct (Z.leb_spec 0 (e - k)); [lia|].
  replace (- (e - k)) with (k + - e) by lia. rewrite Z.pow_add_r, Hv, Z.mul_assoc by lia.
  rewrite round_half_even_scale by (apply Z.pow_pos_nonneg; lia). done.
Qed.

(** The unit of a count, with its exponent. *)
Definition unit_of (n : Z) : option (Z * string) :=
  if 2 ^ 30 <=? n then Some (30, " GB")
  else if 2 ^ 20 <=? n then Some (20, " MB")
  else if 2 ^ 10 <=? n then Some (10, " KB")
  else None.

(** Byte counts are shown to the nearest hundredth.  Up to 2^53 bytes the count shown
    is exact below 1024 bytes, and above it a number of hundredths of the largest
    unit that fits, which differs from the exact count by at most half a
    hundredth: the floating-point comparisons and the division lose nothing. *)
Theorem human_bytes_rounds n : 0 <= n < 2 ^ 53 →
  match unit_of n with
  | None => n < 1024 ∧ humanBytes n = of_bytes (Itoa n) +:+ " B"
  | Some (k, u) => 2 ^ k <= n ∧
      ∃ q, humanBytes n = hundredths q +:+ u ∧ - 2 ^ k <= 2 * (100 * n - q * 2 ^ k) <= 2 ^ k
  end.
Proof.
  intros Hn. unfold humanBytes, unit_of. cbv zeta. rewrite !at_least_exact by (done || lia).
  assert (∀ k, k = 10 ∨ k = 20 ∨ k = 30 → 2 ^ k <= n → 
    ∃ q, format_f2 (f64_div (f64_of_int n) (f64_of_int (2 ^ k))) = hundredths q ∧ - 2 ^ k <= 2 * (100 * n - q * 2 ^ k) <= 2 ^ k)
    as Hunit.
  { intros k Hk Hle. assert (0 < 2 ^ k) by (apply Z.pow_pos_nonneg; lia).
    exists (round_half_even (100 * n) (2 ^ k)). split; [apply unit_format; [lia|done]|by apply round_half_even_spec]. }
  destruct (Z.leb_spec (2 ^ 30) n) as [H30|H30]; [|destruct (Z.leb_spec (2 ^ 20) n) as [H20|H20];
    [|destruct (Z.leb_spec (2 ^ 10) n) as [H10|H10]; [|split; [lia|done]]]];
    (split; [done|]);
    [destruct (Hunit 30) as (q & -> & ?)|destruct (Hunit 20) as (q & -> & ?)|destruct (Hunit 10) as (q & -> & ?)];
    try done; try lia; by exists q.
Qed.

(** ** The screen *)

Section view.
Context {C : Type} {R : Type} `{!Platform} (input_view : string → string).
Implicit Types m : @App.model C R.

(** Showing the logs cuts out their last thirty lines. *)
Lemma view_logs_returns m : returns (view_logs m) (λ s,
  ∃ ls, ls `suffix_of` App.logs m ∧ len ls <= 30 ∧ s = "--- logs ---" +:+ newline +:+ String.concat "" (map (λ l, l +:+ newline) ls)).
Proof.
  unfold view_logs. cbv zeta. pose proof (len_nonneg (App.logs m)) as H0.
  set (first := if _ <? _ then _ else _).
  assert (0 <= first <= len (App.logs m) ∧ len (App.logs m) - first <= 30) as [Hf Hle]
    by (unfold first; destruct (Z.ltb_spec 30 (len (App.logs m))); lia).
  rewrite slice_from_ok by done. cbn [mbind result_bind]. apply returns_ok.
  exists (drop (Z.to_nat first) (App.logs m)). split_and!; [apply suffix_drop| |done].
  unfold len in *. rewrite length_drop. lia.
Qed.

(** A session can always be shown. *)
Theorem view_never_panics m st rates : ∃ s, View input_view m st rates = Ok s.
Proof.
  unfold View. cbv zeta. destruct (App.tab m =? 0), (App.tab m =? 1), (App.tab m =? 2); cbn [mbind result_bind]; try by eexists.
  destruct (view_logs_returns m) as (s & -> & _). by eexists.
Qed.

End view.

(** ** Witness *)

Module Demo.

Lemma human_bytes_rounds_witness : ∃ q, humanBytes 1572865 = hundredths q +:+ " MB" ∧ - 2 ^ 20 <= 2 * (157286500 - q * 2 ^ 20) <= 2 ^ 20.
Proof. destruct (human_bytes_rounds 1572865) as (_ & q & Hq & Hb); [lia|]. exists q. split; [exact Hq|exact Hb]. Defined.

End Demo.
