(* ===== verification/Tools.v ===== *)
(** * The command-line tools of the REALITY frontend (frontend/genkey.go, frontend/cert.go,
    frontend/tlsserve.go)

    [genkey] prints a key pair and the lines of a configuration; [gencert] writes a
    private authority and a certificate for some hosts; [tlsserve] is a small TLS
    server.  Keys and certificates are made by the crypto libraries, which are
    parameters; the files are those of one directory, with their modes. *)

From stdpp Require Import gmap.
From S2P Require Import Prelude GoText GoNet GoHttp GoBase64.

Module Tools.

(** ** genkey *)

(** The bytes of the key pair the library made, if it made one. *)
Definition generateKeypair (pair : option (list Z * list Z)) : fallible (string * string) :=
  match pair with
  | None => fail "genkey"
  | Some (priv, pub) => ret (of_bytes (urlEncode priv), of_bytes (urlEncode pub))
  end.

(** [%q] of a string without special characters. *)
Definition quoted (s : string) : string := of_bytes [byte 34] +:+ s +:+ of_bytes [byte 34].

Definition printed_short_id : string := "0123456789abcdef".
Definition printed_server_name : string := "www.example.com".

(** The exit code and the lines printed on the standard output. *)
Definition runGenkey (pair : option (list Z * list Z)) : result (Z * list string) :=
  r ← generateKeypair pair;
  match r with
  | inl _ => Ok (1, [])
  | inr (privB64, pubB64) =>
      Ok (0, ["Private key: " +:+ privB64; "Public key:  " +:+ pubB64; "";
              "# add to frontend.toml:"; "[inbound.reality]"; "private_key = " +:+ quoted privB64;
              "short_ids = [" +:+ quoted printed_short_id +:+ "]";
              "server_names = [" +:+ quoted printed_server_name +:+ "]"; "";
              "# client side (config.json reality block or naivereal share link):"; "public_key: " +:+ pubB64])
  end.

(** ** gencert: the arguments and the hosts *)

(** [strings.Split] at a character. *)
Fixpoint split_at (sep : ascii) (l : text) : list text :=
  match l with
  | [] => [[]]
  | c :: l =>
      if bool_decide (c = sep) then [] :: split_at sep l
      else match split_at sep l with
           | h :: t => (c :: h) :: t
           | [] => [[c]]
           end
  end.

Definition Split (s : string) (sep : ascii) : list string := map of_bytes (split_at sep (bytes s)).

(** The loop over the arguments; every error ends the program with 1. *)
Fixpoint gencert_args (args : list string) (hosts : list string) (out : string) : fallible (list string * string) :=
  match args with
  | [] => ret (hosts, out)
  | a :: args =>
      if bool_decide (a = "-hosts") then
        match args with
        | [] => fail "gencert: -hosts requires a value"
        | v :: args => gencert_args args (Split v ","%char) out
        end
      else if bool_decide (a = "-out") then
        match args with
        | [] => fail "gencert: -out requires a value"
        | v :: args => gencert_args args hosts v
        end
      else fail "unknown arg"
  end.

(** The loop over the hosts: names and addresses. *)
Fixpoint split_hosts (hosts : list string) (dns : list string) (ips : list (list Z)) :
    fallible (list string * list (list Z)) :=
  match hosts with
  | [] => ret (dns, ips)
  | host :: hosts =>
      let host := TrimSpace host in
      if bool_decide (host = "") then fail "gencert: hosts must not be empty"
      else match ParseIP (bytes host) with
           | Some ip => split_hosts hosts dns (ips ++ [ip])
           | None => split_hosts hosts (dns ++ [host]) ips
           end
  end.

Definition commonName (dns : list string) (ips : list (list Z)) : string :=
  match dns, ips with
  | d :: _, _ => d
  | [], ip :: _ => of_bytes (IPString ip)
  | [], [] => "naive.test"
  end.

(** ** gencert: the certificates *)

(** [NotAfter] is a number of years from now. *)
Record template := mkTemplate {
  SerialNumber : Z;
  Subject : string;
  NotBefore : Z;
  years : Z;
  IsCA : bool;
  KeyUsage : Z;
  ServerAuth : bool;
  DNSNames : list string;
  IPAddresses : list (list Z)
}.

Definition KeyUsageDigitalSignature : Z := 1.
Definition KeyUsageCertSign : Z := 32.
Definition KeyUsageCRLSign : Z := 64.

Definition caTmpl (now : Z) : template :=
  mkTemplate 1 "naivereal test CA" (now - 3600 * Second) 10 true
    (Z.lor (Z.lor KeyUsageCertSign KeyUsageCRLSign) KeyUsageDigitalSignature) false [] [].

Definition leafTmpl (now : Z) (dns : list string) (ips : list (list Z)) : template :=
  mkTemplate 2 (commonName dns ips) (now - 3600 * Second) 1 false KeyUsageDigitalSignature true dns ips.

(** [pem.EncodeToMemory]: base64 in lines of 64 characters. *)
Fixpoint pem_lines (fuel : nat) (l : text) : text :=
  match fuel, l with
  | S fuel, _ :: _ => take 64 l ++ [byte 10] ++ pem_lines fuel (drop 64 l)
  | _, _ => []
  end.

Definition pem_encode (typ : string) (der : list Z) : text :=
  let body := stdEncode der in
  bytes ("-----BEGIN " +:+ typ +:+ "-----") ++ [byte 10] ++ pem_lines (length body) body ++
  bytes ("-----END " +:+ typ +:+ "-----") ++ [byte 10].

(** ** gencert: the files *)

Record file := mkFile { fmode : Z; data : text }.

Abbreviation directory := (gmap string file).

Inductive fsop :=
  | WriteFile (name : string) (d : text) (mode : Z)
  | Chmod (name : string) (mode : Z).

(** A call works; fails without effect; or fails after it has created or truncated the
    file and written a part of the data. *)
Inductive attempt := Works | Refused | Partly (n : nat).

#[export] Instance attempt_eq_dec : EqDecision attempt.
Proof. solve_decision. Defined.

Definition file_mode (umask mode : Z) : Z := Z.land mode (Z.lnot umask).

(** [os.WriteFile] keeps the mode of a file that exists. *)
Definition write_file (umask : Z) (name : string) (d : text) (mode : Z) (fs : directory) : directory :=
  match fs !! name with
  | Some f => <[name := mkFile (fmode f) d]> fs
  | None => <[name := mkFile (file_mode umask mode) d]> fs
  end.

Definition exec (umask : Z) (op : fsop) (fs : directory) : directory :=
  match op with
  | WriteFile name d mode => write_file umask name d mode fs
  | Chmod name mode => alter (λ f, mkFile mode (data f)) name fs
  end.

Definition exec_partly (umask : Z) (op : fsop) (n : nat) (fs : directory) : directory :=
  match op with
  | WriteFile name d mode => write_file umask name (take n d) mode fs
  | Chmod _ _ => fs
  end.

(** Calls until the first that fails; those past the list of outcomes work. *)
Fixpoint run_ops (umask : Z) (ops : list fsop) (outs : list attempt) (fs : directory) : bool * directory :=
  match ops with
  | [] => (true, fs)
  | op :: ops =>
      match outs with
      | [] => run_ops umask ops [] (exec umask op fs)
      | Works :: outs => run_ops umask ops outs (exec umask op fs)
      | Refused :: _ => (false, fs)
      | Partly n :: _ => (false, exec_partly umask op n fs)
      end
  end.

Definition writePEM (name typ : string) (der : list Z) (mode : Z) : list fsop :=
  [WriteFile name (pem_encode typ der) mode; Chmod name mode].

(** Octal 644 and 600. *)
Definition public_mode : Z := 420.
Definition private_mode : Z := 384.

Definition write_ops (caDER caKeyDER leafDER leafKeyDER : list Z) : list fsop :=
  writePEM "ca.pem" "CERTIFICATE" caDER public_mode ++
  writePEM "ca-key.pem" "EC PRIVATE KEY" caKeyDER private_mode ++
  writePEM "server.pem" "CERTIFICATE" leafDER public_mode ++
  writePEM "server-key.pem" "EC PRIVATE KEY" leafKeyDER private_mode.

Section gencert.
(** The crypto libraries: a key as its encoding if it has one, and the certificate
    for a template, its parent, the key it is for and the key that signs. *)
Context {Key : Type} (MarshalECPrivateKey : Key → option (list Z))
        (CreateCertificate : template → template → Key → Key → option (list Z)).

(** What the system answers: the clock, the two keys, whether the directory is there. *)
Record outcome := mkOutcome {
  now : Z;
  caKey : option Key;
  leafKey : option Key;
  mkdir_ok : bool;
  umask : Z
}.

Definition or_fail {A} (e : string) (o : option A) : fallible A :=
  match o with Some a => ret a | None => fail e end.

(** The calls that write the files. *)
Definition gencert_files (args : list string) (o : outcome) : fallible (string * list fsop) :=
  '(hosts, out) ←? gencert_args args ["naive.test"] ".";
  '(dns, ips) ←? split_hosts hosts [] [];
  if negb (mkdir_ok o) then fail "mkdir"
  else
    ca ←? or_fail "ca key" (caKey o);
    caDER ←? or_fail "ca cert" (CreateCertificate (caTmpl (now o)) (caTmpl (now o)) ca ca);
    leaf ←? or_fail "leaf key" (leafKey o);
    leafDER ←? or_fail "leaf cert" (CreateCertificate (leafTmpl (now o) dns ips) (caTmpl (now o)) leaf ca);
    caKeyDER ←? or_fail "marshal ca key" (MarshalECPrivateKey ca);
    leafKeyDER ←? or_fail "marshal server key" (MarshalECPrivateKey leaf);
    ret (out, write_ops caDER caKeyDER leafDER leafKeyDER).

(** The exit code, and the files of the output directory. *)
Definition runGencert (args : list string) (o : outcome) (outs : list attempt) (fs : directory) :
    result (Z * directory) :=
  r ← gencert_files args o;
  match r with
  | inl _ => Ok (1, fs)
  | inr (_, ops) => let '(ok, fs) := run_ops (umask o) ops outs fs in Ok (if ok then 0 else 1, fs)
  end.

End gencert.

(** ** tlsserve *)

Record tls_options := mkTlsOptions { certPath : string; keyPath : string; listen : string }.

#[export] Instance eta_tls_options : Eta tls_options := fun t => mkTlsOptions (certPath t) (keyPath t) (listen t).

Fixpoint tlsserve_args (args : list string) (t : tls_options) : fallible tls_options :=
  match args with
  | [] => ret t
  | a :: args =>
      let flag (set : string → tls_options) := 
        match args with
        | [] => fail (a +:+ " requires a value")
        | v :: args => tlsserve_args args (set v)
        end in
      if bool_decide (a = "-cert") then flag (λ v, t <| certPath := v |>)
      else if bool_decide (a = "-key") then flag (λ v, t <| keyPath := v |>)
      else if bool_decide (a = "-listen") then flag (λ v, t <| listen := v |>)
      else fail "unknown arg"
  end.

(** The options it serves with; an error ends the program with 1. *)
Definition runTLSServe (args : list string) (keypair listens : tls_options → bool) : fallible tls_options :=
  t ←? tlsserve_args args (mkTlsOptions "" "" "127.0.0.1:1443");
  if bool_decide (certPath t = "") || bool_decide (keyPath t = "") then fail "usage"
  else if negb (keypair t) then fail "load cert"
  else if negb (listens t) then fail "listen"
  else ret t.

Definition crlf : string := of_bytes [byte 13; byte 10].
Definition page : string :=
  "HTTP/1.1 200 OK" +:+ crlf +:+ "Content-Length: 2" +:+ crlf +:+ crlf +:+ "ok".

(** What a connection is sent: a page for each read that succeeds. *)
Fixpoint answer (reads : list bool) : list string :=
  match reads with
  | true :: reads => page :: answer reads
  | _ => []
  end.

Definition tls_conn (handshake : bool) (reads : list bool) : list string :=
  if handshake then answer reads else [].

Example split_hosts_example : Split "a.test, 10.0.0.1,,b" ","%char = ["a.test"; " 10.0.0.1"; ""; "b"].
Proof. vm_compute. reflexivity. Qed.

Example pem_example :
  of_bytes (pem_encode "X" [1; 2; 3]) =
  "-----BEGIN X-----" +:+ of_bytes [byte 10] +:+ "AQID" +:+ of_bytes [byte 10] +:+ "-----END X-----" +:+ of_bytes [byte 10].
Proof. vm_compute. reflexivity. Qed.

End Tools.
