(* ===== verification/ToolsSpec.v ===== *)
(** * Theorems about the tools of the REALITY frontend

    The keys that [genkey] prints are accepted by both sides, and [gencert] covers
    its hosts and keeps the private keys private. *)

From stdpp Require Import gmap.
From S2P Require Import Prelude GoText GoNet GoNetFacts GoUrlFacts GoBase64 FrontendConfig FrontendConfigSpec ShareLink Tools.

Import FrontendConfig. Import Tools.

Lemma urlEncode_printable l : byte_list l → forallb printable (urlEncode l) = true.
Proof.
  intros Hl. unfold urlEncode. apply forallb_forall. intros c (v & <- & Hv)%in_map_iff.
  pose proof (sextets_range l Hl) as Hr. rewrite Forall_forall in Hr.
  destruct (urlChar_ok v (Hr v (proj2 (list_elem_of_In _ _) Hv))) as (_ & _ & _ & H1 & H2). unfold printable. lia.
Qed.

(** ** genkey *)

Section genkey.
Context (priv pub : list Z).
Context (Hpriv : byte_list priv ∧ len priv = 32) (Hpub : byte_list pub ∧ len pub = 32).

Lemma generated_private_key : parseRealityPrivateKey (of_bytes (urlEncode priv)) = ret priv.
Proof.
  destruct Hpriv as [Hb Hl]. unfold parseRealityPrivateKey.
  rewrite TrimSpace_printable by (by apply urlEncode_printable).
  rewrite bytes_of_bytes, base64Decode_urlEncode by done. by rewrite Hl.
Qed.

Lemma urlEncode_nonempty l : l ≠ [] → of_bytes (urlEncode l) ≠ "".
Proof.
  intros Hne Heq. apply (f_equal bytes) in Heq. rewrite bytes_of_bytes in Heq.
  by destruct l as [|a [|b [|c l]]].
Qed.

Lemma generated_public_key : ShareLink.validatePublicKey (of_bytes (urlEncode pub)) = ret ().
Proof.
  destruct Hpub as [Hb Hl]. unfold ShareLink.validatePublicKey.
  rewrite bool_decide_eq_false_2 by (apply urlEncode_nonempty; intros ->; done).
  rewrite bytes_of_bytes, base64Decode_urlEncode by done. by rewrite Hl.
Qed.

End genkey.

(** A reader of the lines of a configuration file.  A string is what two quotes
    enclose, without quotes or backslashes of its own; the lines of a section are
    those from its header to the next blank line. *)
Definition between (o c : ascii) (l : text) : option text :=
  l ← after_prefix [o] l;
  let n := pred (length l) in
  if decide (drop n l = [c]) then Some (take n l) else None.

Definition toml_string (l : text) : option string :=
  m ← between (byte 34) (byte 34) l;
  if decide (Forall (λ c, c ≠ byte 34 ∧ c ≠ byte 92) m) then Some (of_bytes m) else None.

(** An array of one string. *)
Definition toml_strings (l : text) : option (list string) :=
  l ← between "[" "]" l; s ← toml_string l; Some [s].

Fixpoint until_blank (lines : list string) : list string :=
  match lines with
  | [] => []
  | l :: lines => if decide (l = "") then [] else l :: until_blank lines
  end.

Fixpoint section_of (header : string) (lines : list string) : list string :=
  match lines with
  | [] => []
  | l :: lines => if decide (l = header) then until_blank lines else section_of header lines
  end.

(** The rest of the first line that begins so. *)
Definition line_after (start : string) (lines : list string) : option text :=
  head (omap (λ l, after_prefix (bytes start) (bytes l)) lines).

(** A configuration with the lines of the REALITY section put into it. *)
Definition paste (c : Config) (lines : list string) : option Config :=
  let sec := section_of "[inbound.reality]" lines in
  key ← line_after "private_key = " sec ≫= toml_string;
  ids ← line_after "short_ids = " sec ≫= toml_strings;
  names ← line_after "server_names = " sec ≫= toml_strings;
  Some (c <| Inbound := (Inbound c) <| Reality := (Reality (Inbound c))
               <| PrivateKey := key |> <| ShortIDs := ids |> <| ServerNames := names |> |> |>).

(** The configuration that has the settings of the printed lines. *)
Definition with_snippet (c : Config) (privB64 : string) : Config :=
  c <| Inbound := (Inbound c) <| Reality := (Reality (Inbound c))
         <| PrivateKey := privB64 |> <| ShortIDs := [printed_short_id] |> <| ServerNames := [printed_server_name] |> |> |>.

Lemma between_ok o c m : between o c (o :: m ++ [c]) = Some m.
Proof.
  unfold between. change (o :: ?l) with ([o] ++ l). rewrite after_prefix_app. cbn [mbind option_bind].
  replace (pred (length (m ++ [c]))) with (length m) by (rewrite length_app; cbn; lia).
  by rewrite drop_app_length, take_app_length, decide_True.
Qed.

Lemma urlEncode_unquoted l : byte_list l → Forall (λ c, c ≠ byte 34 ∧ c ≠ byte 92) (urlEncode l).
Proof.
  intros Hl. unfold urlEncode. apply Forall_map. eapply Forall_impl; [by apply sextets_range|].
  intros v (Hv & _)%urlChar_ok. cbn. split; intros Heq; by rewrite Heq in Hv.
Qed.

Lemma toml_string_quoted m :
  Forall (λ c, c ≠ byte 34 ∧ c ≠ byte 92) m → toml_string (bytes (quoted (of_bytes m))) = Some (of_bytes m).
Proof.
  intros Hm. unfold toml_string, quoted. rewrite !bytes_app, !bytes_of_bytes. cbn [app]. rewrite between_ok.
  cbn [mbind option_bind]. by rewrite decide_True.
Qed.

Lemma line_after_here start rest lines : line_after start ((start +:+ rest) :: lines) = Some (bytes rest).
Proof. unfold line_after. cbn [omap list_omap]. by rewrite bytes_app, after_prefix_app. Qed.

(** What [genkey] prints for a pair. *)
Definition printed_lines (privB64 pubB64 : string) : list string :=
  ["Private key: " +:+ privB64; "Public key:  " +:+ pubB64; "";
   "# add to frontend.toml:"; "[inbound.reality]"; "private_key = " +:+ quoted privB64;
   "short_ids = [" +:+ quoted printed_short_id +:+ "]";
   "server_names = [" +:+ quoted printed_server_name +:+ "]"; "";
   "# client side (config.json reality block or naivereal share link):"; "public_key: " +:+ pubB64].

(** What is printed is read as the settings it stands for. *)
Lemma paste_printed c privB64 pubB64 :
  toml_string (bytes (quoted privB64)) = Some privB64 →
  paste c (printed_lines privB64 pubB64) = Some (with_snippet c privB64).
Proof.
  intros Hkey. unfold paste, printed_lines.
  assert (∀ rest, section_of "[inbound.reality]"
    (("Private key: " +:+ privB64) :: ("Public key:  " +:+ pubB64) :: "" :: "# add to frontend.toml:" :: "[inbound.reality]" ::
     ("private_key = " +:+ quoted privB64) :: rest) = ("private_key = " +:+ quoted privB64) :: until_blank rest) as ->.
  { intros rest. cbn [section_of until_blank]. rewrite !decide_False by (intros Heq; discriminate Heq). by rewrite decide_True. }
  rewrite line_after_here. cbn [mbind option_bind]. rewrite Hkey. cbn [mbind option_bind]. reflexivity.
Qed.

(** The target the settings then have. *)
Definition snippet_target (c : Config) : string :=
  or_default (Target (Reality (Inbound c))) (printed_server_name +:+ ":443").

Lemma snippet_short_ids : parseShortIDs [printed_short_id] = ret {[ [1; 35; 69; 103; 137; 171; 205; 239] ]}.
Proof. vm_compute. reflexivity. Qed.

Lemma snippet_accepted r priv :
  (∃ r', reality_accepted r r') → byte_list priv ∧ len priv = 32 →
  let r1 := r <| PrivateKey := of_bytes (urlEncode priv) |> <| ShortIDs := [printed_short_id] |>
              <| ServerNames := [printed_server_name] |> in
  reality_accepted r1 (r1 <| Target := or_default (Target r) (printed_server_name +:+ ":443") |>).
Proof.
  intros [r' (names & first & key & ids & target & Hn & Hf & Hk & Hi & Hs & Hp & Hd & Ht & Hc & ->)] Hpriv r1.
  exists [printed_server_name], printed_server_name, priv, {[ [1; 35; 69; 103; 137; 171; 205; 239] ]},
    (or_default (Target r) (printed_server_name +:+ ":443")).
  split; [vm_compute; reflexivity|]. split; [reflexivity|]. split; [by apply generated_private_key|].
  split; [exact snippet_short_ids|]. split; [discriminate|].
  split; [apply urlEncode_nonempty; intros ->; by destruct Hpriv|]. split; [exact Hd|].
  split; [reflexivity|]. split; [|reflexivity].
  unfold or_default in *. case_bool_decide; [by vm_compute|]. by rewrite <- Ht.
Qed.

Lemma line_after_other start l lines :
  after_prefix (bytes start) (bytes l) = None → line_after start (l :: lines) = line_after start lines.
Proof. intros Hl. unfold line_after. cbn [omap list_omap]. by rewrite Hl. Qed.

Lemma printed_keys privB64 pubB64 :
  line_after "Private key: " (printed_lines privB64 pubB64) = Some (bytes privB64) ∧
  line_after "Public key:  " (printed_lines privB64 pubB64) = Some (bytes pubB64) ∧
  line_after "public_key: " (printed_lines privB64 pubB64) = Some (bytes pubB64).
Proof.
  unfold printed_lines. split; [apply line_after_here|]. split.
  - rewrite line_after_other by reflexivity. apply line_after_here.
  - do 10 rewrite line_after_other by reflexivity. apply line_after_here.
Qed.

(** The settings the server builds from an accepted section with those lines. *)
Lemma snippet_settings c r priv target :
  byte_list priv ∧ len priv = 32 →
  let r1 := r <| PrivateKey := of_bytes (urlEncode priv) |> <| ShortIDs := [printed_short_id] |>
              <| ServerNames := [printed_server_name] |> in
  buildRealityConfig (c <| Inbound := (Inbound c) <| Reality := r1 <| Target := target |> |> |>) =
  ret (mkRealityConfig (list_to_set [printed_server_name]) priv {[ [1; 35; 69; 103; 137; 171; 205; 239] ]}
    (i64 (MaxTimeDiff r * Millisecond)) target).
Proof.
  intros Hpriv r1. unfold buildRealityConfig, r1.
  cbn -[parseRealityPrivateKey NewPrivateKey parseShortIDs].
  rewrite generated_private_key by done. cbn [try_bind ret].
  unfold NewPrivateKey. rewrite (proj2 (Z.eqb_eq _ _) (proj2 Hpriv)). cbn [check try_bind ret].
  rewrite snippet_short_ids. reflexivity.
Qed.

(** C36. The keys that [genkey] prints are accepted on both sides.  Without a pair it
    prints nothing and ends with 1.  For the 32-byte keys of a pair it ends with 0, and a
    reader of the printed lines finds what belongs in them: the lines of the section,
    put into the REALITY section of any valid configuration, keep it valid, and the
    settings that reach the library hold exactly that private key, the printed short
    ID and the printed server name, with the target of that name unless another was
    configured; the private key at the top is that key too; and the public key, at
    the top and on the client's line, is accepted by the client's side, which reads
    exactly the public key back and accepts the short ID. *)
Theorem generated_keys_are_accepted Stat c c' priv pub :
  byte_list priv ∧ len priv = 32 → byte_list pub ∧ len pub = 32 →
  applyDefaultsAndValidate Stat c = ret c' → Mode (Inbound c') = "reality" →
  runGenkey None = Ok (1, []) ∧
  ∃ lines c1 cfg rc id privText pubText,
    runGenkey (Some (priv, pub)) = Ok (0, lines) ∧
    paste c lines = Some c1 ∧ applyDefaultsAndValidate Stat c1 = ret cfg ∧ buildRealityConfig cfg = ret rc ∧
    rc_PrivateKey rc = priv ∧ rc_ShortIds rc = {[ [1; 35; 69; 103; 137; 171; 205; 239] ]} ∧
    rc_ServerNames rc = {[ "www.example.com" ]} ∧
    rc_Dest rc = (if decide (Target (Reality (Inbound c)) = "") then "www.example.com:443"
                  else Target (Reality (Inbound c))) ∧
    line_after "Private key: " lines = Some privText ∧ base64Decode privText = Some priv ∧
    line_after "Public key:  " lines = Some pubText ∧ line_after "public_key: " lines = Some pubText ∧
    base64Decode pubText = Some pub ∧ ShareLink.validatePublicKey (of_bytes pubText) = ret () ∧
    ShortIDs (Reality (Inbound c1)) = [id] ∧ ShareLink.validateShortID id = ret ().
Proof.
  intros Hpriv Hpub Hrun Hm. split; [reflexivity|].
  assert (∃ r', reality_accepted (Reality (Inbound c)) r') as Hr.
  { apply accepted_inv in Hrun as (_ & _ & _ & _ & _ & _ & Hi & _).
    apply validateInbound_inv in Hi as ([[_ Hr]|(Ht & _)] & _); [by eexists|congruence]. }
  pose proof (replace_reality Stat c c' _ _ Hrun Hm (snippet_accepted _ priv Hr Hpriv)) as Hcfg.
  exists (printed_lines (of_bytes (urlEncode priv)) (of_bytes (urlEncode pub))), (with_snippet c (of_bytes (urlEncode priv))).
  eexists _, (mkRealityConfig (list_to_set [printed_server_name]) priv {[ [1; 35; 69; 103; 137; 171; 205; 239] ]}
    (i64 (MaxTimeDiff (Reality (Inbound c)) * Millisecond)) (snippet_target c)), printed_short_id, (urlEncode priv), (urlEncode pub).
  split; [reflexivity|]. split; [apply paste_printed, toml_string_quoted, urlEncode_unquoted, Hpriv|].
  split; [exact Hcfg|]. split; [exact (snippet_settings c' (Reality (Inbound c)) priv _ Hpriv)|]. split; [reflexivity|]. split; [reflexivity|].
  split; [cbn [rc_ServerNames]; apply leibniz_equiv, list_to_set_singleton|].
  split; [cbn; unfold snippet_target, or_default; by case_bool_decide; destruct (decide _)|].
  destruct (printed_keys (of_bytes (urlEncode priv)) (of_bytes (urlEncode pub))) as (-> & -> & ->).
  rewrite !bytes_of_bytes. split; [done|]. split; [apply base64Decode_urlEncode, Hpriv|]. do 2 (split; [done|]).
  split; [apply base64Decode_urlEncode, Hpub|]. split; [by apply generated_public_key|]. split; [reflexivity|].
  vm_compute. reflexivity.
Qed.

(** ** gencert: the hosts *)

Lemma split_at_nonempty sep l : split_at sep l ≠ [].
Proof. destruct l as [|c l]; cbn; [done|]. case_bool_decide; [done|]. by destruct (split_at sep l). Qed.

Lemma Split_nonempty s sep : Split s sep ≠ [].
Proof. unfold Split. intros H%map_eq_nil. by apply split_at_nonempty in H. Qed.

(** What the arguments name: the last value of each flag. *)
Lemma gencert_args_hosts n : ∀ args hosts out hosts' out',
  (length args <= n)%nat → hosts ≠ [] → gencert_args args hosts out = ret (hosts', out') → hosts' ≠ [].
Proof.
  induction n as [|n IH]; intros [|a args] hosts out hosts' out' Hn Hne Hrun; cbn in Hn, Hrun;
    [by injection Hrun as <- <-|lia|by injection Hrun as <- <-|].
  case_bool_decide; [|case_bool_decide; [|done]]; destruct args as [|v args]; try done; cbn in Hn.
  - eapply (IH args); [lia|apply Split_nonempty|exact Hrun].
  - by eapply (IH args); [lia| |exact Hrun].
Qed.

Lemma gencert_args_returns n : ∀ args hosts out,
  (length args <= n)%nat → returns (gencert_args args hosts out) (ok_with (λ _, True)).
Proof.
  induction n as [|n IH]; intros [|a args] hosts out Hn; cbn in Hn; try lia; [by apply returns_ok..|]. cbn.
  case_bool_decide; [|case_bool_decide; [|by apply returns_ok]]; destruct args as [|v args];
    try (by apply returns_ok); cbn in Hn; apply (IH args); lia.
Qed.

(** The names and the addresses among the hosts. *)
Definition host_names (hosts : list string) : list string :=
  filter (λ h, ParseIP (bytes h) = None) (map TrimSpace hosts).
Definition host_ips (hosts : list string) : list (list Z) := omap (λ h, ParseIP (bytes h)) (map TrimSpace hosts).

Lemma split_hosts_spec hosts : ∀ dns ips,
  (split_hosts hosts dns ips = ret (dns ++ host_names hosts, ips ++ host_ips hosts) ∧
     Forall (λ h, TrimSpace h ≠ "") hosts) ∨
  (∃ e, split_hosts hosts dns ips = fail e ∧ Exists (λ h, TrimSpace h = "") hosts).
Proof.
  induction hosts as [|h hosts IH]; intros dns ips; [left; split; [by rewrite !app_nil_r|done]|].
  cbn [split_hosts]. case_bool_decide as Hh; [right; eexists; split; [done|by left]|].
  unfold host_names, host_ips. cbn [map]. destruct (ParseIP (bytes (TrimSpace h))) as [ip|] eqn:Hip.
  - destruct (IH dns (ips ++ [ip])) as [[Hr Hall]|(e & Hr & Hex)]; rewrite Hr; [left|right; eexists; split; [done|by right]].
    split; [|by constructor]. rewrite filter_cons_False by (by rewrite Hip). cbn [omap list_omap]. rewrite Hip.
    by rewrite <- (assoc_L (++)).
  - destruct (IH (dns ++ [TrimSpace h]) ips) as [[Hr Hall]|(e & Hr & Hex)]; rewrite Hr;
      [left|right; eexists; split; [done|by right]].
    split; [|by constructor]. rewrite filter_cons_True by done. cbn [omap list_omap]. rewrite Hip.
    by rewrite <- (assoc_L (++)).
Qed.

Section gencert.
Context {K : Type} (Marshal : K → option (list Z)) (Create : template → template → K → K → option (list Z)).
Implicit Types (o : @outcome K).

Lemma or_fail_returns {A} e (x : option A) : returns (or_fail e x) (ok_with (λ _, True)).
Proof. destruct x; by apply returns_ok. Qed.

Lemma gencert_files_returns args o : returns (gencert_files Marshal Create args o) (ok_with (λ _, True)).
Proof.
  unfold gencert_files. eapply try_returns; [by apply (gencert_args_returns (length args))|].
  intros [hosts out] _. eapply try_returns with (P := λ _, True).
  { destruct (split_hosts_spec hosts [] []) as [[-> _]|(e & -> & _)]; by apply returns_ok. }
  intros [dns ips] _. destruct (negb (mkdir_ok o)); [by apply returns_ok|].
  repeat (eapply try_returns; [apply or_fail_returns|]; intros ? _). by apply returns_ok.
Qed.

Lemma or_fail_inv {A} e (x : option A) a : or_fail e x = ret a → x = Some a.
Proof. destruct x; cbn; [by injection 1 as ->|done]. Qed.

(** What a run needs before it writes: arguments that name a directory and hosts, a
    directory it could make, two keys with their encodings, the certificate of the
    authority, signed by itself, and that of the server, signed by the authority. *)
Record prepared args o out hosts (ca leaf : K) caDER caKeyDER leafDER leafKeyDER : Prop := {
  p_args : gencert_args args ["naive.test"] "." = ret (hosts, out);
  p_hosts : Forall (λ h, TrimSpace h ≠ "") hosts;
  p_dir : mkdir_ok o = true;
  p_ca : caKey o = Some ca;
  p_leaf : leafKey o = Some leaf;
  p_caDER : Create (caTmpl (now o)) (caTmpl (now o)) ca ca = Some caDER;
  p_leafDER : Create (leafTmpl (now o) (host_names hosts) (host_ips hosts)) (caTmpl (now o)) leaf ca = Some leafDER;
  p_caKeyDER : Marshal ca = Some caKeyDER;
  p_leafKeyDER : Marshal leaf = Some leafKeyDER
}.

(** It writes exactly when it has them. *)
Lemma gencert_files_inv args o out ops :
  gencert_files Marshal Create args o = ret (out, ops) →
  ∃ hosts ca leaf caDER caKeyDER leafDER leafKeyDER,
    prepared args o out hosts ca leaf caDER caKeyDER leafDER leafKeyDER ∧
    ops = write_ops caDER caKeyDER leafDER leafKeyDER.
Proof.
  unfold gencert_files. intros Hrun. apply try_ret_inv in Hrun as ([hosts out'] & Hargs & Hrun).
  apply try_ret_inv in Hrun as ([dns ips] & Hh & Hrun).
  destruct (split_hosts_spec hosts [] []) as [[Hs Hall]|(e & Hs & _)]; rewrite Hs in Hh; [|done].
  apply ret_inj in Hh as [= <- <-]. destruct (mkdir_ok o) eqn:Hd; cbn [negb] in Hrun; [|done]. inv_try Hrun.
  apply ret_inj in Hrun as [= <- <-].
  repeat match goal with E : or_fail _ _ = ret _ |- _ => apply or_fail_inv in E end.
  exists hosts, v, v1, v0, v3, v2, v4. by split.
Qed.

Lemma gencert_files_prepared args o out hosts ca leaf caDER caKeyDER leafDER leafKeyDER :
  prepared args o out hosts ca leaf caDER caKeyDER leafDER leafKeyDER →
  gencert_files Marshal Create args o = ret (out, write_ops caDER caKeyDER leafDER leafKeyDER).
Proof.
  intros [Hargs Hall Hd Hca Hleaf HcaDER HleafDER HcaKey HleafKey]. unfold gencert_files.
  rewrite Hargs. cbn [try_bind ret].
  destruct (split_hosts_spec hosts [] []) as [[-> _]|(e & _ & Hex)];
    [|apply Exists_exists in Hex as (h & Hin & Hh); rewrite Forall_forall in Hall; by destruct (Hall h Hin)].
  cbn [try_bind ret app]. rewrite Hd, Hca. cbn [negb or_fail try_bind ret]. rewrite HcaDER, Hleaf. cbn [or_fail try_bind ret].
  rewrite HleafDER, HcaKey, HleafKey. reflexivity.
Qed.

(** The certificate covers its hosts.  [gencert] writes files only when each of the
    hosts it was given names something once it is trimmed; the certificate it then
    asks the library for is the server's, signed by the authority of the same run
    and no authority itself: it lists each host as an address when it is one and as
    a name otherwise, nothing else, and its subject is one of the hosts. *)
Theorem gencert_covers_hosts args o out ops :
  gencert_files Marshal Create args o = ret (out, ops) →
  ∃ hosts ca leaf t leafDER,
    gencert_args args ["naive.test"] "." = ret (hosts, out) ∧ hosts ≠ [] ∧
    caKey o = Some ca ∧ leafKey o = Some leaf ∧
    Create t (caTmpl (now o)) leaf ca = Some leafDER ∧
    WriteFile "server.pem" (pem_encode "CERTIFICATE" leafDER) public_mode ∈ ops ∧
    IsCA t = false ∧ ServerAuth t = true ∧ Z.land (KeyUsage t) KeyUsageCertSign = 0 ∧
    (∀ h, h ∈ hosts → TrimSpace h ≠ "" ∧
       match ParseIP (bytes (TrimSpace h)) with
       | Some ip => ip ∈ IPAddresses t
       | None => TrimSpace h ∈ DNSNames t
       end) ∧
    (∀ d, d ∈ DNSNames t → ∃ h, h ∈ hosts ∧ d = TrimSpace h ∧ ParseIP (bytes d) = None) ∧
    (∀ ip, ip ∈ IPAddresses t → ∃ h, h ∈ hosts ∧ ParseIP (bytes (TrimSpace h)) = Some ip) ∧
    (Subject t ∈ DNSNames t ∨ DNSNames t = [] ∧ ∃ ip, ip ∈ IPAddresses t ∧ Subject t = of_bytes (IPString ip)).
Proof.
  intros (hosts & ca & leaf & caDER & caKeyDER & leafDER & leafKeyDER & [Hargs Hall _ Hca Hleaf _ Hc _ _] & ->)%gencert_files_inv.
  assert (hosts ≠ []) as Hne by (by eapply (gencert_args_hosts (length args)); [done| |exact Hargs]).
  exists hosts, ca, leaf, (leafTmpl (now o) (host_names hosts) (host_ips hosts)), leafDER.
  do 5 (split; [done|]). split; [unfold write_ops, writePEM; set_solver|]. do 3 (split; [done|]).
  cbn [DNSNames IPAddresses Subject leafTmpl].
  assert (∀ h, h ∈ hosts → match ParseIP (bytes (TrimSpace h)) with
    | Some ip => ip ∈ host_ips hosts | None => TrimSpace h ∈ host_names hosts end) as Hcov.
  { intros h Hh. assert (TrimSpace h ∈ map TrimSpace hosts) as Hin by (by apply list_elem_of_fmap_2).
    destruct (ParseIP (bytes (TrimSpace h))) eqn:Hip.
    - apply list_elem_of_omap. by exists (TrimSpace h).
    - by apply list_elem_of_filter. }
  split_and!.
  - intros h Hh. split; [|by apply Hcov]. rewrite Forall_forall in Hall. by apply Hall.
  - intros d [Hip Hd]%list_elem_of_filter. apply list_elem_of_fmap in Hd as (h & -> & Hh). by exists h.
  - intros ip (d & Hd & Hip)%list_elem_of_omap. apply list_elem_of_fmap in Hd as (h & -> & Hh). by exists h.
  - destruct hosts as [|h hosts]; [done|]. specialize (Hcov h (list_elem_of_here _ _)). unfold commonName.
    destruct (host_names (h :: hosts)) as [|d ds]; [|left; left].
    destruct (host_ips (h :: hosts)) as [|ip ips];
      [by destruct (ParseIP (bytes (TrimSpace h))); apply elem_of_nil in Hcov|].
    right. split; [done|]. exists ip. split; [left|done].
Qed.

(** ** gencert: the files *)

(** Nobody but the owner can use the files of the keys. *)
Definition key_files : list string := ["ca-key.pem"; "server-key.pem"].
Definition private (fs : directory) : Prop :=
  ∀ name f, name ∈ key_files → fs !! name = Some f → Z.land (fmode f) 63 = 0.

(** A call that creates a key file, or sets its mode, makes it private. *)
Definition keeps_private (op : fsop) : Prop :=
  match op with WriteFile name _ mode | Chmod name mode => name ∈ key_files → Z.land mode 63 = 0 end.

Lemma write_file_private u name d mode fs :
  keeps_private (WriteFile name d mode) → private fs → private (write_file u name d mode fs).
Proof.
  intros Hm Hp n f Hn. unfold write_file. destruct (fs !! name) as [f0|] eqn:H0.
  - destruct (decide (n = name)) as [->|]; [rewrite lookup_insert_eq|rewrite lookup_insert_ne by done; by apply Hp].
    intros [= <-]. exact (Hp name f0 Hn H0).
  - destruct (decide (n = name)) as [->|]; [rewrite lookup_insert_eq|rewrite lookup_insert_ne by done; by apply Hp].
    intros [= <-]. cbn. unfold file_mode. rewrite <- Z.land_assoc, (Z.land_comm (Z.lnot u)), Z.land_assoc, (Hm Hn).
    apply Z.land_0_l.
Qed.

Lemma exec_private u op fs : keeps_private op → private fs → private (exec u op fs).
Proof.
  destruct op as [name d mode|name mode]; [apply write_file_private|]. intros Hm Hp n f Hn. cbn.
  destruct (decide (n = name)) as [->|]; [rewrite lookup_alter_eq|rewrite lookup_alter_ne by done; by apply Hp].
  intros (f0 & H0 & ->)%fmap_Some. by apply Hm.
Qed.

Lemma exec_partly_private u op n fs : keeps_private op → private fs → private (exec_partly u op n fs).
Proof. destruct op; [intros Hm; by apply (write_file_private u _ (take n d))|by intros _ ?]. Qed.

(** The content of a file is what it was, or a part of what was to be written to it. *)
Definition content_from (ops : list fsop) (fs0 fs : directory) : Prop :=
  ∀ name f, fs !! name = Some f →
    (∃ f0, fs0 !! name = Some f0 ∧ data f = data f0) ∨
    (∃ d mode, WriteFile name d mode ∈ ops ∧ data f `prefix_of` d).

Lemma write_file_content ops fs0 u name d d' mode fs :
  WriteFile name d mode ∈ ops → d' `prefix_of` d → content_from ops fs0 fs →
  content_from ops fs0 (write_file u name d' mode fs).
Proof.
  intros Hin Hpre Hc n f. unfold write_file.
  destruct (decide (n = name)) as [->|Hne].
  - destruct (fs !! name); rewrite lookup_insert_eq; intros [= <-]; right; by exists d, mode.
  - destruct (fs !! name); rewrite lookup_insert_ne by done; apply Hc.
Qed.

Lemma exec_content ops fs0 u op fs : op ∈ ops → content_from ops fs0 fs → content_from ops fs0 (exec u op fs).
Proof.
  destruct op as [name d mode|name mode]; intros Hin Hc; [by eapply write_file_content|].
  intros n f. cbn. destruct (decide (n = name)) as [->|]; [rewrite lookup_alter_eq|rewrite lookup_alter_ne by done; apply Hc].
  intros (f0 & H0 & ->)%fmap_Some. apply (Hc name f0 H0).
Qed.

Lemma exec_partly_content ops fs0 u op n fs :
  op ∈ ops → content_from ops fs0 fs → content_from ops fs0 (exec_partly u op n fs).
Proof.
  destruct op as [name d mode|name mode]; intros Hin Hc; [|done].
  eapply write_file_content; [done|apply prefix_take|done].
Qed.

(** A run keeps what each call keeps. *)
Lemma run_ops_keeps (P : directory → Prop) u ops : ∀ outs fs,
  (∀ op fs, op ∈ ops → P fs → P (exec u op fs) ∧ ∀ n, P (exec_partly u op n fs)) →
  P fs → P (run_ops u ops outs fs).2.
Proof.
  induction ops as [|op ops IH]; intros outs fs Hkeep Hp; [done|].
  destruct (Hkeep op fs (list_elem_of_here _ _) Hp) as [He Hpart].
  assert (∀ outs, P (run_ops u ops outs (exec u op fs)).2) as Hrest.
  { intros outs'. apply IH; [|done]. intros op' fs' Hin. apply Hkeep. by right. }
  destruct outs as [|[| |n] outs]; cbn; [apply Hrest..|done|apply Hpart].
Qed.

(** It is through when no call within it fails. *)
Lemma run_ops_ok u ops : ∀ outs fs,
  (run_ops u ops outs fs).1 = true ↔ Forall (.= Works) (take (length ops) outs).
Proof.
  induction ops as [|op ops IH]; intros outs fs; [by destruct outs|].
  destruct outs as [|[| |n] outs]; cbn.
  - rewrite IH. by destruct (length ops).
  - rewrite IH, Forall_cons. naive_solver.
  - rewrite Forall_cons. naive_solver.
  - rewrite Forall_cons. naive_solver.
Qed.

Lemma run_ops_done u ops : ∀ outs fs,
  (run_ops u ops outs fs).1 = true → (run_ops u ops outs fs).2 = foldl (λ fs op, exec u op fs) fs ops.
Proof. induction ops as [|op ops IH]; intros [|[| |n] outs] fs Hok; cbn in *; try done; by apply IH. Qed.

(** After [writePEM], the file has exactly the mode it asked for, whatever the umask and
    the file before. *)
Lemma writePEM_file u name typ der mode fs :
  foldl (λ fs op, exec u op fs) fs (writePEM name typ der mode) = <[name := mkFile mode (pem_encode typ der)]> fs.
Proof.
  cbn. unfold write_file. destruct (fs !! name); by rewrite alter_insert_eq.
Qed.

Lemma write_ops_private a b c d op : op ∈ write_ops a b c d → keeps_private op.
Proof.
  unfold write_ops, writePEM. cbn [app]. rewrite !elem_of_cons, elem_of_nil.
  intros [->|[->|[->|[->|[->|[->|[->|[->|[]]]]]]]]]; cbn; intros Hin; try reflexivity; exfalso; revert Hin;
    apply (bool_decide_eq_true_1 (_ ∉ key_files)); vm_compute; reflexivity.
Qed.

(** The text that belongs in each file. *)
Definition belongs (caDER caKeyDER leafDER leafKeyDER : list Z) : gmap string text := {[
  "ca.pem" := pem_encode "CERTIFICATE" caDER; "ca-key.pem" := pem_encode "EC PRIVATE KEY" caKeyDER;
  "server.pem" := pem_encode "CERTIFICATE" leafDER; "server-key.pem" := pem_encode "EC PRIVATE KEY" leafKeyDER ]}.

(** A file holds what it held, or a part of what belongs in it. *)
Definition only_belonging (own : gmap string text) (fs0 fs : directory) : Prop :=
  ∀ name f, fs !! name = Some f →
    (∃ f0, fs0 !! name = Some f0 ∧ data f = data f0) ∨
    (∃ d, own !! name = Some d ∧ data f `prefix_of` d).

Lemma written_belongs a b c d name t mode :
  WriteFile name t mode ∈ write_ops a b c d → belongs a b c d !! name = Some t.
Proof.
  unfold write_ops, writePEM, belongs.
  generalize (pem_encode "CERTIFICATE" a), (pem_encode "EC PRIVATE KEY" b), (pem_encode "CERTIFICATE" c),
    (pem_encode "EC PRIVATE KEY" d). intros ta tb tc td. cbn [app]. rewrite !elem_of_cons, elem_of_nil.
  intros [[= -> -> _]|[H|[[= -> -> _]|[H|[[= -> -> _]|[H|[[= -> -> _]|[H|[]]]]]]]]]; try discriminate H; reflexivity.
Qed.

Lemma content_belongs a b c d fs fs' :
  content_from (write_ops a b c d) fs fs' → only_belonging (belongs a b c d) fs fs'.
Proof.
  intros Hc name f [H|(t & mode & Hin & Hpre)]%Hc; [by left|right]. exists t. split; [|done].
  by eapply written_belongs.
Qed.

(** The eight calls, whatever their outcomes. *)
Lemma write_ops_run o outs fs a b c d :
  private fs →
  let r := run_ops (umask o) (write_ops a b c d) outs fs in
  private r.2 ∧ r.1 = bool_decide (Forall (.= Works) (take 8 outs)) ∧ only_belonging (belongs a b c d) fs r.2 ∧
  (r.1 = true → r.2 =
     <["server-key.pem" := mkFile 384 (pem_encode "EC PRIVATE KEY" d)]>
     (<["server.pem" := mkFile 420 (pem_encode "CERTIFICATE" c)]>
     (<["ca-key.pem" := mkFile 384 (pem_encode "EC PRIVATE KEY" b)]>
     (<["ca.pem" := mkFile 420 (pem_encode "CERTIFICATE" a)]> fs)))).
Proof.
  intros Hp r. split; [|split; [|split]].
  - apply run_ops_keeps; [|done]. intros op fs1 Hin%write_ops_private Hp1.
    split; [by apply exec_private|intros n; by apply exec_partly_private].
  - apply eq_true_iff_eq. rewrite bool_decide_eq_true. apply run_ops_ok.
  - apply content_belongs. apply run_ops_keeps; [|by intros name f H; left; exists f].
    intros op fs1 Hin Hc. split; [by apply exec_content|intros n; by apply exec_partly_content].
  - unfold r. intros ->%run_ops_done. unfold write_ops. by rewrite !foldl_app, !writePEM_file.
Qed.


End gencert.

(** ** Witnesses *)

Module Demo.

Definition the_key : list Z := map (λ i, (7 * i) mod 256) (seqZ 0 32).

Lemma the_key_ok : byte_list the_key ∧ len the_key = 32.
Proof. split; [apply (bool_decide_eq_true_1 _); vm_compute; reflexivity|reflexivity]. Qed.

Definition the_public_key : list Z := map (λ i, (5 * i + 1) mod 256) (seqZ 0 32).

Lemma the_public_key_ok : byte_list the_public_key ∧ len the_public_key = 32.
Proof. split; [apply (bool_decide_eq_true_1 _); vm_compute; reflexivity|reflexivity]. Qed.

Lemma generated_keys_are_accepted_witness :
  ∃ lines c1 cfg rc pubText,
    runGenkey (Some (the_key, the_public_key)) = Ok (0, lines) ∧ paste FrontendConfigSpec.Demo.minimal lines = Some c1 ∧
    applyDefaultsAndValidate (λ _, false) c1 = ret cfg ∧ buildRealityConfig cfg = ret rc ∧ rc_PrivateKey rc = the_key ∧
    line_after "public_key: " lines = Some pubText ∧ base64Decode pubText = Some the_public_key.
Proof.
  destruct (generated_keys_are_accepted (λ _, false) FrontendConfigSpec.Demo.minimal FrontendConfigSpec.Demo.completed
    the_key the_public_key the_key_ok the_public_key_ok (FrontendConfigSpec.Demo.minimal_accepted _) eq_refl)
    as [_ (lines & c1 & cfg & rc & id & t & pubText & H1 & H2 & H3 & H4 & H5 & _ & _ & _ & _ & _ & _ & H6 & H7 & _)].
  exists lines, c1, cfg, rc, pubText. repeat (split; [eassumption|]). exact H7.
Defined.

(** Toy libraries: a key is its own encoding, and a certificate the serial number and
    the keys. *)
Definition marshal (k : list Z) : option (list Z) := Some k.
Definition create (t p : template) (k s : list Z) : option (list Z) := Some (SerialNumber t :: k ++ s).
Definition answers (mask : Z) : outcome := mkOutcome 0 (Some [10; 20]) (Some [30]) true mask.
Definition demo_args : list string := ["-hosts"; " a.test ,10.0.0.1"; "-out"; "certs"].

Lemma demo_files :
  gencert_files marshal create demo_args (answers 18) =
  ret ("certs", write_ops [1; 10; 20; 10; 20] [10; 20] [2; 30; 10; 20] [30]).
Proof. vm_compute. reflexivity. Qed.

Lemma gencert_covers_hosts_witness :
  ∃ t, IsCA t = false ∧ TrimSpace "a.test" ∈ DNSNames t ∧ ∃ ip, ParseIP (bytes (TrimSpace "10.0.0.1")) = Some ip ∧ ip ∈ IPAddresses t.
Proof.
  destruct (gencert_covers_hosts marshal create demo_args (answers 18) _ _ demo_files)
    as (hosts & ca & leaf & t & leafDER & Hargs & _ & _ & _ & _ & _ & Hca & _ & _ & Hcov & _).
  injection Hargs as <-. exists t. split; [exact Hca|]. split.
  - exact (proj2 (Hcov _ (list_elem_of_here _ _))).
  - eexists. split; [vm_compute; reflexivity|]. exact (proj2 (Hcov _ (list_elem_of_further _ _ _ (list_elem_of_here _ _)))).
Defined.


(** A key file that others could read before keeps its mode while the new key is written
    to it, and for good when the following [Chmod] fails. *)
Example reused_key_file_is_readable :
  match runGencert marshal create demo_args (answers 18) [Works; Works; Works; Refused]
          {[ "ca-key.pem" := mkFile public_mode [] ]} with
  | Ok (1, fs') => fs' !! "ca-key.pem" = Some (mkFile public_mode (pem_encode "EC PRIVATE KEY" [10; 20]))
  | _ => False
  end.
Proof. vm_compute. reflexivity. Qed.

End Demo.
