(* ===== verification/FrontendMain.v ===== *)
(** * The REALITY frontend's program (frontend/main.go, config.go, relay.go, status.go)

    The command line, the loading of the configuration, the set-up of the server and
    its exit code; the choice between HTTP/2 and HTTP/1.1 on a connection, with the
    buffered reader it is made on; and the status page. *)

From stdpp Require Import gmap.
From S2P Require Import Prelude Float64 GoText GoNet GoHttp GoTime FrontendConfig Frontend Relay Tools.

Module FrontendMain.

Import FrontendConfig.

(** ** The command line *)

Inductive command :=
  | Genkey
  | Gencert (args : list string)
  | TLSServe (args : list string)
  | Version
  | Serve (path : string).

(** [os.Args[1:]] *)
Definition parse_args (args : list string) : command :=
  match args with
  | [] => Serve "frontend.toml"
  | a :: rest =>
      if bool_decide (a = "genkey") then Genkey
      else if bool_decide (a = "gencert") then Gencert rest
      else if bool_decide (a = "tlsserve") then TLSServe rest
      else if one_of a ["version"; "-version"; "--version"] then Version
      else Serve a
  end.

Inductive level := LevelDebug | LevelInfo | LevelWarn | LevelError.

Definition configureLogging (l : string) : level :=
  if bool_decide (l = "debug") then LevelDebug
  else if bool_decide (l = "warn") then LevelWarn
  else if bool_decide (l = "error") then LevelError
  else LevelInfo.

(** ** The configuration *)

Definition UnmarshalText `{!Platform} (t : string) : fallible Z :=
  match ParseDuration t with
  | None => fail "invalid duration"
  | Some v => ret v
  end.

Section start.
(** The file system and the TOML decoder. *)
Context (Stat : string → bool) (ReadFile : string → option (list ascii)) (Unmarshal : list ascii → option Config).

Definition LoadConfig (path : string) : fallible Config :=
  match ReadFile path with
  | None => fail "read config"
  | Some d => match Unmarshal d with
              | None => fail "parse config"
              | Some cfg => applyDefaultsAndValidate Stat cfg
              end
  end.

(** What a server is set up with: the capacity of its channel of relay slots, the
    settings of the REALITY library, whether it has a certificate. *)
Record setup := mkSetup {
  slots : option Z;
  rCfg : option reality_Config;
  certificate : bool
}.

(** [keypair] is whether the certificate and its key can be loaded. *)
Definition NewTunnelServer (cfg : Config) (keypair : bool) : fallible setup :=
  if bool_decide (Mode (Inbound cfg) = "reality") then
    if MaxRelays (Limits cfg) <? 0 then Panic (Explicit "makechan: size out of range")
    else
      rc ←? buildRealityConfig cfg;
      ret (mkSetup (Some (MaxRelays (Limits cfg))) (Some rc) false)
  else if bool_decide (Mode (Inbound cfg) = "tls") then
    if keypair then ret (mkSetup None None true) else fail "load cert"
  else ret (mkSetup None None false).

(** How [main] ends: with an exit code before it serves, or serving until the accept
    loop returns, and then with 0. *)
Inductive ending := Exit (code : Z) | Serving (s : setup).

Definition serve_file (path : string) (keypair listens : bool) : result ending :=
  r ← LoadConfig path;
  match r with
  | inl _ => Ok (Exit 1)
  | inr cfg =>
      r ← NewTunnelServer cfg keypair;
      match r with
      | inl _ => Ok (Exit 1)
      | inr s => Ok (if listens then Serving s else Exit 1)
      end
  end.

End start.

(** ** The choice of the protocol *)

(** A connection read through a [bufio.Reader] of 4096 bytes: what is buffered, and what
    the reads to come give, at least one byte each or an error. *)
Record reader := mkReader {
  buffered : list Z;
  reads : list (option (Z * list Z))
}.

Definition buffer_size : Z := 4096.

(** The rest of a chunk stays in the connection. *)
Definition unread (rest : list Z) (rs : list (option (Z * list Z))) : list (option (Z * list Z)) :=
  match rest with
  | [] => rs
  | c :: cs => Some (c, cs) :: rs
  end.

Definition taken (n : Z) (l : list Z) : list Z := take (Z.to_nat n) l.
Definition left (n : Z) (l : list Z) : list Z := drop (Z.to_nat n) l.

(** [br.Peek(n)], for [n] within the buffer: reads until [n] bytes are buffered or a read
    fails. *)
Fixpoint peek_loop (n : Z) (buf : list Z) (rs : list (option (Z * list Z))) : reader :=
  if n <=? len buf then mkReader buf rs
  else
    match rs with
    | [] => mkReader buf []
    | None :: rs => mkReader buf rs
    | Some (c, cs) :: rs =>
        let space := buffer_size - len buf in
        if len (c :: cs) <=? space then peek_loop n (buf ++ c :: cs) rs
        else mkReader (buf ++ taken space (c :: cs)) (unread (left space (c :: cs)) rs)
    end.

Definition Peek (n : Z) (r : reader) : list Z * reader :=
  let r := peek_loop n (buffered r) (reads r) in (taken n (buffered r), r).

(** [br.Read(p)] for a [p] of [size] bytes, [0 < size]: [None] is an error. *)
Definition Read (size : Z) (r : reader) : option (list Z) * reader :=
  match buffered r with
  | _ :: _ => (Some (taken size (buffered r)), mkReader (left size (buffered r)) (reads r))
  | [] =>
      match reads r with
      | [] => (None, r)
      | None :: rs => (None, mkReader [] rs)
      | Some (c, cs) :: rs =>
          if buffer_size <=? size
          then (Some (taken size (c :: cs)), mkReader [] (unread (left size (c :: cs)) rs))
          else
            let buf := taken buffer_size (c :: cs) in
            (Some (taken size buf), mkReader (left size buf) (unread (left buffer_size (c :: cs)) rs))
      end
  end.

(** What a handler that reads with buffers of these sizes is given. *)
Fixpoint read_all (sizes : list Z) (r : reader) : list Z * reader :=
  match sizes with
  | [] => ([], r)
  | size :: sizes =>
      let '(got, r) := Read size r in
      let '(rest, r) := read_all sizes r in
      (default [] got ++ rest, r)
  end.

Definition newline : list ascii := [byte 13; byte 10].

(** [http2.ClientPreface] *)
Definition ClientPreface : list Z :=
  map code (bytes "PRI * HTTP/2.0" ++ newline ++ newline ++ bytes "SM" ++ newline ++ newline).

Inductive protocol := H2 | H1.

#[export] Instance protocol_eq_dec : EqDecision protocol.
Proof. solve_decision. Defined.

(** The protocol, and the reader its handler goes on with. *)
Definition serveConn (rs : list (option (Z * list Z))) : protocol * reader :=
  let '(preface, br) := Peek (len ClientPreface) (mkReader [] rs) in
  (if bool_decide (preface = ClientPreface) then H2 else H1, br).

(** ** The status page *)

Definition member (name : string) (n : Z) : text := bytes (Tools.quoted name +:+ ":") ++ Itoa n.

Definition stats_page (s : Frontend.Stats) : text :=
  "{"%char :: member "total_conns" (Frontend.totalConns s) ++ ","%char :: member "authed" (Frontend.authed s) ++
  ","%char :: member "relays" (Frontend.relays s) ++ ","%char :: member "tunnels" (Frontend.tunnels s) ++
  ","%char :: member "active" (Frontend.active s) ++ ["}"%char].

(** The status code and the body of the answer to a request of [/stats]. *)
Definition statusHandler (Token : string) (h : Header) (s : Frontend.Stats) : Z * text :=
  if negb (Relay.statusAuthorized Token h) then (403, []) else (200, stats_page s).

(** [served] is the error [ListenAndServe] returned with. *)
Definition startStatus (http served : string) : fallible unit :=
  if bool_decide (http = "") then ret ()
  else if bool_decide (served = "http: Server closed") then ret () else fail served.

Example preface_length : len ClientPreface = 24. Proof. vm_compute. reflexivity. Qed.

End FrontendMain.
