(* ===== verification/FrontendMainSpec.v ===== *)
(** * Theorems about the REALITY frontend's program

    It serves exactly the files it can serve; no byte of a connection is lost to the
    choice of its protocol; and the status page tells its reader the counters. *)

From stdpp Require Import gmap.
From S2P Require Import Prelude Counting Float64 GoText GoNet GoNetFacts GoHttp FrontendConfig FrontendConfigSpec Frontend FrontendSpec Relay RelaySpec Tools FrontendMain.

Import FrontendConfig. Import FrontendMain.

(** ** The buffered reader *)

Abbreviation conn_reads := (list (option (Z * list Z))).

(** All the bytes of a connection, and those before the first error. *)
Fixpoint content (rs : conn_reads) : list Z :=
  match rs with
  | [] => []
  | None :: rs => content rs
  | Some (c, cs) :: rs => (c :: cs) ++ content rs
  end.

Fixpoint arrived (rs : conn_reads) : list Z :=
  match rs with
  | Some (c, cs) :: rs => (c :: cs) ++ arrived rs
  | _ => []
  end.

Lemma content_unread l rs : content (unread l rs) = l ++ content rs.
Proof. by destruct l. Qed.

Lemma taken_left n l : taken n l ++ left n l = l.
Proof. apply take_drop. Qed.

(** The bytes that are still to be read. *)
Definition to_come (r : reader) : list Z := buffered r ++ content (reads r).

Lemma peek_loop_pending n rs : ∀ buf, to_come (peek_loop n buf rs) = buf ++ content rs.
Proof.
  induction rs as [|[[c cs]|] rs IH]; intros buf; cbn [peek_loop]; destruct (n <=? len buf); try done.
  destruct (len (c :: cs) <=? buffer_size - len buf); [by rewrite IH, <- (assoc_L (++))|].
  unfold to_come. cbn [buffered reads content]. rewrite content_unread, <- (assoc_L (++)). f_equal.
  by rewrite (assoc_L (++)), taken_left.
Qed.

(** [Peek] buffers enough bytes, or all that arrived before an error. *)
Lemma peek_loop_arrived n rs : n <= buffer_size → ∀ buf,
  buffered (peek_loop n buf rs) `prefix_of` buf ++ arrived rs ∧
  (n <= len (buffered (peek_loop n buf rs)) ∨ buffered (peek_loop n buf rs) = buf ++ arrived rs).
Proof.
  intros Hn. induction rs as [|[[c cs]|] rs IH]; intros buf; cbn [peek_loop arrived];
    (destruct (Z.leb_spec n (len buf)) as [Hle|Hgt]; [split; [by apply prefix_app_r|by left]|]).
  - cbn [buffered]. rewrite app_nil_r. by split; [|right].
  - destruct (Z.leb_spec (len (c :: cs)) (buffer_size - len buf)) as [Hs|Hs];
      [rewrite (assoc_L (++)); apply IH|].
    cbn [buffered]. split.
    + apply prefix_app. rewrite <- (taken_left (buffer_size - len buf) (c :: cs)) at 2.
      rewrite <- (assoc_L (++)). by apply prefix_app_r.
    + left. rewrite len_app. unfold taken, len in *. rewrite length_take. lia.
  - cbn [buffered]. rewrite app_nil_r. by split; [|right].
Qed.

Lemma take_of_prefix {A} n (l k : list A) :
  l `prefix_of` k → (n <= length l)%nat ∨ l = k → take n l = take n k.
Proof. intros [m ->] [Hn|Hl]; [by rewrite take_app_le|by rewrite <- Hl]. Qed.

Lemma Peek_spec n rs :
  0 <= n <= buffer_size → (Peek n (mkReader [] rs)).1 = taken n (arrived rs) ∧ to_come (Peek n (mkReader [] rs)).2 = content rs.
Proof.
  intros Hn. unfold Peek. cbn [buffered reads fst snd]. split; [|by rewrite peek_loop_pending].
  destruct (peek_loop_arrived n rs ltac:(lia) []) as [Hp Hl]. cbn [app] in Hp, Hl. apply take_of_prefix; [done|].
  destruct Hl as [Hl|Hl]; [left; unfold len in Hl; lia|by right].
Qed.

(** Reads that are still to come at most. *)
Definition failures (rs : conn_reads) : Z := len (filter (λ r, r = None) rs).
Definition remaining (r : reader) : Z := len (to_come r) + failures (reads r).

Lemma failures_unread l rs : failures (unread l rs) = failures rs.
Proof. destruct l; [done|]. unfold failures. cbn [unread]. by rewrite filter_cons_False. Qed.

Lemma failures_nonneg rs : 0 <= failures rs.
Proof. apply len_nonneg. Qed.

(** A read gives the next bytes, and at least one while there are some. *)
Lemma Read_spec size r :
  0 < size →
  default [] (Read size r).1 ++ to_come (Read size r).2 = to_come r ∧
  (remaining (Read size r).2 < remaining r ∨ to_come r = []).
Proof.
  intros Hs. unfold Read.
  assert (∀ n (c : Z) cs, 0 < n → len (left n (c :: cs)) < len (c :: cs)) as Hless.
  { intros n c cs Hn. unfold left, len. rewrite length_drop. cbn [length]. lia. }
  destruct r as [[|b bs] rs]; cbn [buffered reads].
  - destruct rs as [|[[c cs]|] rs]; [by split; [|right]| |].
    + assert (failures (Some (c, cs) :: rs) = failures rs) as Hf by (apply (failures_unread (c :: cs) rs)).
      destruct (Z.leb_spec buffer_size size); cbn [fst snd default from_option id]; unfold remaining, to_come;
        cbn [buffered reads content]; rewrite ?content_unread, ?failures_unread, ?app_nil_l, ?Hf, ?(assoc_L (++)), ?taken_left.
      * split; [done|]. left. rewrite !len_app. specialize (Hless size c cs Hs). lia.
      * split; [done|]. left. rewrite !len_app.
        pose proof (f_equal len (taken_left buffer_size (c :: cs))) as Ht. rewrite len_app in Ht.
        destruct (taken buffer_size (c :: cs)) as [|d ds] eqn:Hd; [by unfold taken, buffer_size in Hd|].
        specialize (Hless size d ds Hs). lia.
    + cbn [fst snd default from_option id]. unfold remaining, to_come, failures. cbn [buffered reads content].
      rewrite filter_cons_True by done. rewrite len_cons, !app_nil_l. split; [done|left]. lia.
  - cbn [fst snd default from_option id]. unfold remaining, to_come. cbn [buffered reads].
    split; [by rewrite (assoc_L (++)), taken_left|]. left. rewrite !len_app. specialize (Hless size b bs Hs). lia.
Qed.

Lemma read_all_spec sizes : ∀ r,
  Forall (λ n, 0 < n) sizes →
  (read_all sizes r).1 ++ to_come (read_all sizes r).2 = to_come r ∧
  (remaining r <= len sizes → (read_all sizes r).1 = to_come r).
Proof.
  induction sizes as [|size sizes IH]; intros r Hall; cbn [read_all].
  - split; [done|]. unfold remaining. intros H. pose proof (failures_nonneg (reads r)). pose proof (len_nonneg (to_come r)).
    cbn in H |- *. symmetry. apply len_nil_inv. unfold len in *. cbn in H. lia.
  - apply Forall_cons in Hall as [Hs Hall]. destruct (Read_spec size r Hs) as [Hk Hm].
    destruct (Read size r) as [got r1]. cbn [fst snd] in Hk, Hm. destruct (IH r1 Hall) as [Hk1 Hd].
    destruct (read_all sizes r1) as [rest r2]. cbn [fst snd] in *.
    split; [by rewrite <- (assoc_L (++)), Hk1|]. rewrite len_cons. intros Hlen.
    destruct Hm as [Hm|Hm]; [rewrite (Hd ltac:(lia)); done|].
    rewrite Hm in Hk. apply app_nil in Hk as [Hg Hp]. rewrite Hg, Hm. rewrite Hp in Hk1. by apply app_nil in Hk1 as [-> _].
Qed.

(** C39. The choice of the protocol loses nothing.  However a connection is cut into
    chunks and whenever the handshake's deadline strikes, it is served as HTTP/2
    exactly when the bytes that arrive before the first error begin with the
    client preface of HTTP/2, so never when they begin like CONNECT; and its handler,
    whatever buffers it reads with, is given the bytes of the connection from the
    first one on, in order, and all of them once it has read often enough. *)
Theorem protocol_choice_keeps_the_stream rs sizes :
  Forall (λ n, 0 < n) sizes →
  ((serveConn rs).1 = H2 ↔ ClientPreface `prefix_of` arrived rs) ∧
  (map code (bytes "CONNECT ") `prefix_of` arrived rs → (serveConn rs).1 = H1) ∧
  (read_all sizes (serveConn rs).2).1 `prefix_of` content rs ∧
  (len (content rs) + failures rs <= len sizes → (read_all sizes (serveConn rs).2).1 = content rs).
Proof.
  intros Hs. unfold serveConn. destruct (Peek_spec (len ClientPreface) rs) as [Hp Hk]; [by vm_compute|].
  destruct (Peek (len ClientPreface) (mkReader [] rs)) as [preface br] eqn:Hpeek. cbn [fst snd] in Hp, Hk |- *.
  assert (bool_decide (preface = ClientPreface) = true ↔ ClientPreface `prefix_of` arrived rs) as Hiff.
  { rewrite bool_decide_eq_true, Hp. unfold taken. change (Z.to_nat (len ClientPreface)) with (length ClientPreface). split.
    - intros <-. apply prefix_take.
    - intros [k ->]. by rewrite take_app_length. }
  split; [destruct (bool_decide _); intuition discriminate|]. split.
  { intros Hc. destruct (bool_decide (preface = ClientPreface)) eqn:Hb; [|done]. destruct (proj1 Hiff eq_refl) as [k Hk'].
    destruct Hc as [m Hm]. rewrite Hk' in Hm. by vm_compute in Hm. }
  destruct (read_all_spec sizes br Hs) as [Hr Hd]. rewrite Hk in Hr, Hd. split; [by eexists|].
  intros Hlen. apply Hd. unfold remaining. rewrite Hk. enough (failures (reads br) <= failures rs) by lia.
  unfold Peek in Hpeek. injection Hpeek as _ <-. cbn [buffered reads]. clear. generalize (len ClientPreface), (@nil Z).
  induction rs as [|[[c cs]|] rs IH]; intros n buf; cbn [peek_loop]; destruct (n <=? len buf); try done.
  - destruct (len (c :: cs) <=? buffer_size - len buf); [etransitivity; [apply IH|]|cbn [reads]; rewrite failures_unread];
      by change (Some (c, cs) :: rs) with (unread (c :: cs) rs); rewrite failures_unread.
  - cbn [reads]. unfold failures at 2. rewrite filter_cons_True by done. rewrite len_cons. unfold failures. lia.
Qed.

(** ** The status page *)

(** The digits at the front. *)
Fixpoint span_digits (l : text) : text * text :=
  match l with
  | c :: l' => if is_digit c then let '(d, r) := span_digits l' in (c :: d, r) else ([], l)
  | [] => ([], [])
  end.

Definition read_member (before name : string) (l : text) : option (Z * text) :=
  l ← after_prefix (bytes (before +:+ Tools.quoted name +:+ ":")) l;
  let '(d, l) := span_digits l in
  n ← Atoi d; Some (n, l).

(** A reader of the page. *)
Definition read_page (l : text) : option Frontend.Stats :=
  '(total, l) ← read_member "{" "total_conns" l;
  '(auth, l) ← read_member "," "authed" l;
  '(rel, l) ← read_member "," "relays" l;
  '(tun, l) ← read_member "," "tunnels" l;
  '(act, l) ← read_member "," "active" l;
  if bool_decide (l = ["}"%char]) then Some (Frontend.mkStats total auth rel tun act) else None.

Lemma span_digits_app d l :
  forallb is_digit d = true → match l with c :: _ => is_digit c = false | [] => True end → span_digits (d ++ l) = (d, l).
Proof.
  induction d as [|c d IH]; intros Hd Hl; cbn [app span_digits].
  - destruct l as [|c l]; [done|]. cbn. by rewrite Hl.
  - cbn [forallb] in Hd. apply andb_prop in Hd as [Hc Hd]. by rewrite Hc, (IH Hd Hl).
Qed.

Lemma read_member_ok before name n l :
  0 <= n < 9223372036854775808 → match l with c :: _ => is_digit c = false | [] => True end →
  read_member before name (bytes before ++ member name n ++ l) = Some (n, l).
Proof.
  intros Hn Hl. unfold read_member, member. rewrite <- (assoc_L (++)), (assoc_L (++) (bytes before)).
  assert (bytes before ++ bytes (Tools.quoted name +:+ ":") = bytes (before +:+ Tools.quoted name +:+ ":")) as ->.
  { by rewrite (bytes_app before). }
  rewrite after_prefix_app. cbn [mbind option_bind].
  by rewrite span_digits_app, Atoi_Itoa by (try apply Itoa_digits; done).
Qed.

Definition counters_in_range (s : Frontend.Stats) : Prop :=
  Forall (λ n, 0 <= n < 9223372036854775808)
    [Frontend.totalConns s; Frontend.authed s; Frontend.relays s; Frontend.tunnels s; Frontend.active s].

Lemma read_stats_page s : counters_in_range s → read_page (stats_page s) = Some s.
Proof.
  unfold counters_in_range. rewrite !Forall_cons. intros (H1 & H2 & H3 & H4 & H5 & _). unfold read_page, stats_page.
  change ("{"%char :: ?l) with (bytes "{" ++ l). rewrite read_member_ok by done. cbn [mbind option_bind].
  do 4 (change (","%char :: ?l) with (bytes "," ++ l) at 1; rewrite read_member_ok by done; cbn [mbind option_bind]).
  rewrite bool_decide_eq_true_2 by done. by destruct s.
Qed.

Lemma reachable_in_range cfg es s :
  valid_limits cfg → short es → Frontend.run cfg es Frontend.NewTunnelServer = Some s → counters_in_range (Frontend.stats s).
Proof.
  intros Hv Hs Hrun. destruct (reachable_inv cfg es s Hv Hs Hrun) as [Hact Hlim _ _ (Ha & Hr & Ht & Hsum & _) [Hn Hnt]].
  assert (0 <= handlers s) by apply mcount_nonneg. assert (0 <= handshakes s) by apply mcount_nonneg.
  destruct Hv as [[_ Hmax] _]. unfold short in Hs.
  assert (0 <= in_hand s <= 1 ∧ 0 <= FrontendSpec.pending s) as [Hin Hp]
    by (unfold in_hand, FrontendSpec.pending; destruct (Frontend.accept s); lia).
  unfold counters_in_range. rewrite !Forall_cons, Hact. split_and!; try lia. constructor.
Qed.

(** The status page tells its reader the counters, and nobody else anything.  At every
    moment of a run of the server, a request of the page whose Authorization is not
    "Bearer " and the token gets 403 and an empty body; one whose is gets 200 and a
    JSON object from which the counters read back exactly: the connections being
    handled are at most the limit, and those relayed, authenticated or in their
    handshake are at most those counted, and all of them in REALITY mode. *)
Theorem status_page_reads_back cfg es s Token h :
  valid_limits cfg → short es → Frontend.run cfg es Frontend.NewTunnelServer = Some s → Token ≠ "" →
  (bytes (header_get h "Authorization") ≠ bytes "Bearer " ++ bytes Token →
     statusHandler Token h (Frontend.stats s) = (403, [])) ∧
  (bytes (header_get h "Authorization") = bytes "Bearer " ++ bytes Token →
     ∃ page st, statusHandler Token h (Frontend.stats s) = (200, page) ∧ read_page page = Some st ∧
       st = Frontend.stats s ∧
       0 <= Frontend.active st <= Frontend.MaxConnections cfg ∧
       Frontend.authed st + Frontend.relays st + handshakes s <= Frontend.totalConns st ∧
       (Frontend.Mode cfg = Frontend.Reality →
          Frontend.authed st + Frontend.relays st + handshakes s = Frontend.totalConns st)).
Proof.
  intros Hv Hs Hrun Hne. pose proof (status_needs_the_token Token h Hne) as Hauth. unfold statusHandler. split.
  - intros Hno. destruct (Relay.statusAuthorized Token h); [|done]. by destruct (Hno (proj1 Hauth eq_refl)).
  - intros Hyes. rewrite (proj2 Hauth Hyes). cbn [negb]. eexists _, _. split; [reflexivity|].
    pose proof (reachable_in_range cfg es s Hv Hs Hrun) as Hrange. split; [by apply read_stats_page|]. split; [done|].
    destruct (reachable_inv cfg es s Hv Hs Hrun) as [Hact Hlim _ _ (_ & _ & _ & Hsum & Heq) _].
    unfold counters_in_range in Hrange. rewrite !Forall_cons in Hrange.
    assert (0 <= FrontendSpec.pending s) by (unfold FrontendSpec.pending; destruct (Frontend.accept s); lia).
    split; [lia|done].
Qed.

(** ** Starting *)

(** Serving a validated configuration. *)
Lemma serve_validated Stat c cfg keypair listens :
  applyDefaultsAndValidate Stat c = ret cfg →
  ∃ e, (r ← NewTunnelServer cfg keypair : fallible setup;
        match r with inl _ => Ok (Exit 1) | inr s => Ok (if listens : bool then Serving s else Exit 1) end : result ending) = Ok e ∧
    ((Mode (Inbound cfg) = "reality" ∧ ∃ rc, buildRealityConfig cfg = ret rc ∧ 0 < MaxRelays (Limits cfg) ∧
        e = if listens : bool then Serving (mkSetup (Some (MaxRelays (Limits cfg))) (Some rc) false) else Exit 1) ∨
     (Mode (Inbound cfg) = "tls" ∧
        e = if keypair && listens then Serving (mkSetup None None true) else Exit 1)).
Proof.
  intros Hc. destruct (accepted_inv Stat c cfg Hc) as (_ & _ & _ & _ & _ & _ & Hi & Hlim & _).
  apply validateLimits_positive in Hlim as (_ & Hrel & _). unfold NewTunnelServer.
  apply validateInbound_inv in Hi as ([[Hm Hreal]|(Hm & _)] & _); rewrite Hm.
  - destruct (buildRealityConfig_servable cfg _ Hreal) as (rc & Hrc & _).
    rewrite bool_decide_eq_true_2 by done. replace (MaxRelays (Limits cfg) <? 0) with false by lia.
    rewrite Hrc. cbn [try_bind ret mbind result_bind]. eexists. split; [reflexivity|]. left. split; [done|].
    exists rc. split; [done|]. split; [done|]. by destruct listens.
  - rewrite bool_decide_eq_false_2, bool_decide_eq_true_2 by done.
    destruct keypair; cbn [mbind result_bind ret fail andb]; eexists; (split; [reflexivity|]); right; by split; [|destruct listens].
Qed.

(** The file gives a valid configuration: it can be read, its bytes decode, and what they
    decode to is accepted. *)
Definition gives Stat (ReadFile : string → option (list ascii)) (Unmarshal : list ascii → option Config)
    (path : string) (cfg : Config) : Prop :=
  ∃ d c, ReadFile path = Some d ∧ Unmarshal d = Some c ∧ applyDefaultsAndValidate Stat c = ret cfg.

(** C40. The program serves exactly the files it can serve.  It never crashes on its way.
    It ends with 1 when the file cannot be read, when its bytes cannot be decoded, and
    when what they decode to is not valid.  When they give a valid configuration it serves
    that one, unless the certificate of TLS mode cannot be loaded or the address not
    be listened on, when it ends with 1 too; the server then has, in REALITY mode, as
    many relay slots as the configuration says, at least one, and the settings built
    from it, and in TLS mode a certificate. *)
Theorem accepted_files_are_served Stat ReadFile Unmarshal path keypair listens :
  ∃ e, serve_file Stat ReadFile Unmarshal path keypair listens = Ok e ∧
    (ReadFile path = None → e = Exit 1) ∧
    (∀ d, ReadFile path = Some d → Unmarshal d = None → e = Exit 1) ∧
    ((∀ cfg, ¬ gives Stat ReadFile Unmarshal path cfg) → e = Exit 1) ∧
    (∀ cfg, gives Stat ReadFile Unmarshal path cfg →
        (Mode (Inbound cfg) = "reality" ∧ ∃ rc, buildRealityConfig cfg = ret rc ∧ 0 < MaxRelays (Limits cfg) ∧
           e = if listens then Serving (mkSetup (Some (MaxRelays (Limits cfg))) (Some rc) false) else Exit 1) ∨
        (Mode (Inbound cfg) = "tls" ∧
           e = if keypair && listens then Serving (mkSetup None None true) else Exit 1)).
Proof.
  unfold serve_file, LoadConfig, gives. destruct (ReadFile path) as [d|]; [|exists (Exit 1); naive_solver].
  destruct (Unmarshal d) as [c|] eqn:Hd; [|exists (Exit 1); naive_solver congruence].
  destruct (applyDefaultsAndValidate_returns Stat c) as (r & Hr & _). rewrite Hr. cbn [mbind result_bind].
  destruct r as [err|cfg].
  - exists (Exit 1). do 4 (split; [done|]). intros cfg (d' & c' & [= <-] & Hd' & Hv).
    rewrite Hd in Hd'. injection Hd' as <-. by rewrite Hr in Hv.
  - destruct (serve_validated Stat c cfg keypair listens Hr) as (e & He & Hcase). exists e. split; [exact He|].
    split; [done|]. split; [intros d' [= <-] Hnone; by rewrite Hd in Hnone|]. split; [intros Hno; destruct (Hno cfg); by exists d, c|].
    intros cfg' (d' & c' & [= <-] & Hd' & Hv). rewrite Hd in Hd'. injection Hd' as <-. rewrite Hr in Hv.
    by injection Hv as <-.
Qed.

(** ** Witnesses *)

Module Demo.

(** A preface that comes in two chunks, then an error, then more. *)
Definition two_chunks : conn_reads := [Some (80, drop 1 (take 10 ClientPreface)); Some (hd 0 (drop 10 ClientPreface), drop 11 ClientPreface ++ [1; 2; 3]); None; Some (4, [])].

Lemma protocol_choice_keeps_the_stream_witness :
  (serveConn two_chunks).1 = H2 ∧
  (read_all [5; 5; 5; 5; 5; 5; 5; 5; 5; 5; 5; 5; 5; 5; 5; 5; 5; 5; 5; 5; 5; 5; 5; 5; 5; 5; 5; 5; 5] (serveConn two_chunks).2).1 = ClientPreface ++ [1; 2; 3; 4].
Proof.
  destruct (protocol_choice_keeps_the_stream two_chunks [5; 5; 5; 5; 5; 5; 5; 5; 5; 5; 5; 5; 5; 5; 5; 5; 5; 5; 5; 5; 5; 5; 5; 5; 5; 5; 5; 5; 5])
    as (Hiff & _ & _ & Hall); [apply (bool_decide_eq_true_1 _); vm_compute; reflexivity|]. split.
  - apply Hiff. exists [1; 2; 3]. vm_compute. reflexivity.
  - rewrite Hall; vm_compute; [reflexivity|discriminate].
Defined.

Definition secret : Header := header_set ∅ "authorization" "Bearer secret".

Lemma status_page_reads_back_witness :
  ∃ s page, Frontend.run FrontendSpec.Demo.cfg FrontendSpec.Demo.trace Frontend.NewTunnelServer = Some s ∧
    statusHandler "secret" secret (Frontend.stats s) = (200, page) ∧ read_page page = Some (Frontend.stats s).
Proof.
  destruct (FrontendSpec.Demo.server_run_fact FrontendSpec.Demo.trace (λ _, ()) () ltac:(vm_compute; reflexivity)) as (s & Hrun & _).
  destruct (status_page_reads_back FrontendSpec.Demo.cfg FrontendSpec.Demo.trace s "secret" secret
    FrontendSpec.Demo.cfg_valid ltac:(reflexivity) Hrun ltac:(discriminate)) as [_ Hyes].
  destruct Hyes as (page & st & Hpage & Hread & -> & _); [vm_compute; reflexivity|]. exists s, page.
  split; [exact Hrun|]. split; [exact Hpage|exact Hread].
Defined.

(** A file of one byte that decodes to a small configuration. *)
Definition one_byte (path : string) : option (list ascii) := if decide (path = "a.toml") then Some ["a"%char] else None.
Definition decoder (d : list ascii) : option Config :=
  if decide (d = ["a"%char]) then Some FrontendConfigSpec.Demo.minimal else None.

Lemma accepted_files_are_served_witness :
  (∃ rc, serve_file (λ _, false) one_byte decoder "a.toml" false true =
     Ok (Serving (mkSetup (Some (MaxRelays (Limits FrontendConfigSpec.Demo.completed))) (Some rc) false))) ∧
  serve_file (λ _, false) one_byte decoder "b.toml" false true = Ok (Exit 1).
Proof.
  split.
  - destruct (accepted_files_are_served (λ _, false) one_byte decoder "a.toml" false true) as (e & He & _ & _ & _ & Hgives).
    destruct (Hgives FrontendConfigSpec.Demo.completed) as [(_ & rc & _ & _ & Heq)|[Hm _]].
    + exists ["a"%char], FrontendConfigSpec.Demo.minimal. split; [reflexivity|]. split; [reflexivity|].
      apply FrontendConfigSpec.Demo.minimal_accepted.
    + exists rc. rewrite He, Heq. reflexivity.
    + discriminate Hm.
  - destruct (accepted_files_are_served (λ _, false) one_byte decoder "b.toml" false true) as (e & He & Hnone & _).
    rewrite He, (Hnone eq_refl). reflexivity.
Defined.

End Demo.
