(* ===== verification/RealityTest.v ===== *)
(** * The REALITY test client (frontend/internal/realitytest/realitytest.go)

    It hides a version, a time and a short ID in the session ID of its ClientHello,
    sealed with a key that only the server it means can derive, and recognizes that
    server by its temporary certificate.  TLS and the cryptography are libraries:
    parameters and arguments. *)

From S2P Require Import Prelude GoIP Dns.

Module RealityTest.

(** What the client keeps of the handshake: the ClientHello as it will be sent. *)
Record Client := mkClient {
  Raw : list Z;
  SessionId : list Z;
  AuthKey : list Z;
  Verified : bool;
  PresentedLeaf : list Z
}.

#[export] Instance eta_Client : Eta Client := fun c =>
  mkClient (Raw c) (SessionId c) (AuthKey c) (Verified c) (PresentedLeaf c).

(** [l] after [copy(l[i:], src)]. *)
Definition copy_at (l : list Z) (i : Z) (src : list Z) : result (list Z) :=
  pre ← slice_to l i;
  post ← slice_from l i;
  Ok (pre ++ go_copy post src).

Definition session_offset : Z := 39.

(** The session ID before it is sealed. *)
Definition session_id (now : Z) (shortID : list Z) : result (list Z) :=
  sid ← make_slice 32;
  sid ← slice_set sid 0 1;
  sid ← slice_set sid 1 0;
  sid ← slice_set sid 2 0;
  sid ← PutUint32 sid 4 (u32 now);
  copy_at sid 8 shortID.

Section client.
(** X25519 with the client's key share, HKDF, AES-GCM and HMAC. *)
Context (ECDH : list Z → option (list Z)) (HKDF : list Z → list Z → string → Z → option (list Z))
        (Seal : list Z → list Z → list Z → list Z → list Z) (HMAC : list Z → list Z → list Z).
(** A certificate as its Ed25519 key, if it has one, and its signature. *)
Context (ParseCertificate : list Z → option (option (list Z) * list Z)).

(** What the network and the TLS library answer: the connection, the ClientHello with its
    random bytes, the key share, and the clock. *)
Record outcome := mkOutcome {
  dials : bool;
  builds : bool;
  hello_raw : option (list Z);
  hello_random : list Z;
  key_share : bool;
  unix : Z
}.

(** The lengths of an AES key. *)
Definition aes_key (k : list Z) : bool := (len k =? 16) || (len k =? 24) || (len k =? 32).

(** An error, and whether the connection is still open when it is returned. *)
Abbreviation failing := (string * bool)%type.

(** [raw.Close(); return nil, err] *)
Definition close_and_fail (e : string) : result (failing + Client) := Ok (inl (e, false)).

(** [Dial] past [net.DialTimeout]. *)
Definition prepare (o : outcome) (pubKey shortID : list Z) : result (failing + Client) :=
  if negb (builds o) then close_and_fail "BuildHandshakeState"
  else
    match hello_raw o with
    | None => close_and_fail "client hello not usable"
    | Some raw =>
        if negb (len (hello_random o) =? 32) then close_and_fail "client hello not usable"
        else
          zero_sid ← make_slice 32;
          raw ← copy_at raw session_offset zero_sid;
          sid ← session_id (unix o) shortID;
          if negb (len pubKey =? 32) then close_and_fail "public key"
          else if negb (key_share o) then close_and_fail "no client X25519 keyshare"
          else
            match ECDH pubKey with
            | None => close_and_fail "ecdh"
            | Some shared =>
                salt ← slice_to (hello_random o) 20;
                nonce ← slice_from (hello_random o) 20;
                match HKDF shared salt "REALITY" (len shared) with
                | None => close_and_fail "hkdf"
                | Some authKey =>
                    if negb (aes_key authKey) then close_and_fail "aes"
                    else
                      plain ← slice_to sid 16;
                      sid ← copy_at sid 0 (Seal authKey nonce plain raw);
                      raw ← copy_at raw session_offset sid;
                      Ok (inr (mkClient raw sid authKey false []))
                end
            end
    end.

(** The client or the error, and whether a connection is open afterwards. *)
Definition Dial (o : outcome) (pubKey shortID : list Z) : result ((string + Client) * bool) :=
  if negb (dials o) then Ok (inl "dial", false)
  else
    r ← prepare o pubKey shortID;
    match r with
    | inl (e, left_open) => Ok (inl e, left_open)
    | inr c => Ok (inr c, true)
    end.

(** [cfg.VerifyPeerCertificate]: whether the handshake may go on, and the client after. *)
Definition VerifyPeerCertificate (c : Client) (rawCerts : list (list Z)) : bool * Client :=
  match rawCerts with
  | [] => (false, c)
  | leaf :: _ =>
      let c := c <| PresentedLeaf := leaf |> in
      match ParseCertificate leaf with
      | None => (false, c)
      | Some (Some pub, signature) =>
          if bool_decide (HMAC (AuthKey c) pub = signature) then (true, c <| Verified := true |>) else (false, c)
      | Some (None, _) => (false, c)
      end
  end.

(** The handshake, when the server presents these certificates: [others] is whether the
    rest of it succeeds. *)
Definition Handshake (c : Client) (rawCerts : list (list Z)) (others : bool) : bool * Client :=
  let '(ok, c) := VerifyPeerCertificate c rawCerts in (ok && others, c).

End client.

Example session_id_example :
  session_id 16909060 [10; 11; 12; 13; 14; 15; 16; 17] =
  Ok ([1; 0; 0; 0; 1; 2; 3; 4; 10; 11; 12; 13; 14; 15; 16; 17] ++ replicate 16 0).
Proof. vm_compute. reflexivity. Qed.

End RealityTest.
