(* ===== verification/RealityTestSpec.v ===== *)
(** * Theorems about the REALITY test client

    Its server, and only its server, reads from the ClientHello what the client hid in
    it; the client trusts exactly the certificates that prove the shared key. *)

From S2P Require Import Prelude GoIP Dns RealityTest.

Import RealityTest.

(** ** Slices *)

Lemma copy_at_app pre mid post src i :
  i = len pre → length src = length mid → copy_at (pre ++ mid ++ post) i src = Ok (pre ++ src ++ post).
Proof.
  intros Hi Hs. unfold copy_at. rewrite slice_to_app, slice_from_app by done. cbn [mbind result_bind].
  rewrite go_copy_fits by (rewrite length_app; lia). by rewrite Hs, drop_app_length.
Qed.

(** A ClientHello as what comes before, in and after its session ID. *)
Lemma split_hello (raw : list Z) :
  71 <= len raw → ∃ pre mid post, raw = pre ++ mid ++ post ∧ len pre = session_offset ∧ len mid = 32.
Proof.
  intros H. exists (take 39 raw), (take 32 (drop 39 raw)), (drop 32 (drop 39 raw)).
  rewrite take_drop, take_drop. split; [done|]. unfold len, session_offset in *.
  rewrite !length_take, length_drop. lia.
Qed.

Lemma eight_bytes (l : list Z) : len l = 8 → ∃ a b c d e f g h, l = [a; b; c; d; e; f; g; h].
Proof. unfold len. intros H. do 8 (destruct l as [|? l]; [discriminate H|]) . destruct l; [|cbn in H; lia]. by do 8 eexists. Qed.

(** The four bytes of the time. *)
Definition time_bytes (now : Z) : list Z :=
  let t := u32 now in [u8 (Z.shiftr t 24); u8 (Z.shiftr t 16); u8 (Z.shiftr t 8); u8 t].

Definition hidden (now : Z) (shortID : list Z) : list Z := [1; 0; 0; 0] ++ time_bytes now ++ shortID.

Lemma session_id_hidden now shortID :
  len shortID = 8 → session_id now shortID = Ok (hidden now shortID ++ replicate 16 0).
Proof. intros (a & b & c & d & e & f & g & h & ->)%eight_bytes. reflexivity. Qed.

Lemma hidden_len now shortID : len shortID = 8 → len (hidden now shortID) = 16.
Proof. intros H. unfold hidden, time_bytes. rewrite !len_app, H. done. Qed.

(** The bytes of the time give it back, as an unsigned number of 32 bits. *)
Lemma time_bytes_value now :
  let t := time_bytes now in
  16777216 * nth 0 t 0 + 65536 * nth 1 t 0 + 256 * nth 2 t 0 + nth 3 t 0 = u32 now.
Proof.
  cbn [time_bytes nth]. assert (0 <= u32 now < 4294967296) as Hr by (unfold u32; apply Z.mod_pos_bound; lia).
  generalize dependent (u32 now). intros t Ht. unfold u8. rewrite !Z.shiftr_div_pow2 by lia.
  change (2 ^ 24) with 16777216. change (2 ^ 16) with 65536. change (2 ^ 8) with 256.
  Z.to_euclidean_division_equations. lia.
Qed.

Section client.
Context (ECDH : list Z → option (list Z)) (HKDF : list Z → list Z → string → Z → option (list Z))
        (Seal : list Z → list Z → list Z → list Z → list Z) (HMAC : list Z → list Z → list Z)
        (ParseCertificate : list Z → option (option (list Z) * list Z)).
(** The server's side of the cipher. *)
Context (Open : list Z → list Z → list Z → list Z → option (list Z)).
Context (Seal_len : ∀ k n p a, len (Seal k n p a) = len p + 16)
        (Open_Seal : ∀ k n p a, Open k n (Seal k n p a) a = Some p).

Abbreviation Dial := (Dial ECDH HKDF Seal).

(** What a server reads from a ClientHello with a key and the client's random bytes. *)
Definition server_reads (raw random key : list Z) : option (list Z) :=
  match slice_from raw session_offset, copy_at raw session_offset (replicate 32 0), slice_from random 20 with
  | Ok rest, Ok aad, Ok nonce => Open key nonce (take 32 rest) aad
  | _, _, _ => None
  end.

Lemma server_reads_app pre mid post random key nonce :
  len pre = session_offset → len mid = 32 → slice_from random 20 = Ok nonce →
  server_reads (pre ++ mid ++ post) random key = Open key nonce mid (pre ++ replicate 32 0 ++ post).
Proof.
  intros Hp Hm Hn. unfold server_reads. rewrite slice_from_app, copy_at_app, Hn by (rewrite ?length_replicate; unfold len in *; lia).
  assert (length mid = 32%nat) as Hl by (unfold len in Hm; lia). by rewrite take_app_le, take_ge by lia.
Qed.

(** C38. The client's ClientHello is read by its server.  [Dial] returns, and leaves a
    connection open exactly when it gives a client; the ClientHello it then sends
    differs from the library's in the 32 bytes of the session ID only; its key is
    the one derived from the exchange with the server's public key; and a server
    that has this key, and so blanks the session ID and opens it with the random
    bytes, reads the version 1.0.0, the time as a 32-bit number and the short ID. *)
Theorem server_reads_the_hello o pubKey shortID :
  len shortID = 8 → (∀ raw, hello_raw o = Some raw → 71 <= len raw) →
  ∃ r left_open, Dial o pubKey shortID = Ok (r, left_open) ∧
    match r with
    | inl _ => left_open = false
    | inr c => left_open = true ∧
        ∃ pre mid post shared,
          hello_raw o = Some (pre ++ mid ++ post) ∧ len pre = 39 ∧ len mid = 32 ∧
          Raw c = pre ++ SessionId c ++ post ∧ len (SessionId c) = 32 ∧ Verified c = false ∧
          ECDH pubKey = Some shared ∧
          HKDF shared (take 20 (hello_random o)) "REALITY" (len shared) = Some (AuthKey c) ∧
          ∃ t, server_reads (Raw c) (hello_random o) (AuthKey c) = Some ([1; 0; 0; 0] ++ t ++ shortID) ∧
            len t = 4 ∧ 16777216 * nth 0 t 0 + 65536 * nth 1 t 0 + 256 * nth 2 t 0 + nth 3 t 0 = u32 (unix o)
    end.
Proof.
  intros Hs Hraw. unfold RealityTest.Dial. destruct (dials o); cbn [negb]; [|by exists (inl "dial"), false].
  unfold prepare. destruct (builds o); cbn [negb mbind result_bind close_and_fail]; [|by eexists (inl _), false].
  destruct (hello_raw o) as [raw|] eqn:Hr; cbn [mbind result_bind close_and_fail]; [|by eexists (inl _), false].
  destruct (Z.eqb_spec (len (hello_random o)) 32) as [Hrand|]; cbn [negb mbind result_bind close_and_fail]; [|by eexists (inl _), false].
  destruct (split_hello raw (Hraw _ eq_refl)) as (pre & mid & post & -> & Hpre & Hmid).
  rewrite make_slice_ok by lia. cbn [mbind result_bind]. change (replicate (Z.to_nat 32) zero) with (replicate 32 0).
  rewrite copy_at_app by (rewrite ?length_replicate; unfold len in *; lia). cbn [mbind result_bind].
  rewrite session_id_hidden by done. cbn [mbind result_bind].
  destruct (len pubKey =? 32); cbn [negb mbind result_bind close_and_fail]; [|by eexists (inl _), false].
  destruct (key_share o); cbn [negb mbind result_bind close_and_fail]; [|by eexists (inl _), false].
  destruct (ECDH pubKey) as [shared|] eqn:Hecdh; cbn [mbind result_bind close_and_fail]; [|by eexists (inl _), false].
  rewrite (slice_to_ok (hello_random o)), (slice_from_ok (hello_random o)) by lia. cbn [mbind result_bind]. change (Z.to_nat 20) with 20%nat.
  destruct (HKDF shared _ _ _) as [key|] eqn:Hkey; cbn [mbind result_bind close_and_fail]; [|by eexists (inl _), false].
  destruct (aes_key key); cbn [negb mbind result_bind close_and_fail]; [|by eexists (inl _), false].
  rewrite slice_to_app by (symmetry; by apply hidden_len). cbn [mbind result_bind].
  set (aad := pre ++ replicate 32 0 ++ post). set (nonce := drop 20 (hello_random o)).
  set (sid := Seal key nonce (hidden (unix o) shortID) aad).
  assert (len sid = 32) as Hsid by (unfold sid; rewrite Seal_len, hidden_len by done; lia).
  pose proof (hidden_len (unix o) shortID Hs) as Hh.
  assert (copy_at (hidden (unix o) shortID ++ replicate 16 0) 0 sid = Ok sid) as ->.
  { pose proof (copy_at_app [] (hidden (unix o) shortID ++ replicate 16 0) [] sid 0 eq_refl) as Hc.
    cbn [app] in Hc. rewrite !app_nil_r in Hc. apply Hc. rewrite length_app, length_replicate. unfold len in *. lia. }
  cbn [mbind result_bind]. unfold aad at 1. rewrite copy_at_app by (rewrite ?length_replicate; unfold len in *; lia).
  cbn [mbind result_bind]. eexists (inr _), true. split; [reflexivity|]. split; [done|].
  exists pre, mid, post, shared. cbn [Raw SessionId AuthKey Verified]. do 8 (split; [done|]).
  exists (time_bytes (unix o)). split; [|split; [done|apply time_bytes_value]].
  rewrite (server_reads_app _ _ _ _ _ nonce) by (done || (by rewrite slice_from_ok by lia)).
  fold aad. unfold sid. rewrite Open_Seal. done.
Qed.

(** The client trusts a handshake exactly when the first certificate is an Ed25519 one
    whose signature proves the shared key, and nothing else failed; otherwise it
    keeps the certificate for inspection. *)
Theorem handshake_proves_the_key c certs others ok c' :
  Verified c = false → Handshake HMAC ParseCertificate c certs others = (ok, c') →
  (Verified c' = true ↔
     ∃ leaf rest pub, certs = leaf :: rest ∧ ParseCertificate leaf = Some (Some pub, HMAC (AuthKey c) pub)) ∧
  (ok = true ↔ Verified c' = true ∧ others = true) ∧
  AuthKey c' = AuthKey c ∧ PresentedLeaf c' = hd (PresentedLeaf c) certs.
Proof.
  intros Hv. unfold Handshake, VerifyPeerCertificate. destruct certs as [|leaf rest].
  - intros [= <- <-]. rewrite Hv. split_and!; try done; [|by intuition].
    split; [done|by intros (? & ? & ? & ? & _)].
  - destruct (ParseCertificate leaf) as [[[pub|] sig]|] eqn:Hp; [|intros [= <- <-]; cbn [Verified set_field PresentedLeaf AuthKey]..].
    + case_bool_decide as Hs; intros [= <- <-]; cbn in *; (split_and!; [|by (try rewrite Hv); intuition|done|done]).
      * split; [intros _; exists leaf, rest, pub; by rewrite Hp, Hs|done].
      * rewrite Hv. split; [done|]. intros (? & ? & ? & [= <- <-] & Hc). rewrite Hp in Hc. injection Hc as -> Hc. done.
    + cbn. rewrite Hv. split_and!; try done; [|by intuition]. split; [done|]. intros (? & ? & ? & [= <- <-] & Hc). congruence.
    + cbn. rewrite Hv. split_and!; try done; [|by intuition]. split; [done|]. intros (? & ? & ? & [= <- <-] & Hc). congruence.
Qed.

End client.

(** ** Witnesses *)

Module Demo.

(** A toy cipher: the text, then a tag made of the lengths of the other arguments. *)
Definition seal (k n p a : list Z) : list Z := p ++ replicate 16 (len k + len n + len a).
Definition open (k n c a : list Z) : option (list Z) :=
  if bool_decide (drop (length c - 16) c = replicate 16 (len k + len n + len a)) then Some (take (length c - 16) c) else None.

Lemma seal_len k n p a : len (seal k n p a) = len p + 16.
Proof. unfold seal. by rewrite len_app. Qed.

Lemma open_seal k n p a : open k n (seal k n p a) a = Some p.
Proof.
  unfold open, seal. rewrite length_app, length_replicate. replace (length p + 16 - 16)%nat with (length p) by lia.
  rewrite drop_app_length, take_app_length. by rewrite bool_decide_eq_true_2.
Qed.

Definition ecdh (p : list Z) : option (list Z) := Some (map (λ b, 255 - b) p).
Definition hkdf (secret salt : list Z) (info : string) (n : Z) : option (list Z) := Some secret.
Definition demo_hello : list Z := seqZ 0 80.
Definition demo : outcome := mkOutcome true true (Some demo_hello) (replicate 32 7) true 1700000000.

Lemma server_reads_the_hello_witness :
  ∃ c, Dial ecdh hkdf seal demo (replicate 32 9) [1; 2; 3; 4; 5; 6; 7; 8] = Ok (inr c, true) ∧
    drop 71 (Raw c) = seqZ 71 9 ∧
    ∃ t, server_reads open (Raw c) (replicate 32 7) (AuthKey c) = Some ([1; 0; 0; 0] ++ t ++ [1; 2; 3; 4; 5; 6; 7; 8]).
Proof.
  destruct (server_reads_the_hello ecdh hkdf seal open seal_len open_seal demo (replicate 32 9) [1; 2; 3; 4; 5; 6; 7; 8])
    as (r & l & Hr & H); [reflexivity|intros raw [= <-]; vm_compute; discriminate|].
  destruct r as [e|c]; [vm_compute in Hr; discriminate Hr|].
  destruct H as (-> & pre & mid & post & shared & _ & _ & _ & _ & _ & _ & _ & _ & t & Ht & _).
  exists c. split; [exact Hr|]. split; [|by exists t]. vm_compute in Hr. injection Hr as <-. vm_compute. reflexivity.
Defined.

End Demo.
